(** * GitLens views: lazy node tree, change matching, reveal and enrichment

    A shallow embedding of the view layer of vscode-gitlens:

    - [views/nodes/branchNode.ts]      ([BranchNode]),
    - [views/nodes/branchesNode.ts]    ([BranchesNode]),
    - [views/branchesView.ts]          ([BranchesViewNode], [BranchesView]),
    - [views/contributorsView.ts], [views/remotesView.ts],
      [views/commitsView.ts], [views/repositoriesView.ts]
      (the [changed] matchers and the [find*] reveal entry points),
    - [annotations/lineAnnotationController.ts]
      ([LineAnnotationController]),
    - [views/nodes/commitNode.ts], [views/nodes/fileHistoryTrackerNode.ts],
      [views/nodes/lineHistoryTrackerNode.ts] (the clipboard text of a
      commit and [refresh] of the tracker nodes),
    - [logger.ts] ([Logger]),
    - [git/remotes/github.ts], [git/remotes/azure-devops.ts] (the urls
      of a file and the way back from a url),
    - [commands/copyMessageToClipboard.ts],
      [commands/copyShaToClipboard.ts], [commands/openBranchOnRemote.ts].

    Asynchronous methods are state-passing functions; every [await] of a
    collaborator is a call of a field of a collaborator record, and the
    calls that matter are recorded in a trace.  Object identity ([===] on
    arrays and logs) is modelled by allocation stamps. *)

From Stdlib Require Import List String Ascii Bool Arith PeanoNat ZArith Lia.
From Stdlib Require DecimalString DecimalNat.
Import ListNotations.

Set Implicit Arguments.
Set Warnings "-register-all".

(* ===================================================================== *)
(** ** Promises *)
(* ===================================================================== *)

(** What awaiting a promise gives: it resolves to a value or rejects. *)
Inductive Outcome (A : Type) : Type :=
| Resolved (a : A)
| Rejected (reason : string).

Arguments Resolved {A} a.
Arguments Rejected {A} reason.

(** An async method over a mutable object graph [S]: run to completion
    from a state, it settles and leaves a state.  A rejection keeps the
    mutations made before it. *)
Definition Task (S A : Type) : Type := S -> Outcome A * S.

Definition ret {S A : Type} (a : A) : Task S A := fun s => (Resolved a, s).

Definition bind {S A B : Type} (m : Task S A) (k : A -> Task S B) : Task S B :=
  fun s =>
    match m s with
    | (Resolved a, s1) => k a s1
    | (Rejected e, s1) => (Rejected e, s1)
    end.

(** [Promise.all([p, q])]: both promises are started, in order, whatever
    the other one does; the pair rejects when one of them rejects. *)
Definition both {S A B : Type} (p : Task S A) (q : Task S B) : Task S (A * B) :=
  fun s =>
    let (oa, s1) := p s in
    let (ob, s2) := q s1 in
    (match oa, ob with
     | Resolved a, Resolved b => Resolved (a, b)
     | Rejected e, _ => Rejected e
     | _, Rejected e => Rejected e
     end, s2).

Definition modify {S : Type} (f : S -> S) : Task S unit := fun s => (Resolved tt, f s).

Definition gets {S A : Type} (f : S -> A) : Task S A := fun s => (Resolved (f s), s).

(** [k + 1] calls of the same method, one after the other; the outcome is
    the last call's. *)
Fixpoint call_again {S A : Type} (m : Task S A) (k : nat) : Task S A :=
  match k with
  | 0 => m
  | S k' => fun s => call_again m k' (snd (m s))
  end.

Declare Scope task_scope.
Delimit Scope task_scope with task.
Notation "x <- m ;; k" := (bind m (fun x => k))
  (at level 100, m at next level, right associativity) : task_scope.
Notation "m ;;; k" := (bind m (fun _ => k))
  (at level 100, right associativity) : task_scope.

(** JavaScript truthiness of the values the views test. *)
Definition truthy_string (s : string) : bool := negb (String.eqb s EmptyString).

Definition truthy_opt_string (s : option string) : bool :=
  match s with Some x => truthy_string x | None => false end.

Definition truthy_number (n : nat) : bool := negb (Nat.eqb n 0).

Definition is_some {A : Type} (o : option A) : bool :=
  match o with Some _ => true | None => false end.

(** [Array.prototype.includes] on strings. *)
Definition includes (x : string) (l : list string) : bool :=
  existsb (String.eqb x) l.

(** [s.startsWith(p)]. *)
Definition startsWith (s p : string) : bool := String.prefix p s.

(* ===================================================================== *)
(** ** Repository change events *)
(* ===================================================================== *)

(** Modelled from the spec: the [RepositoryChange] enumeration of
    [git/models/repository.ts], which is not among the sources.  The kinds
    are the ones the data model lists. *)
Inductive RepositoryChange : Type :=
| Config | Heads | Index | Remotes | Status | Tags | Stashes | Unknown.

Inductive RepositoryChangeComparisonMode : Type := Any | All.

Definition RepositoryChange_eqb (a b : RepositoryChange) : bool :=
  match a, b with
  | Config, Config | Heads, Heads | Index, Index | Remotes, Remotes
  | Status, Status | Tags, Tags | Stashes, Stashes | Unknown, Unknown => true
  | _, _ => false
  end.

Definition kind_in (c : RepositoryChange) (l : list RepositoryChange) : bool :=
  existsb (RepositoryChange_eqb c) l.

(** Modelled from the spec: [RepositoryChangeEvent.changed(...kinds, mode)],
    whose class is not among the sources.  The event holds the set of
    changed kinds.  In [Any] mode the event matches when one of its kinds
    is watched, and an event that holds [Unknown] matches whatever the
    watched kinds are; in [All] mode every watched kind must have changed. *)
Definition changed (changes affected : list RepositoryChange)
           (mode : RepositoryChangeComparisonMode) : bool :=
  match mode with
  | Any => existsb (fun c => RepositoryChange_eqb c Unknown || kind_in c affected) changes
  | All => forallb (fun k => kind_in k changes) affected
  end.

(** The repository folder nodes of the views and the kinds each one passes
    to [e.changed(..., RepositoryChangeComparisonMode.Any)] in its
    [changed(e)] method. *)
Inductive RepositoryFolderNode : Type :=
| ContributorsRepositoryNode
| BranchesRepositoryNode
| RemotesRepositoryNode
| CommitsRepositoryNode.

Definition watched (n : RepositoryFolderNode) : list RepositoryChange :=
  match n with
  | ContributorsRepositoryNode => [Config; Heads; Remotes; Unknown]
  | BranchesRepositoryNode => [Config; Heads; Index; Remotes; Status; Unknown]
  | RemotesRepositoryNode => [Config; Remotes; Unknown]
  | CommitsRepositoryNode => [Config; Heads; Index; Remotes; Status; Unknown]
  end.

(** [node.changed(e)]. *)
Definition node_changed (n : RepositoryFolderNode) (e : list RepositoryChange) : bool :=
  changed e (watched n) Any.

(* ===================================================================== *)
(** ** The parsed git object model (as the views read it) *)
(* ===================================================================== *)

Module GitBranch.
Record State : Type := { ahead : nat; behind : nat }.

Record t : Type := {
  name : string;
  ref : string;
  repoPath : string;
  remote : bool;
  current : bool;
  detached : bool;
  starred : bool;
  rebasing : bool;
  tracking : option string;
  state : State
}.
End GitBranch.

Module GitLogCommit.
Record t : Type := {
  ref : string;
  repoPath : string;
  isUncommitted : bool
}.
End GitLogCommit.

(** The argument of [GitLog.more] and of [loadMore]:
    [number | { until?: any }]. *)
Inductive MoreLimit : Type :=
| Limit (n : nat)
| Until (ref : string).

Module GitLog.
(** A page of history.  [id] stands for the identity of the object, which
    [loadMore] compares with [===]; [more] is the optional method that
    fetches a longer window. *)
Inductive t : Type := make {
  id : nat;
  commits : list GitLogCommit.t;
  count : nat;
  hasMore : bool;
  more : option (MoreLimit -> Outcome (option t))
}.

(** [a === b] on [GitLog | undefined]. *)
Definition same (a b : option t) : bool :=
  match a, b with
  | Some x, Some y => Nat.eqb (id x) (id y)
  | None, None => true
  | _, _ => false
  end.
End GitLog.

Record GitStatus : Type := { status_sha : string }.
Record GitMergeStatus : Type := { merge_incoming : string }.
Record GitRebaseStatus : Type := { incoming_name : string }.
Record PullRequest : Type := { pr_number : nat; pr_title : string }.

Inductive ViewShowBranchComparison : Type := Branch | Working.
Inductive ViewBranchesLayout : Type := List | Tree.

Module View.
(** The views a [BranchNode] can live in. *)
Inductive Kind : Type := Branches | Commits | Remotes | Repositories.

Record Config : Type := {
  pageItemLimit : nat;
  defaultItemLimit : nat;
  pullRequests_enabled : bool;
  pullRequests_showForBranches : bool;
  branches_layout : ViewBranchesLayout;
  showBranchComparison : option ViewShowBranchComparison
}.

Record t : Type := { kind : Kind; config : Config }.
End View.

(** [Container.git] and the methods of the parsed objects that go to git:
    each field is the promise the call returns. *)
Record GitService : Type := {
  getBranchAheadRange : GitBranch.t -> Outcome (option string);
  getLog : string -> nat -> string -> option (list string) -> Outcome (option GitLog.t);
  getBranchesAndTagsTipsFn : string -> string -> Outcome unit;
  getStatusForRepo : string -> Outcome (option GitStatus);
  getMergeStatus : string -> Outcome (option GitMergeStatus);
  getRebaseStatus : string -> Outcome (option GitRebaseStatus);
  getAssociatedPullRequest : GitBranch.t -> bool -> Outcome (option PullRequest);
  getLogRefsOnly : string -> nat -> string -> Outcome (option (list string));
  getBranches : string -> (GitBranch.t -> bool) -> Outcome (list GitBranch.t)
}.

(** What the tree shows, as the constructors the views call. *)
Inductive UpstreamType : Type := same | behind | ahead | none.

Inductive ViewNode : Type :=
| MessageNode (message : string) (description tooltip : option string)
| CompareBranchNode (branch : GitBranch.t) (showComparison : ViewShowBranchComparison)
                    (splatted : bool)
| PullRequestNode (pr : PullRequest) (branch : GitBranch.t)
| MergeStatusNode (branch : GitBranch.t) (mergeStatus : GitMergeStatus)
                  (status : option GitStatus) (root : bool)
| RebaseStatusNode (branch : GitBranch.t) (rebaseStatus : GitRebaseStatus)
                   (status : option GitStatus) (root : bool)
| BranchTrackingStatusNode (branch : GitBranch.t) (upstreamType : UpstreamType) (root : bool)
| CommitNode (commit : GitLogCommit.t) (unpublished : option bool) (branch : GitBranch.t)
| LoadMoreNode (previousNode : option ViewNode)
| BranchNodeOf (branch : GitBranch.t) (root : bool)
               (showComparison : option ViewShowBranchComparison).

(** A JavaScript array of nodes: [stamp] is the identity of the array
    object, given when it is created. *)
Record Children : Type := { stamp : nat; items : list ViewNode }.

(** The calls a node makes that leave the node. *)
Inductive Event : Type :=
| Git_getBranchAheadRange
| Git_getLog (limit : nat)
| Git_getBranchesAndTagsTipsFn
| Git_getStatusForRepo
| Git_getMergeStatus
| Git_getRebaseStatus
| Git_getAssociatedPullRequest
| Git_getLogRefsOnly (range : string)
| Git_getBranches
| Log_more (arg : MoreLimit)
| TriggerChange (reset : bool).

(** The object a method runs on, with the allocation counter of the
    JavaScript heap and the trace of calls so far. *)
Record World (Obj : Type) : Type := {
  this : Obj;
  fresh : nat;
  trace : list Event
}.

Definition call {Obj A : Type} (ev : Event) (o : Outcome A) : Task (World Obj) A :=
  fun w => (o, {| this := this w; fresh := fresh w; trace := trace w ++ [ev] |}).

(** An array literal: a new array object. *)
Definition new_array {Obj : Type} (l : list ViewNode) : Task (World Obj) Children :=
  fun w => (Resolved {| stamp := fresh w; items := l |},
            {| this := this w; fresh := S (fresh w); trace := trace w |}).

Definition update {Obj : Type} (f : Obj -> Obj) : Task (World Obj) unit :=
  modify (fun w => {| this := f (this w); fresh := fresh w; trace := trace w |}).

(** A task is quiet when it touches neither the object nor the allocator:
    it only talks to collaborators. *)
Definition quiet {Obj A : Type} (m : Task (World Obj) A) : Prop :=
  forall w o w', m w = (o, w') -> this w' = this w /\ fresh w' = fresh w.

(** A task emits [P] when it only adds to the trace, and every call it
    adds satisfies [P]. *)
Definition emits {Obj A : Type} (P : Event -> Prop) (m : Task (World Obj) A) : Prop :=
  forall w o w', m w = (o, w') -> exists evs, trace w' = trace w ++ evs /\ Forall P evs.

(** A call that is not [git.getLog]. *)
Definition not_getLog (e : Event) : Prop :=
  match e with Git_getLog _ => False | _ => True end.

(** [GlyphChars.Dash] is U+2014. *)
Definition GlyphChars_Dash : string :=
  String (Ascii.ascii_of_nat 226)
    (String (Ascii.ascii_of_nat 128) (String (Ascii.ascii_of_nat 148) EmptyString)).

(* ===================================================================== *)
(** ** [BranchNode] (views/nodes/branchNode.ts) *)
(* ===================================================================== *)

Module BranchNode.

Record Options : Type := {
  expanded : bool;
  showAsCommits : bool;
  showComparison : option ViewShowBranchComparison;
  showCurrent : bool;
  showStatus : bool;
  showTracking : bool;
  authors : option (list string)
}.

(** The node: what the constructor fixes, then the three mutable fields
    [_children], [_log] and [limit]. *)
Record t : Type := {
  uri_repoPath : string;
  view : View.t;
  branch : GitBranch.t;
  root : bool;
  options : Options;
  splatted : bool;
  _children : option Children;
  _log : option GitLog.t;
  limit : option nat
}.

Definition set_children (c : option Children) (n : t) : t :=
  {| uri_repoPath := uri_repoPath n; view := view n; branch := branch n; root := root n;
     options := options n; splatted := splatted n;
     _children := c; _log := _log n; limit := limit n |}.

Definition set_log (l : option GitLog.t) (n : t) : t :=
  {| uri_repoPath := uri_repoPath n; view := view n; branch := branch n; root := root n;
     options := options n; splatted := splatted n;
     _children := _children n; _log := l; limit := limit n |}.

Definition set_limit (k : option nat) (n : t) : t :=
  {| uri_repoPath := uri_repoPath n; view := view n; branch := branch n; root := root n;
     options := options n; splatted := splatted n;
     _children := _children n; _log := _log n; limit := k |}.

Definition M : Type -> Type := Task (World t).

(** [refresh(reset?)]; the [gate] and [debug] decorators leave a
    synchronous method as it is. *)
Definition refresh (reset : bool) (n : t) : t :=
  let n1 := set_children None n in
  if reset then set_log None n1 else n1.

(** The limit [getLog] asks git for. *)
Definition log_limit (n : t) : nat :=
  let limit0 :=
    match limit n with
    | Some l => l
    | None => if root n then View.pageItemLimit (View.config (view n))
              else View.defaultItemLimit (View.config (view n))
    end in
  let ahead := GitBranch.ahead (GitBranch.state (branch n)) in
  if negb (Nat.eqb limit0 0) && (limit0 <? ahead)
  then Nat.min (ahead + 1) (limit0 * 2)
  else limit0.

(** [getLog()]. *)
Definition getLog (git : GitService) : M (option GitLog.t) :=
  fun w =>
    let n := this w in
    match _log n with
    | Some l => (Resolved (Some l), w)
    | None =>
        (log <- call (Git_getLog (log_limit n))
                  (getLog git (uri_repoPath n) (log_limit n) (GitBranch.ref (branch n))
                          (authors (options n))) ;;
         update (set_log log) ;;;
         gets (fun w' => _log (this w')))%task w
    end.

(** [get hasMore()]: [this._log?.hasMore ?? true]. *)
Definition hasMore (n : t) : bool :=
  match _log n with
  | Some l => GitLog.hasMore l
  | None => true
  end.

(** [log.more?.(limit)]. *)
Definition log_more (l : GitLog.t) (arg : MoreLimit) : M (option GitLog.t) :=
  match GitLog.more l with
  | Some f => call (Log_more arg) (f arg)
  | None => ret None
  end.

(** [loadMore(limit?)]. *)
Definition loadMore (git : GitService) (limit_arg : option MoreLimit) : M unit :=
  (log <- getLog git ;;
   match log with
   | None => ret tt
   | Some l =>
       if negb (GitLog.hasMore l) then ret tt
       else
         fun w =>
           let n := this w in
           let arg := match limit_arg with
                      | Some a => a
                      | None => Limit (View.pageItemLimit (View.config (view n)))
                      end in
           (log' <- log_more l arg ;;
            cur <- gets (fun w' => _log (this w')) ;;
            if GitLog.same cur log' then ret tt
            else
              update (set_log log') ;;;
              update (set_limit (option_map GitLog.count log')) ;;;
              update (set_children None) ;;;
              call (TriggerChange false) (Resolved tt))%task w
   end)%task.

(** The status rows of [getChildren]: merge status, else rebase status,
    else tracking status. *)
Definition status_children (git : GitService) (n : t)
           (status : option GitStatus) (mergeStatus : option GitMergeStatus)
           (rebaseStatus : option GitRebaseStatus) : M (list ViewNode) :=
  let b := branch n in
  let o := options n in
  let status_or_fetch : M (option GitStatus) :=
    match status with
    | Some s => ret (Some s)
    | None => call Git_getStatusForRepo (getStatusForRepo git (uri_repoPath n))
    end in
  let tracking_rows : list ViewNode :=
    if showTracking o then
      let st := GitBranch.state b in
      if truthy_opt_string (GitBranch.tracking b) then
        if root n && negb (truthy_number (GitBranch.behind st))
                  && negb (truthy_number (GitBranch.ahead st))
        then [BranchTrackingStatusNode b same (root n)]
        else
          (if truthy_number (GitBranch.behind st)
           then [BranchTrackingStatusNode b behind (root n)] else [])
          ++ (if truthy_number (GitBranch.ahead st)
              then [BranchTrackingStatusNode b ahead (root n)] else [])
      else [BranchTrackingStatusNode b none (root n)]
    else [] in
  match showStatus o, mergeStatus with
  | true, Some ms =>
      (s <- status_or_fetch ;; ret [MergeStatusNode b ms s (root n)])%task
  | _, _ =>
      match showStatus o, rebaseStatus with
      | true, Some rs =>
          if GitBranch.current b || String.eqb (GitBranch.name b) (incoming_name rs)
          then (s <- status_or_fetch ;; ret [RebaseStatusNode b rs s (root n)])%task
          else ret tracking_rows
      | _, _ => ret tracking_rows
      end
  end.

(** [unpublishedCommits?.has(c.ref)]. *)
Definition unpublished_has (unpublished : option (list string)) (c : GitLogCommit.t)
  : option bool :=
  option_map (includes (GitLogCommit.ref c)) unpublished.

Section GetChildren.
(** [insertDateMarkers] of views/nodes/helpers.ts is not among the sources. *)
Variable insertDateMarkers : list ViewNode -> list ViewNode.
Variable git : GitService.

(** The array [getChildren] fills once the log is there: comparison row,
    pull request row, status rows, a separator when any of them is
    present, the commits, and a load-more row. *)
Definition build_children (n : t) (l : GitLog.t) (pr : option PullRequest)
           (unpublished : option (list string)) (rows : list ViewNode) : list ViewNode :=
  let b := branch n in
  let compare :=
    match showComparison (options n), View.kind (view n) with
    | Some _, View.Remotes => []
    | Some sc, _ => [CompareBranchNode b sc (splatted n)]
    | None, _ => []
    end in
  let prs := match pr with Some p => [PullRequestNode p b] | None => [] end in
  let head := compare ++ prs ++ rows in
  let separator :=
    match head with
    | [] => []
    | _ => [MessageNode "" (Some (GlyphChars_Dash ++ GlyphChars_Dash)%string)
                        (Some ""%string)]
    end in
  let commits :=
    insertDateMarkers
      (map (fun c => CommitNode c (unpublished_has unpublished c) b) (GitLog.commits l)) in
  let children := head ++ separator ++ commits in
  if GitLog.hasMore l
  then children ++ [LoadMoreNode (last (map Some children) None)]
  else children.

(** The six promises that [getChildren] awaits together with the log:
    tips, status, merge status, rebase status, pull request, unpublished
    commits. *)
Definition Others : Type :=
  unit * (option GitStatus * (option GitMergeStatus * (option GitRebaseStatus
          * (option PullRequest * option (list string))))).

Definition others (n : t) (range : option string) : M Others :=
  let b := branch n in
  let o := options n in
  let cfg := View.config (view n) in
  let repo := uri_repoPath n in
  both (call Git_getBranchesAndTagsTipsFn
             (getBranchesAndTagsTipsFn git repo (GitBranch.name b)))
  (both (if showStatus o && GitBranch.current b
         then call Git_getStatusForRepo (getStatusForRepo git repo)
         else ret None)
  (both (if showStatus o && GitBranch.current b
         then call Git_getMergeStatus (getMergeStatus git repo)
         else ret None)
  (both (if showStatus o
         then call Git_getRebaseStatus (getRebaseStatus git repo)
         else ret None)
  (both (if View.pullRequests_enabled cfg
            && View.pullRequests_showForBranches cfg
            && (truthy_opt_string (GitBranch.tracking b) || GitBranch.remote b)
         then call Git_getAssociatedPullRequest
                   (getAssociatedPullRequest git b (root n))
         else ret None)
        (match range with
         | Some rg =>
             if truthy_string rg && negb (GitBranch.remote b)
             then call (Git_getLogRefsOnly rg) (getLogRefsOnly git repo 0 rg)
             else ret None
         | None => ret None
         end))))).

(** [await Promise.all([this.getLog(), ...])]. *)
Definition gather (n : t) (range : option string) : M (option GitLog.t * Others) :=
  both (getLog git) (others n range).

(** What follows the [Promise.all]: the lone message when there is no
    log, else the array, which is stored in [_children]. *)
Definition fill (n : t) (r : option GitLog.t * Others) : M Children :=
  let '(log, (_, (status, (mergeStatus, (rebaseStatus, (pr, unpublished)))))) := r in
  match log with
  | None => new_array [MessageNode "No commits could be found." None None]
  | Some l =>
      (rows <- status_children git n status mergeStatus rebaseStatus ;;
       arr <- new_array (build_children n l pr unpublished rows) ;;
       update (set_children (Some arr)) ;;;
       ret arr)%task
  end.

(** [getChildren()]. *)
Definition getChildren : M Children :=
  fun w =>
    let n := this w in
    match _children n with
    | Some c => (Resolved c, w)
    | None =>
        (range <- call Git_getBranchAheadRange (getBranchAheadRange git (branch n)) ;;
         r <- gather n range ;;
         fill n r)%task w
    end.

End GetChildren.

End BranchNode.

(* ===================================================================== *)
(** ** [BranchesNode] (views/nodes/branchesNode.ts) *)
(* ===================================================================== *)

Module BranchesNode.

Record t : Type := {
  repo_path : string;
  view : View.t;
  _children : option Children
}.

Definition set_children (c : option Children) (n : t) : t :=
  {| repo_path := repo_path n; view := view n; _children := c |}.

Definition M : Type -> Type := Task (World t).

(** [refresh()]. *)
Definition refresh (n : t) : t := set_children None n.

Section GetChildren.
(** [Arrays.makeHierarchical] and [BranchOrTagFolderNode] are not among the
    sources: [folderChildren] stands for the children of the folder node
    built over the branch nodes, [root.getChildren()]. *)
Variable folderChildren : list ViewNode -> list ViewNode.
Variable git : GitService.

(** [getChildren()]. *)
Definition getChildren : M Children :=
  fun w =>
    let n := this w in
    let cfg := View.config (view n) in
    match _children n with
    | Some c => (Resolved c, w)
    | None =>
        (branches <- call Git_getBranches
                       (getBranches git (repo_path n) (fun b => negb (GitBranch.remote b))) ;;
         match branches with
         | [] => new_array [MessageNode "No branches could be found." None None]
         | _ =>
             branchNodes <- new_array
               (map (fun b => BranchNodeOf b false (View.showBranchComparison cfg)) branches) ;;
             match View.branches_layout cfg with
             | List => ret branchNodes
             | Tree =>
                 arr <- new_array (folderChildren (items branchNodes)) ;;
                 update (set_children (Some arr)) ;;;
                 ret arr
             end
         end)%task w
    end.

End GetChildren.

End BranchesNode.

(* ===================================================================== *)
(** ** [BranchesViewNode] (views/branchesView.ts) *)
(* ===================================================================== *)

Module BranchesViewNode.

(** A [BranchesRepositoryNode] as the view node sees it. *)
Record RepositoryNode : Type := {
  repo : string;
  subscribed : bool;
  disposed : bool
}.

(** Modelled from the spec: [dispose()] of [SubscribeableViewNode], which
    is not among the sources: it releases the subscription if held, and
    disposing twice is a no-op. *)
Definition dispose (r : RepositoryNode) : RepositoryNode :=
  {| repo := repo r; subscribed := false; disposed := true |}.

(** The repository nodes live in the heap, at addresses. *)
Definition Store : Type := nat -> RepositoryNode.

Definition dispose_at (a : nat) (st : Store) : Store :=
  fun x => if Nat.eqb x a then dispose (st x) else st x.

(** The view node holds [children: BranchesRepositoryNode[] | undefined]. *)
Record t : Type := { children : option (list nat) }.

(** [refresh(reset = false)]. *)
Definition refresh (reset : bool) (n : t) (st : Store) : t * Store :=
  match reset, children n with
  | true, Some cs =>
      ({| children := None |}, fold_left (fun s a => dispose_at a s) cs st)
  | _, _ => (n, st)
  end.

(** No disposed node is in the children list of the (live) view node. *)
Definition no_disposed_child (n : t) (st : Store) : Prop :=
  match children n with
  | Some cs => forall a, In a cs -> disposed (st a) = false
  | None => True
  end.

End BranchesViewNode.

(* ===================================================================== *)
(** ** Reveal: nodes as the search sees them *)
(* ===================================================================== *)

Module Class.
(** The classes the [canTraverse] callbacks test with [instanceof]. *)
Inductive t : Type :=
| BranchesViewNode | BranchesRepositoryNode | BranchesNode | BranchOrTagFolderNode
| BranchNode | RemotesViewNode | RemotesRepositoryNode | RemotesNode | RemoteNode
| RepositoriesNode | RepositoryNode | CommitsViewNode | CommitsRepositoryNode
| BranchTrackingStatusNode | CommitNode | TagsNode | StashesNode | Other.

Definition eqb (a b : t) : bool :=
  match a, b with
  | BranchesViewNode, BranchesViewNode
  | BranchesRepositoryNode, BranchesRepositoryNode
  | BranchesNode, BranchesNode
  | BranchOrTagFolderNode, BranchOrTagFolderNode
  | BranchNode, BranchNode
  | RemotesViewNode, RemotesViewNode
  | RemotesRepositoryNode, RemotesRepositoryNode
  | RemotesNode, RemotesNode
  | RemoteNode, RemoteNode
  | RepositoriesNode, RepositoriesNode
  | RepositoryNode, RepositoryNode
  | CommitsViewNode, CommitsViewNode
  | CommitsRepositoryNode, CommitsRepositoryNode
  | BranchTrackingStatusNode, BranchTrackingStatusNode
  | CommitNode, CommitNode
  | TagsNode, TagsNode
  | StashesNode, StashesNode
  | Other, Other => true
  | _, _ => false
  end.
End Class.

Module Node.
(** A node of a view: its class, its [id], and the properties the
    predicates and [canTraverse] read ([n.branch], [n.commit],
    [n.remote.name]). *)
Record t : Type := {
  class : Class.t;
  id : string;
  branch : option GitBranch.t;
  commit : option GitLogCommit.t;
  remote_name : option string
}.

(** [n instanceof C]. *)
Definition instanceof (n : t) (c : Class.t) : bool := Class.eqb (class n) c.
End Node.

(* ===================================================================== *)
(** ** [ViewBase.findNode]: the reveal engine *)
(* ===================================================================== *)

Module ViewBase.

(** What the engine does to a node, in order; [LoadMore] records what
    [loadMore] was given. *)
Inductive Visit : Type :=
| CanTraverse (depth : nat) (n : Node.t) (answer : bool)
| GetChildren (depth : nat) (n : Node.t)
| LoadMore (depth : nat) (n : Node.t) (arg : option MoreLimit).

Section FindNode.

(** The state the nodes compute on: the tree built so far and the
    repository behind it. *)
Variable W : Type.

(** The methods of the nodes, dispatched on the node; the asynchronous
    ones settle, to a value or to a rejection. *)
Record NodeOps : Type := {
  getChildren : Node.t -> W -> Outcome (list Node.t) * W;
  pageable : Node.t -> bool;
  hasMore : Node.t -> W -> bool;
  loadMore : Node.t -> option MoreLimit -> W -> Outcome unit * W;
  getSplattedChild : Node.t -> W -> Outcome (option Node.t) * W
}.

(** The options of [findNode]; [token] tells whether cancellation has been
    requested. *)
Record FindOptions : Type := {
  allowPaging : bool;
  canTraverse : Node.t -> W -> Outcome bool * W;
  maxDepth : nat;
  token : W -> bool
}.

Variable ops : NodeOps.
(** What the engine passes to [loadMore] when it pages: the target of the
    reveal, the [targetRef] of the spec. *)
Variable pageArg : option MoreLimit.
Variable predicate : Node.t -> bool.
Variable opts : FindOptions.

Inductive Paged : Type :=
| PageFound (n : Node.t)
| PageCancelled
| PageExhausted
| PageRejected (reason : string)
| PageOutOfFuel.

(** Modelled from the spec: the paging of a container that has more and
    holds no match: load more, read the children again and look for a
    match among them, and go on until one matches or the container has no
    more.  The token is checked before each step.  The spec names no
    handler for a call that rejects, so the rejection of an awaited call
    ends the search and is passed on.  [fuel] bounds the number of pages
    the model follows. *)
Fixpoint page (fuel depth : nat) (n : Node.t) (w : W) : Paged * W * list Visit :=
  match fuel with
  | 0 => (PageOutOfFuel, w, [])
  | S fuel' =>
      if token opts w then (PageCancelled, w, [])
      else
        match loadMore ops n pageArg w with
        | (Rejected e, w1) => (PageRejected e, w1, [LoadMore depth n pageArg])
        | (Resolved _, w1) =>
            let here := [LoadMore depth n pageArg; GetChildren depth n] in
            match getChildren ops n w1 with
            | (Rejected e, w2) => (PageRejected e, w2, here)
            | (Resolved cs, w2) =>
                match find predicate cs with
                | Some c => (PageFound c, w2, here)
                | None =>
                    if hasMore ops n w2
                    then let '(r, w3, evs) := page fuel' depth n w2 in
                         (r, w3, here ++ evs)
                    else (PageExhausted, w2, here)
                end
            end
        end
  end.

Inductive Level : Type :=
| LevelFound (n : Node.t)
| LevelCancelled
| LevelRejected (reason : string)
| LevelOutOfFuel
| LevelDone (next : list Node.t).

(** Modelled from the spec: one level of the tree.  For each node of the
    frontier, in the order of the children: check the token; test the
    predicate (a match ends the search); ask [canTraverse], and prune the
    node, without [getChildren], when it says no; else get the children.
    The entries of a pageable container are tested at once, and paged
    when allowed, before the container is given up; the children of other
    nodes form the next level.  A call that rejects ends the search. *)
Fixpoint visit_level (fuel depth : nat) (nodes next : list Node.t) (w : W)
  : Level * W * list Visit :=
  match nodes with
  | [] => (LevelDone next, w, [])
  | n :: rest =>
      if token opts w then (LevelCancelled, w, [])
      else if predicate n then (LevelFound n, w, [])
      else
        match canTraverse opts n w with
        | (Rejected e, w1) => (LevelRejected e, w1, [])
        | (Resolved false, w1) =>
            let '(r, w', evs) := visit_level fuel depth rest next w1 in
            (r, w', CanTraverse depth n false :: evs)
        | (Resolved true, w1) =>
            let here := [CanTraverse depth n true; GetChildren depth n] in
            match getChildren ops n w1 with
            | (Rejected e, w2) => (LevelRejected e, w2, here)
            | (Resolved cs, w2) =>
                if pageable ops n then
                  match find predicate cs with
                  | Some c => (LevelFound c, w2, here)
                  | None =>
                      if allowPaging opts && hasMore ops n w2 then
                        match page fuel depth n w2 with
                        | (PageFound c, w3, evs) => (LevelFound c, w3, here ++ evs)
                        | (PageCancelled, w3, evs) => (LevelCancelled, w3, here ++ evs)
                        | (PageRejected e, w3, evs) => (LevelRejected e, w3, here ++ evs)
                        | (PageOutOfFuel, w3, evs) => (LevelOutOfFuel, w3, here ++ evs)
                        | (PageExhausted, w3, evs) =>
                            let '(r, w', evs') := visit_level fuel depth rest next w3 in
                            (r, w', here ++ evs ++ evs')
                        end
                      else
                        let '(r, w', evs) := visit_level fuel depth rest next w2 in
                        (r, w', here ++ evs)
                  end
                else
                  let '(r, w', evs) := visit_level fuel depth rest (next ++ cs) w2 in
                  (r, w', here ++ evs)
            end
        end
  end.

(** Modelled from the spec: the levels, from the root down.  The depth
    counter goes up by one per level; a level deeper than [maxDepth] is
    not visited.  The result is [Some r] when the search settles to [r]
    (a node, [undefined], or a rejection) and [None] when the model ran
    out of fuel. *)
Fixpoint levels (fuel remaining depth : nat) (frontier : list Node.t) (w : W)
  : option (Outcome (option Node.t)) * W * list Visit :=
  match visit_level fuel depth frontier [] w with
  | (LevelFound n, w', evs) => (Some (Resolved (Some n)), w', evs)
  | (LevelCancelled, w', evs) => (Some (Resolved None), w', evs)
  | (LevelRejected e, w', evs) => (Some (Rejected e), w', evs)
  | (LevelOutOfFuel, w', evs) => (None, w', evs)
  | (LevelDone next, w', evs) =>
      match next, remaining with
      | [], _ => (Some (Resolved None), w', evs)
      | _ :: _, 0 => (Some (Resolved None), w', evs)
      | _ :: _, S r =>
          let '(res, w'', evs') := levels fuel r (S depth) next w' in
          (res, w'', evs ++ evs')
      end
  end.

(** Modelled from the spec: [findNode(predicate, options)] of
    views/viewBase.ts, which is not among the sources. *)
Definition findNode (fuel : nat) (root : Node.t) (w : W)
  : option (Outcome (option Node.t)) * W * list Visit :=
  levels fuel (maxDepth opts) 0 [root] w.

(** The children a call of [getChildren] resolved to; none when it
    rejected. *)
Definition children_of (settled : Outcome (list Node.t) * W) : list Node.t :=
  match fst settled with
  | Resolved cs => cs
  | Rejected _ => []
  end.

(** [c] is [d] calls of [getChildren] below [root]. *)
Inductive at_depth (root : Node.t) : nat -> Node.t -> Prop :=
| at_root : at_depth root 0 root
| at_child (d : nat) (p c : Node.t) (w : W) :
    at_depth root d p -> In c (children_of (getChildren ops p w)) ->
    at_depth root (S d) c.

(** The discipline of one level, on the visits [evs] made over the
    frontier [nodes] at [depth]: every visit is of a node of the frontier
    at that depth; [getChildren] is only called on a node that
    [canTraverse] has let through; and an answer on record is an answer
    [canTraverse] gave. *)
Definition well_guarded (depth : nat) (nodes : list Node.t) (evs : list Visit) : Prop :=
  forall e, In e evs ->
    match e with
    | GetChildren d n =>
        d = depth /\ In n nodes /\ In (CanTraverse depth n true) evs
    | CanTraverse d n b =>
        d = depth /\ In n nodes /\ exists w0, fst (canTraverse opts n w0) = Resolved b
    | LoadMore d n _ =>
        d = depth /\ In n nodes /\ In (CanTraverse depth n true) evs
    end.

(** A call the engine awaits can reject with [e]. *)
Definition rejects (e : string) : Prop :=
  exists n v,
    fst (canTraverse opts n v) = Rejected e \/
    fst (getChildren ops n v) = Rejected e \/
    fst (loadMore ops n pageArg v) = Rejected e.

End FindNode.

End ViewBase.

(* ===================================================================== *)
(** ** The views' reveal entry points *)
(* ===================================================================== *)

(** The git queries the reveal entry points await, as what they resolve
    to: [getCommitBranches(repoPath, ref, { remotes })],
    [getBranch(repoPath)], [branchContainsCommit(repoPath, name, ref)]. *)
Record RevealGit : Type := {
  getCommitBranches : string -> string -> bool -> list string;
  getBranch : string -> option GitBranch.t;
  branchContainsCommit : string -> string -> string -> bool
}.

(** [n.branch?.ref === ref]. *)
Definition has_branch_ref (ref : string) (n : Node.t) : bool :=
  match Node.branch n with
  | Some b => String.eqb (GitBranch.ref b) ref
  | None => false
  end.

(** [n.commit?.ref === ref]. *)
Definition has_commit_ref (ref : string) (n : Node.t) : bool :=
  match Node.commit n with
  | Some c => String.eqb (GitLogCommit.ref c) ref
  | None => false
  end.

(** [branches.includes(n.branch.name)]. *)
Definition on_branches (branches : list string) (n : Node.t) : bool :=
  match Node.branch n with
  | Some b => includes (GitBranch.name b) branches
  | None => false
  end.

(** [b.split('/', 1)[0]]. *)
Fixpoint before_slash (s : string) : string :=
  match s with
  | EmptyString => EmptyString
  | String c r => if Ascii.eqb c (Ascii.ascii_of_nat 47) then EmptyString else String c (before_slash r)
  end.

Section Views.

Variable W : Type.
Variable ops : ViewBase.NodeOps W.
Variable pageArg : option MoreLimit.
(** [RepositoryNode.getId(repoPath)]; views/nodes/repositoryNode.ts is not
    among the sources. *)
Variable getId : string -> string.
Variable git : RevealGit.

(** [BranchesView.findBranch]: the [canTraverse] callback. *)
Definition BranchesView_findBranch_canTraverse (branch : GitBranch.t) (n : Node.t) : bool :=
  let repoNodeId := getId (GitBranch.repoPath branch) in
  if Node.instanceof n Class.BranchesViewNode then true
  else if Node.instanceof n Class.BranchesRepositoryNode
          || Node.instanceof n Class.BranchOrTagFolderNode
       then startsWith (Node.id n) repoNodeId
       else false.

(** [BranchesView.findBranch(branch, token)] (views/branchesView.ts). *)
Definition BranchesView_findBranch (branch : GitBranch.t) (token : W -> bool)
           (fuel : nat) (root : Node.t) (w : W)
  : option (Outcome (option Node.t)) * W * list ViewBase.Visit :=
  if GitBranch.remote branch then (Some (Resolved None), w, [])
  else
    ViewBase.findNode ops pageArg (has_branch_ref (GitBranch.ref branch))
      {| ViewBase.allowPaging := true;
         ViewBase.maxDepth := 4;
         ViewBase.canTraverse :=
           fun n w => (Resolved (BranchesView_findBranch_canTraverse branch n), w);
         ViewBase.token := token |}
      fuel root w.

(** [await n.loadMore({ until: commit.ref }); return true]: a rejection
    of [loadMore] is the rejection of the callback. *)
Definition loadMore_then_true (commit : GitLogCommit.t) (n : Node.t) (w : W)
  : Outcome bool * W :=
  match ViewBase.loadMore ops n (Some (Until (GitLogCommit.ref commit))) w with
  | (Resolved _, w') => (Resolved true, w')
  | (Rejected e, w') => (Rejected e, w')
  end.

(** [RepositoriesView.findCommit]: the [canTraverse] callback of the
    search on local branches. *)
Definition RepositoriesView_findCommit_canTraverse (commit : GitLogCommit.t)
           (branches : list string) (n : Node.t) (w : W) : Outcome bool * W :=
  let repoNodeId := getId (GitLogCommit.repoPath commit) in
  if Node.instanceof n Class.RepositoriesNode then (Resolved true, w)
  else if Node.instanceof n Class.BranchNode
          && startsWith (Node.id n) repoNodeId && on_branches branches n
       then loadMore_then_true commit n w
       else if Node.instanceof n Class.RepositoryNode
               || Node.instanceof n Class.BranchesNode
               || Node.instanceof n Class.BranchOrTagFolderNode
            then (Resolved (startsWith (Node.id n) repoNodeId), w)
            else (Resolved false, w).

(** The same, for the search on remote branches. *)
Definition RepositoriesView_findCommit_canTraverse_remote (commit : GitLogCommit.t)
           (branches remotes : list string) (n : Node.t) : bool :=
  let repoNodeId := getId (GitLogCommit.repoPath commit) in
  if Node.instanceof n Class.RepositoriesNode then true
  else if Node.instanceof n Class.RemoteNode
       then startsWith (Node.id n) repoNodeId
            && match Node.remote_name n with
               | Some r => includes r remotes
               | None => false
               end
       else if Node.instanceof n Class.BranchNode
            then startsWith (Node.id n) repoNodeId && on_branches branches n
            else if Node.instanceof n Class.RepositoryNode
                    || Node.instanceof n Class.RemotesNode
                    || Node.instanceof n Class.BranchOrTagFolderNode
                 then startsWith (Node.id n) repoNodeId
                 else false.

(** [RepositoriesView.findCommit(commit, token)]
    (views/repositoriesView.ts).  The target that the engine of the spec
    pages with is the ref of the commit. *)
Definition RepositoriesView_findCommit (commit : GitLogCommit.t) (token : W -> bool)
           (fuel : nat) (root : Node.t) (w : W)
  : option (Outcome (option Node.t)) * W * list ViewBase.Visit :=
  let repoPath := GitLogCommit.repoPath commit in
  let ref := GitLogCommit.ref commit in
  let branches := getCommitBranches git repoPath ref false in
  if negb (Nat.eqb (List.length branches) 0) then
    ViewBase.findNode ops (Some (Until ref)) (has_commit_ref ref)
      {| ViewBase.allowPaging := true;
         ViewBase.maxDepth := 6;
         ViewBase.canTraverse := RepositoriesView_findCommit_canTraverse commit branches;
         ViewBase.token := token |}
      fuel root w
  else
    let branches := getCommitBranches git repoPath ref true in
    if Nat.eqb (List.length branches) 0 then (Some (Resolved None), w, [])
    else
      let remotes := map before_slash branches in
      ViewBase.findNode ops (Some (Until ref)) (has_commit_ref ref)
        {| ViewBase.allowPaging := true;
           ViewBase.maxDepth := 8;
           ViewBase.canTraverse :=
             fun n w => (Resolved (RepositoriesView_findCommit_canTraverse_remote
                                     commit branches remotes n), w);
           ViewBase.token := token |}
        fuel root w.

(** [await node.loadMore({ until: commit.ref })] when [node] is a
    [BranchNode]. *)
Definition loadMore_if_branch (commit : GitLogCommit.t) (node : option Node.t)
  : Task W unit :=
  match node with
  | Some b =>
      if Node.instanceof b Class.BranchNode
      then ViewBase.loadMore ops b (Some (Until (GitLogCommit.ref commit)))
      else ret tt
  | None => ret tt
  end.

(** [CommitsView.findCommit]: the [canTraverse] callback; each [await] of
    it passes a rejection on. *)
Definition CommitsView_findCommit_canTraverse (commit : GitLogCommit.t)
           (n : Node.t) : Task W bool :=
  let repoNodeId := getId (GitLogCommit.repoPath commit) in
  if Node.instanceof n Class.CommitsViewNode then
    (node <- ViewBase.getSplattedChild ops n ;;
     match node with
     | Some r =>
         if Node.instanceof r Class.CommitsRepositoryNode then
           node2 <- ViewBase.getSplattedChild ops r ;;
           loadMore_if_branch commit node2 ;;;
           ret true
         else ret true
     | None => ret true
     end)%task
  else
    let fallthrough : Task W bool :=
      if Node.instanceof n Class.BranchTrackingStatusNode
      then ret (startsWith (Node.id n) repoNodeId)
      else ret false in
    if Node.instanceof n Class.CommitsRepositoryNode
       && startsWith (Node.id n) repoNodeId then
      (node <- ViewBase.getSplattedChild ops n ;;
       match node with
       | Some b =>
           if Node.instanceof b Class.BranchNode
           then ViewBase.loadMore ops b (Some (Until (GitLogCommit.ref commit))) ;;;
                ret true
           else fallthrough
       | None => fallthrough
       end)%task
    else fallthrough.

(** [CommitsView.findCommit(commit, token)] (views/commitsView.ts). *)
Definition CommitsView_findCommit (commit : GitLogCommit.t) (token : W -> bool)
           (fuel : nat) (root : Node.t) (w : W)
  : option (Outcome (option Node.t)) * W * list ViewBase.Visit :=
  let repoPath := GitLogCommit.repoPath commit in
  let ref := GitLogCommit.ref commit in
  match getBranch git repoPath with
  | None => (Some (Resolved None), w, [])
  | Some branch =>
      if negb (branchContainsCommit git repoPath (GitBranch.name branch) ref)
      then (Some (Resolved None), w, [])
      else
        ViewBase.findNode ops pageArg (has_commit_ref ref)
          {| ViewBase.allowPaging := true;
             ViewBase.maxDepth := 2;
             ViewBase.canTraverse := CommitsView_findCommit_canTraverse commit;
             ViewBase.token := token |}
          fuel root w
  end.

End Views.

(* ===================================================================== *)
(** ** JavaScript [Set] and [Map] on string keys *)
(* ===================================================================== *)

(** [set.add(x)]: insertion order, no duplicate. *)
Definition set_add (x : string) (s : list string) : list string :=
  if includes x s then s else s ++ [x].

(** [map.set(k, v)]: a new key goes last, a known key keeps its place. *)
Fixpoint map_set {V : Type} (k : string) (v : V) (m : list (string * V))
  : list (string * V) :=
  match m with
  | [] => [(k, v)]
  | (k', v') :: rest =>
      if String.eqb k k' then (k, v) :: rest else (k', v') :: map_set k v rest
  end.

(** [map.get(k)]. *)
Fixpoint map_get {V : Type} (k : string) (m : list (string * V)) : option V :=
  match m with
  | [] => None
  | (k', v') :: rest => if String.eqb k k' then Some v' else map_get k rest
  end.

(* ===================================================================== *)
(** ** [Promises.raceAll]: lookups against a shared timeout *)
(* ===================================================================== *)

Module Promises.

(** A lookup in flight: the time, in milliseconds from its launch, at which
    it settles, and the value it settles to ([None]: nothing was found; a
    lookup that fails is logged by the integration and counts as nothing
    found). *)
Record Future (V : Type) : Type := {
  settles_at : nat;
  result : option V
}.

(** What [raceAll] holds for a key: the value the lookup resolved to, or a
    [CancellationErrorWithId] that carries the key and the promise that is
    still running. *)
Inductive Entry (V : Type) : Type :=
| Value (v : option V)
| Pending (id : string) (promise : Future V).

Arguments Value {V} v.
Arguments Pending {V} id promise.

(** [value instanceof Promises.CancellationError]. *)
Definition is_pending {V : Type} (e : Entry V) : bool :=
  match e with Pending _ _ => true | Value _ => false end.

(** [await promise]. *)
Definition awaited {V : Type} (f : Future V) : option V := result f.

(** Modelled from the spec: [raceAll(keys, lookup, timeout)] of
    system/promise.ts, which is not among the sources.  Every lookup is
    launched; a key whose lookup settles within the timeout holds the
    value, a key whose lookup settles later holds [Pending] with the
    running promise.  Without a timeout every lookup is awaited. *)
Definition raced {V : Type} (timeout : option nat) (k : string) (f : Future V) : Entry V :=
  match timeout with
  | Some t => if settles_at f <=? t then Value (result f) else Pending k f
  | None => Value (result f)
  end.

Definition raceAll {V : Type} (keys : list string) (lookup : string -> Future V)
           (timeout : option nat) : list (string * Entry V) :=
  fold_left (fun m k => map_set k (raced timeout k (lookup k)) m) keys [].

End Promises.

(* ===================================================================== *)
(** ** [LineAnnotationController] (annotations/lineAnnotationController.ts) *)
(* ===================================================================== *)

Module LineAnnotationController.

Record TextEditor : Type := {
  editor_id : nat;
  isTextEditor : bool;
  document_gone : bool;
  _disposed : bool
}.

(** [a === b] on [TextEditor | undefined]. *)
Definition same_editor (a b : option TextEditor) : bool :=
  match a, b with
  | Some x, Some y => Nat.eqb (editor_id x) (editor_id y)
  | None, None => true
  | _, _ => false
  end.

Record LineSelection : Type := { anchor : nat; active : nat }.

Definition PullRequests : Type := list (string * Promises.Entry PullRequest).

(** One trailing annotation: the line, the commit, and
    [prs?.get(commit.ref)]. *)
Record Decoration : Type := {
  line : nat;
  commit : GitLogCommit.t;
  pullRequestOrRemote : option (Promises.Entry PullRequest)
}.

(** What the controller reads from its collaborators. *)
Record Host : Type := {
  selections : option (list LineSelection);
  includes_selections : list LineSelection -> bool;
  getState : nat -> option GitLogCommit.t;
  isBlameable : bool;
  repoPath : option string;
  format_has_tips : bool;
  pullRequests_enabled : bool;
  format_has_pullRequest : bool;
  has_rich_remote_provider : string -> bool;
  getPullRequestForCommit : string -> Promises.Future PullRequest
}.

(** The controller: the current [CancellationTokenSource] (by identity),
    the sources cancelled so far, the editor, and the two flags. *)
Record t : Type := {
  _cancellation : option nat;
  cancelled : list nat;
  sources : nat;
  _editor : option TextEditor;
  _enabled : bool;
  _suspended : bool
}.

(** What the controller does to the outside. *)
Inductive Effect : Type :=
| SetDecorations (editor : TextEditor) (decorations : list Decoration)
| GetBranchesAndTagsTipsFn
| GetPullRequestForCommit (ref : string)
| WaitForAnyPendingPullRequests (editor : TextEditor) (prs : PullRequests) (token : nat)
| Refresh (editor : TextEditor) (prs : list (string * option PullRequest)).

(** [get suspended()]. *)
Definition suspended (c : t) : bool := negb (_enabled c) || _suspended c.

(** [token.isCancellationRequested]. *)
Definition isCancellationRequested (token : nat) (c : t) : bool :=
  existsb (Nat.eqb token) (cancelled c).

(** [this._cancellation?.cancel()]. *)
Definition cancel (c : t) : t :=
  match _cancellation c with
  | Some src =>
      {| _cancellation := _cancellation c; cancelled := src :: cancelled c;
         sources := sources c; _editor := _editor c;
         _enabled := _enabled c; _suspended := _suspended c |}
  | None => c
  end.

(** [this._cancellation = new CancellationTokenSource()]. *)
Definition new_source (c : t) : nat * t :=
  (sources c,
   {| _cancellation := Some (sources c); cancelled := cancelled c;
      sources := S (sources c); _editor := _editor c;
      _enabled := _enabled c; _suspended := _suspended c |}).

Definition set_editor (e : option TextEditor) (c : t) : t :=
  {| _cancellation := _cancellation c; cancelled := cancelled c;
     sources := sources c; _editor := e;
     _enabled := _enabled c; _suspended := _suspended c |}.

(** [clearAnnotations(editor)]. *)
Definition clearAnnotations (editor : option TextEditor) : list Effect :=
  match editor with
  | Some e => if _disposed e then [] else [SetDecorations e []]
  | None => []
  end.

(** [clear(editor)]. *)
Definition clear (editor : option TextEditor) (c : t) : t * list Effect :=
  (cancel c,
   (if negb (same_editor (_editor c) editor) && is_some (_editor c)
    then clearAnnotations (_editor c) else [])
   ++ clearAnnotations editor).

(** [pr == null] on an entry of the map. *)
Definition is_null (e : Promises.Entry PullRequest) : bool :=
  match e with
  | Promises.Value None => true
  | _ => false
  end.

(** [getPullRequests(repoPath, lines, { timeout })]. *)
Definition getPullRequests (host : Host) (repo : string)
           (lines : list (nat * GitLogCommit.t)) (timeout : option nat)
  : option PullRequests * list Effect :=
  match lines with
  | [] => (None, [])
  | _ =>
      if negb (has_rich_remote_provider host repo) then (None, [])
      else
        let refs := fold_left (fun s l => set_add (GitLogCommit.ref (snd l)) s) lines [] in
        if Nat.eqb (List.length refs) 0 then (None, [])
        else
          let prs := Promises.raceAll refs (getPullRequestForCommit host) timeout in
          let asked := map GetPullRequestForCommit refs in
          if Nat.eqb (List.length prs) 0 || forallb (fun kv => is_null (snd kv)) prs
          then (None, asked)
          else (Some prs, asked)
  end.

(** The loop of [waitForAnyPendingPullRequests] that awaits the promises:
    [resolved.set(key, value instanceof CancellationError
                         ? await value.promise : value)]. *)
Definition settle (e : Promises.Entry PullRequest) : option PullRequest :=
  match e with
  | Promises.Pending _ promise => Promises.awaited promise
  | Promises.Value v => v
  end.

Definition resolve_all (prs : PullRequests) : list (string * option PullRequest) :=
  fold_left (fun resolved kv => map_set (fst kv) (settle (snd kv)) resolved) prs [].

(** [waitForAnyPendingPullRequests(editor, prs, token, timeout, cc)].
    [c] is the controller when the method is called, [c'] the controller
    when the last promise has been awaited: other handlers run in
    between. *)
Definition waitForAnyPendingPullRequests (editor : TextEditor) (prs : PullRequests)
           (token : nat) (c c' : t) : list Effect :=
  let count := List.length (filter (fun kv => Promises.is_pending (snd kv)) prs) in
  if isCancellationRequested token c || Nat.eqb count 0 then []
  else
    let resolved := resolve_all prs in
    if isCancellationRequested token c' || negb (same_editor (Some editor) (_editor c'))
    then []
    else [Refresh editor resolved].

(** A map of settled values as a map of entries. *)
Definition settled (prs : list (string * option PullRequest)) : PullRequests :=
  map (fun kv => (fst kv, Promises.Value (snd kv))) prs.

(** [if (this._editor !== editor) { this.clear(this._editor);
    this._editor = editor; }]. *)
Definition switch_editor (editor : option TextEditor) (c : t) : t * list Effect :=
  if negb (same_editor (_editor c) editor)
  then let (c', fx) := clear (_editor c) c in (set_editor editor c', fx)
  else (c, []).

(** The lines of the selections that have a commit. *)
Definition commit_lines (host : Host) (sel : list LineSelection)
  : list (nat * GitLogCommit.t) :=
  flat_map (fun s => match getState host (active s) with
                     | Some cm => [(active s, cm)]
                     | None => []
                     end) sel.

(** The second promise of the [Promise.all] in [refresh]: the pull
    requests that were passed in, else a lookup, when pull requests are
    to be shown. *)
Definition pull_requests (host : Host) (prs : option (list (string * option PullRequest)))
           (commitLines : list (nat * GitLogCommit.t)) (timeout : nat)
  : option PullRequests * list Effect :=
  match repoPath host with
  | Some repo =>
      if pullRequests_enabled host && format_has_pullRequest host then
        match prs with
        | Some given => (Some (settled given), [])
        | None =>
            getPullRequests host repo
              (filter (fun l => negb (GitLogCommit.isUncommitted (snd l))) commitLines)
              (Some timeout)
        end
      else (None, [])
  | None => (None, [])
  end.

(** The end of [refresh], from [commitLines] on: fetch, start the wait for
    what is pending, and decorate.  The timeout is the constant 100. *)
Definition annotate (host : Host) (e : TextEditor) (sel : list LineSelection)
           (prs : option (list (string * option PullRequest))) (c : t)
  : t * list Effect :=
  let commitLines := commit_lines host sel in
  let timeout := 100 in
  let tips := if format_has_tips host then [GetBranchesAndTagsTipsFn] else [] in
  let (found, asked) := pull_requests host prs commitLines timeout in
  let (c', waiting) :=
    match found with
    | Some m =>
        let (token, c1) := new_source (cancel c) in
        (c1, [WaitForAnyPendingPullRequests e m token])
    | None => (c, [])
    end in
  let decorations :=
    map (fun l => {| line := fst l; commit := snd l;
                     pullRequestOrRemote :=
                       match found with
                       | Some m => map_get (GitLogCommit.ref (snd l)) m
                       | None => None
                       end |}) commitLines in
  (c', tips ++ asked ++ waiting ++ [SetDecorations e decorations]).

(** [refresh(editor, options)]; [prs] is [options?.prs].  One call is run
    to its end: no other handler of the controller runs while it awaits
    the tracked document and the [Promise.all]. *)
Definition refresh (host : Host) (editor : option TextEditor)
           (prs : option (list (string * option PullRequest))) (c : t)
  : t * list Effect :=
  if negb (is_some editor) && negb (is_some (_editor c)) then (c, [])
  else
    match editor, selections host with
    | Some e, Some sel =>
        if negb (isTextEditor e) then clear (_editor c) c
        else
          let (c1, fx1) := switch_editor editor c in
          if suspended c1 then
            let (c2, fx2) := clear editor c1 in (c2, fx1 ++ fx2)
          else if negb (isBlameable host) && suspended c1 then
            let (c2, fx2) := clear editor c1 in (c2, fx1 ++ fx2)
          else if document_gone e || negb (includes_selections host sel) then (c1, fx1)
          else
            let (c2, fx2) := annotate host e sel prs c1 in (c2, fx1 ++ fx2)
    | _, _ => clear (_editor c) c
    end.

(** Token sources are numbered as they are created: the ones the
    controller knows of are older than the next one. *)
Definition sources_in_order (c : t) : Prop :=
  (forall s, In s (cancelled c) -> s < sources c) /\
  (forall s, _cancellation c = Some s -> s < sources c).

(** An effect of a refresh that reuses the pull requests [given] to it:
    decorations, the tips, or the hand-over of that same map to
    [waitForAnyPendingPullRequests]; never a lookup. *)
Definition reuses (given : list (string * option PullRequest)) (x : Effect) : Prop :=
  (exists ed ds, x = SetDecorations ed ds) \/
  x = GetBranchesAndTagsTipsFn \/
  (exists ed tok, x = WaitForAnyPendingPullRequests ed (settled given) tok).

End LineAnnotationController.

(* ===================================================================== *)
(** ** A small repository to run the nodes on *)
(* ===================================================================== *)

Module Scenario.

Definition feature_x : GitBranch.t :=
  {| GitBranch.name := "feature/x"; GitBranch.ref := "feature/x";
     GitBranch.repoPath := "/repo"; GitBranch.remote := false;
     GitBranch.current := true; GitBranch.detached := false;
     GitBranch.starred := false; GitBranch.rebasing := false;
     GitBranch.tracking := Some "origin/feature/x"%string;
     GitBranch.state := {| GitBranch.ahead := 0; GitBranch.behind := 0 |} |}.

Definition commit (sha : string) : GitLogCommit.t :=
  {| GitLogCommit.ref := sha; GitLogCommit.repoPath := "/repo";
     GitLogCommit.isUncommitted := false |}.

(** Two pages of history: the first holds two commits and has more; paging
    gives the second, which holds [abc123] and is the end. *)
Definition page2 : GitLog.t :=
  GitLog.make 2 [commit "f00"; commit "ba5"; commit "abc123"] 3 false None.

Definition page1 : GitLog.t :=
  GitLog.make 1 [commit "f00"; commit "ba5"] 2 true
              (Some (fun _ => Resolved (Some page2))).

(** A git collaborator that answers every call; [log] is what
    [getLog] settles to. *)
Definition git_with (log : Outcome (option GitLog.t)) : GitService :=
  {| getBranchAheadRange := fun _ => Resolved None;
     getLog := fun _ _ _ _ => log;
     getBranchesAndTagsTipsFn := fun _ _ => Resolved tt;
     getStatusForRepo := fun _ => Resolved None;
     getMergeStatus := fun _ => Resolved None;
     getRebaseStatus := fun _ => Resolved None;
     getAssociatedPullRequest := fun _ _ => Resolved None;
     getLogRefsOnly := fun _ _ _ => Resolved None;
     getBranches := fun _ keep => Resolved (filter keep [feature_x]) |}.

Definition git_ok : GitService := git_with (Resolved (Some page1)).
Definition git_no_log : GitService := git_with (Resolved None).
Definition git_failing : GitService := git_with (Rejected "git log failed").

Definition config (layout : ViewBranchesLayout) : View.Config :=
  {| View.pageItemLimit := 40; View.defaultItemLimit := 10;
     View.pullRequests_enabled := true; View.pullRequests_showForBranches := true;
     View.branches_layout := layout; View.showBranchComparison := None |}.

Definition branches_view (layout : ViewBranchesLayout) : View.t :=
  {| View.kind := View.Branches; View.config := config layout |}.

(** A freshly constructed [BranchNode] for [feature/x]. *)
Definition branch_node : BranchNode.t :=
  {| BranchNode.uri_repoPath := "/repo";
     BranchNode.view := branches_view Tree;
     BranchNode.branch := feature_x;
     BranchNode.root := false;
     BranchNode.options :=
       {| BranchNode.expanded := false; BranchNode.showAsCommits := false;
          BranchNode.showComparison := None; BranchNode.showCurrent := true;
          BranchNode.showStatus := true; BranchNode.showTracking := true;
          BranchNode.authors := None |};
     BranchNode.splatted := true;
     BranchNode._children := None;
     BranchNode._log := None;
     BranchNode.limit := None |}.

Definition start {Obj : Type} (x : Obj) : World Obj :=
  {| this := x; fresh := 0; trace := [] |}.

(** No date markers, and a flat folder. *)
Definition plain (l : list ViewNode) : list ViewNode := l.

(** [RepositoryNode.getId] and the ids built on it. *)
Definition getId (repoPath : string) : string :=
  ("gitlens:repository(" ++ repoPath ++ ")")%string.

Definition node (c : Class.t) (id : string) : Node.t :=
  {| Node.class := c; Node.id := id; Node.branch := None; Node.commit := None;
     Node.remote_name := None |}.

Definition branch_of (b : GitBranch.t) : Node.t :=
  {| Node.class := Class.BranchNode;
     Node.id := (getId (GitBranch.repoPath b) ++ ":branch(" ++ GitBranch.name b ++ ")")%string;
     Node.branch := Some b; Node.commit := None; Node.remote_name := None |}.

Definition commit_of (b : GitBranch.t) (c : GitLogCommit.t) : Node.t :=
  {| Node.class := Class.CommitNode;
     Node.id := ("commit(" ++ GitLogCommit.ref c ++ ")")%string;
     Node.branch := Some b; Node.commit := Some c; Node.remote_name := None |}.

Definition local_branch (name repo : string) : GitBranch.t :=
  {| GitBranch.name := name; GitBranch.ref := name;
     GitBranch.repoPath := repo; GitBranch.remote := false;
     GitBranch.current := false; GitBranch.detached := false;
     GitBranch.starred := false; GitBranch.rebasing := false;
     GitBranch.tracking := None;
     GitBranch.state := {| GitBranch.ahead := 0; GitBranch.behind := 0 |} |}.

(** *** The branches view over two repositories

    [/repo] has the three local branches [main], [develop] and
    [feature/x]; the other repository has [main]. *)
Definition branches_root : Node.t := node Class.BranchesViewNode "gitlens:branches".
Definition repo_folder : Node.t := node Class.BranchesRepositoryNode (getId "/repo").
Definition other_folder : Node.t := node Class.BranchesRepositoryNode (getId "/other").

Definition branches_children (n : Node.t) : list Node.t :=
  if Node.instanceof n Class.BranchesViewNode then [other_folder; repo_folder]
  else if String.eqb (Node.id n) (Node.id repo_folder)
       then [branch_of (local_branch "main" "/repo");
             branch_of (local_branch "develop" "/repo");
             branch_of feature_x]
       else if String.eqb (Node.id n) (Node.id other_folder)
            then [branch_of (local_branch "main" "/other")]
            else match Node.branch n with
                 | Some b => [commit_of b (commit "f00")]
                 | None => []
                 end.

(** Nothing changes under this tree. *)
Definition branches_ops : ViewBase.NodeOps unit :=
  {| ViewBase.getChildren := fun n w => (Resolved (branches_children n), w);
     ViewBase.pageable := fun n => Node.instanceof n Class.BranchNode;
     ViewBase.hasMore := fun _ _ => false;
     ViewBase.loadMore := fun _ _ w => (Resolved tt, w);
     ViewBase.getSplattedChild := fun _ w => (Resolved None, w) |}.

Definition never_cancelled {W : Type} (w : W) : bool := false.

(** *** The repositories view over [/repo], on the [BranchNode] above

    The state is the [BranchNode] of [feature/x]: its children are what
    [BranchNode.getChildren] returns, and paging is [BranchNode.loadMore]. *)
Definition repositories_root : Node.t := node Class.RepositoriesNode "gitlens:repositories".
Definition repository : Node.t := node Class.RepositoryNode (getId "/repo").
Definition branches_folder : Node.t :=
  node Class.BranchesNode (getId "/repo" ++ ":branches")%string.

Definition shown (b : GitBranch.t) (v : ViewNode) : Node.t :=
  match v with
  | CommitNode c _ b' => commit_of b' c
  | _ => node Class.Other "row"
  end.

Definition repositories_ops (git : GitService) : ViewBase.NodeOps (World BranchNode.t) :=
  {| ViewBase.getChildren := fun n w =>
       if Node.instanceof n Class.RepositoriesNode then (Resolved [repository], w)
       else if Node.instanceof n Class.RepositoryNode then (Resolved [branches_folder], w)
       else if Node.instanceof n Class.BranchesNode then (Resolved [branch_of feature_x], w)
       else if Node.instanceof n Class.BranchNode then
         match BranchNode.getChildren plain git w with
         | (Resolved arr, w') => (Resolved (map (shown feature_x) (items arr)), w')
         | (Rejected e, w') => (Rejected e, w')
         end
       else (Resolved [], w);
     ViewBase.pageable := fun n => Node.instanceof n Class.BranchNode;
     ViewBase.hasMore := fun _ w => BranchNode.hasMore (this w);
     ViewBase.loadMore := fun _ arg w => BranchNode.loadMore git arg w;
     ViewBase.getSplattedChild := fun _ w => (Resolved None, w) |}.

(** A longer history that comes one page at a time: two commits at first,
    then [c0d], then [abc123], which is the end. *)
Definition history3 : GitLog.t :=
  GitLog.make 13 [commit "f00"; commit "ba5"; commit "c0d"; commit "abc123"] 4 false None.

Definition history2 : GitLog.t :=
  GitLog.make 12 [commit "f00"; commit "ba5"; commit "c0d"] 3 true
              (Some (fun _ => Resolved (Some history3))).

Definition history1 : GitLog.t :=
  GitLog.make 11 [commit "f00"; commit "ba5"] 2 true
              (Some (fun _ => Resolved (Some history2))).

Definition git_paged : GitService := git_with (Resolved (Some history1)).

(** The commit is on [feature/x] only. *)
Definition reveal_git : RevealGit :=
  {| getCommitBranches := fun _ _ remotes => if remotes then [] else ["feature/x"%string];
     getBranch := fun _ => Some feature_x;
     branchContainsCommit := fun _ _ _ => true |}.

(** A detached checkout, and a commit that is not on the current branch. *)
Definition reveal_git_no_branch : RevealGit :=
  {| getCommitBranches := fun _ _ _ => [];
     getBranch := fun _ => None;
     branchContainsCommit := fun _ _ _ => true |}.

Definition reveal_git_elsewhere : RevealGit :=
  {| getCommitBranches := fun _ _ _ => [];
     getBranch := fun _ => Some feature_x;
     branchContainsCommit := fun _ _ _ => false |}.

(** *** Five pull request lookups against a timeout of 100 ms

    The lookups for [a], [b] and [c] settle after 50 ms, those for [d]
    and [e] after 300 ms. *)
Definition pr (n : nat) : PullRequest := {| pr_number := n; pr_title := "pull request" |}.

Definition slow (ref : string) : bool := String.eqb ref "d" || String.eqb ref "e".

Definition lookup (ref : string) : Promises.Future PullRequest :=
  {| Promises.settles_at := if slow ref then 300 else 50;
     Promises.result := if String.eqb ref "c" then None else Some (pr (String.length ref)) |}.

Definition five_keys : list string := ["a"; "b"; "c"; "d"; "e"]%string.

Definition editor : LineAnnotationController.TextEditor :=
  {| LineAnnotationController.editor_id := 7;
     LineAnnotationController.isTextEditor := true;
     LineAnnotationController.document_gone := false;
     LineAnnotationController._disposed := false |}.

(** The controller right after [refresh] has created the token source 0
    for [editor], and the same controller after the user has moved on
    (the source cancelled). *)
Definition controller : LineAnnotationController.t :=
  {| LineAnnotationController._cancellation := Some 0;
     LineAnnotationController.cancelled := [];
     LineAnnotationController.sources := 1;
     LineAnnotationController._editor := Some editor;
     LineAnnotationController._enabled := true;
     LineAnnotationController._suspended := false |}.

Definition controller_moved_on : LineAnnotationController.t :=
  LineAnnotationController.cancel controller.

End Scenario.

(* ===================================================================== *)
(** ** JavaScript strings *)
(* ===================================================================== *)

(** The string methods the code calls, on sequences of code units.  The
    characters the code looks for (underscore, slash, line feed, digits)
    are single units. *)
Module JsString.

(** [s.length]. *)
Definition length (s : string) : Z := Z.of_nat (String.length s).

(** An index argument, brought into [0 .. s.length]. *)
Definition clamp (s : string) (i : Z) : nat :=
  Z.to_nat (Z.min (Z.max i 0) (length s)).

(** [s.substring(a, b)]: both ends are clamped, and swapped when [a > b]. *)
Definition substring (s : string) (a b : Z) : string :=
  let a' := clamp s a in
  let b' := clamp s b in
  String.substring (Nat.min a' b') (Nat.max a' b' - Nat.min a' b') s.

(** [s.substr(start)]: a negative [start] counts from the end. *)
Definition substr (s : string) (start : Z) : string :=
  let from := if (start <? 0)%Z then clamp s (length s + start) else clamp s start in
  String.substring from (String.length s - from) s.

Fixpoint index_from (c : ascii) (s : string) (i from : nat) : Z :=
  match s with
  | EmptyString => (-1)%Z
  | String a r =>
      if (from <=? i) && Ascii.eqb a c then Z.of_nat i else index_from c r (S i) from
  end.

(** [s.indexOf(c, from)] for a one-character [c]: the first index at or
    after [from], or -1. *)
Definition indexOf (c : ascii) (s : string) (from : Z) : Z :=
  index_from c s 0 (clamp s from).

Fixpoint last_index_upto (c : ascii) (s : string) (i upto : nat) (found : Z) : Z :=
  match s with
  | EmptyString => found
  | String a r =>
      if i <=? upto
      then last_index_upto c r (S i) upto (if Ascii.eqb a c then Z.of_nat i else found)
      else found
  end.

(** [s.lastIndexOf(c, from)] for a one-character [c]: the last index at
    or before [from], or -1; a negative [from] is 0. *)
Definition lastIndexOf (c : ascii) (s : string) (from : Z) : Z :=
  last_index_upto c s 0 (clamp s from) (-1)%Z.

(** [parts.join(sep)]. *)
Fixpoint join (sep : string) (parts : list string) : string :=
  match parts with
  | [] => EmptyString
  | [p] => p
  | p :: rest => (p ++ sep ++ join sep rest)%string
  end.

(** A template literal on a count or a line number: its decimal digits. *)
Definition of_nat (n : nat) : string :=
  DecimalString.NilEmpty.string_of_uint (Nat.to_uint n).

(** Whether the unit [c] occurs in [s]. *)
Fixpoint has (c : ascii) (s : string) : bool :=
  match s with
  | EmptyString => false
  | String a r => Ascii.eqb a c || has c r
  end.

Definition underscore : ascii := Ascii.ascii_of_nat 95.
Definition slash : ascii := Ascii.ascii_of_nat 47.
Definition line_feed : ascii := Ascii.ascii_of_nat 10.

End JsString.

(* ===================================================================== *)
(** ** [Logger] (logger.ts) *)
(* ===================================================================== *)

Module Logger.

(** [TraceLevel] of configuration.ts: the three levels the logger names,
    and [Errors] for the remaining one. *)
Inductive TraceLevel : Type := Silent | Errors | Verbose | Debug.

Definition TraceLevel_eqb (a b : TraceLevel) : bool :=
  match a, b with
  | Silent, Silent | Errors, Errors | Verbose, Verbose | Debug, Debug => true
  | _, _ => false
  end.

(** A value handed to the logger ([any]), with what the logger reads of
    it: [text] is [String(p)], [plain] is [p.toString(true)] of a [Uri],
    [json] is what [JSON.stringify(p)] returns, unless it throws. *)
Inductive Value : Type :=
| Undefined
| Null
| Primitive (text : string)
| Function (text : string)
| UriValue (text plain : string)
| Object (text : string) (json : Outcome (option string)).

(** [typeof p === 'object']. *)
Definition typeof_object (p : Value) : bool :=
  match p with
  | Null | UriValue _ _ | Object _ _ => true
  | _ => false
  end.

(** [String(p)]. *)
Definition String_of (p : Value) : string :=
  match p with
  | Undefined => "undefined"
  | Null => "null"
  | Primitive t | Function t | UriValue t _ | Object t _ => t
  end.

(** [p == null]. *)
Definition nullish (p : Value) : bool :=
  match p with Undefined | Null => true | _ => false end.

(** [message ?? emptyStr], as a value and inside a template. *)
Definition or_empty_value (p : Value) : Value :=
  if nullish p then Primitive "" else p.

Definition or_empty (p : Value) : string :=
  if nullish p then EmptyString else String_of p.

Record Error : Type := { stack : option string; error_text : string }.

Record LogCorrelationContext : Type := {
  correlationId : option nat;
  prefix : string
}.

(** The first argument of the logging methods:
    [LogCorrelationContext | string | undefined]. *)
Inductive ContextOrMessage : Type :=
| Message (message : string)
| Context (context : option LogCorrelationContext).

(** The static fields; [channels] counts the output channels created so
    far and [reads] the readings of the clock. *)
Record t : Type := {
  output : option nat;
  customLoggableFn : option (Value -> option string);
  _isDebugging : bool;
  _level : TraceLevel;
  gitOutput : option nat;
  channels : nat;
  reads : nat
}.

Inductive ConsoleMethod : Type := console_log | console_error | console_warn.

(** What the logger does to the outside. *)
Inductive Effect : Type :=
| CreateOutputChannel (channel : nat) (name : string)
| Dispose (channel : nat)
| Show (channel : nat)
| AppendLine (channel : nat) (line : string)
| Console (method : ConsoleMethod) (timestamp consolePrefix : string)
          (message : Value) (params : list Value) (ex : option Error).

Definition extensionOutputChannelName : string := "GitLens".
Definition ConsolePrefix : string := ("[" ++ extensionOutputChannelName ++ "]")%string.

(** The state before [configure]: no channel, level [Silent]. *)
Definition initial : t :=
  {| output := None; customLoggableFn := None; _isDebugging := false;
     _level := Silent; gitOutput := None; channels := 0; reads := 0 |}.

(** [set level(value)]. *)
Definition set_level (value : TraceLevel) (s : t) : t * list Effect :=
  match value, output s with
  | Silent, Some ch =>
      ({| output := None; customLoggableFn := customLoggableFn s;
          _isDebugging := _isDebugging s; _level := value; gitOutput := gitOutput s;
          channels := channels s; reads := reads s |}, [Dispose ch])
  | Silent, None =>
      ({| output := None; customLoggableFn := customLoggableFn s;
          _isDebugging := _isDebugging s; _level := value; gitOutput := gitOutput s;
          channels := channels s; reads := reads s |}, [])
  | _, Some ch =>
      ({| output := Some ch; customLoggableFn := customLoggableFn s;
          _isDebugging := _isDebugging s; _level := value; gitOutput := gitOutput s;
          channels := channels s; reads := reads s |}, [])
  | _, None =>
      ({| output := Some (channels s); customLoggableFn := customLoggableFn s;
          _isDebugging := _isDebugging s; _level := value; gitOutput := gitOutput s;
          channels := S (channels s); reads := reads s |},
       [CreateOutputChannel (channels s) extensionOutputChannelName])
  end.

(** [configure(context, level, loggableFn)]; [development] is
    [context.extensionMode === ExtensionMode.Development]. *)
Definition configure (development : bool) (level : TraceLevel)
           (loggableFn : option (Value -> option string)) (s : t) : t * list Effect :=
  set_level level
    {| output := output s; customLoggableFn := loggableFn;
       _isDebugging := development; _level := _level s; gitOutput := gitOutput s;
       channels := channels s; reads := reads s |}.

(** [toLoggable(p)]: [JSON.stringify(null)] is the text null; the last
    case is not reached, [p] being an object there. *)
Definition toLoggable (s : t) (p : Value) : option string :=
  if negb (typeof_object p) then Some (String_of p)
  else
    match match customLoggableFn s with Some f => f p | None => None end with
    | Some loggable => Some loggable
    | None =>
        match p with
        | UriValue _ plain => Some ("Uri(" ++ plain ++ ")")%string
        | Object _ (Resolved r) => r
        | Object _ (Rejected _) => Some "<error>"%string
        | Null => Some "null"%string
        | _ => Some (String_of p)
        end
    end.

(** [toLoggableParams(debugOnly, params)]; [join] writes nothing for an
    element that is [undefined]. *)
Definition toLoggableParams (s : t) (debugOnly : bool) (params : list Value) : string :=
  if Nat.eqb (List.length params) 0
     || (debugOnly && negb (TraceLevel_eqb (_level s) Debug) && negb (_isDebugging s))
  then EmptyString
  else
    let loggableParams :=
      JsString.join ", "
        (map (fun p => match toLoggable s p with Some x => x | None => EmptyString end)
             params) in
    if negb (Nat.eqb (String.length loggableParams) 0)
    then (" " ++ GlyphChars_Dash ++ " " ++ loggableParams)%string
    else EmptyString.

Section Methods.

(** The [timestamp] getter formats [new Date()]: [clock n] is the text of
    its n-th reading. *)
Variable clock : nat -> string.
(** What [/.*\s*?at\s(.+?)\s/.exec(stack)] captures, if it matches. *)
Variable caller_of_stack : string -> option string.

Definition timestamp (s : t) : string * t :=
  (clock (reads s),
   {| output := output s; customLoggableFn := customLoggableFn s;
      _isDebugging := _isDebugging s; _level := _level s; gitOutput := gitOutput s;
      channels := channels s; reads := S (reads s) |}).

(** [params.shift()]. *)
Definition shift (params : list Value) : Value * list Value :=
  match params with
  | [] => (Undefined, [])
  | p :: rest => (p, rest)
  end.

(** The message of [debug], [log], [logWithDebugParams] and [warn], and
    the parameters that are left. *)
Definition message_of (contextOrMessage : ContextOrMessage) (params : list Value)
  : Value * list Value :=
  match contextOrMessage with
  | Message m => (Primitive m, params)
  | Context c =>
      let (message, rest) := shift params in
      match c with
      | Some ctx => (Primitive (prefix ctx ++ " " ++ or_empty message)%string, rest)
      | None => (message, rest)
      end
  end.

(** The body that [debug], [log], [logWithDebugParams] and [warn] share:
    [enabled] is the negation of the test of the early return,
    [to_channel] the level test of the write to the channel. *)
Definition write (enabled : bool) (method : ConsoleMethod) (to_channel debugOnly : bool)
           (contextOrMessage : ContextOrMessage) (params : list Value) (s : t)
  : t * list Effect :=
  if negb enabled then (s, [])
  else
    let (message, params) := message_of contextOrMessage params in
    let (s1, fx1) :=
      if _isDebugging s
      then let (ts, s1) := timestamp s in
           (s1, [Console method ts ConsolePrefix (or_empty_value message) params None])
      else (s, []) in
    match output s1 with
    | Some ch =>
        if to_channel
        then let (ts, s2) := timestamp s1 in
             (s2, fx1 ++ [AppendLine ch (ts ++ " " ++ or_empty message
                                           ++ toLoggableParams s2 debugOnly params)%string])
        else (s1, fx1)
    | None => (s1, fx1)
    end.

Definition is_Debug (s : t) : bool := TraceLevel_eqb (_level s) Debug.
Definition is_Verbose (s : t) : bool := TraceLevel_eqb (_level s) Verbose.
Definition is_Silent (s : t) : bool := TraceLevel_eqb (_level s) Silent.

(** [debug(contextOrMessage, ...params)]. *)
Definition debug (contextOrMessage : ContextOrMessage) (params : list Value) (s : t)
  : t * list Effect :=
  write (is_Debug s || _isDebugging s) console_log (is_Debug s) true
        contextOrMessage params s.

(** [log(contextOrMessage, ...params)]. *)
Definition log (contextOrMessage : ContextOrMessage) (params : list Value) (s : t)
  : t * list Effect :=
  write (is_Verbose s || is_Debug s || _isDebugging s) console_log
        (is_Verbose s || is_Debug s) false contextOrMessage params s.

(** [logWithDebugParams(contextOrMessage, ...params)]. *)
Definition logWithDebugParams (contextOrMessage : ContextOrMessage) (params : list Value)
           (s : t) : t * list Effect :=
  write (is_Verbose s || is_Debug s || _isDebugging s) console_log
        (is_Verbose s || is_Debug s) true contextOrMessage params s.

(** [warn(contextOrMessage, ...params)]. *)
Definition warn (contextOrMessage : ContextOrMessage) (params : list Value) (s : t)
  : t * list Effect :=
  write (negb (is_Silent s) || _isDebugging s) console_warn (negb (is_Silent s)) false
        contextOrMessage params s.

(** The message of [error]: the one given, else the caller named by the
    stack of the exception, if any. *)
Definition error_message (ex : Error) (contextOrMessage : ContextOrMessage)
           (params : list Value) : Value * list Value :=
  let given :=
    match contextOrMessage with
    | Message m => (Primitive m, params)
    | Context None => (Undefined, params)
    | Context (Some ctx) =>
        let (first, rest) := shift params in
        (Primitive (prefix ctx ++ " " ++ or_empty first)%string, rest)
    end in
  if nullish (fst given) then
    match stack ex with
    | Some st =>
        if truthy_string st then
          match caller_of_stack st with
          | Some caller => (Primitive caller, snd given)
          | None => given
          end
        else given
    | None => given
    end
  else given.

(** [error(ex, contextOrMessage, ...params)]. *)
Definition error (ex : Error) (contextOrMessage : ContextOrMessage) (params : list Value)
           (s : t) : t * list Effect :=
  if is_Silent s && negb (_isDebugging s) then (s, [])
  else
    let (message, params) := error_message ex contextOrMessage params in
    let (s1, fx1) :=
      if _isDebugging s
      then let (ts, s1) := timestamp s in
           (s1, [Console console_error ts ConsolePrefix (or_empty_value message) params
                         (Some ex)])
      else (s, []) in
    match output s1 with
    | Some ch =>
        if negb (is_Silent s1)
        then let (ts, s2) := timestamp s1 in
             (s2, fx1 ++ [AppendLine ch (ts ++ " " ++ or_empty message
                                           ++ toLoggableParams s2 false params
                                           ++ String JsString.line_feed (error_text ex))%string])
        else (s1, fx1)
    | None => (s1, fx1)
    end.

End Methods.

Inductive LogType : Type := type_debug | type_error | type_log | type_warn.

(** [willLog(type)]. *)
Definition willLog (type : LogType) (s : t) : bool :=
  match type with
  | type_debug => TraceLevel_eqb (_level s) Debug || _isDebugging s
  | type_error | type_warn => negb (TraceLevel_eqb (_level s) Silent) || _isDebugging s
  | type_log =>
      TraceLevel_eqb (_level s) Verbose || TraceLevel_eqb (_level s) Debug || _isDebugging s
  end.

(** [showOutputChannel()]. *)
Definition showOutputChannel (s : t) : t * list Effect :=
  match output s with
  | Some ch => (s, [Show ch])
  | None => (s, [])
  end.

(** [logGitCommand(command, ex)]. *)
Definition logGitCommand (clock : nat -> string) (command : string) (ex : option Error)
           (s : t) : t * list Effect :=
  if negb (TraceLevel_eqb (_level s) Debug) then (s, [])
  else
    let '(ch, s1, fx1) :=
      match gitOutput s with
      | Some ch => (ch, s, [])
      | None =>
          (channels s,
           {| output := output s; customLoggableFn := customLoggableFn s;
              _isDebugging := _isDebugging s; _level := _level s;
              gitOutput := Some (channels s);
              channels := S (channels s); reads := reads s |},
           [CreateOutputChannel (channels s) (extensionOutputChannelName ++ " (Git)")%string])
      end in
    let (ts, s2) := timestamp clock s1 in
    (s2, fx1 ++ [AppendLine ch (ts ++ " " ++ command
                                  ++ match ex with
                                     | Some e => String JsString.line_feed
                                                   (String JsString.line_feed (error_text e))
                                     | None => EmptyString
                                     end)%string]).

(** The argument of [toLoggableName]: a function, with its name and the
    name of [prototype.constructor] (absent when the prototype or its
    constructor is), or an object, with the name of its constructor. *)
Inductive Instance : Type :=
| FunctionInstance (name : string) (prototype_constructor : option (option string))
| ObjectInstance (constructor_name : option string).

(** The end of [toLoggableName]: what follows the first underscore. *)
Definition strip_module_name (name : string) : string :=
  let index := JsString.indexOf JsString.underscore name 0 in
  if (index =? -1)%Z then name else JsString.substr name (index + 1).

(** [toLoggableName(instance)]. *)
Definition toLoggableName (instance : Instance) : string :=
  match instance with
  | FunctionInstance name None => name
  | FunctionInstance _ (Some n) =>
      strip_module_name (match n with Some x => x | None => EmptyString end)
  | ObjectInstance n =>
      strip_module_name (match n with Some x => x | None => EmptyString end)
  end.

(** A call of the logger from the rest of the extension. *)
Inductive Call : Type :=
| Configure (development : bool) (level : TraceLevel)
            (loggableFn : option (Value -> option string))
| SetLevel (value : TraceLevel)
| CallDebug (contextOrMessage : ContextOrMessage) (params : list Value)
| CallError (ex : Error) (contextOrMessage : ContextOrMessage) (params : list Value)
| CallLog (contextOrMessage : ContextOrMessage) (params : list Value)
| CallLogWithDebugParams (contextOrMessage : ContextOrMessage) (params : list Value)
| CallWarn (contextOrMessage : ContextOrMessage) (params : list Value)
| CallLogGitCommand (command : string) (ex : option Error)
| CallShowOutputChannel.

Section Run.
Variable clock : nat -> string.
Variable caller_of_stack : string -> option string.

Definition step (c : Call) (s : t) : t * list Effect :=
  match c with
  | Configure development level loggableFn => configure development level loggableFn s
  | SetLevel value => set_level value s
  | CallDebug com params => debug clock com params s
  | CallError ex com params => error clock caller_of_stack ex com params s
  | CallLog com params => log clock com params s
  | CallLogWithDebugParams com params => logWithDebugParams clock com params s
  | CallWarn com params => warn clock com params s
  | CallLogGitCommand command ex => logGitCommand clock command ex s
  | CallShowOutputChannel => showOutputChannel s
  end.

(** The calls of a session, one after the other. *)
Fixpoint run (cs : list Call) (s : t) : t * list Effect :=
  match cs with
  | [] => (s, [])
  | c :: rest =>
      let (s1, fx1) := step c s in
      let (s2, fx2) := run rest s1 in
      (s2, fx1 ++ fx2)
  end.

End Run.

Definition is_open (ch : nat) (open : list nat) : bool := existsb (Nat.eqb ch) open.

(** The discipline of the output channels over a sequence of effects,
    from the channels [open] at its start: a channel is created once, and
    is written to, shown and disposed only while it is open. *)
Fixpoint channels_ok (open : list nat) (fx : list Effect) : bool :=
  match fx with
  | [] => true
  | CreateOutputChannel ch _ :: rest =>
      negb (is_open ch open) && channels_ok (ch :: open) rest
  | Dispose ch :: rest =>
      is_open ch open && channels_ok (filter (fun x => negb (Nat.eqb x ch)) open) rest
  | Show ch :: rest => is_open ch open && channels_ok open rest
  | AppendLine ch _ :: rest => is_open ch open && channels_ok open rest
  | Console _ _ _ _ _ _ :: rest => channels_ok open rest
  end.

(** The channels that are open after the effects [fx]. *)
Fixpoint open_after (open : list nat) (fx : list Effect) : list nat :=
  match fx with
  | [] => open
  | CreateOutputChannel ch _ :: rest => open_after (ch :: open) rest
  | Dispose ch :: rest => open_after (filter (fun x => negb (Nat.eqb x ch)) open) rest
  | _ :: rest => open_after open rest
  end.

(** What the logger knows of the channels agrees with the channels that
    are open. *)
Definition tracks (s : t) (open : list nat) : Prop :=
  (forall ch, is_open ch open = true <-> output s = Some ch \/ gitOutput s = Some ch) /\
  (forall ch, is_open ch open = true -> ch < channels s) /\
  (forall a b, output s = Some a -> gitOutput s = Some b -> a <> b).

(** The main channel is there exactly when the level is not [Silent]. *)
Definition channel_matches_level (s : t) : Prop :=
  output s = None <-> _level s = Silent.

(** An effect that opens and closes nothing, and touches no channel but
    the main one. *)
Definition uses_only (main : option nat) (e : Effect) : Prop :=
  match e with
  | Console _ _ _ _ _ _ => True
  | AppendLine ch _ | Show ch => main = Some ch
  | _ => False
  end.

(** What a state keeps through a call that sets no field but the count
    of clock readings. *)
Definition kept (s s' : t) : Prop :=
  output s' = output s /\
  gitOutput s' = gitOutput s /\
  channels s' = channels s /\
  _level s' = _level s /\
  _isDebugging s' = _isDebugging s /\
  customLoggableFn s' = customLoggableFn s.

End Logger.

(* ===================================================================== *)
(** ** Glyphs (constants.ts) *)
(* ===================================================================== *)

Module GlyphChars.
(** The characters of [GlyphChars] the code below writes, in UTF-8. *)
Definition utf8 (a b c : nat) : string :=
  String (Ascii.ascii_of_nat a)
    (String (Ascii.ascii_of_nat b) (String (Ascii.ascii_of_nat c) EmptyString)).

(** U+2190, U+2192, U+21C4, U+2026 and U+00A0. *)
Definition ArrowLeft : string := utf8 226 134 144.
Definition ArrowRight : string := utf8 226 134 146.
Definition ArrowsRightLeft : string := utf8 226 135 132.
Definition Ellipsis : string := utf8 226 128 166.
Definition Space : string :=
  String (Ascii.ascii_of_nat 194) (String (Ascii.ascii_of_nat 160) EmptyString).
End GlyphChars.

(* ===================================================================== *)
(** ** [BranchNode.getTreeItem]: the arrows of the description *)
(* ===================================================================== *)

Module BranchNodeTreeItem.

(** [GitRemoteType]: the two kinds the node tests for, and any other. *)
Inductive GitRemoteType : Type := Fetch | Push | OtherType.

(** The loop over [remote.urls]: [left] is set by a fetch url, [right] by
    a push url, and the loop breaks when both are set. *)
Fixpoint scan (urls : list GitRemoteType) (left right : bool) : bool * bool :=
  match urls with
  | [] => (left, right)
  | Fetch :: rest => if right then (true, right) else scan rest true right
  | Push :: rest => if left then (left, true) else scan rest left true
  | OtherType :: rest => scan rest left right
  end.

(** [arrows], from [let arrows = GlyphChars.Dash] to the end of the test
    on [remote]; [urls] is [None] when [getRemote()] gives no remote. *)
Definition arrows (urls : option (list GitRemoteType)) : string :=
  match urls with
  | None => GlyphChars_Dash
  | Some us =>
      let (left, right) := scan us false false in
      if left && right then GlyphChars.ArrowsRightLeft
      else if right then GlyphChars.ArrowRight
      else if left then GlyphChars.ArrowLeft
      else GlyphChars_Dash
  end.

Definition is_fetch (t : GitRemoteType) : bool :=
  match t with Fetch => true | _ => false end.

Definition is_push (t : GitRemoteType) : bool :=
  match t with Push => true | _ => false end.

End BranchNodeTreeItem.

(* ===================================================================== *)
(** ** [CommitNode] (views/nodes/commitNode.ts) *)
(* ===================================================================== *)

Module CommitNode.

(** The node, with what its members read of the commit and of the
    branch. *)
Record Commit : Type := { shortSha : string; message : string; ref : string }.
Record Branch : Type := { current : bool; sha : string }.

Record t : Type := {
  commit : Commit;
  unpublished : option bool;
  branch : option Branch
}.

(** [toClipboard()]. *)
Definition toClipboard (n : t) : string :=
  let message := message (commit n) in
  let index := JsString.indexOf JsString.line_feed message 0 in
  let message :=
    if negb (index =? -1)%Z
    then (JsString.substring message 0 index ++ GlyphChars.Space ++ GlyphChars.Ellipsis)%string
    else message in
  (shortSha (commit n) ++ ": " ++ message)%string.

End CommitNode.

(* ===================================================================== *)
(** ** [LineAnnotationController]: suspending, resuming, toggling *)
(* ===================================================================== *)

Module LineAnnotationToggle.

Definition set_enabled (b : bool) (c : LineAnnotationController.t)
  : LineAnnotationController.t :=
  {| LineAnnotationController._cancellation := LineAnnotationController._cancellation c;
     LineAnnotationController.cancelled := LineAnnotationController.cancelled c;
     LineAnnotationController.sources := LineAnnotationController.sources c;
     LineAnnotationController._editor := LineAnnotationController._editor c;
     LineAnnotationController._enabled := b;
     LineAnnotationController._suspended := LineAnnotationController._suspended c |}.

Definition set_suspended (b : bool) (c : LineAnnotationController.t)
  : LineAnnotationController.t :=
  {| LineAnnotationController._cancellation := LineAnnotationController._cancellation c;
     LineAnnotationController.cancelled := LineAnnotationController.cancelled c;
     LineAnnotationController.sources := LineAnnotationController.sources c;
     LineAnnotationController._editor := LineAnnotationController._editor c;
     LineAnnotationController._enabled := LineAnnotationController._enabled c;
     LineAnnotationController._suspended := b |}.

(** The controller with what [Container.lineTracker] holds for it:
    [subscribed] is [Container.lineTracker.isSubscribed(this)]. *)
Record t : Type := {
  controller : LineAnnotationController.t;
  subscribed : bool
}.

(** What is asked of the line tracker and of the controller itself. *)
Inductive Effect : Type :=
| TrackerStart
| TrackerStop
| RefreshCalled (editor : option LineAnnotationController.TextEditor)
| Controller (e : LineAnnotationController.Effect).

(** [setLineTracker(enabled)]. *)
Definition setLineTracker (enabled : bool) (s : t) : t * list Effect :=
  if enabled then
    if negb (subscribed s)
    then ({| controller := controller s; subscribed := true |}, [TrackerStart])
    else (s, [])
  else ({| controller := controller s; subscribed := false |}, [TrackerStop]).

(** [resume()]. *)
Definition resume (s : t) : bool * t * list Effect :=
  let (s1, fx) := setLineTracker true s in
  if LineAnnotationController._suspended (controller s1)
  then (true, {| controller := set_suspended false (controller s1);
                 subscribed := subscribed s1 |}, fx)
  else (false, s1, fx).

(** [suspend()]. *)
Definition suspend (s : t) : bool * t * list Effect :=
  let (s1, fx) := setLineTracker false s in
  if negb (LineAnnotationController._suspended (controller s1))
  then (true, {| controller := set_suspended true (controller s1);
                 subscribed := subscribed s1 |}, fx)
  else (false, s1, fx).

(** [await this.refresh(editor)], run to its end. *)
Definition refresh (host : LineAnnotationController.Host)
           (editor : option LineAnnotationController.TextEditor) (s : t)
  : t * list Effect :=
  let (c, fx) := LineAnnotationController.refresh host editor None (controller s) in
  ({| controller := c; subscribed := subscribed s |},
   RefreshCalled editor :: map Controller fx).

(** [toggle(editor)]. *)
Definition toggle (host : LineAnnotationController.Host)
           (editor : option LineAnnotationController.TextEditor) (s : t)
  : t * list Effect :=
  let c := controller s in
  let enabled :=
    negb (LineAnnotationController._enabled c
          && negb (LineAnnotationController.suspended c)) in
  let s0 := {| controller := set_enabled enabled c; subscribed := subscribed s |} in
  if enabled then
    let '(changed, s1, fx1) := resume s0 in
    if changed
    then let (s2, fx2) := refresh host editor s1 in (s2, fx1 ++ fx2)
    else (s1, fx1)
  else
    let '(changed, s1, fx1) := suspend s0 in
    if changed
    then let (s2, fx2) := refresh host editor s1 in (s2, fx1 ++ fx2)
    else (s1, fx1).

End LineAnnotationToggle.

(* ===================================================================== *)
(** ** The root nodes of the branches, contributors and remotes views *)
(* ===================================================================== *)

(** [BranchesViewNode] (views/branchesView.ts), [ContributorsViewNode]
    (views/contributorsView.ts) and [RemotesViewNode] (views/remotesView.ts)
    have the same [getChildren] and [getSplattedChild], up to the texts
    and to what is counted in the repository: the local branches, the
    contributors, the remotes. *)
Module ViewRoot.

(** The texts of one of the three classes. *)
Record Texts : Type := {
  none_found : string;
  title_word : string
}.

Definition branches : Texts :=
  {| none_found := "No branches could be found."; title_word := "Branches" |}.
Definition contributors : Texts :=
  {| none_found := "No contributors could be found."; title_word := "Contributors" |}.
Definition remotes : Texts :=
  {| none_found := "No remotes could be found."; title_word := "Remotes" |}.

Section Root.

(** What is counted: a branch, a contributor, a remote. *)
Variable Item : Type.
Variable texts : Texts.
(** The text [`${Strings.pad(GlyphChars.Warning, 0, 2)}Auto-refresh
    unavailable`]; system/string.ts is not among the sources. *)
Variable auto_refresh_unavailable : string.

(** A repository: [items] is what [getBranches({ filter })],
    [getContributors()] or [getRemotes()] settles to, and [node_children]
    tells whether [getChildren()] of the repository node made for it
    resolves, or with what it rejects. *)
Record Repository : Type := {
  path : string;
  supportsChangeEvents : bool;
  items : Outcome (list Item);
  node_children : Outcome unit
}.

(** A repository node the root has created, at its address. *)
Record RepositoryNode : Type := {
  address : nat;
  repo : Repository;
  splat : bool
}.

(** The fields of the view that the root writes. *)
Record View : Type := {
  message : option string;
  title : string;
  description : option string
}.

(** The calls that leave the node. *)
Inductive Event : Type :=
| GetOrderedRepositories
| GetItems (path : string)
| EnsureSubscription (address : nat)
| ChildGetChildren (address : nat).

Record State : Type := {
  children : option (list RepositoryNode);
  view : View;
  fresh : nat;
  trace : list Event
}.

(** What [getChildren] returns: a new empty array, the array
    [this.children] itself, or what [child.getChildren()] resolves to. *)
Inductive Returned : Type :=
| Empty
| Children (nodes : list RepositoryNode)
| OfChild (child : RepositoryNode).

Definition emit (e : Event) (s : State) : State :=
  {| children := children s; view := view s; fresh := fresh s; trace := trace s ++ [e] |}.

Definition set_message (m : option string) (s : State) : State :=
  {| children := children s;
     view := {| message := m; title := title (view s);
                description := description (view s) |};
     fresh := fresh s; trace := trace s |}.

Definition set_title (t : string) (s : State) : State :=
  {| children := children s;
     view := {| message := message (view s); title := t;
                description := description (view s) |};
     fresh := fresh s; trace := trace s |}.

Definition set_description (d : option string) (s : State) : State :=
  {| children := children s;
     view := {| message := message (view s); title := title (view s);
                description := d |};
     fresh := fresh s; trace := trace s |}.

(** [repositories.map(r => new ...RepositoryNode(..., r, splat))]. *)
Fixpoint new_nodes (at_ : nat) (splat : bool) (rs : list Repository) : list RepositoryNode :=
  match rs with
  | [] => []
  | r :: rest =>
      {| address := at_; repo := r; splat := splat |} :: new_nodes (S at_) splat rest
  end.

(** The first half of [getChildren]: [this.children], filled when it is
    undefined; [None] stands for the early [return []]. *)
Definition load (repositories : Outcome (list Repository)) (s : State)
  : Outcome (option (list RepositoryNode)) * State :=
  match children s with
  | Some cs => (Resolved (Some cs), s)
  | None =>
      let s1 := emit GetOrderedRepositories s in
      match repositories with
      | Rejected e => (Rejected e, s1)
      | Resolved [] => (Resolved None, set_message (Some (none_found texts)) s1)
      | Resolved rs =>
          let cs := new_nodes (fresh s1) (Nat.eqb (List.length rs) 1) rs in
          (Resolved (Some cs),
           {| children := Some cs;
              view := view (set_message None s1);
              fresh := fresh s1 + List.length rs;
              trace := trace s1 |})
      end
  end.

(** [getChildren()]; [repositories] is what
    [Container.git.getOrderedRepositories()] settles to. *)
Definition getChildren (repositories : Outcome (list Repository)) (s : State)
  : Outcome Returned * State :=
  match load repositories s with
  | (Rejected e, s1) => (Rejected e, s1)
  | (Resolved None, s1) => (Resolved Empty, s1)
  | (Resolved (Some [child]), s1) =>
      let s2 :=
        if negb (supportsChangeEvents (repo child))
        then set_description (Some auto_refresh_unavailable) s1 else s1 in
      let s3 := emit (GetItems (path (repo child))) s2 in
      match items (repo child) with
      | Rejected e => (Rejected e, s3)
      | Resolved [] =>
          (Resolved Empty,
           emit (EnsureSubscription (address child))
             (set_title (title_word texts) (set_message (Some (none_found texts)) s3)))
      | Resolved found =>
          let s4 :=
            emit (ChildGetChildren (address child))
              (set_title (title_word texts ++ " ("
                            ++ JsString.of_nat (List.length found) ++ ")")%string
                 (set_message None s3)) in
          match node_children (repo child) with
          | Resolved _ => (Resolved (OfChild child), s4)
          | Rejected e => (Rejected e, s4)
          end
      end
  | (Resolved (Some cs), s1) => (Resolved (Children cs), s1)
  end.

(** [getSplattedChild()]. *)
Definition getSplattedChild (repositories : Outcome (list Repository)) (s : State)
  : Outcome (option RepositoryNode) * State :=
  let (r, s1) :=
    match children s with
    | None => getChildren repositories s
    | Some _ => (Resolved Empty, s)
    end in
  match r with
  | Rejected e => (Rejected e, s1)
  | Resolved _ =>
      (Resolved match children s1 with
                | Some [child] => Some child
                | _ => None
                end, s1)
  end.

End Root.

End ViewRoot.

(* ===================================================================== *)
(** ** [RepositoriesView]: auto refresh (views/repositoriesView.ts) *)
(* ===================================================================== *)

Module RepositoriesViewAutoRefresh.

(** What the view reads and writes: [config.autoRefresh], the value
    stored in the workspace state under
    [WorkspaceState.ViewsRepositoriesAutoRefresh] (if any), the value last
    given to [setContext] for [ContextKeys.ViewsRepositoriesAutoRefresh]
    (if any), and the number of times [onDidChangeAutoRefresh] fired. *)
Record t : Type := {
  config_autoRefresh : bool;
  workspaceState : option bool;
  context : option bool;
  fired : nat
}.

(** [workspaceState.get<boolean>(key, true)]. *)
Definition workspace_get (s : t) : bool :=
  match workspaceState s with
  | Some b => b
  | None => true
  end.

(** [get autoRefresh()]. *)
Definition autoRefresh (s : t) : bool := config_autoRefresh s && workspace_get s.

(** [setAutoRefresh(enabled, workspaceEnabled)]; [update] is what
    [workspaceState.update] settles to when it is called. *)
Definition setAutoRefresh (update : Outcome unit) (enabled : bool)
           (workspaceEnabled : option bool) (s : t) : Outcome unit * t :=
  let stored :=
    if enabled then
      match workspaceEnabled with
      | None => (Resolved (Some (workspace_get s)), s)
      | Some b =>
          match update with
          | Resolved _ =>
              (Resolved (Some b),
               {| config_autoRefresh := config_autoRefresh s; workspaceState := Some b;
                  context := context s; fired := fired s |})
          | Rejected e => (Rejected e, s)
          end
      end
    else (Resolved workspaceEnabled, s) in
  match stored with
  | (Rejected e, s1) => (Rejected e, s1)
  | (Resolved workspaceEnabled, s1) =>
      (Resolved tt,
       {| config_autoRefresh := config_autoRefresh s1;
          workspaceState := workspaceState s1;
          context := Some (enabled && match workspaceEnabled with
                                      | Some b => b
                                      | None => false
                                      end);
          fired := S (fired s1) |})
  end.

(** The three callers: the commands [setAutoRefreshToOn] and
    [setAutoRefreshToOff], and [onConfigurationChanged] when the setting
    has changed. *)
Inductive Call : Type := SetAutoRefreshTo (on : bool) | ConfigurationChanged (autoRefresh : bool).

Definition call (update : Outcome unit) (c : Call) (s : t) : Outcome unit * t :=
  match c with
  | SetAutoRefreshTo on => setAutoRefresh update (config_autoRefresh s) (Some on) s
  | ConfigurationChanged value =>
      let s1 := {| config_autoRefresh := value; workspaceState := workspaceState s;
                   context := context s; fired := fired s |} in
      setAutoRefresh update (config_autoRefresh s1) None s1
  end.

End RepositoriesViewAutoRefresh.

(* ===================================================================== *)
(** ** [GitHubRemote] (git/remotes/github.ts) *)
(* ===================================================================== *)

Module GitHubRemote.

(** The provider: [domain] and [path] are given to the constructor,
    [baseUrl] is computed by the base class, which is not among the
    sources. *)
Record t : Type := { domain : string; path : string; baseUrl : string }.

(** A [Range], as far as [getUrlForFile] reads it: [range.start.line]
    and [range.end.line]. *)
Record Range : Type := { start_line : nat; end_line : nat }.

(** What [getLocalInfoFromRemoteUri] reads of a [Uri]. *)
Record Uri : Type := { authority : string; uri_path : string; fragment : string }.

(** The [line] suffix of [getUrlForFile]. *)
Definition line_suffix (range : option Range) : string :=
  match range with
  | Some r =>
      if Nat.eqb (start_line r) (end_line r)
      then ("#L" ++ JsString.of_nat (start_line r))%string
      else ("#L" ++ JsString.of_nat (start_line r)
              ++ "-L" ++ JsString.of_nat (end_line r))%string
  | None => EmptyString
  end.

(** The text of an optional argument that is given. *)
Definition given (o : option string) : string :=
  match o with Some x => x | None => EmptyString end.

(** [getUrlForFile(fileName, branch, sha, range)]. *)
Definition getUrlForFile (r : t) (fileName : string) (branch sha : option string)
           (range : option Range) : string :=
  let line := line_suffix range in
  if truthy_opt_string sha
  then (baseUrl r ++ "/blob/" ++ given sha ++ "/" ++ fileName ++ line)%string
  else if truthy_opt_string branch
       then (baseUrl r ++ "/blob/" ++ given branch ++ "/" ++ fileName ++ line)%string
       else (baseUrl r ++ "?path=" ++ fileName ++ line)%string.

(** [\d]. *)
Definition is_digit (a : ascii) : bool :=
  (48 <=? nat_of_ascii a) && (nat_of_ascii a <=? 57).

(** The digits a string starts with, and the rest. *)
Fixpoint take_digits (s : string) : string * string :=
  match s with
  | EmptyString => (EmptyString, EmptyString)
  | String a r =>
      if is_digit a
      then let (d, rest) := take_digits r in (String a d, rest)
      else (EmptyString, s)
  end.

(** [rangeRegex.exec(s)] for [/^L(\d+)(?:-L(\d+))?$/]: the two groups.
    The expression leaves no choice: a run of digits is taken whole,
    since what follows it must be a hyphen or the end. *)
Definition rangeRegex_exec (s : string) : option (string * option string) :=
  match s with
  | String c r =>
      if Ascii.eqb c "L" then
        let (start, r1) := take_digits r in
        if String.eqb start EmptyString then None
        else
          match r1 with
          | EmptyString => Some (start, None)
          | String c1 (String c2 r2) =>
              if Ascii.eqb c1 "-" && Ascii.eqb c2 "L" then
                let (end_, r3) := take_digits r2 in
                if negb (String.eqb end_ EmptyString) && String.eqb r3 EmptyString
                then Some (start, Some end_) else None
              else None
          | _ => None
          end
      else None
  | EmptyString => None
  end.

(** [parseInt(digits, 10)] on a match of [\d+]; [None] is [NaN]. *)
Definition parseInt (digits : string) : option nat :=
  match digits with
  | EmptyString => None
  | _ => option_map Nat.of_uint (DecimalString.NilEmpty.uint_of_string digits)
  end.

(** [startLine] and [endLine], as read from [uri.fragment]. *)
Definition lines_of (fragment : string) : option nat * option nat :=
  if truthy_string fragment then
    match rangeRegex_exec fragment with
    | Some (start, end_) =>
        if truthy_string start then
          (parseInt start,
           match end_ with
           | Some e => if truthy_string e then parseInt e else None
           | None => None
           end)
        else (None, None)
    | None => (None, None)
    end
  else (None, None).

(** The units a string starts with up to its first slash, and the rest. *)
Fixpoint segment (s : string) : string * string :=
  match s with
  | EmptyString => (EmptyString, EmptyString)
  | String a r =>
      if Ascii.eqb a JsString.slash then (EmptyString, s)
      else let (seg, rest) := segment r in (String a seg, rest)
  end.

(** A letter of the expression against a unit of the text, under the
    [i] flag. *)
Definition same_letter (lower upper a : ascii) : bool :=
  Ascii.eqb a lower || Ascii.eqb a upper.

(** [.]: any unit but a line terminator. *)
Definition is_line_terminator (a : ascii) : bool :=
  Ascii.eqb a JsString.line_feed || Ascii.eqb a (Ascii.ascii_of_nat 13).

Fixpoint no_line_terminator (s : string) : bool :=
  match s with
  | EmptyString => true
  | String a r => negb (is_line_terminator a) && no_line_terminator r
  end.

(** [fileRegex.exec(path)] for [/^\/([^/]+)\/([^/]+?)\/blob(.+)$/i]: the
    third group.  The first two groups are the first two segments of the
    path, whatever the order in which the expression tries them. *)
Definition fileRegex_exec (p : string) : option string :=
  match p with
  | String c r =>
      if Ascii.eqb c JsString.slash then
        let (owner, r1) := segment r in
        if String.eqb owner EmptyString then None
        else
          match r1 with
          | String _ r2 =>
              let (repo, r3) := segment r2 in
              if String.eqb repo EmptyString then None
              else
                match r3 with
                | String _ (String b (String l (String o (String b' rest)))) =>
                    if same_letter "b" "B" b && same_letter "l" "L" l
                       && same_letter "o" "O" o && same_letter "b" "B" b'
                       && negb (String.eqb rest EmptyString) && no_line_terminator rest
                    then Some rest else None
                | _ => None
                end
          | EmptyString => None
          end
      else None
  | EmptyString => None
  end.

Record Info : Type := {
  info_uri : string;
  startLine : option nat;
  endLine : option nat
}.

Inductive Event : Type := GetBranches.

Section Lookup.

(** [GitRevision.isSha] (git/models/models.ts is not among the sources)
    and [repository.toAbsoluteUri(path, { validate })]. *)
Variable isSha : string -> bool.
Variable toAbsoluteUri : string -> option bool -> option string.

(** One candidate of the loop: the branch named by the path up to the
    slash at [index], and the file after it. *)
Definition candidate (branches : list string) (validate : option bool) (path : string)
           (index : Z) : option string :=
  if includes (JsString.substring path 1 index) branches
  then toAbsoluteUri (JsString.substr path index) validate
  else None.

(** The [do ... while (index > 0)] loop, entered with [index]; [fuel]
    bounds the number of turns, and [None] tells that it ran out. *)
Fixpoint search (fuel : nat) (branches : list string) (validate : option bool)
         (path : string) (index : Z) : option (option string) :=
  match fuel with
  | 0 => None
  | S fuel' =>
      let index := JsString.lastIndexOf JsString.slash path (index - 1) in
      match candidate branches validate path index with
      | Some uri => Some (Some uri)
      | None =>
          if (index >? 0)%Z then search fuel' branches validate path index
          else Some None
      end
  end.

(** The check for a permalink. *)
Definition permalink (validate : option bool) (path : string) : option string :=
  let index := JsString.indexOf JsString.slash path 1 in
  if negb (index =? -1)%Z then
    if isSha (JsString.substring path 1 index)
    then toAbsoluteUri (JsString.substr path index) validate
    else None
  else None.

(** [getLocalInfoFromRemoteUri(repository, uri, options)];
    [remote_branches] is what [repository.getBranches({ filter: b =>
    b.remote })] settles to, as the names without the remote, and
    [validate] is [options?.validate].  The result is [None] when the
    model of the loop runs out of fuel. *)
Definition getLocalInfoFromRemoteUri (r : t) (remote_branches : Outcome (list string))
           (uri : Uri) (validate : option bool)
  : option (Outcome (option Info)) * list Event :=
  if negb (String.eqb (authority uri) (domain r)) then (Some (Resolved None), [])
  else if match validate with Some v => v | None => true end
          && negb (startsWith (uri_path uri) ("/" ++ path r ++ "/")%string)
       then (Some (Resolved None), [])
       else
         let (startLine, endLine) := lines_of (fragment uri) in
         let found (u : string) :=
           Resolved (Some {| info_uri := u; startLine := startLine; endLine := endLine |}) in
         match fileRegex_exec (uri_path uri) with
         | None => (Some (Resolved None), [])
         | Some path =>
             match permalink validate path with
             | Some u => (Some (found u), [])
             | None =>
                 match remote_branches with
                 | Rejected e => (Some (Rejected e), [GetBranches])
                 | Resolved names =>
                     (match search (S (String.length path)) names validate path
                                   (JsString.length path) with
                      | Some (Some u) => Some (found u)
                      | Some None => Some (Resolved None)
                      | None => None
                      end, [GetBranches])
                 end
             end
         end.

End Lookup.

End GitHubRemote.

(* ===================================================================== *)
(** ** The tracker nodes of the file and line history views
       (views/nodes/fileHistoryTrackerNode.ts, lineHistoryTrackerNode.ts) *)
(* ===================================================================== *)

Module HistoryTracker.

(** What the trackers read of a [Uri] or [GitUri]. *)
Record Uri : Type := {
  path : string;
  sha : option string;
  repoPath : option string
}.

Inductive Effect : Type :=
| DisposeChild (child : nat)
| SetContextCanPin (value : bool).

Section Tracker.

(** The selections of the editor, with [a.isEqual(b)]. *)
Variable Selection : Type.
Variable isEqual : Selection -> Selection -> bool.

(** The active editor, as far as the trackers read it. *)
Record TextEditor : Type := {
  document_uri : Uri;
  selection : Selection;
  isDirty : bool;
  getText : string
}.

(** The window and the collaborators; [visible_paths] holds
    [e.document?.uri.path] for each visible editor. *)
Record Env : Type := {
  activeTextEditor : option TextEditor;
  isTrackable : Uri -> bool;
  visible_paths : list (option string);
  fromUri : Uri -> Outcome Uri;
  getWorkingUri : Uri -> Outcome (option Uri);
  equals : Uri -> Uri -> bool
}.

(** The node: [_uri] is [None] for [unknownGitUri]; [_child] is the
    history node, by address; the last two fields are those of the line
    history tracker. *)
Record t : Type := {
  _uri : option Uri;
  _child : option nat;
  _base : option string;
  _editorContents : option string;
  _selection : option Selection
}.

(** [unknownGitUri] of views/nodes/viewNode.ts, which is not among the
    sources. *)
Variable unknownGitUri : Uri.

(** [this.uri]. *)
Definition uri (n : t) : Uri :=
  match _uri n with Some u => u | None => unknownGitUri end.

(** [get hasUri()]. *)
Definition hasUri (n : t) : bool := is_some (_uri n).

(** [setUri(uri?)]. *)
Definition setUri (u : option Uri) (n : t) : t * list Effect :=
  ({| _uri := u; _child := _child n; _base := _base n;
      _editorContents := _editorContents n; _selection := _selection n |},
   [SetContextCanPin (is_some u)]).

(** [resetChild()]. *)
Definition resetChild (n : t) : t * list Effect :=
  match _child n with
  | None => (n, [])
  | Some c =>
      ({| _uri := _uri n; _child := None; _base := _base n;
          _editorContents := _editorContents n; _selection := _selection n |},
       [DisposeChild c])
  end.

(** The line history tracker forgets the text and the selection. *)
Definition forget_selection (n : t) : t :=
  {| _uri := _uri n; _child := _child n; _base := _base n;
     _editorContents := None; _selection := None |}.

Definition remember_selection (e : TextEditor) (n : t) : t :=
  {| _uri := _uri n; _child := _child n; _base := _base n;
     _editorContents := if isDirty e then Some (getText e) else None;
     _selection := Some (selection e) |}.

(** [setUri(u); resetChild()], with the forgetting or remembering of the
    line history tracker in between. *)
Definition reset_to (u : option Uri) (between : t -> t) (n : t) : t * list Effect :=
  let (n1, fx1) := setUri u n in
  let (n2, fx2) := resetChild (between n1) in
  (n2, fx1 ++ fx2).

(** The editor is there and its document is trackable. *)
Definition trackable_editor (env : Env) : option TextEditor :=
  match activeTextEditor env with
  | Some e => if isTrackable env (document_uri e) then Some e else None
  | None => None
  end.

(** The test made when no editor can be tracked: the node has no uri, or
    its file is still shown in a visible editor. *)
Definition still_shown (env : Env) (n : t) : bool :=
  negb (hasUri n)
  || (isTrackable env (uri n)
      && existsb (fun p => match p with
                           | Some x => String.eqb x (path (uri n))
                           | None => false
                           end) (visible_paths env)).

(** [FileHistoryTrackerNode.refresh(reset = false)]. *)
Definition FileHistory_refresh (env : Env) (reset : bool) (n : t)
  : Outcome bool * t * list Effect :=
  let (n0, fx0) := if reset then reset_to None (fun x => x) n else (n, []) in
  match trackable_editor env with
  | None =>
      if still_shown env n0 then (Resolved true, n0, fx0)
      else let (n1, fx1) := reset_to None (fun x => x) n0 in (Resolved false, n1, fx0 ++ fx1)
  | Some editor =>
      if String.eqb (path (document_uri editor)) (path (uri n0))
      then (Resolved true, n0, fx0)
      else
        match fromUri env (document_uri editor) with
        | Rejected e => (Rejected e, n0, fx0)
        | Resolved gitUri =>
            let working :=
              match sha gitUri with
              | Some _ => getWorkingUri env gitUri
              | None => Resolved None
              end in
            match working with
            | Rejected e => (Rejected e, n0, fx0)
            | Resolved u =>
                if hasUri n0
                   && equals env (match u with Some w => w | None => gitUri end) (uri n0)
                then (Resolved true, n0, fx0)
                else
                  match match u with
                        | Some w => fromUri env w
                        | None => Resolved gitUri
                        end with
                  | Rejected e => (Rejected e, n0, fx0)
                  | Resolved gitUri' =>
                      let (n1, fx1) := reset_to (Some gitUri') (fun x => x) n0 in
                      (Resolved false, n1, fx0 ++ fx1)
                  end
            end
        end
  end.

(** [LineHistoryTrackerNode.refresh(reset = false)]. *)
Definition LineHistory_refresh (env : Env) (reset : bool) (n : t)
  : Outcome bool * t * list Effect :=
  let (n0, fx0) := if reset then reset_to None forget_selection n else (n, []) in
  let same_selection (editor : TextEditor) :=
    match _selection n0 with
    | Some s => isEqual (selection editor) s
    | None => false
    end in
  match trackable_editor env with
  | None =>
      if still_shown env n0 then (Resolved true, n0, fx0)
      else let (n1, fx1) := reset_to None forget_selection n0 in
           (Resolved false, n1, fx0 ++ fx1)
  | Some editor =>
      if String.eqb (path (document_uri editor)) (path (uri n0)) && same_selection editor
      then (Resolved true, n0, fx0)
      else
        match fromUri env (document_uri editor) with
        | Rejected e => (Rejected e, n0, fx0)
        | Resolved gitUri =>
            if hasUri n0 && equals env gitUri (uri n0) && same_selection editor
            then (Resolved true, n0, fx0)
            else
              let (n1, fx1) := reset_to (Some gitUri) (remember_selection editor) n0 in
              (Resolved false, n1, fx0 ++ fx1)
        end
  end.

(** What the result of a [refresh] tells about the node: [false] only
    when the child is gone; without [reset], any other outcome only when
    the node is as it was and nothing was done; and the child is disposed
    exactly when it was there and is gone. *)
Definition refresh_tells (reset : bool) (n : t) (r : Outcome bool * t * list Effect)
  : Prop :=
  let '(o, n', fx) := r in
  (o = Resolved false -> _child n' = None) /\
  (reset = false -> o <> Resolved false -> n' = n /\ fx = []) /\
  (forall c, In (DisposeChild c) fx <-> _child n = Some c /\ _child n' = None).

End Tracker.

End HistoryTracker.

(* ===================================================================== *)
(** ** The commands that copy a message or a sha to the clipboard
       (commands/copyMessageToClipboard.ts, copyShaToClipboard.ts) *)
(* ===================================================================== *)

Module CopyToClipboard.

(** What the commands read of a commit, of a [GitUri] and of the editor. *)
Record GitCommit : Type := {
  sha : string;
  message : string;
  isUncommitted : bool;
  repoPath : string
}.

Record GitUri : Type := { uri_repoPath : option string }.

Record TextEditor : Type := {
  active_line : Z;
  isDirty : bool;
  getText : string
}.

Section Commands.

(** The uris of vscode, which the commands only pass on, and
    [getCommandUri] of commands/common.ts, which is not among the
    sources. *)
Variable Uri : Type.
Variable getCommandUri : option Uri -> option TextEditor -> option Uri.

(** The reason of the [TypeError] of reading a property of [undefined]. *)
Variable type_error : string.

(** [Container.git], [GitUri.fromUri] and [env.clipboard], by what each
    call settles to. *)
Record Env : Type := {
  getActiveRepoPath : option TextEditor -> Outcome (option string);
  getLog : string -> nat -> Outcome (option (list GitCommit));
  fromUri : Uri -> Outcome GitUri;
  getBlameForLine : GitUri -> Z -> Outcome (option GitCommit);
  getBlameForLineContents : GitUri -> Z -> string -> Outcome (option GitCommit);
  getCommit : option string -> string -> Outcome (option GitCommit);
  writeText : string -> Outcome unit
}.

(** What a command does, in order. *)
Inductive Effect : Type :=
| GetActiveRepoPath
| GetLog (repoPath : string) (limit : nat)
| FromUri (uri : Uri)
| GetBlameForLine (gitUri : GitUri) (line : Z)
| GetBlameForLineContents (gitUri : GitUri) (line : Z) (contents : string)
| GetCommit (repoPath : option string) (sha : string)
| WriteText (text : string)
| LoggerError (ex : string) (classOrMethod : string) (params : list string)
| ShowGenericErrorMessage (message : string).

Definition Command (A : Type) : Type := Task (list Effect) A.

Definition call {A : Type} (e : Effect) (settles : Outcome A) : Command A :=
  fun done => (settles, done ++ [e]).

(** [try { body } catch (ex) { handler }]. *)
Definition try_catch {A : Type} (body : Command A) (handler : string -> Command A)
  : Command A :=
  fun done =>
    match body done with
    | (Rejected ex, done1) => handler ex done1
    | settled => settled
    end.

(** [Logger.error(ex, classOrMethod, ...params)] and then
    [void Messages.showGenericErrorMessage(text)]. *)
Definition report (ex classOrMethod : string) (params : list string) (text : string)
  : Command unit :=
  fun done =>
    (Resolved tt, done ++ [LoggerError ex classOrMethod params;
                           ShowGenericErrorMessage text]).

(** [Iterables.first(log.commits.values())], of which a property is read
    next. *)
Definition first_commit (commits : list GitCommit) : Command GitCommit :=
  fun done =>
    (match commits with c :: _ => Resolved c | [] => Rejected type_error end, done).

(** [editor?.selection.active.line ?? 0]. *)
Definition blameline (editor : option TextEditor) : Z :=
  match editor with Some e => active_line e | None => 0%Z end.

(** The blame of the line, of the contents of a dirty document. *)
Definition blame (env : Env) (editor : option TextEditor) (gitUri : GitUri) (line : Z)
  : Command (option GitCommit) :=
  match editor with
  | Some e =>
      if isDirty e
      then call (GetBlameForLineContents gitUri line (getText e))
                (getBlameForLineContents env gitUri line (getText e))
      else call (GetBlameForLine gitUri line) (getBlameForLine env gitUri line)
  | None => call (GetBlameForLine gitUri line) (getBlameForLine env gitUri line)
  end.

(** The parameter [`getBlameForLine(${blameline})`] of the log entry. *)
Definition blame_param (line : Z) : string :=
  "getBlameForLine(" ++ JsString.of_nat (Z.to_nat line) ++ ")".

Definition write (env : Env) (text : string) : Command unit :=
  call (WriteText text) (writeText env text).


(** [CopyMessageToClipboardCommand.execute(editor, uri, args)]; the
    inner [try] gives the sha and the repository path, or [None] where
    the method returns. *)
Definition CopyMessage_execute (env : Env) (editor : option TextEditor)
           (uri : option Uri) (args_message args_sha : option string)
  : Command unit :=
  let failed := "Unable to copy message"%string in
  try_catch
    (match getCommandUri uri editor with
     | None =>
         (repoPath <- call GetActiveRepoPath (getActiveRepoPath env editor) ;;
          match repoPath with
          | None => ret tt
          | Some path =>
              if negb (truthy_string path) then ret tt
              else
                log <- call (GetLog path 1) (getLog env path 1) ;;
                match log with
                | None => ret tt
                | Some commits =>
                    c <- first_commit commits ;;
                    write env (message c)
                end
          end)%task
     | Some u =>
         match args_message with
         | Some m => write env m
         | None =>
             (gitUri <- call (FromUri u) (fromUri env u) ;;
              let repoPath := uri_repoPath gitUri in
              found <-
                match args_sha with
                | Some s => ret (Some (s, repoPath))
                | None =>
                    let line := blameline editor in
                    if (line <? 0)%Z then ret None
                    else
                      try_catch
                        (b <- blame env editor gitUri line ;;
                         match b with
                         | None => ret None
                         | Some c =>
                             if isUncommitted c then ret None
                             else ret (Some (sha c,
                                             if truthy_opt_string repoPath
                                             then repoPath
                                             else Some (CopyToClipboard.repoPath c)))
                         end)
                        (fun ex =>
                           report ex "CopyMessageToClipboardCommand"
                                  [blame_param line] failed ;;;
                           ret None)
                end ;;
              match found with
              | None => ret tt
              | Some (s, path) =>
                  commit <- call (GetCommit path s) (getCommit env path s) ;;
                  match commit with
                  | None => ret tt
                  | Some c => write env (message c)
                  end
              end)%task
         end
     end)
    (fun ex => report ex "CopyMessageToClipboardCommand" [] failed).

(** [CopyShaToClipboardCommand.execute(editor, uri, args)]. *)
Definition CopySha_execute (env : Env) (editor : option TextEditor)
           (uri : option Uri) (args_sha : option string)
  : Command unit :=
  let failed := "Unable to copy commit SHA"%string in
  try_catch
    (match getCommandUri uri editor with
     | None =>
         (repoPath <- call GetActiveRepoPath (getActiveRepoPath env editor) ;;
          match repoPath with
          | None => ret tt
          | Some path =>
              if negb (truthy_string path) then ret tt
              else
                log <- call (GetLog path 1) (getLog env path 1) ;;
                match log with
                | None => ret tt
                | Some commits =>
                    c <- first_commit commits ;;
                    write env (sha c)
                end
          end)%task
     | Some u =>
         match args_sha with
         | Some s => write env s
         | None =>
             let line := blameline editor in
             if (line <? 0)%Z then ret tt
             else
               (found <-
                  try_catch
                    (gitUri <- call (FromUri u) (fromUri env u) ;;
                     b <- blame env editor gitUri line ;;
                     match b with
                     | None => ret None
                     | Some c => ret (Some (sha c))
                     end)
                    (fun ex =>
                       report ex "CopyShaToClipboardCommand" [blame_param line] failed ;;;
                       ret None) ;;
                match found with
                | None => ret tt
                | Some s => write env s
                end)%task
         end
     end)
    (fun ex => report ex "CopyShaToClipboardCommand" [] failed).

(** The reason with which a promise rejects, if it does. *)
Definition reason {A : Type} (settles : Outcome A) : option string :=
  match settles with
  | Rejected ex => Some ex
  | Resolved _ => None
  end.

(** The failure that a step of a command meets: the rejection of the call
    it awaits, or, for a log that holds no commit, the [TypeError] of
    reading a property of its first commit. *)
Definition fails (env : Env) (editor : option TextEditor) (e : Effect) : option string :=
  match e with
  | GetActiveRepoPath => reason (getActiveRepoPath env editor)
  | GetLog repoPath limit =>
      match getLog env repoPath limit with
      | Rejected ex => Some ex
      | Resolved (Some []) => Some type_error
      | Resolved _ => None
      end
  | FromUri uri => reason (fromUri env uri)
  | GetBlameForLine gitUri line => reason (getBlameForLine env gitUri line)
  | GetBlameForLineContents gitUri line contents =>
      reason (getBlameForLineContents env gitUri line contents)
  | GetCommit repoPath sha => reason (getCommit env repoPath sha)
  | WriteText text => reason (writeText env text)
  | LoggerError _ _ _ | ShowGenericErrorMessage _ => None
  end.

(** Failures and reports answer each other: every step of [done] that
    fails is reported by a log entry with its reason, and every log
    entry, which names the class [classOrMethod], gives the reason of a
    step of [done] that fails. *)
Definition reports_failures (classOrMethod : string) (env : Env)
           (editor : option TextEditor) (done : list Effect) : Prop :=
  (forall e ex, In e done -> fails env editor e = Some ex ->
                exists params, In (LoggerError ex classOrMethod params) done) /\
  (forall ex tag params, In (LoggerError ex tag params) done ->
                         tag = classOrMethod /\
                         exists e, In e done /\ fails env editor e = Some ex).

(** The discipline of what a command does: a failure is reported by one
    log entry followed by the message [text], and that ends the command;
    the clipboard is written once at most, and after that only a report
    may follow. *)
Fixpoint disciplined (text : string) (done : list Effect) : bool :=
  match done with
  | [] => true
  | LoggerError _ _ _ :: rest =>
      match rest with
      | [ShowGenericErrorMessage m] => String.eqb m text
      | _ => false
      end
  | ShowGenericErrorMessage _ :: _ => false
  | WriteText _ :: rest =>
      match rest with
      | [] => true
      | [LoggerError _ _ _; ShowGenericErrorMessage m] => String.eqb m text
      | _ => false
      end
  | _ :: rest => disciplined text rest
  end.

End Commands.

Arguments GetActiveRepoPath {Uri}.
Arguments GetLog {Uri} repoPath limit.
Arguments GetBlameForLine {Uri} gitUri line.
Arguments GetBlameForLineContents {Uri} gitUri line contents.
Arguments GetCommit {Uri} repoPath sha.
Arguments WriteText {Uri} text.
Arguments LoggerError {Uri} ex classOrMethod params.
Arguments ShowGenericErrorMessage {Uri} message.

End CopyToClipboard.

(* ===================================================================== *)
(** ** [AzureDevOpsRemote] (git/remotes/azure-devops.ts) *)
(* ===================================================================== *)

Module AzureDevOpsRemote.

Record t : Type := { domain : string; path : string; baseUrl : string }.

(** What [getLocalInfoFromRemoteUri] reads of a [Uri]. *)
Record Uri : Type := { authority : string; query : string }.

(** The [line] suffix of [getUrlForFile]. *)
Definition line_suffix (range : option GitHubRemote.Range) : string :=
  match range with
  | Some r =>
      if Nat.eqb (GitHubRemote.start_line r) (GitHubRemote.end_line r)
      then ("&line=" ++ JsString.of_nat (GitHubRemote.start_line r))%string
      else ("&line=" ++ JsString.of_nat (GitHubRemote.start_line r)
              ++ "&lineEnd=" ++ JsString.of_nat (GitHubRemote.end_line r))%string
  | None => EmptyString
  end.

(** [getUrlForFile(fileName, branch, sha, range)]. *)
Definition getUrlForFile (r : t) (fileName : string) (branch sha : option string)
           (range : option GitHubRemote.Range) : string :=
  let line := line_suffix range in
  if truthy_opt_string sha
  then (baseUrl r ++ "/commit/" ++ GitHubRemote.given sha ++ "/?_a=contents&path=/"
          ++ fileName ++ line)%string
  else if truthy_opt_string branch
       then (baseUrl r ++ "/?path=/" ++ fileName ++ "&version=GB"
               ++ GitHubRemote.given branch ++ "&_a=contents" ++ line)%string
       else (baseUrl r ++ "?path=/" ++ fileName ++ line)%string.

(** What follows [literal] at the start of [s], if [s] starts with it. *)
Fixpoint after (literal s : string) : option string :=
  match literal, s with
  | EmptyString, _ => Some s
  | String a l, String b r => if Ascii.eqb a b then after l r else None
  | String _ _, EmptyString => None
  end.

(** Whether [literal] occurs in [s]. *)
Fixpoint occurs (literal s : string) : bool :=
  match after literal s with
  | Some _ => true
  | None =>
      match s with
      | String _ r => occurs literal r
      | EmptyString => false
      end
  end.

(** [/line=(\d+)(?:&lineEnd=(\d+))?/] tried at the start of [s]: the two
    groups.  A run of digits is taken whole: with fewer digits the
    optional part, which starts with an ampersand, would not match
    either, and it is not needed for a match. *)
Definition rangeRegex_at (s : string) : option (string * option string) :=
  match after "line=" s with
  | Some r =>
      let (start, r1) := GitHubRemote.take_digits r in
      if String.eqb start EmptyString then None
      else
        match after "&lineEnd=" r1 with
        | Some r2 =>
            let (end_, _) := GitHubRemote.take_digits r2 in
            if String.eqb end_ EmptyString then Some (start, None)
            else Some (start, Some end_)
        | None => Some (start, None)
        end
  | None => None
  end.

(** [rangeRegex.exec(s)]: the match that starts first. *)
Fixpoint rangeRegex_exec (s : string) : option (string * option string) :=
  match rangeRegex_at s with
  | Some groups => Some groups
  | None =>
      match s with
      | String _ r => rangeRegex_exec r
      | EmptyString => None
      end
  end.

(** The units a string starts with up to its first ampersand. *)
Fixpoint until_ampersand (s : string) : string :=
  match s with
  | EmptyString => EmptyString
  | String a r => if Ascii.eqb a "&" then EmptyString else String a (until_ampersand r)
  end.

(** [/path=([^&]+)/i] tried at the start of [s]: the group. *)
Definition fileRegex_at (s : string) : option string :=
  match s with
  | String p (String a (String t (String h (String e r)))) =>
      if GitHubRemote.same_letter "p" "P" p && GitHubRemote.same_letter "a" "A" a
         && GitHubRemote.same_letter "t" "T" t && GitHubRemote.same_letter "h" "H" h
         && Ascii.eqb e "="
      then
        let file := until_ampersand r in
        if String.eqb file EmptyString then None else Some file
      else None
  | _ => None
  end.

(** [fileRegex.exec(s)]: the match that starts first. *)
Fixpoint fileRegex_exec (s : string) : option string :=
  match fileRegex_at s with
  | Some file => Some file
  | None =>
      match s with
      | String _ r => fileRegex_exec r
      | EmptyString => None
      end
  end.

(** [startLine] and [endLine], as read from [uri.query]. *)
Definition lines_of (query : string) : option nat * option nat :=
  if truthy_string query then
    match rangeRegex_exec query with
    | Some (start, end_) =>
        if truthy_string start then
          (GitHubRemote.parseInt start,
           match end_ with
           | Some e => if truthy_string e then GitHubRemote.parseInt e else None
           | None => None
           end)
        else (None, None)
    | None => (None, None)
    end
  else (None, None).

(** [getLocalInfoFromRemoteUri(repository, uri, options)], whose promise
    is resolved already; [validate] is [options?.validate]. *)
Definition getLocalInfoFromRemoteUri
           (toAbsoluteUri : string -> option bool -> option string)
           (r : t) (uri : Uri) (validate : option bool) : option GitHubRemote.Info :=
  if negb (String.eqb (authority uri) (domain r)) then None
  else
    let (startLine, endLine) := lines_of (query uri) in
    match fileRegex_exec (query uri) with
    | None => None
    | Some path =>
        match toAbsoluteUri path validate with
        | Some u => Some {| GitHubRemote.info_uri := u;
                            GitHubRemote.startLine := startLine;
                            GitHubRemote.endLine := endLine |}
        | None => None
        end
    end.

(** What is empty or starts with an ampersand: put after a text, it
    completes no [line=] and it ends a run of units other than the
    ampersand. *)
Definition starts_apart (rest : string) : Prop :=
  rest = EmptyString \/ exists r, rest = String "&" r.

(** The lines a range names in a url: its start, and its end when that
    is another line. *)
Definition lines_named (range : option GitHubRemote.Range) : option nat * option nat :=
  match range with
  | Some r =>
      (Some (GitHubRemote.start_line r),
       if Nat.eqb (GitHubRemote.start_line r) (GitHubRemote.end_line r)
       then None else Some (GitHubRemote.end_line r))
  | None => (None, None)
  end.

End AzureDevOpsRemote.

(* ===================================================================== *)
(** ** The ids of the branch nodes (views/nodes/branchNode.ts,
       views/nodes/branchesNode.ts) *)
(* ===================================================================== *)

Module NodeIds.

Section Ids.

(** [RepositoryNode.getId(repoPath)]; views/nodes/repositoryNode.ts is
    not among the sources. *)
Variable RepositoryNode_getId : string -> string.

(** [BranchNode.getId(repoPath, name, root)]. *)
Definition BranchNode_getId (repoPath name : string) (root : bool) : string :=
  (RepositoryNode_getId repoPath ++ ":branch" ++ "(" ++ name ++ ")"
     ++ (if root then ":root" else ""))%string.

(** [BranchesNode.getId(repoPath)]. *)
Definition BranchesNode_getId (repoPath : string) : string :=
  (RepositoryNode_getId repoPath ++ ":branches")%string.

End Ids.

End NodeIds.

(* ===================================================================== *)
(** ** The command that opens a branch on the remote
       (commands/openBranchOnRemote.ts) *)
(* ===================================================================== *)

Module OpenBranchOnRemote.

(** [OpenBranchOnRemoteCommandArgs]. *)
Record Args : Type := {
  branch : option string;
  clipboard : option bool;
  remote : option string
}.

(** The arguments given to [Commands.OpenOnRemote]; the resource is a
    branch. *)
Record OpenOnRemoteCommandArgs : Type := {
  resource_branch : string;
  repoPath : string;
  open_remote : option string;
  open_clipboard : option bool
}.

(** What [ReferencePicker.show] resolves to. *)
Inductive Pick : Type :=
| NoPick
| CommandQuickPickItem
| Reference (ref : string).

Section Command.

(** The uris, the [GitUri]s and the editors, which the command only
    passes on, and [getCommandUri] of commands/common.ts, which is not
    among the sources. *)
Variables Uri GitUri TextEditor : Type.
Variable getCommandUri : option Uri -> option TextEditor -> option Uri.

(** The collaborators, by what each call settles to. *)
Record Env : Type := {
  fromUri : Uri -> Outcome GitUri;
  getRepoPathOrActiveOrPrompt :
    option GitUri -> option TextEditor -> string -> Outcome (option string);
  show : string -> string -> string -> Outcome Pick;
  executeCommand : OpenOnRemoteCommandArgs -> Outcome unit
}.

Inductive Effect : Type :=
| FromUri (uri : Uri)
| GetRepoPathOrActiveOrPrompt (title : string)
| ReferencePickerShow (repoPath title placeholder : string)
| ExecuteOpenOnRemote (args : OpenOnRemoteCommandArgs)
| LoggerError (ex : string) (classOrMethod : string)
| ShowErrorMessage (message : string).

Definition Command (A : Type) : Type := Task (list Effect) A.

Definition call {A : Type} (e : Effect) (settles : Outcome A) : Command A :=
  fun done => (settles, done ++ [e]).

(** [args?.clipboard], as a condition. *)
Definition to_clipboard (args : option Args) : bool :=
  match args with
  | Some a => match clipboard a with Some c => c | None => false end
  | None => false
  end.

Definition title_of (copy : bool) : string :=
  if copy then "Copy Remote Branch Url" else "Open Branch On Remote".

(** [execute(editor, uri, args)]. *)
Definition execute (env : Env) (editor : option TextEditor) (uri : option Uri)
           (args : option Args) : Command unit :=
  (gitUri <-
     match getCommandUri uri editor with
     | Some u => g <- call (FromUri u) (fromUri env u) ;; ret (Some g)
     | None => ret None
     end ;;
   repoPath <-
     call (GetRepoPathOrActiveOrPrompt (title_of (to_clipboard args)))
          (getRepoPathOrActiveOrPrompt env gitUri editor (title_of (to_clipboard args))) ;;
   match repoPath with
   | None => ret tt
   | Some path =>
       if negb (truthy_string path) then ret tt
       else
         let args :=
           match args with
           | Some a => a
           | None => {| branch := None; clipboard := None; remote := None |}
           end in
         let copy := match clipboard args with Some c => c | None => false end in
         fun done =>
           match
             (chosen <-
                match branch args with
                | Some b => ret (Some b)
                | None =>
                    pick <- call (ReferencePickerShow path (title_of copy)
                                    (if copy then "Choose a branch to copy the url from"
                                     else "Choose a branch to open"))
                                 (show env path (title_of copy)
                                    (if copy then "Choose a branch to copy the url from"
                                     else "Choose a branch to open")) ;;
                    match pick with
                    | NoPick | CommandQuickPickItem => ret None
                    | Reference ref => ret (Some ref)
                    end
                end ;;
              match chosen with
              | None => ret tt
              | Some b =>
                  let run :=
                    {| resource_branch := if truthy_string b then b else "HEAD";
                       repoPath := path;
                       open_remote := remote args;
                       open_clipboard := clipboard args |} in
                  call (ExecuteOpenOnRemote run) (executeCommand env run)
              end) done
           with
           | (Rejected ex, done1) =>
               (Resolved tt,
                done1 ++ [LoggerError ex "OpenBranchOnRemoteCommand";
                          ShowErrorMessage
                            "Unable to open branch on remote provider. See output channel for more details"])
           | settled => settled
           end
   end)%task.

(** Whether an effect is a call that looks up the repository. *)
Definition is_lookup (e : Effect) : bool :=
  match e with
  | FromUri _ | GetRepoPathOrActiveOrPrompt _ => true
  | _ => false
  end.

(** The reason with which a promise rejects, if it does. *)
Definition reason {A : Type} (settles : Outcome A) : option string :=
  match settles with
  | Rejected ex => Some ex
  | Resolved _ => None
  end.

(** The failure that a step inside the [try] block meets: the rejection
    of the picker or of [Commands.OpenOnRemote].  The two lookups are
    awaited before the block. *)
Definition fails (env : Env) (e : Effect) : option string :=
  match e with
  | ReferencePickerShow repoPath title placeholder =>
      reason (show env repoPath title placeholder)
  | ExecuteOpenOnRemote args => reason (executeCommand env args)
  | FromUri _ | GetRepoPathOrActiveOrPrompt _ | LoggerError _ _
  | ShowErrorMessage _ => None
  end.

(** The message of the [catch] block. *)
Definition failed : string :=
  "Unable to open branch on remote provider. See output channel for more details".

End Command.

Arguments GetRepoPathOrActiveOrPrompt {Uri} title.
Arguments ReferencePickerShow {Uri} repoPath title placeholder.
Arguments ExecuteOpenOnRemote {Uri} args.
Arguments LoggerError {Uri} ex classOrMethod.
Arguments ShowErrorMessage {Uri} message.

End OpenBranchOnRemote.

(* ===================================================================== *)
(** ** More nodes and values to run the code on *)
(* ===================================================================== *)

Module Cases.

(** A page of history whose [more] fails. *)
Definition page_failing : GitLog.t :=
  GitLog.make 7 [Scenario.commit "f00"] 1 true (Some (fun _ => Rejected "timeout")).

(** The branch node of the scenario, holding that page, with its children
    loaded. *)
Definition loaded_node : BranchNode.t :=
  BranchNode.set_children (Some {| stamp := 0; items := [] |})
    (BranchNode.set_log (Some page_failing) Scenario.branch_node).

(** A commit node whose message has two lines. *)
Definition commit_node : CommitNode.t :=
  {| CommitNode.commit :=
       {| CommitNode.shortSha := "abc1234";
          CommitNode.message :=
            ("Fix paging" ++ String JsString.line_feed "Longer text")%string;
          CommitNode.ref := "abc1234def" |};
     CommitNode.unpublished := None;
     CommitNode.branch := None |}.

(** A host with one selected line, blamed on a commit, in a repository
    with a rich remote provider. *)
Definition host : LineAnnotationController.Host :=
  {| LineAnnotationController.selections :=
       Some [{| LineAnnotationController.anchor := 3;
                LineAnnotationController.active := 3 |}];
     LineAnnotationController.includes_selections := fun _ => true;
     LineAnnotationController.getState := fun _ => Some (Scenario.commit "a");
     LineAnnotationController.isBlameable := true;
     LineAnnotationController.repoPath := Some "/repo"%string;
     LineAnnotationController.format_has_tips := false;
     LineAnnotationController.pullRequests_enabled := true;
     LineAnnotationController.format_has_pullRequest := true;
     LineAnnotationController.has_rich_remote_provider := fun _ => true;
     LineAnnotationController.getPullRequestForCommit := Scenario.lookup |}.

(** The controller of the scenario, suspended. *)
Definition suspended_controller : LineAnnotationController.t :=
  LineAnnotationToggle.set_suspended true Scenario.controller.


(** A repository with one local branch, and a root node that has loaded
    nothing yet. *)
Definition only_repository : ViewRoot.Repository GitBranch.t :=
  {| ViewRoot.path := "/repo"; ViewRoot.supportsChangeEvents := true;
     ViewRoot.items := Resolved [Scenario.feature_x];
     ViewRoot.node_children := Resolved tt |}.

(** The same repository, when [getChildren] of its node rejects. *)
Definition failing_repository : ViewRoot.Repository GitBranch.t :=
  {| ViewRoot.path := "/repo"; ViewRoot.supportsChangeEvents := true;
     ViewRoot.items := Resolved [Scenario.feature_x];
     ViewRoot.node_children := Rejected "git failed" |}.

Definition unloaded_root : ViewRoot.State GitBranch.t :=
  {| ViewRoot.children := None;
     ViewRoot.view := {| ViewRoot.message := None; ViewRoot.title := "Branches";
                         ViewRoot.description := None |};
     ViewRoot.fresh := 0;
     ViewRoot.trace := [] |}.


(** The provider of a repository on github.com. *)
Definition github : GitHubRemote.t :=
  {| GitHubRemote.domain := "github.com"; GitHubRemote.path := "eamodio/vscode-gitlens";
     GitHubRemote.baseUrl := "https://github.com/eamodio/vscode-gitlens" |}.


(** A link to lines 10 to 20 of [src/a.ts] on the branch [feature/x]. *)
Definition github_url : GitHubRemote.Uri :=
  {| GitHubRemote.authority := "github.com";
     GitHubRemote.uri_path := "/eamodio/vscode-gitlens/blob/feature/x/src/a.ts";
     GitHubRemote.fragment := "L10-L20" |}.


(** An editor on [/repo/a.ts] with a selection on line 3, in a window
    where every file is trackable and a [GitUri] is the uri it is made
    from; a tracker node that follows nothing yet, and the node once it
    follows that file. *)
Definition unknown_uri : HistoryTracker.Uri :=
  {| HistoryTracker.path := "unknown";
     HistoryTracker.sha := None;
     HistoryTracker.repoPath := None |}.

Definition a_ts : HistoryTracker.Uri :=
  {| HistoryTracker.path := "/repo/a.ts";
     HistoryTracker.sha := None;
     HistoryTracker.repoPath := Some "/repo"%string |}.

Definition window : HistoryTracker.Env nat :=
  {| HistoryTracker.activeTextEditor :=
       Some {| HistoryTracker.document_uri := a_ts;
               HistoryTracker.selection := 3;
               HistoryTracker.isDirty := false;
               HistoryTracker.getText := "" |};
     HistoryTracker.isTrackable := fun _ => true;
     HistoryTracker.visible_paths := [Some "/repo/a.ts"%string];
     HistoryTracker.fromUri := fun u => Resolved u;
     HistoryTracker.getWorkingUri := fun _ => Resolved None;
     HistoryTracker.equals :=
       fun a b => String.eqb (HistoryTracker.path a) (HistoryTracker.path b) |}.

Definition idle_tracker : HistoryTracker.t nat :=
  {| HistoryTracker._uri := None;
     HistoryTracker._child := Some 7;
     HistoryTracker._base := None;
     HistoryTracker._editorContents := None;
     HistoryTracker._selection := None |}.

Definition following_tracker : HistoryTracker.t nat :=
  {| HistoryTracker._uri := Some a_ts;
     HistoryTracker._child := None;
     HistoryTracker._base := None;
     HistoryTracker._editorContents := None;
     HistoryTracker._selection := None |}.


(** A working tree whose line 4 is not committed yet, and an editor on
    that line. *)
Definition uncommitted : CopyToClipboard.GitCommit :=
  {| CopyToClipboard.sha := "0000000000000000000000000000000000000000";
     CopyToClipboard.message := "Uncommitted changes";
     CopyToClipboard.isUncommitted := true;
     CopyToClipboard.repoPath := "/repo" |}.

Definition working_tree : CopyToClipboard.Env string :=
  {| CopyToClipboard.getActiveRepoPath := fun _ => Resolved (Some "/repo"%string);
     CopyToClipboard.getLog := fun _ _ => Resolved None;
     CopyToClipboard.fromUri :=
       fun _ => Resolved {| CopyToClipboard.uri_repoPath := Some "/repo"%string |};
     CopyToClipboard.getBlameForLine := fun _ _ => Resolved (Some uncommitted);
     CopyToClipboard.getBlameForLineContents := fun _ _ _ => Resolved (Some uncommitted);
     CopyToClipboard.getCommit := fun _ _ => Resolved None;
     CopyToClipboard.writeText := fun _ => Resolved tt |}.

Definition on_line_4 : CopyToClipboard.TextEditor :=
  {| CopyToClipboard.active_line := 4;
     CopyToClipboard.isDirty := false;
     CopyToClipboard.getText := "" |}.


(** An Azure DevOps remote, and ten lines of a file. *)
Definition azure : AzureDevOpsRemote.t :=
  {| AzureDevOpsRemote.domain := "dev.azure.com";
     AzureDevOpsRemote.path := "org/project/_git/repo";
     AzureDevOpsRemote.baseUrl := "https://dev.azure.com/org/project/_git/repo" |}.

Definition lines_10_20 : GitHubRemote.Range :=
  {| GitHubRemote.start_line := 10; GitHubRemote.end_line := 20 |}.

End Cases.

(* ===================================================================== *)
(** * Properties *)
(* ===================================================================== *)

Lemma RepositoryChange_eqb_eq (a b : RepositoryChange) :
  RepositoryChange_eqb a b = true <-> a = b.
Proof. destruct a, b; simpl; split; intro H; try reflexivity; discriminate H. Qed.

Lemma kind_in_In (c : RepositoryChange) (l : list RepositoryChange) :
  kind_in c l = true <-> In c l.
Proof.
  unfold kind_in. rewrite existsb_exists. split.
  - intros [x [Hin Heq]]. apply RepositoryChange_eqb_eq in Heq. now subst.
  - intro Hin. exists c. split; [assumption | now apply RepositoryChange_eqb_eq].
Qed.

Lemma changed_All_subset (e ws : list RepositoryChange) :
  changed e ws All = true <-> (forall c, In c ws -> In c e).
Proof.
  simpl. rewrite forallb_forall. split.
  - intros H c Hc. apply kind_in_In. now apply H.
  - intros H c Hc. apply kind_in_In. now apply H.
Qed.

Lemma changed_Any_Unknown (e ws : list RepositoryChange) :
  In Unknown e -> changed e ws Any = true.
Proof.
  intro H. simpl. apply existsb_exists. exists Unknown. split; [assumption | reflexivity].
Qed.

Lemma changed_Any_intersects (e ws : list RepositoryChange) :
  In Unknown ws ->
  (changed e ws Any = true <-> exists c, In c e /\ In c ws).
Proof.
  intro HU. simpl. rewrite existsb_exists. split.
  - intros [c [Hc Hm]]. apply orb_true_iff in Hm. destruct Hm as [Hm | Hm].
    + apply RepositoryChange_eqb_eq in Hm. subst c. now exists Unknown.
    + exists c. split; [assumption | now apply kind_in_In].
  - intros [c [Hc Hw]]. exists c. split; [assumption |].
    apply orb_true_iff. right. now apply kind_in_In.
Qed.

Lemma watched_lists_Unknown (n : RepositoryFolderNode) : In Unknown (watched n).
Proof. destruct n; simpl; tauto. Qed.

(** C2.  For the watched kinds of every repository folder node, an event
    matches in ANY mode iff it shares a kind with them; in ALL mode an event
    matches a set of kinds iff every one of them has changed; an event that
    holds Unknown matches every ANY-mode query; and an event whose kinds are
    exactly {Status} does not match the contributors repository node, which
    watches {Config, Heads, Remotes, Unknown}. *)
Theorem changed_matches_watch_set :
  forall (e : list RepositoryChange) (n : RepositoryFolderNode),
    (node_changed n e = true <-> exists c, In c e /\ In c (watched n)) /\
    (forall ws, changed e ws All = true <-> (forall c, In c ws -> In c e)) /\
    (forall ws, In Unknown e -> changed e ws Any = true) /\
    watched ContributorsRepositoryNode = [Config; Heads; Remotes; Unknown] /\
    node_changed ContributorsRepositoryNode [Status] = false.
Proof.
  intros e n. repeat split.
  - apply changed_Any_intersects, watched_lists_Unknown.
  - apply changed_Any_intersects, watched_lists_Unknown.
  - apply changed_All_subset.
  - apply changed_All_subset.
  - apply changed_Any_Unknown.
Qed.

(* ===================================================================== *)
(** ** Reasoning about tasks *)
(* ===================================================================== *)

Lemma bind_Resolved {S A B : Type} (m : Task S A) (k : A -> Task S B) s b s' :
  bind m k s = (Resolved b, s') ->
  exists a s1, m s = (Resolved a, s1) /\ k a s1 = (Resolved b, s').
Proof.
  unfold bind. destruct (m s) as [[a | e] s1]; intro H.
  - now exists a, s1.
  - discriminate H.
Qed.

Lemma bind_Rejected_first {S A B : Type} (m : Task S A) (k : A -> Task S B) s e s1 :
  m s = (Rejected e, s1) -> bind m k s = (Rejected e, s1).
Proof. unfold bind. now intros ->. Qed.

Lemma both_Resolved {S A B : Type} (p : Task S A) (q : Task S B) s a b s' :
  both p q s = (Resolved (a, b), s') ->
  exists s1, p s = (Resolved a, s1) /\ q s1 = (Resolved b, s').
Proof.
  unfold both. destruct (p s) as [oa s1]. destruct (q s1) as [ob s2] eqn:Eq.
  destruct oa as [a' | e]; destruct ob as [b' | e']; intro H; inversion H; subst.
  now exists s1.
Qed.

Lemma both_Rejected_first {S A B : Type} (p : Task S A) (q : Task S B) s e s1 :
  p s = (Rejected e, s1) -> fst (both p q s) = Rejected e.
Proof. unfold both. intros ->. now destruct (q s1) as [[b | e'] s2]. Qed.

Lemma quiet_call {Obj A : Type} (ev : Event) (o : Outcome A) :
  quiet (@call Obj A ev o).
Proof. intros w o' w' H. inversion H; subst. now split. Qed.

Lemma quiet_ret {Obj A : Type} (a : A) : quiet (@ret (World Obj) A a).
Proof. intros w o' w' H. inversion H; subst. now split. Qed.

Lemma quiet_if {Obj A : Type} (c : bool) (p q : Task (World Obj) A) :
  quiet p -> quiet q -> quiet (if c then p else q).
Proof. now destruct c. Qed.

Lemma quiet_bind {Obj A B : Type} (m : Task (World Obj) A) (k : A -> Task (World Obj) B) :
  quiet m -> (forall a, quiet (k a)) -> quiet (bind m k).
Proof.
  intros Hm Hk w o w'. unfold bind.
  destruct (m w) as [[a | e] w1] eqn:E; intro H.
  - destruct (Hm _ _ _ E) as [H1 H2]. destruct (Hk a _ _ _ H) as [H3 H4].
    split; congruence.
  - inversion H; subst. exact (Hm _ _ _ E).
Qed.

Lemma quiet_both {Obj A B : Type} (p : Task (World Obj) A) (q : Task (World Obj) B) :
  quiet p -> quiet q -> quiet (both p q).
Proof.
  intros Hp Hq w o w'. unfold both.
  destruct (p w) as [oa w1] eqn:Ep. destruct (q w1) as [ob w2] eqn:Eq.
  intro H. inversion H; subst.
  destruct (Hp _ _ _ Ep) as [H1 H2]. destruct (Hq _ _ _ Eq) as [H3 H4].
  split; congruence.
Qed.

Create HintDb quiet.
#[local] Hint Resolve quiet_call quiet_ret quiet_if quiet_bind quiet_both : quiet.

Lemma emits_call {Obj A : Type} (P : Event -> Prop) (ev : Event) (o : Outcome A) :
  P ev -> emits P (@call Obj A ev o).
Proof.
  intros HP w o' w' H. inversion H; subst. simpl. exists [ev]. split; [reflexivity |].
  now constructor.
Qed.

Lemma emits_silent {Obj A : Type} (P : Event -> Prop) (m : Task (World Obj) A) :
  (forall w, trace (snd (m w)) = trace w) -> emits P m.
Proof.
  intros Hm w o w' H. exists []. rewrite app_nil_r. split; [| constructor].
  specialize (Hm w). now rewrite H in Hm.
Qed.

Lemma emits_ret {Obj A : Type} (P : Event -> Prop) (a : A) :
  emits P (@ret (World Obj) A a).
Proof. now apply emits_silent. Qed.

Lemma emits_update {Obj : Type} (P : Event -> Prop) (f : Obj -> Obj) :
  emits P (update f).
Proof. now apply emits_silent. Qed.

Lemma emits_new_array {Obj : Type} (P : Event -> Prop) (l : list ViewNode) :
  emits P (@new_array Obj l).
Proof. now apply emits_silent. Qed.

Lemma emits_if {Obj A : Type} (P : Event -> Prop) (c : bool) (p q : Task (World Obj) A) :
  emits P p -> emits P q -> emits P (if c then p else q).
Proof. now destruct c. Qed.

Lemma emits_bind {Obj A B : Type} (P : Event -> Prop)
      (m : Task (World Obj) A) (k : A -> Task (World Obj) B) :
  emits P m -> (forall a, emits P (k a)) -> emits P (bind m k).
Proof.
  intros Hm Hk w o w'. unfold bind.
  destruct (m w) as [[a | e] w1] eqn:E; intro H.
  - destruct (Hm _ _ _ E) as (e1 & T1 & P1). destruct (Hk a _ _ _ H) as (e2 & T2 & P2).
    exists (e1 ++ e2). split; [now rewrite T2, T1, app_assoc | now apply Forall_app].
  - inversion H; subst. exact (Hm _ _ _ E).
Qed.

Lemma emits_both {Obj A B : Type} (P : Event -> Prop)
      (p : Task (World Obj) A) (q : Task (World Obj) B) :
  emits P p -> emits P q -> emits P (both p q).
Proof.
  intros Hp Hq w o w'. unfold both.
  destruct (p w) as [oa w1] eqn:Ep. destruct (q w1) as [ob w2] eqn:Eq.
  intro H. inversion H; subst.
  destruct (Hp _ _ _ Ep) as (e1 & T1 & P1). destruct (Hq _ _ _ Eq) as (e2 & T2 & P2).
  exists (e1 ++ e2). split; [now rewrite T2, T1, app_assoc | now apply Forall_app].
Qed.

Create HintDb emits.
#[local] Hint Resolve emits_ret emits_update emits_new_array emits_if emits_bind
  emits_both : emits.
#[local] Hint Extern 1 (emits not_getLog (call _ _)) =>
  (apply emits_call; exact I) : emits.

(* ===================================================================== *)
(** ** [BranchNode]: the log and the children cache *)
(* ===================================================================== *)

Lemma getLog_cached (git : GitService) (w : World BranchNode.t) (l : GitLog.t) :
  BranchNode._log (this w) = Some l ->
  BranchNode.getLog git w = (Resolved (Some l), w).
Proof. intro H. unfold BranchNode.getLog. now rewrite H. Qed.

Lemma getLog_fetch (git : GitService) (w : World BranchNode.t) :
  BranchNode._log (this w) = None ->
  trace (snd (BranchNode.getLog git w))
  = trace w ++ [Git_getLog (BranchNode.log_limit (this w))].
Proof.
  intro H. unfold BranchNode.getLog. rewrite H.
  unfold bind, call, update, modify, gets. simpl.
  now destruct (getLog git _ _ _ _) as [log | e].
Qed.

(** What a settled [getLog] leaves: the log it returns is the cached one,
    and nothing else of the node has changed. *)
Lemma getLog_Resolved (git : GitService) (w w' : World BranchNode.t) (log : option GitLog.t) :
  BranchNode.getLog git w = (Resolved log, w') ->
  BranchNode._log (this w') = log /\
  BranchNode._children (this w') = BranchNode._children (this w) /\
  fresh w' = fresh w.
Proof.
  unfold BranchNode.getLog.
  destruct (BranchNode._log (this w)) as [l | ] eqn:E.
  - intro H. inversion H; subst. now rewrite E.
  - unfold bind, call, update, modify, gets. simpl.
    destruct (getLog git _ _ _ _) as [lg | e]; intro H; inversion H; subst; simpl.
    now repeat split.
Qed.

Lemma quiet_status_children (git : GitService) (n : BranchNode.t) status ms rs :
  quiet (BranchNode.status_children git n status ms rs).
Proof.
  unfold BranchNode.status_children.
  assert (Hs : quiet (match status with
                      | Some s => ret (Some s)
                      | None => call Git_getStatusForRepo
                                     (getStatusForRepo git (BranchNode.uri_repoPath n))
                      end : BranchNode.M (option GitStatus))).
  { destruct status; auto with quiet. }
  cbv zeta.
  destruct (BranchNode.showStatus (BranchNode.options n)); destruct ms; destruct rs;
    repeat first [ exact Hs | apply quiet_ret | apply quiet_if
                 | apply quiet_bind | intro ].
Qed.

Lemma new_array_Resolved {Obj : Type} (l : list ViewNode) (w w' : World Obj) arr :
  new_array l w = (Resolved arr, w') ->
  arr = {| stamp := fresh w; items := l |} /\
  this w' = this w /\ fresh w' = S (fresh w).
Proof. unfold new_array. intro H. inversion H; subst. now repeat split. Qed.

Lemma quiet_others (git : GitService) (n : BranchNode.t) (range : option string) :
  quiet (BranchNode.others git n range).
Proof.
  unfold BranchNode.others.
  repeat (apply quiet_both; [auto with quiet |]).
  destruct range as [rg |]; auto with quiet.
Qed.

(** The [Promise.all], when it resolves: the log it gives is the cached
    one, and nothing else of the node has changed. *)
Lemma gather_Resolved (git : GitService) (n : BranchNode.t) (range : option string)
      (w w' : World BranchNode.t) (log : option GitLog.t) (rest : BranchNode.Others) :
  BranchNode.gather git n range w = (Resolved (log, rest), w') ->
  BranchNode._log (this w') = log /\
  BranchNode._children (this w') = BranchNode._children (this w) /\
  fresh w' = fresh w.
Proof.
  unfold BranchNode.gather. intro H.
  apply both_Resolved in H as (wa & Hlog & H).
  apply getLog_Resolved in Hlog as (Llog & Lch & Lfr).
  apply quiet_others in H as [T F]. rewrite T, F. now repeat split.
Qed.

(** What [fill] leaves, when it settles. *)
Lemma fill_Resolved (idm : list ViewNode -> list ViewNode) (git : GitService)
      (n : BranchNode.t) (log : option GitLog.t) (rest : BranchNode.Others)
      (w w' : World BranchNode.t) (arr : Children) :
  BranchNode.fill idm git n (log, rest) w = (Resolved arr, w') ->
  stamp arr = fresh w /\ fresh w' = S (fresh w) /\
  BranchNode._log (this w') = BranchNode._log (this w) /\
  match log with
  | None => items arr = [MessageNode "No commits could be found." None None] /\
            BranchNode._children (this w') = BranchNode._children (this w)
  | Some l => BranchNode._children (this w') = Some arr /\
              exists pr unpublished rows,
                items arr = BranchNode.build_children idm n l pr unpublished rows
  end.
Proof.
  destruct rest as (tips & status & ms & rs & pr & unp).
  unfold BranchNode.fill. destruct log as [l |]; intro Hrun.
  - apply bind_Resolved in Hrun as (rows & w3 & H3 & Hrun).
    apply quiet_status_children in H3 as [T3 F3].
    apply bind_Resolved in Hrun as (arr' & w4 & H4 & Hrun).
    apply new_array_Resolved in H4 as (Ha & T4 & F4).
    cbv [bind update modify ret] in Hrun.
    injection Hrun as Earr Ew. subst arr'. rewrite <- Ew. simpl.
    rewrite T4, T3, <- Earr. simpl.
    repeat split; try congruence. now exists pr, unp, rows.
  - apply new_array_Resolved in Hrun as (Ha & T4 & F4).
    rewrite T4. subst arr. simpl. now repeat split.
Qed.

(** The first [getChildren] of a node with no cached children, when it
    settles: the array is new; it is the cached one, built on the log,
    exactly when the log was there, and the lone message when it was
    not. *)
Lemma getChildren_Resolved (idm : list ViewNode -> list ViewNode) (git : GitService)
      (w w' : World BranchNode.t) (arr : Children) :
  BranchNode._children (this w) = None ->
  BranchNode.getChildren idm git w = (Resolved arr, w') ->
  stamp arr = fresh w /\ fresh w' = S (fresh w) /\
  match BranchNode._log (this w') with
  | None => items arr = [MessageNode "No commits could be found." None None] /\
            BranchNode._children (this w') = None
  | Some l => BranchNode._children (this w') = Some arr /\
              exists pr unpublished rows,
                items arr = BranchNode.build_children idm (this w) l pr unpublished rows
  end.
Proof.
  intros Hnone Hrun. unfold BranchNode.getChildren in Hrun. rewrite Hnone in Hrun.
  apply bind_Resolved in Hrun as (range & w1 & H1 & Hrun).
  apply bind_Resolved in Hrun as ([log rest] & w2 & H2 & Hrun).
  apply quiet_call in H1 as [T1 F1].
  apply gather_Resolved in H2 as (Llog & Lch & Lfr).
  apply fill_Resolved in Hrun as (Hs & Hf & Hl & H).
  rewrite Hl, Llog.
  split; [congruence |]. split; [congruence |].
  destruct log as [l |]; [exact H |].
  destruct H as [Hi Hc]. split; [exact Hi | congruence].
Qed.

(** A cached array is returned as it is: no call, no allocation. *)
Lemma getChildren_cached (idm : list ViewNode -> list ViewNode) (git : GitService)
      (w : World BranchNode.t) (c : Children) :
  BranchNode._children (this w) = Some c ->
  BranchNode.getChildren idm git w = (Resolved c, w).
Proof. intro H. unfold BranchNode.getChildren. now rewrite H. Qed.

Lemma emits_status_children (git : GitService) (n : BranchNode.t) status ms rs :
  emits not_getLog (BranchNode.status_children git n status ms rs).
Proof.
  unfold BranchNode.status_children.
  assert (Hs : emits not_getLog
                 (match status with
                  | Some s => ret (Some s)
                  | None => call Git_getStatusForRepo
                                 (getStatusForRepo git (BranchNode.uri_repoPath n))
                  end : BranchNode.M (option GitStatus))).
  { destruct status; auto with emits. }
  cbv zeta.
  destruct (BranchNode.showStatus (BranchNode.options n)); destruct ms; destruct rs;
    repeat first [ exact Hs | apply emits_ret | apply emits_if
                 | apply emits_bind | intro ].
Qed.

Lemma emits_others (git : GitService) (n : BranchNode.t) (range : option string) :
  emits not_getLog (BranchNode.others git n range).
Proof.
  unfold BranchNode.others.
  repeat (apply emits_both; [auto with emits |]).
  destruct range as [rg |]; auto with emits.
Qed.

Lemma emits_fill (idm : list ViewNode -> list ViewNode) (git : GitService)
      (n : BranchNode.t) (r : option GitLog.t * BranchNode.Others) :
  emits not_getLog (BranchNode.fill idm git n r).
Proof.
  destruct r as (log & tips & status & ms & rs & pr & unp). unfold BranchNode.fill.
  destruct log as [l |]; [| auto with emits].
  apply emits_bind; [apply emits_status_children |]. intro rows.
  auto with emits.
Qed.

(** [fill] does not touch the log. *)
Lemma fill_keeps_log (idm : list ViewNode -> list ViewNode) (git : GitService)
      (n : BranchNode.t) (r : option GitLog.t * BranchNode.Others)
      (w w' : World BranchNode.t) (o : Outcome Children) :
  BranchNode.fill idm git n r w = (o, w') ->
  BranchNode._log (this w') = BranchNode._log (this w).
Proof.
  destruct r as (log & tips & status & ms & rs & pr & unp). unfold BranchNode.fill.
  destruct log as [l |].
  - unfold bind at 1.
    destruct (BranchNode.status_children git n status ms rs w) as [[rows | e] w3] eqn:E3;
      apply quiet_status_children in E3 as [T3 _].
    + cbv [bind new_array update modify ret]. intro H. inversion H; subst. simpl.
      now rewrite T3.
    + intro H. inversion H; subst. now rewrite T3.
  - unfold new_array. intro H. now inversion H; subst.
Qed.

(** The [Promise.all] on a node whose log is cached: the log is the
    cached one, the node is as it was, and git is not asked for a log. *)
Lemma gather_cached (git : GitService) (n : BranchNode.t) (range : option string)
      (w w' : World BranchNode.t) (l : GitLog.t)
      (o : Outcome (option GitLog.t * BranchNode.Others)) :
  BranchNode._log (this w) = Some l ->
  BranchNode.gather git n range w = (o, w') ->
  this w' = this w /\
  (exists evs, trace w' = trace w ++ evs /\ Forall not_getLog evs) /\
  (forall log rest, o = Resolved (log, rest) -> log = Some l).
Proof.
  intros Hl. unfold BranchNode.gather, both. rewrite (getLog_cached git w Hl).
  destruct (BranchNode.others git n range w) as [ob w2] eqn:E.
  intro H. inversion H; subst. clear H.
  destruct (quiet_others git n range _ E) as [T _].
  repeat split; [exact T | exact (emits_others git n range _ E) |].
  intros log rest. destruct ob; intro H; inversion H; reflexivity.
Qed.

(** [getChildren] on a node that has its log but no children: whatever the
    outcome, git is not asked for a log and the log stays; when it
    settles, the array is built on that log. *)
Lemma getChildren_reuses_log (idm : list ViewNode -> list ViewNode) (git : GitService)
      (w w' : World BranchNode.t) (l : GitLog.t) (o : Outcome Children) :
  BranchNode._children (this w) = None ->
  BranchNode._log (this w) = Some l ->
  BranchNode.getChildren idm git w = (o, w') ->
  (exists evs, trace w' = trace w ++ evs /\ Forall not_getLog evs) /\
  BranchNode._log (this w') = Some l /\
  (forall arr, o = Resolved arr ->
     exists pr unpublished rows,
       items arr = BranchNode.build_children idm (this w) l pr unpublished rows).
Proof.
  intros Hnone Hl Hrun. unfold BranchNode.getChildren in Hrun. rewrite Hnone in Hrun.
  unfold bind at 1 in Hrun. unfold call at 1 in Hrun.
  destruct (getBranchAheadRange git _) as [range | e].
  - unfold bind at 1 in Hrun.
    match type of Hrun with
    | context [BranchNode.gather git ?n ?r ?w1] =>
        destruct (BranchNode.gather git n r w1) as [og w2] eqn:Eg;
        destruct (@gather_cached git n r w1 w2 l og Hl Eg) as (T2 & (e2 & Tr2 & P2) & Hlog)
    end.
    simpl in Tr2.
    destruct og as [[log rest] | e].
    + rewrite (Hlog log rest eq_refl) in Hrun.
      destruct (emits_fill idm git (this w) (Some l, rest) _ Hrun) as (e3 & Tr3 & P3).
      pose proof (fill_keeps_log idm git (this w) (Some l, rest) _ Hrun) as L3.
      repeat split.
      * exists ((Git_getBranchAheadRange :: e2) ++ e3). split.
        -- rewrite Tr3, Tr2. now rewrite <- !app_assoc.
        -- apply Forall_app. split; [constructor; [exact I | exact P2] | exact P3].
      * rewrite L3, T2. exact Hl.
      * intros arr ->. now destruct (fill_Resolved idm git _ _ _ _ Hrun) as (_ & _ & _ & _ & H).
    + inversion Hrun; subst. repeat split.
      * exists (Git_getBranchAheadRange :: e2). split.
        -- rewrite Tr2. now rewrite <- app_assoc.
        -- constructor; [exact I | exact P2].
      * rewrite T2. exact Hl.
      * intros arr H. discriminate H.
  - inversion Hrun; subst. simpl. repeat split.
    + exists [Git_getBranchAheadRange]. split; [reflexivity | now constructor].
    + exact Hl.
    + intros arr H. discriminate H.
Qed.

(** C10.  [refresh(false)] clears only the cached children: the log window
    and the page limit stay, so the next [getLog] answers from the cached
    log with no call to git (it runs exactly as it would have without the
    refresh), and the next [getChildren()] asks git for no log, keeps the
    log, and builds its array on the commits of that log.
    [refresh(true)] also clears the log, so the next [getLog] asks git
    again, with the limit the node remembers. *)
Theorem refresh_clears_children_keeps_window :
  forall (idm : list ViewNode -> list ViewNode) (git : GitService)
         (n : BranchNode.t) (k : nat) (tr : list Event),
    let soft := BranchNode.refresh false n in
    let hard := BranchNode.refresh true n in
    let world := fun x => {| this := x; fresh := k; trace := tr |} in
    (BranchNode._children soft = None /\
     BranchNode._log soft = BranchNode._log n /\
     BranchNode.limit soft = BranchNode.limit n) /\
    (forall l, BranchNode._log n = Some l ->
               BranchNode.getLog git (world soft) = (Resolved (Some l), world soft)) /\
    (forall l o w',
        BranchNode._log n = Some l ->
        BranchNode.getChildren idm git (world soft) = (o, w') ->
        (exists evs, trace w' = tr ++ evs /\ Forall not_getLog evs) /\
        BranchNode._log (this w') = Some l /\
        (forall arr, o = Resolved arr ->
           exists pr unpublished rows,
             items arr = BranchNode.build_children idm soft l pr unpublished rows)) /\
    fst (BranchNode.getLog git (world soft)) = fst (BranchNode.getLog git (world n)) /\
    trace (snd (BranchNode.getLog git (world soft)))
    = trace (snd (BranchNode.getLog git (world n))) /\
    (BranchNode._children hard = None /\
     BranchNode._log hard = None /\
     BranchNode.limit hard = BranchNode.limit n) /\
    trace (snd (BranchNode.getLog git (world hard)))
    = tr ++ [Git_getLog (BranchNode.log_limit n)].
Proof.
  intros idm git n k tr soft hard world.
  split; [now repeat split |].
  split; [intros l Hl; now apply getLog_cached |].
  split.
  { intros l o w' Hl Hrun.
    exact (@getChildren_reuses_log idm git (world soft) w' l o eq_refl Hl Hrun). }
  assert (Hsame : forall x, BranchNode._log x = BranchNode._log n ->
                            BranchNode.log_limit x = BranchNode.log_limit n ->
                            BranchNode.uri_repoPath x = BranchNode.uri_repoPath n ->
                            BranchNode.branch x = BranchNode.branch n ->
                            BranchNode.options x = BranchNode.options n ->
                            fst (BranchNode.getLog git (world x))
                            = fst (BranchNode.getLog git (world n)) /\
                            trace (snd (BranchNode.getLog git (world x)))
                            = trace (snd (BranchNode.getLog git (world n)))).
  { intros x H1 H2 H3 H4 H5. unfold BranchNode.getLog, world. simpl.
    rewrite H1, H2, H3, H4, H5.
    destruct (BranchNode._log n) as [l | ]; [now split |].
    unfold bind, call, update, modify, gets. simpl.
    now destruct (getLog git _ _ _ _) as [lg | e]. }
  destruct (Hsame soft) as [Hf Ht]; try reflexivity.
  split; [exact Hf |]. split; [exact Ht |].
  split; [now repeat split |].
  now rewrite getLog_fetch.
Qed.

Lemma call_again_fixed {S A : Type} (m : Task S A) (s : S) (o : Outcome A) :
  m s = (o, s) -> forall k, call_again m k s = (o, s).
Proof.
  intros H k. induction k as [| k IH]; simpl.
  - exact H.
  - now rewrite H.
Qed.

(* ===================================================================== *)
(** ** [BranchesNode]: the children cache *)
(* ===================================================================== *)

Lemma BranchesNode_getChildren_cached (fc : list ViewNode -> list ViewNode)
      (git : GitService) (w : World BranchesNode.t) (c : Children) :
  BranchesNode._children (this w) = Some c ->
  BranchesNode.getChildren fc git w = (Resolved c, w).
Proof. intro H. unfold BranchesNode.getChildren. now rewrite H. Qed.

(** The first [getChildren] of a [BranchesNode]: what it returns and
    whether it caches, by what git answers and by the layout. *)
Lemma BranchesNode_getChildren_first (fc : list ViewNode -> list ViewNode)
      (git : GitService) (w : World BranchesNode.t) :
  BranchesNode._children (this w) = None ->
  let n := this w in
  let cfg := View.config (BranchesNode.view n) in
  let asked := {| this := n; fresh := fresh w; trace := trace w ++ [Git_getBranches] |} in
  let nodes := fun bs => map (fun b => BranchNodeOf b false (View.showBranchComparison cfg)) bs in
  BranchesNode.getChildren fc git w =
  match getBranches git (BranchesNode.repo_path n) (fun b => negb (GitBranch.remote b)) with
  | Rejected e => (Rejected e, asked)
  | Resolved [] =>
      (Resolved {| stamp := fresh w;
                   items := [MessageNode "No branches could be found." None None] |},
       {| this := n; fresh := S (fresh w); trace := trace asked |})
  | Resolved bs =>
      match View.branches_layout cfg with
      | List =>
          (Resolved {| stamp := fresh w; items := nodes bs |},
           {| this := n; fresh := S (fresh w); trace := trace asked |})
      | Tree =>
          let arr := {| stamp := S (fresh w); items := fc (nodes bs) |} in
          (Resolved arr,
           {| this := BranchesNode.set_children (Some arr) n;
              fresh := S (S (fresh w)); trace := trace asked |})
      end
  end.
Proof.
  intros Hnone n cfg asked nodes. unfold BranchesNode.getChildren. rewrite Hnone.
  unfold bind, call. fold n. fold cfg.
  destruct (getBranches git _ _) as [[| b bs] | e]; try reflexivity.
  destruct (View.branches_layout cfg); reflexivity.
Qed.

(* ===================================================================== *)
(** ** The children cache is idempotent where the code fills it *)
(* ===================================================================== *)

(** C1 (as amended).  For a [BranchNode] whose log is there after the first
    [getChildren()], the array that call returned is the cached one, and
    every later call returns that same array (same identity) with no call
    to a collaborator and no change of state, until [refresh] clears the
    cache; the same holds for a [BranchesNode] in tree layout with at least
    one branch.  When the [BranchNode] has no log, or the [BranchesNode] has
    no branch, the call returns a newly created single-message array and
    caches nothing, so the next call creates another one. *)
Theorem getChildren_returns_cached_children :
  forall (idm fc : list ViewNode -> list ViewNode) (git : GitService),
    (forall (w w1 : World BranchNode.t) (arr : Children),
        BranchNode.getChildren idm git w = (Resolved arr, w1) ->
        BranchNode._log (this w1) <> None ->
        BranchNode._children (this w1) = Some arr /\
        (forall k, call_again (BranchNode.getChildren idm git) k w1 = (Resolved arr, w1)) /\
        (forall reset, BranchNode._children (BranchNode.refresh reset (this w1)) = None)) /\
    (forall (w w1 w2 : World BranchNode.t) (arr arr2 : Children),
        BranchNode._children (this w) = None ->
        BranchNode.getChildren idm git w = (Resolved arr, w1) ->
        BranchNode._log (this w1) = None ->
        BranchNode.getChildren idm git w1 = (Resolved arr2, w2) ->
        items arr = [MessageNode "No commits could be found." None None] /\
        BranchNode._children (this w1) = None /\
        stamp arr2 <> stamp arr) /\
    (forall (v v1 : World BranchesNode.t) (arr : Children) (b : GitBranch.t) bs,
        BranchesNode._children (this v) = None ->
        getBranches git (BranchesNode.repo_path (this v))
                    (fun b => negb (GitBranch.remote b)) = Resolved (b :: bs) ->
        View.branches_layout (View.config (BranchesNode.view (this v))) = Tree ->
        BranchesNode.getChildren fc git v = (Resolved arr, v1) ->
        BranchesNode._children (this v1) = Some arr /\
        (forall k, call_again (BranchesNode.getChildren fc git) k v1 = (Resolved arr, v1)) /\
        BranchesNode._children (BranchesNode.refresh (this v1)) = None) /\
    (forall (v : World BranchesNode.t),
        BranchesNode._children (this v) = None ->
        getBranches git (BranchesNode.repo_path (this v))
                    (fun b => negb (GitBranch.remote b)) = Resolved [] ->
        let r1 := BranchesNode.getChildren fc git v in
        let r2 := BranchesNode.getChildren fc git (snd r1) in
        exists arr arr2,
          fst r1 = Resolved arr /\ fst r2 = Resolved arr2 /\
          items arr = [MessageNode "No branches could be found." None None] /\
          BranchesNode._children (this (snd r1)) = None /\
          stamp arr2 <> stamp arr).
Proof.
  intros idm fc git. repeat apply conj.
  - intros w w1 arr Hrun Hlog.
    assert (Hc : BranchNode._children (this w1) = Some arr).
    { destruct (BranchNode._children (this w)) as [c | ] eqn:E.
      - rewrite (getChildren_cached idm git w E) in Hrun.
        inversion Hrun; subst. exact E.
      - destruct (getChildren_Resolved idm git w E Hrun) as (_ & _ & H).
        destruct (BranchNode._log (this w1)); [exact (proj1 H) | congruence]. }
    split; [exact Hc |]. split.
    + intro k. apply call_again_fixed. now apply getChildren_cached.
    + intros []; reflexivity.
  - intros w w1 w2 arr arr2 Hnone Hrun Hlog Hrun2.
    destruct (getChildren_Resolved idm git w Hnone Hrun) as (Hs & Hf & H).
    rewrite Hlog in H. destruct H as [Hi Hc].
    destruct (getChildren_Resolved idm git w1 Hc Hrun2) as (Hs2 & _ & _).
    repeat split; try assumption. lia.
  - intros v v1 arr b bs Hnone Hb Hl Hrun.
    rewrite (BranchesNode_getChildren_first fc git v Hnone) in Hrun.
    rewrite Hb, Hl in Hrun. cbv zeta in Hrun. inversion Hrun; subst. simpl.
    split; [reflexivity |]. split; [| reflexivity].
    intro k. apply call_again_fixed. now apply BranchesNode_getChildren_cached.
  - intros v Hnone Hb r1 r2.
    assert (E1 : r1 = BranchesNode.getChildren fc git v) by reflexivity.
    rewrite (BranchesNode_getChildren_first fc git v Hnone), Hb in E1. cbv zeta in E1.
    assert (E2 : r2 = BranchesNode.getChildren fc git (snd r1)) by reflexivity.
    rewrite E1 in E2. simpl snd in E2.
    rewrite BranchesNode_getChildren_first in E2 by exact Hnone.
    simpl in E2. rewrite Hb in E2.
    rewrite E1, E2. do 2 eexists. simpl.
    split; [reflexivity |]. split; [reflexivity |]. split; [reflexivity |].
    split; [exact Hnone |]. simpl. lia.
Qed.

(** A [BranchNode] for which git has no log: two consecutive calls of
    [getChildren()], with no refresh in between, return two different
    arrays. *)
Lemma getChildren_not_cached_without_log :
  let first := BranchNode.getChildren Scenario.plain Scenario.git_no_log
                 (Scenario.start Scenario.branch_node) in
  let second := BranchNode.getChildren Scenario.plain Scenario.git_no_log (snd first) in
  exists a1 a2,
    fst first = Resolved a1 /\ fst second = Resolved a2 /\
    items a1 = [MessageNode "No commits could be found." None None] /\
    stamp a1 <> stamp a2.
Proof.
  cbv zeta. do 2 eexists. vm_compute. repeat split. discriminate.
Qed.

Lemma getChildren_returns_cached_children_witness :
  exists arr w1,
    BranchNode.getChildren Scenario.plain Scenario.git_ok
      (Scenario.start Scenario.branch_node) = (Resolved arr, w1) /\
    List.length (items arr) = 3 /\
    BranchNode._children (this w1) = Some arr /\
    (forall k, call_again (BranchNode.getChildren Scenario.plain Scenario.git_ok) k w1
               = (Resolved arr, w1)).
Proof.
  do 2 eexists. split; [vm_compute; reflexivity |]. split; [reflexivity |].
  refine (let H := proj1 (getChildren_returns_cached_children
                            Scenario.plain Scenario.plain Scenario.git_ok)
                         (Scenario.start Scenario.branch_node) _ _ _ _ in
          conj (proj1 H) (proj1 (proj2 H))).
  - vm_compute. reflexivity.
  - vm_compute. discriminate.
Defined.

(* ===================================================================== *)
(** ** Failing to compute the children *)
(* ===================================================================== *)

(** A rejection of [git.getLog] is a rejection of [getChildren()]. *)
Lemma getChildren_rejects_with_getLog (idm : list ViewNode -> list ViewNode)
      (git : GitService) (w : World BranchNode.t) (e : string) :
  BranchNode._children (this w) = None ->
  BranchNode._log (this w) = None ->
  getLog git (BranchNode.uri_repoPath (this w)) (BranchNode.log_limit (this w))
         (GitBranch.ref (BranchNode.branch (this w)))
         (BranchNode.authors (BranchNode.options (this w))) = Rejected e ->
  exists e', fst (BranchNode.getChildren idm git w) = Rejected e'.
Proof.
  intros Hc Hl Hg. unfold BranchNode.getChildren. rewrite Hc.
  unfold bind at 1. unfold call at 1.
  destruct (getBranchAheadRange git _) as [range | e0]; [| now exists e0].
  exists e. unfold bind, BranchNode.gather.
  match goal with
  | |- fst (match both ?p ?q ?s with _ => _ end) = _ =>
      assert (Hp : p s = (Rejected e, snd (p s)));
      [| pose proof (@both_Rejected_first _ _ _ p q s _ _ Hp) as Hb;
         destruct (both p q s) as [[r | e1] s2]; simpl in Hb;
         [discriminate Hb | simpl; now injection Hb as ->] ]
  end.
  unfold BranchNode.getLog. simpl. rewrite Hl.
  unfold bind, call. simpl. now rewrite Hg.
Qed.

(** C8 (as amended).  When the data access yields no data -- the
    [BranchNode] ends with no log, the [BranchesNode] gets no branch -- a
    settled [getChildren()] returns a newly created array that holds the
    single message node, and leaves the cache unset.  A rejection of the
    data access ([git.getLog], [repo.getBranches]) is not caught:
    [getChildren()] rejects. *)
Theorem getChildren_without_data :
  forall (idm fc : list ViewNode -> list ViewNode) (git : GitService),
    (forall (w w' : World BranchNode.t) (arr : Children),
        BranchNode._children (this w) = None ->
        BranchNode.getChildren idm git w = (Resolved arr, w') ->
        BranchNode._log (this w') = None ->
        items arr = [MessageNode "No commits could be found." None None] /\
        stamp arr = fresh w /\
        BranchNode._children (this w') = None) /\
    (forall (w : World BranchNode.t) (e : string),
        BranchNode._children (this w) = None ->
        BranchNode._log (this w) = None ->
        getLog git (BranchNode.uri_repoPath (this w)) (BranchNode.log_limit (this w))
               (GitBranch.ref (BranchNode.branch (this w)))
               (BranchNode.authors (BranchNode.options (this w))) = Rejected e ->
        exists e', fst (BranchNode.getChildren idm git w) = Rejected e') /\
    (forall (v : World BranchesNode.t),
        BranchesNode._children (this v) = None ->
        getBranches git (BranchesNode.repo_path (this v))
                    (fun b => negb (GitBranch.remote b)) = Resolved [] ->
        fst (BranchesNode.getChildren fc git v)
        = Resolved {| stamp := fresh v;
                      items := [MessageNode "No branches could be found." None None] |} /\
        BranchesNode._children (this (snd (BranchesNode.getChildren fc git v))) = None) /\
    (forall (v : World BranchesNode.t) (e : string),
        BranchesNode._children (this v) = None ->
        getBranches git (BranchesNode.repo_path (this v))
                    (fun b => negb (GitBranch.remote b)) = Rejected e ->
        fst (BranchesNode.getChildren fc git v) = Rejected e).
Proof.
  intros idm fc git. repeat apply conj.
  - intros w w' arr Hc Hrun Hl.
    destruct (getChildren_Resolved idm git w Hc Hrun) as (Hs & _ & H).
    rewrite Hl in H. destruct H as [Hi Hc']. now repeat split.
  - intros w e. apply getChildren_rejects_with_getLog.
  - intros v Hc Hb. rewrite (BranchesNode_getChildren_first fc git v Hc), Hb.
    simpl. now split.
  - intros v e Hc Hb. rewrite (BranchesNode_getChildren_first fc git v Hc), Hb.
    reflexivity.
Qed.

(** When [git.getLog] rejects, [getChildren()] rejects: no message node is
    returned. *)
Lemma getChildren_rejects_when_git_fails :
  fst (BranchNode.getChildren Scenario.plain Scenario.git_failing
         (Scenario.start Scenario.branch_node))
  = Rejected "git log failed".
Proof. vm_compute. reflexivity. Qed.

Lemma getChildren_without_data_witness :
  exists arr w',
    BranchNode.getChildren Scenario.plain Scenario.git_no_log
      (Scenario.start Scenario.branch_node) = (Resolved arr, w') /\
    items arr = [MessageNode "No commits could be found." None None] /\
    stamp arr = 0 /\
    BranchNode._children (this w') = None.
Proof.
  do 2 eexists. split; [vm_compute; reflexivity |].
  refine (proj1 (getChildren_without_data Scenario.plain Scenario.plain Scenario.git_no_log)
                (Scenario.start Scenario.branch_node) _ _ _ _ _);
    vm_compute; reflexivity.
Defined.

(* ===================================================================== *)
(** ** Refresh and disposal *)
(* ===================================================================== *)

Lemma dispose_all_spec (cs : list nat) (st : BranchesViewNode.Store) :
  let st' := fold_left (fun s a => BranchesViewNode.dispose_at a s) cs st in
  (forall a, In a cs -> BranchesViewNode.disposed (st' a) = true) /\
  (forall a, ~ In a cs -> st' a = st a) /\
  (forall a, BranchesViewNode.disposed (st a) = true ->
             BranchesViewNode.disposed (st' a) = true).
Proof.
  revert st. induction cs as [| c cs IH]; intro st; simpl.
  - repeat split; [intros a [] | intros; assumption].
  - specialize (IH (BranchesViewNode.dispose_at c st)). cbv zeta in IH.
    destruct IH as (IH1 & IH2 & IH3). repeat split.
    + intros a [-> | Hin].
      * apply IH3. unfold BranchesViewNode.dispose_at. now rewrite Nat.eqb_refl.
      * now apply IH1.
    + intros a Hnot. rewrite IH2 by tauto.
      unfold BranchesViewNode.dispose_at.
      destruct (Nat.eqb_spec a c) as [-> | _]; [tauto | reflexivity].
    + intros a Hd. apply IH3. unfold BranchesViewNode.dispose_at.
      destruct (Nat.eqb a c); [reflexivity | exact Hd].
Qed.

(** C6 (as amended).  [BranchNode.refresh] always clears the cached
    children (and disposes nothing).  [BranchesViewNode.refresh(true)]
    disposes every repository node the view node held, touches no other
    node, and clears the list; [refresh(false)] leaves the list and the
    nodes as they are.  In each case no disposed node is left in the
    children list of the view node. *)
Theorem refresh_clears_and_disposes :
  forall (reset : bool) (bn : BranchNode.t) (vn : BranchesViewNode.t)
         (st : BranchesViewNode.Store),
    BranchNode._children (BranchNode.refresh reset bn) = None /\
    (forall cs, BranchesViewNode.children vn = Some cs ->
       let r := BranchesViewNode.refresh true vn st in
       BranchesViewNode.children (fst r) = None /\
       (forall a, In a cs -> BranchesViewNode.disposed (snd r a) = true) /\
       (forall a, ~ In a cs -> snd r a = st a)) /\
    BranchesViewNode.refresh false vn st = (vn, st) /\
    (BranchesViewNode.no_disposed_child vn st ->
     BranchesViewNode.no_disposed_child (fst (BranchesViewNode.refresh reset vn st))
                                        (snd (BranchesViewNode.refresh reset vn st))).
Proof.
  intros reset bn vn st. repeat apply conj.
  - now destruct reset.
  - intros cs Hcs r. subst r. unfold BranchesViewNode.refresh. rewrite Hcs. simpl.
    destruct (dispose_all_spec cs st) as (H1 & H2 & _). now repeat split.
  - reflexivity.
  - intro Hinv. unfold BranchesViewNode.refresh.
    destruct reset; [| exact Hinv].
    destruct (BranchesViewNode.children vn); [exact I | exact Hinv].
Qed.

(** [refresh()] with the default [reset = false] on a view node that holds
    a repository node: the children are not cleared and the node is not
    disposed. *)
Lemma refresh_false_keeps_children :
  let vn := {| BranchesViewNode.children := Some [0] |} in
  let st := fun _ : nat =>
              {| BranchesViewNode.repo := "/repo"; BranchesViewNode.subscribed := true;
                 BranchesViewNode.disposed := false |} in
  BranchesViewNode.children (fst (BranchesViewNode.refresh false vn st)) = Some [0] /\
  BranchesViewNode.disposed (snd (BranchesViewNode.refresh false vn st) 0) = false.
Proof. now split. Qed.

Lemma refresh_clears_and_disposes_witness :
  let vn := {| BranchesViewNode.children := Some [0; 1] |} in
  let st := fun _ : nat =>
              {| BranchesViewNode.repo := "/repo"; BranchesViewNode.subscribed := true;
                 BranchesViewNode.disposed := false |} in
  BranchesViewNode.no_disposed_child vn st /\
  BranchesViewNode.no_disposed_child (fst (BranchesViewNode.refresh true vn st))
                                     (snd (BranchesViewNode.refresh true vn st)) /\
  BranchesViewNode.disposed (snd (BranchesViewNode.refresh true vn st) 1) = true.
Proof.
  cbv zeta.
  assert (H0 : BranchesViewNode.no_disposed_child
                 {| BranchesViewNode.children := Some [0; 1] |}
                 (fun _ : nat =>
                    {| BranchesViewNode.repo := "/repo"; BranchesViewNode.subscribed := true;
                       BranchesViewNode.disposed := false |})).
  { intros a _. reflexivity. }
  split; [exact H0 |]. split.
  - exact (proj2 (proj2 (proj2 (refresh_clears_and_disposes
                                  true Scenario.branch_node _ _))) H0).
  - reflexivity.
Defined.

(* ===================================================================== *)
(** ** The reveal engine: depth bound and pruning *)
(* ===================================================================== *)

Section FindNodeFacts.

Variable W : Type.
Variable ops : ViewBase.NodeOps W.
Variable pageArg : option MoreLimit.
Variable predicate : Node.t -> bool.
Variable opts : ViewBase.FindOptions W.

Local Abbreviation page := (ViewBase.page ops pageArg predicate opts).
Local Abbreviation visit_level := (ViewBase.visit_level ops pageArg predicate opts).
Local Abbreviation levels := (ViewBase.levels ops pageArg predicate opts).
Local Abbreviation well_guarded := (ViewBase.well_guarded opts).

(** Paging a node only loads more of that node, with the argument of the
    engine, and reads its children. *)
Lemma page_visits (fuel depth : nat) (n : Node.t) :
  forall w r w' evs,
    page fuel depth n w = (r, w', evs) ->
    forall e, In e evs ->
      e = ViewBase.LoadMore depth n pageArg \/ e = ViewBase.GetChildren depth n.
Proof.
  induction fuel as [| fuel IH]; intros w r w' evs H e He; simpl in H.
  - inversion H; subst. destruct He.
  - destruct (ViewBase.token opts w); [inversion H; subst; destruct He |].
    destruct (ViewBase.loadMore ops n pageArg w) as [[u | x] w1].
    + destruct (ViewBase.getChildren ops n w1) as [[cs | x] w2].
      * destruct (find predicate cs).
        -- inversion H; subst. simpl in He. intuition.
        -- destruct (ViewBase.hasMore ops n w2).
           ++ destruct (page fuel depth n w2) as [[r3 w3] evs3] eqn:E.
              inversion H; subst. simpl in He.
              destruct He as [He | [He | He]]; [intuition | intuition |].
              exact (IH _ _ _ _ E e He).
           ++ inversion H; subst. simpl in He. intuition.
      * inversion H; subst. simpl in He. intuition.
    + inversion H; subst. simpl in He. intuition.
Qed.

Lemma well_guarded_nil (depth : nat) (nodes : list Node.t) : well_guarded depth nodes [].
Proof. intros e []. Qed.

(** A node that [canTraverse] turned down adds its answer and nothing
    else. *)
Lemma well_guarded_pruned (depth : nat) (n : Node.t) (rest : list Node.t)
      (evs : list ViewBase.Visit) (w0 : W) :
  fst (ViewBase.canTraverse opts n w0) = Resolved false ->
  well_guarded depth rest evs ->
  well_guarded depth (n :: rest) (ViewBase.CanTraverse depth n false :: evs).
Proof.
  intros Hct Hrest e [<- | He].
  - repeat split; [now left | now exists w0].
  - specialize (Hrest e He). destruct e as [d m b | d m | d m a]; simpl in *.
    + destruct Hrest as (H1 & H2 & H3). repeat split; [assumption | now right | assumption].
    + destruct Hrest as (H1 & H2 & H3). repeat split; [assumption | now right | now right].
    + destruct Hrest as (H1 & H2 & H3). repeat split; [assumption | now right | now right].
Qed.

(** A node that [canTraverse] let through: its answer, its children, and
    whatever paging it took, before the rest of the level. *)
Lemma well_guarded_expanded (depth : nat) (n : Node.t) (rest : list Node.t)
      (paging evs : list ViewBase.Visit) (w0 : W) :
  fst (ViewBase.canTraverse opts n w0) = Resolved true ->
  (forall e, In e paging ->
             e = ViewBase.LoadMore depth n pageArg \/ e = ViewBase.GetChildren depth n) ->
  well_guarded depth rest evs ->
  well_guarded depth (n :: rest)
               ([ViewBase.CanTraverse depth n true; ViewBase.GetChildren depth n]
                  ++ paging ++ evs).
Proof.
  intros Hct Hpage Hrest e He. simpl in He.
  assert (Hhead : In (ViewBase.CanTraverse depth n true)
                     ([ViewBase.CanTraverse depth n true; ViewBase.GetChildren depth n]
                        ++ paging ++ evs)) by now left.
  destruct He as [<- | [<- | He]].
  - repeat split; [now left | now exists w0].
  - repeat split; [now left | exact Hhead].
  - apply in_app_or in He. destruct He as [He | He].
    + destruct (Hpage e He) as [-> | ->]; repeat split; try (now left); exact Hhead.
    + specialize (Hrest e He).
      assert (Hin : forall x, In x evs ->
                In x ([ViewBase.CanTraverse depth n true; ViewBase.GetChildren depth n]
                        ++ paging ++ evs)).
      { intros x Hx. simpl. right. right. apply in_or_app. now right. }
      destruct e as [d m b | d m | d m a];
        destruct Hrest as (H1 & H2 & H3);
        (split; [assumption | split; [now right |]]);
        solve [assumption | now apply Hin].
Qed.

(** One level: the visits are well guarded, and the next frontier is made
    of children of the nodes of this one. *)
Lemma visit_level_guarded (fuel depth : nat) :
  forall nodes next w r w' evs,
    visit_level fuel depth nodes next w = (r, w', evs) ->
    well_guarded depth nodes evs /\
    (forall next', r = ViewBase.LevelDone next' ->
       forall c, In c next' ->
         In c next \/
         exists p w0, In p nodes /\
                      In c (ViewBase.children_of (ViewBase.getChildren ops p w0))).
Proof.
  induction nodes as [| n rest IH]; intros next w r w' evs H; simpl in H.
  - inversion H; subst. split; [apply well_guarded_nil |].
    intros next' E c Hc. inversion E; subst. now left.
  - destruct (ViewBase.token opts w).
    { inversion H; subst. split; [apply well_guarded_nil | intros ? E; discriminate E]. }
    destruct (predicate n).
    { inversion H; subst. split; [apply well_guarded_nil | intros ? E; discriminate E]. }
    destruct (ViewBase.canTraverse opts n w) as [[ok | x] w1] eqn:Ect.
    2:{ inversion H; subst. split; [apply well_guarded_nil | intros ? E; discriminate E]. }
    assert (Hct : fst (ViewBase.canTraverse opts n w) = Resolved ok) by now rewrite Ect.
    assert (Hnone : forall e : ViewBase.Visit, In e [] ->
              e = ViewBase.LoadMore depth n pageArg \/ e = ViewBase.GetChildren depth n)
      by (intros e []).
    destruct ok.
    + destruct (ViewBase.getChildren ops n w1) as [[cs | x] w2] eqn:Egc.
      2:{ inversion H; subst. split; [| intros ? E; discriminate E].
          exact (@well_guarded_expanded depth n rest [] [] w Hct Hnone
                   (well_guarded_nil depth rest)). }
      destruct (ViewBase.pageable ops n).
      * destruct (find predicate cs).
        { inversion H; subst. split; [| intros ? E; discriminate E].
          exact (@well_guarded_expanded depth n rest [] [] w Hct Hnone
                   (well_guarded_nil depth rest)). }
        destruct (ViewBase.allowPaging opts && ViewBase.hasMore ops n w2)%bool.
        -- destruct (page fuel depth n w2) as [[pr w3] pevs] eqn:Ep.
           pose proof (@page_visits fuel depth n _ _ _ _ Ep) as Hp.
           assert (Hend : well_guarded depth (n :: rest)
                            ([ViewBase.CanTraverse depth n true; ViewBase.GetChildren depth n]
                               ++ pevs)).
           { rewrite <- (app_nil_r pevs).
             exact (@well_guarded_expanded depth n rest pevs [] w Hct Hp
                      (well_guarded_nil depth rest)). }
           destruct pr.
           ++ inversion H; subst. split; [exact Hend | intros ? E; discriminate E].
           ++ inversion H; subst. split; [exact Hend | intros ? E; discriminate E].
           ++ destruct (visit_level fuel depth rest next w3) as [[r' w''] evs'] eqn:Er.
              inversion H; subst. destruct (IH _ _ _ _ _ Er) as [Hg Hn]. split.
              ** exact (@well_guarded_expanded depth n rest pevs evs' w Hct Hp Hg).
              ** intros next' E c Hc. destruct (Hn next' E c Hc) as [Hl | (p & w0 & Hp1 & Hp2)];
                   [now left | right; exists p, w0; split; [now right | assumption]].
           ++ inversion H; subst. split; [exact Hend | intros ? E; discriminate E].
           ++ inversion H; subst. split; [exact Hend | intros ? E; discriminate E].
        -- destruct (visit_level fuel depth rest next w2) as [[r' w''] evs'] eqn:Er.
           inversion H; subst. destruct (IH _ _ _ _ _ Er) as [Hg Hn]. split.
           ** exact (@well_guarded_expanded depth n rest [] evs' w Hct Hnone Hg).
           ** intros next' E c Hc. destruct (Hn next' E c Hc) as [Hl | (p & w0 & Hp1 & Hp2)];
                [now left | right; exists p, w0; split; [now right | assumption]].
      * destruct (visit_level fuel depth rest (next ++ cs) w2) as [[r' w''] evs'] eqn:Er.
        inversion H; subst. destruct (IH _ _ _ _ _ Er) as [Hg Hn]. split.
        -- exact (@well_guarded_expanded depth n rest [] evs' w Hct Hnone Hg).
        -- intros next' E c Hc.
           destruct (Hn next' E c Hc) as [Hl | (p & w0 & Hp1 & Hp2)].
           ++ apply in_app_or in Hl. destruct Hl as [Hl | Hl]; [now left |].
              right. exists n, w1. split; [now left |].
              unfold ViewBase.children_of. now rewrite Egc.
           ++ right. exists p, w0. split; [now right | assumption].
    + destruct (visit_level fuel depth rest next w1) as [[r' w''] evs'] eqn:Er.
      inversion H; subst. destruct (IH _ _ _ _ _ Er) as [Hg Hn]. split.
      * exact (@well_guarded_pruned depth n rest evs' w Hct Hg).
      * intros next' E c Hc. destruct (Hn next' E c Hc) as [Hl | (p & w0 & Hp1 & Hp2)];
          [now left | right; exists p, w0; split; [now right | assumption]].
Qed.

(** All the levels: every call of [getChildren] is on a node that sits at
    the depth on record below the root, within the levels searched, and
    that [canTraverse] has let through. *)
Lemma levels_guarded (fuel : nat) (root : Node.t) :
  forall remaining depth frontier w res w' evs,
    levels fuel remaining depth frontier w = (res, w', evs) ->
    (forall n, In n frontier -> ViewBase.at_depth ops root depth n) ->
    forall d n, In (ViewBase.GetChildren d n) evs ->
      d <= depth + remaining /\
      ViewBase.at_depth ops root d n /\
      In (ViewBase.CanTraverse d n true) evs /\
      exists w0, fst (ViewBase.canTraverse opts n w0) = Resolved true.
Proof.
  induction remaining as [| remaining IH]; intros depth frontier w res w' evs H Hfr d n Hin;
    simpl in H;
    destruct (visit_level fuel depth frontier [] w) as [[lv w1] evs1] eqn:Ev;
    destruct (@visit_level_guarded fuel depth _ _ _ _ _ _ Ev) as [Hg Hnext].
  - assert (evs = evs1) as ->.
    { destruct lv as [m | | x | | [| c next]]; now inversion H. }
    destruct (Hg _ Hin) as (-> & Hn & Hc).
    destruct (Hg _ Hc) as (_ & _ & Hw).
    repeat split; [lia | now apply Hfr | assumption | assumption].
  - assert (Hlevel : In (ViewBase.GetChildren d n) evs1 ->
                     d <= depth + S remaining /\
                     ViewBase.at_depth ops root d n /\
                     In (ViewBase.CanTraverse d n true) evs1 /\
                     exists w0, fst (ViewBase.canTraverse opts n w0) = Resolved true).
    { intro Hin1. destruct (Hg _ Hin1) as (-> & Hn & Hc).
      destruct (Hg _ Hc) as (_ & _ & Hw).
      repeat split; [lia | now apply Hfr | assumption | assumption]. }
    destruct lv as [m | | x | | [| c next]]; try (inversion H; subst; now apply Hlevel).
    destruct (levels fuel remaining (S depth) (c :: next) w1) as [[res2 w2] evs2] eqn:El.
    inversion H; subst. apply in_app_or in Hin. destruct Hin as [Hin | Hin].
    + destruct (Hlevel Hin) as (H1 & H2 & H3 & H4).
      repeat split; try assumption. apply in_or_app. now left.
    + assert (Hfr' : forall x, In x (c :: next) -> ViewBase.at_depth ops root (S depth) x).
      { intros x Hx. destruct (Hnext _ eq_refl x Hx) as [[] | (p & w0 & Hp1 & Hp2)].
        exact (@ViewBase.at_child W ops root depth p x w0 (Hfr p Hp1) Hp2). }
      destruct (IH _ _ _ _ _ _ El Hfr' d n Hin) as (H1 & H2 & H3 & H4).
      repeat split; try assumption; [lia | apply in_or_app; now right].
Qed.

(** [findNode] never calls [getChildren] on a node deeper than [maxDepth],
    nor on a node that [canTraverse] has not let through. *)
Lemma findNode_guarded (fuel : nat) (root : Node.t) (w : W) :
  forall d n,
    In (ViewBase.GetChildren d n)
       (snd (ViewBase.findNode ops pageArg predicate opts fuel root w)) ->
    d <= ViewBase.maxDepth opts /\
    ViewBase.at_depth ops root d n /\
    In (ViewBase.CanTraverse d n true)
       (snd (ViewBase.findNode ops pageArg predicate opts fuel root w)) /\
    exists w0, fst (ViewBase.canTraverse opts n w0) = Resolved true.
Proof.
  intros d n Hin. unfold ViewBase.findNode in *.
  destruct (levels fuel (ViewBase.maxDepth opts) 0 [root] w) as [[res w'] evs] eqn:E.
  simpl in *.
  apply (@levels_guarded fuel root _ _ _ _ _ _ _ E); [| exact Hin].
  intros x [<- | []]. constructor.
Qed.

End FindNodeFacts.

(** What [BranchesView.findBranch] lets the search enter: the view node,
    and the repository and folder nodes of the branch's repository. *)
Lemma findBranch_canTraverse_classes (getId : string -> string) (branch : GitBranch.t)
      (n : Node.t) :
  BranchesView_findBranch_canTraverse getId branch n = true ->
  Node.class n = Class.BranchesViewNode \/
  ((Node.class n = Class.BranchesRepositoryNode \/
    Node.class n = Class.BranchOrTagFolderNode) /\
   startsWith (Node.id n) (getId (GitBranch.repoPath branch)) = true).
Proof.
  unfold BranchesView_findBranch_canTraverse, Node.instanceof.
  destruct (Node.class n); simpl; intro H; try discriminate H; auto.
Qed.

(** C3.  [findNode] calls [getChildren] only on nodes that sit at a depth
    of at most [maxDepth] below the root and that [canTraverse] has let
    through (for a [canTraverse] that is a function of the node: only on
    nodes it is true of).  So [BranchesView.findBranch], for a local
    branch, calls [getChildren] at depth 4 at most and only on the view
    node and on repository and folder nodes of the branch's repository:
    never on a branch node, a remote node or a remotes node; for a remote
    branch it returns [undefined] and searches nothing. *)
Theorem findNode_respects_depth_and_canTraverse :
  forall (W : Type) (ops : ViewBase.NodeOps W) (pageArg : option MoreLimit)
         (getId : string -> string),
    (forall predicate opts fuel root w d n,
        In (ViewBase.GetChildren d n)
           (snd (ViewBase.findNode ops pageArg predicate opts fuel root w)) ->
        d <= ViewBase.maxDepth opts /\
        ViewBase.at_depth ops root d n /\
        In (ViewBase.CanTraverse d n true)
           (snd (ViewBase.findNode ops pageArg predicate opts fuel root w)) /\
        (forall ct, (forall m v, ViewBase.canTraverse opts m v = (Resolved (ct m), v)) ->
                    ct n = true)) /\
    (forall branch token fuel root w d n,
        In (ViewBase.GetChildren d n)
           (snd (BranchesView_findBranch ops pageArg getId branch token fuel root w)) ->
        GitBranch.remote branch = false /\
        d <= 4 /\
        BranchesView_findBranch_canTraverse getId branch n = true /\
        Node.class n <> Class.BranchNode /\
        Node.class n <> Class.RemoteNode /\
        Node.class n <> Class.RemotesNode) /\
    (forall branch token fuel root w,
        GitBranch.remote branch = true ->
        BranchesView_findBranch ops pageArg getId branch token fuel root w
        = (Some (Resolved None), w, [])).
Proof.
  intros W ops pageArg getId. repeat apply conj.
  - intros predicate opts fuel root w d n Hin.
    destruct (@findNode_guarded W ops pageArg predicate opts fuel root w d n Hin)
      as (H1 & H2 & H3 & w0 & H4).
    repeat split; try assumption.
    intros ct Hct. rewrite Hct in H4. now injection H4.
  - intros branch token fuel root w d n Hin.
    unfold BranchesView_findBranch in Hin.
    destruct (GitBranch.remote branch); [destruct Hin |].
    destruct (@findNode_guarded W ops pageArg _ _ fuel root w d n Hin)
      as (H1 & _ & _ & w0 & H4).
    simpl in H1, H4. injection H4 as H4.
    destruct (findBranch_canTraverse_classes getId branch n H4) as [Hc | [[Hc | Hc] _]];
      repeat split; try assumption; rewrite Hc; discriminate.
  - intros branch token fuel root w Hr. unfold BranchesView_findBranch. now rewrite Hr.
Qed.

(** Revealing [feature/x] in the branches view: the repository node of
    [/repo] is expanded at depth 1, within the bound, and it is a node
    [canTraverse] accepts; the branch is found. *)
Lemma findNode_respects_depth_and_canTraverse_witness :
  let run := BranchesView_findBranch Scenario.branches_ops None Scenario.getId
               Scenario.feature_x Scenario.never_cancelled 1
               Scenario.branches_root tt in
  fst (fst run) = Some (Resolved (Some (Scenario.branch_of Scenario.feature_x))) /\
  In (ViewBase.GetChildren 1 Scenario.repo_folder) (snd run) /\
  1 <= 4 /\
  BranchesView_findBranch_canTraverse Scenario.getId Scenario.feature_x
    Scenario.repo_folder = true.
Proof.
  cbv zeta.
  assert (Hin : In (ViewBase.GetChildren 1 Scenario.repo_folder)
                   (snd (BranchesView_findBranch Scenario.branches_ops None Scenario.getId
                           Scenario.feature_x Scenario.never_cancelled 1
                           Scenario.branches_root tt))).
  { vm_compute. tauto. }
  split; [vm_compute; reflexivity |]. split; [exact Hin |].
  pose proof (proj1 (proj2 (findNode_respects_depth_and_canTraverse
                              Scenario.branches_ops None Scenario.getId))
                    Scenario.feature_x Scenario.never_cancelled 1
                    Scenario.branches_root tt 1 Scenario.repo_folder Hin) as H.
  exact (conj (proj1 (proj2 H)) (proj1 (proj2 (proj2 H)))).
Defined.

(* ===================================================================== *)
(** ** The reveal engine: what it returns *)
(* ===================================================================== *)

Section FindNodeResult.

Variable W : Type.
Variable ops : ViewBase.NodeOps W.
Variable pageArg : option MoreLimit.
Variable predicate : Node.t -> bool.
Variable opts : ViewBase.FindOptions W.

Local Abbreviation page := (ViewBase.page ops pageArg predicate opts).
Local Abbreviation visit_level := (ViewBase.visit_level ops pageArg predicate opts).
Local Abbreviation levels := (ViewBase.levels ops pageArg predicate opts).

Lemma page_found (fuel depth : nat) (n : Node.t) :
  forall w c w' evs,
    page fuel depth n w = (ViewBase.PageFound c, w', evs) -> predicate c = true.
Proof.
  induction fuel as [| fuel IH]; intros w c w' evs H; simpl in H.
  - discriminate H.
  - destruct (ViewBase.token opts w); [discriminate H |].
    destruct (ViewBase.loadMore ops n pageArg w) as [[u | x] w1]; [| discriminate H].
    destruct (ViewBase.getChildren ops n w1) as [[cs | x] w2]; [| discriminate H].
    destruct (find predicate cs) as [x |] eqn:Ef.
    + inversion H; subst. now apply find_some in Ef.
    + destruct (ViewBase.hasMore ops n w2); [| discriminate H].
      destruct (page fuel depth n w2) as [[r3 w3] evs3] eqn:E.
      inversion H; subst. exact (IH _ _ _ _ E).
Qed.

Lemma visit_level_found (fuel depth : nat) :
  forall nodes next w c w' evs,
    visit_level fuel depth nodes next w = (ViewBase.LevelFound c, w', evs) ->
    predicate c = true.
Proof.
  induction nodes as [| n rest IH]; intros next w c w' evs H; simpl in H.
  - discriminate H.
  - destruct (ViewBase.token opts w); [discriminate H |].
    destruct (predicate n) eqn:Ep; [now inversion H; subst |].
    destruct (ViewBase.canTraverse opts n w) as [[[|] | x] w1]; [| | discriminate H].
    + destruct (ViewBase.getChildren ops n w1) as [[cs | x] w2]; [| discriminate H].
      destruct (ViewBase.pageable ops n).
      * destruct (find predicate cs) as [x |] eqn:Ef.
        { inversion H; subst. now apply find_some in Ef. }
        destruct (ViewBase.allowPaging opts && ViewBase.hasMore ops n w2)%bool.
        -- destruct (page fuel depth n w2) as [[pr w3] pevs] eqn:Epg.
           destruct pr; try discriminate H.
           ++ inversion H; subst. exact (@page_found fuel depth n _ _ _ _ Epg).
           ++ destruct (visit_level fuel depth rest next w3) as [[r' w''] evs'] eqn:Er.
              inversion H; subst. exact (IH _ _ _ _ _ Er).
        -- destruct (visit_level fuel depth rest next w2) as [[r' w''] evs'] eqn:Er.
           inversion H; subst. exact (IH _ _ _ _ _ Er).
      * destruct (visit_level fuel depth rest (next ++ cs) w2) as [[r' w''] evs'] eqn:Er.
        inversion H; subst. exact (IH _ _ _ _ _ Er).
    + destruct (visit_level fuel depth rest next w1) as [[r' w''] evs'] eqn:Er.
      inversion H; subst. exact (IH _ _ _ _ _ Er).
Qed.

(** A node the search returns satisfies the predicate. *)
Lemma findNode_found (fuel : nat) (root : Node.t) (w : W) (c : Node.t) :
  fst (fst (ViewBase.findNode ops pageArg predicate opts fuel root w))
  = Some (Resolved (Some c)) ->
  predicate c = true.
Proof.
  unfold ViewBase.findNode. generalize 0 at 1. generalize [root]. revert w.
  induction (ViewBase.maxDepth opts) as [| remaining IH]; intros w frontier depth H;
    simpl in H;
    destruct (visit_level fuel depth frontier [] w) as [[lv w1] evs1] eqn:Ev.
  - destruct lv as [m | | x | | [| x next]]; simpl in H; try discriminate H.
    inversion H; subst. exact (@visit_level_found fuel depth _ _ _ _ _ _ Ev).
  - destruct lv as [m | | x | | [| x next]]; simpl in H; try discriminate H.
    + inversion H; subst. exact (@visit_level_found fuel depth _ _ _ _ _ _ Ev).
    + destruct (levels fuel remaining (S depth) (x :: next) w1) as [[res2 w2] evs2] eqn:El.
      simpl in H. apply (IH w1 (x :: next) (S depth)). now rewrite El.
Qed.

(** A rejection the search settles to is the rejection of a call it
    awaited. *)
Lemma page_rejected (fuel depth : nat) (n : Node.t) :
  forall w e w' evs,
    page fuel depth n w = (ViewBase.PageRejected e, w', evs) ->
    ViewBase.rejects ops pageArg opts e.
Proof.
  induction fuel as [| fuel IH]; intros w e w' evs H; simpl in H.
  - discriminate H.
  - destruct (ViewBase.token opts w); [discriminate H |].
    destruct (ViewBase.loadMore ops n pageArg w) as [[u | x] w1] eqn:El.
    + destruct (ViewBase.getChildren ops n w1) as [[cs | x] w2] eqn:Eg.
      * destruct (find predicate cs); [discriminate H |].
        destruct (ViewBase.hasMore ops n w2); [| discriminate H].
        destruct (page fuel depth n w2) as [[r3 w3] evs3] eqn:E.
        inversion H; subst. exact (IH _ _ _ _ E).
      * inversion H; subst. exists n, w1. right. left. now rewrite Eg.
    + inversion H; subst. exists n, w. right. right. now rewrite El.
Qed.

Lemma visit_level_rejected (fuel depth : nat) :
  forall nodes next w e w' evs,
    visit_level fuel depth nodes next w = (ViewBase.LevelRejected e, w', evs) ->
    ViewBase.rejects ops pageArg opts e.
Proof.
  induction nodes as [| n rest IH]; intros next w e w' evs H; simpl in H.
  - discriminate H.
  - destruct (ViewBase.token opts w); [discriminate H |].
    destruct (predicate n); [discriminate H |].
    destruct (ViewBase.canTraverse opts n w) as [[[|] | x] w1] eqn:Ec.
    + destruct (ViewBase.getChildren ops n w1) as [[cs | x] w2] eqn:Eg.
      2:{ inversion H; subst. exists n, w1. right. left. now rewrite Eg. }
      destruct (ViewBase.pageable ops n).
      * destruct (find predicate cs); [discriminate H |].
        destruct (ViewBase.allowPaging opts && ViewBase.hasMore ops n w2)%bool.
        -- destruct (page fuel depth n w2) as [[pr w3] pevs] eqn:Epg.
           destruct pr; try discriminate H.
           ++ destruct (visit_level fuel depth rest next w3) as [[r' w''] evs'] eqn:Er.
              inversion H; subst. exact (IH _ _ _ _ _ Er).
           ++ inversion H; subst. exact (@page_rejected fuel depth n _ _ _ _ Epg).
        -- destruct (visit_level fuel depth rest next w2) as [[r' w''] evs'] eqn:Er.
           inversion H; subst. exact (IH _ _ _ _ _ Er).
      * destruct (visit_level fuel depth rest (next ++ cs) w2) as [[r' w''] evs'] eqn:Er.
        inversion H; subst. exact (IH _ _ _ _ _ Er).
    + destruct (visit_level fuel depth rest next w1) as [[r' w''] evs'] eqn:Er.
      inversion H; subst. exact (IH _ _ _ _ _ Er).
    + inversion H; subst. exists n, w. left. now rewrite Ec.
Qed.

Lemma findNode_rejected (fuel : nat) (root : Node.t) (w : W) (e : string) :
  fst (fst (ViewBase.findNode ops pageArg predicate opts fuel root w)) = Some (Rejected e) ->
  ViewBase.rejects ops pageArg opts e.
Proof.
  unfold ViewBase.findNode. generalize 0 at 1. generalize [root]. revert w.
  induction (ViewBase.maxDepth opts) as [| remaining IH]; intros w frontier depth H;
    simpl in H;
    destruct (visit_level fuel depth frontier [] w) as [[lv w1] evs1] eqn:Ev.
  - destruct lv as [m | | x | | [| x next]]; simpl in H; try discriminate H.
    inversion H; subst. exact (@visit_level_rejected fuel depth _ _ _ _ _ _ Ev).
  - destruct lv as [m | | x | | [| x next]]; simpl in H; try discriminate H.
    + inversion H; subst. exact (@visit_level_rejected fuel depth _ _ _ _ _ _ Ev).
    + destruct (levels fuel remaining (S depth) (x :: next) w1) as [[res2 w2] evs2] eqn:El.
      simpl in H. apply (IH w1 (x :: next) (S depth)). now rewrite El.
Qed.

(** Every [loadMore] of the engine is given the argument of the engine,
    on a pageable node, when paging is allowed. *)
Lemma visit_level_loads (fuel depth : nat) :
  forall nodes next w r w' evs,
    visit_level fuel depth nodes next w = (r, w', evs) ->
    forall d m arg, In (ViewBase.LoadMore d m arg) evs ->
      arg = pageArg /\ ViewBase.pageable ops m = true /\ ViewBase.allowPaging opts = true.
Proof.
  induction nodes as [| n rest IH]; intros next w r w' evs H d m arg Hin; simpl in H.
  - inversion H; subst. destruct Hin.
  - destruct (ViewBase.token opts w); [inversion H; subst; destruct Hin |].
    destruct (predicate n); [inversion H; subst; destruct Hin |].
    destruct (ViewBase.canTraverse opts n w) as [[[|] | x] w1].
    + destruct (ViewBase.getChildren ops n w1) as [[cs | x] w2].
      2:{ inversion H; subst. simpl in Hin. destruct Hin as [E | [E | []]]; discriminate E. }
      destruct (ViewBase.pageable ops n) eqn:Hpg.
      * destruct (find predicate cs).
        { inversion H; subst. simpl in Hin. destruct Hin as [E | [E | []]]; discriminate E. }
        destruct (ViewBase.allowPaging opts) eqn:Ha; simpl in H.
        -- destruct (ViewBase.hasMore ops n w2).
           ++ destruct (page fuel depth n w2) as [[pr w3] pevs] eqn:Epg.
              pose proof (@page_visits W ops pageArg predicate opts fuel depth n _ _ _ _ Epg)
                as Hp.
              assert (Hpage : In (ViewBase.LoadMore d m arg) pevs ->
                              arg = pageArg /\ ViewBase.pageable ops m = true /\ true = true).
              { intro Hi. destruct (Hp _ Hi) as [E | E]; [| discriminate E].
                injection E as -> -> ->. now repeat split. }
              destruct pr; try (inversion H; subst; simpl in Hin;
                                destruct Hin as [E | [E | Hin]];
                                [discriminate E | discriminate E | now apply Hpage]).
              destruct (visit_level fuel depth rest next w3) as [[r' w''] evs'] eqn:Er.
              inversion H; subst. simpl in Hin.
              destruct Hin as [E | [E | Hin]]; [discriminate E | discriminate E |].
              apply in_app_or in Hin. destruct Hin as [Hin | Hin]; [now apply Hpage |].
              exact (IH _ _ _ _ _ Er d m arg Hin).
           ++ destruct (visit_level fuel depth rest next w2) as [[r' w''] evs'] eqn:Er.
              inversion H; subst. simpl in Hin.
              destruct Hin as [E | [E | Hin]]; [discriminate E | discriminate E |].
              exact (IH _ _ _ _ _ Er d m arg Hin).
        -- destruct (visit_level fuel depth rest next w2) as [[r' w''] evs'] eqn:Er.
           inversion H; subst. simpl in Hin.
           destruct Hin as [E | [E | Hin]]; [discriminate E | discriminate E |].
           exact (IH _ _ _ _ _ Er d m arg Hin).
      * destruct (visit_level fuel depth rest (next ++ cs) w2) as [[r' w''] evs'] eqn:Er.
        inversion H; subst. simpl in Hin.
        destruct Hin as [E | [E | Hin]]; [discriminate E | discriminate E |].
        exact (IH _ _ _ _ _ Er d m arg Hin).
    + destruct (visit_level fuel depth rest next w1) as [[r' w''] evs'] eqn:Er.
      inversion H; subst. simpl in Hin. destruct Hin as [E | Hin]; [discriminate E |].
      exact (IH _ _ _ _ _ Er d m arg Hin).
    + inversion H; subst. destruct Hin.
Qed.

Lemma findNode_loads (fuel : nat) (root : Node.t) (w : W) :
  forall d m arg,
    In (ViewBase.LoadMore d m arg)
       (snd (ViewBase.findNode ops pageArg predicate opts fuel root w)) ->
    arg = pageArg /\ ViewBase.pageable ops m = true /\ ViewBase.allowPaging opts = true.
Proof.
  unfold ViewBase.findNode. generalize 0 at 1. generalize [root]. revert w.
  induction (ViewBase.maxDepth opts) as [| remaining IH];
    intros w frontier depth d m arg Hin; simpl in Hin;
    destruct (visit_level fuel depth frontier [] w) as [[lv w1] evs1] eqn:Ev;
    pose proof (@visit_level_loads fuel depth _ _ _ _ _ _ Ev d m arg) as Hv.
  - destruct lv as [x | | x | | [| x next]]; simpl in Hin; now apply Hv.
  - destruct lv as [x | | x | | [| x next]]; simpl in Hin; try now apply Hv.
    destruct (levels fuel remaining (S depth) (x :: next) w1) as [[res2 w2] evs2] eqn:El.
    simpl in Hin. apply in_app_or in Hin. destruct Hin as [Hin | Hin]; [now apply Hv |].
    apply (IH w1 (x :: next) (S depth) d m arg). now rewrite El.
Qed.

End FindNodeResult.

(** When nothing that is read matches, the search finds nothing and
    comes to an end within the fuel.  [reached] is a property the states
    of the search keep, and [pages_left] a number of pages that goes down
    with each page and stays below the fuel. *)
Section FindNodeGivesUp.

Variable W : Type.
Variable ops : ViewBase.NodeOps W.
Variable pageArg : option MoreLimit.
Variable predicate : Node.t -> bool.
Variable opts : ViewBase.FindOptions W.
Variable fuel : nat.
Variable reached : W -> Prop.
Variable pages_left : Node.t -> W -> nat.

Hypothesis canTraverse_keeps :
  forall n v, reached v -> reached (snd (ViewBase.canTraverse opts n v)).
Hypothesis loadMore_keeps :
  forall n v, reached v -> reached (snd (ViewBase.loadMore ops n pageArg v)).
Hypothesis getChildren_keeps :
  forall n v, reached v ->
    reached (snd (ViewBase.getChildren ops n v)) /\
    find predicate (ViewBase.children_of (ViewBase.getChildren ops n v)) = None.
Hypothesis pages_go_down :
  forall n v, reached v ->
    let v' := snd (ViewBase.getChildren ops n (snd (ViewBase.loadMore ops n pageArg v))) in
    ViewBase.hasMore ops n v' = true -> pages_left n v' < pages_left n v.
Hypothesis pages_within_fuel : forall n v, reached v -> pages_left n v < fuel.

Local Abbreviation page := (ViewBase.page ops pageArg predicate opts).
Local Abbreviation visit_level := (ViewBase.visit_level ops pageArg predicate opts).
Local Abbreviation levels := (ViewBase.levels ops pageArg predicate opts).

Lemma page_gives_up (depth : nat) (n : Node.t) :
  forall fuel' w,
    reached w -> pages_left n w < fuel' ->
    reached (snd (fst (page fuel' depth n w))) /\
    fst (fst (page fuel' depth n w)) <> ViewBase.PageOutOfFuel /\
    forall c, fst (fst (page fuel' depth n w)) <> ViewBase.PageFound c.
Proof.
  induction fuel' as [| fuel' IH]; intros w Hw Hlt; [lia |]. simpl.
  destruct (ViewBase.token opts w); [repeat split; [exact Hw | discriminate..] |].
  pose proof (loadMore_keeps n Hw) as Hl.
  pose proof (pages_go_down n Hw) as Hdown. cbv zeta in Hdown.
  destruct (ViewBase.loadMore ops n pageArg w) as [[u | x] w1]; simpl in Hl, Hdown.
  2:{ repeat split; [exact Hl | discriminate..]. }
  destruct (getChildren_keeps n Hl) as [Hg Hf]. unfold ViewBase.children_of in Hf.
  destruct (ViewBase.getChildren ops n w1) as [[cs | x] w2]; simpl in Hg, Hf, Hdown.
  2:{ repeat split; [exact Hg | discriminate..]. }
  rewrite Hf.
  destruct (ViewBase.hasMore ops n w2); [| repeat split; [exact Hg | discriminate..]].
  specialize (IH w2 Hg ltac:(specialize (Hdown eq_refl); lia)).
  destruct (page fuel' depth n w2) as [[r3 w3] evs3]. exact IH.
Qed.

Lemma visit_level_gives_up (depth : nat) :
  forall nodes next w,
    (forall n, In n nodes -> predicate n = false) ->
    (forall n, In n next -> predicate n = false) ->
    reached w ->
    reached (snd (fst (visit_level fuel depth nodes next w))) /\
    fst (fst (visit_level fuel depth nodes next w)) <> ViewBase.LevelOutOfFuel /\
    (forall c, fst (fst (visit_level fuel depth nodes next w)) <> ViewBase.LevelFound c) /\
    (forall next', fst (fst (visit_level fuel depth nodes next w)) = ViewBase.LevelDone next' ->
                   forall c, In c next' -> predicate c = false).
Proof.
  induction nodes as [| n rest IH]; intros next w Hnodes Hnext Hw; simpl.
  - repeat split; [exact Hw | discriminate.. |]. now intros next' [= <-].
  - destruct (ViewBase.token opts w); [repeat split; [exact Hw | discriminate..] |].
    rewrite (Hnodes n (or_introl eq_refl)).
    assert (Hrest : forall m, In m rest -> predicate m = false)
      by (intros m Hm; apply Hnodes; now right).
    pose proof (canTraverse_keeps n Hw) as Hc.
    destruct (ViewBase.canTraverse opts n w) as [[[|] | x] w1]; simpl in Hc.
    + destruct (getChildren_keeps n Hc) as [Hg Hf]. unfold ViewBase.children_of in Hf.
      destruct (ViewBase.getChildren ops n w1) as [[cs | x] w2]; simpl in Hg, Hf.
      2:{ repeat split; [exact Hg | discriminate..]. }
      destruct (ViewBase.pageable ops n).
      * rewrite Hf.
        destruct (ViewBase.allowPaging opts && ViewBase.hasMore ops n w2)%bool.
        -- destruct (@page_gives_up depth n fuel w2 Hg (pages_within_fuel n Hg))
             as (Hp1 & Hp2 & Hp3).
           destruct (page fuel depth n w2) as [[pr w3] pevs]. simpl in Hp1, Hp2, Hp3.
           destruct pr; try (repeat split; [exact Hp1 | discriminate..]).
           ++ now contradiction (Hp3 n0).
           ++ specialize (IH next w3 Hrest Hnext Hp1).
              now destruct (visit_level fuel depth rest next w3) as [[r' w''] evs'].
           ++ now contradiction Hp2.
        -- specialize (IH next w2 Hrest Hnext Hg).
           now destruct (visit_level fuel depth rest next w2) as [[r' w''] evs'].
      * assert (Hnext' : forall m, In m (next ++ cs) -> predicate m = false).
        { intros m Hm. apply in_app_or in Hm. destruct Hm as [Hm | Hm]; [now apply Hnext |].
          exact (find_none predicate cs Hf m Hm). }
        specialize (IH (next ++ cs) w2 Hrest Hnext' Hg).
        now destruct (visit_level fuel depth rest (next ++ cs) w2) as [[r' w''] evs'].
    + specialize (IH next w1 Hrest Hnext Hc).
      now destruct (visit_level fuel depth rest next w1) as [[r' w''] evs'].
    + repeat split; [exact Hc | discriminate..].
Qed.

Lemma findNode_gives_up (root : Node.t) (w : W) :
  predicate root = false ->
  reached w ->
  fst (fst (ViewBase.findNode ops pageArg predicate opts fuel root w)) = Some (Resolved None)
  \/ exists e,
       fst (fst (ViewBase.findNode ops pageArg predicate opts fuel root w))
       = Some (Rejected e).
Proof.
  intros Hroot Hw. unfold ViewBase.findNode.
  assert (Hfr : forall n, In n [root] -> predicate n = false)
    by (intros n [<- | []]; exact Hroot).
  revert Hfr Hw. generalize 0 at 1 2. generalize [root]. revert w.
  induction (ViewBase.maxDepth opts) as [| remaining IH]; intros w frontier depth Hfr Hw;
    simpl;
    destruct (@visit_level_gives_up depth frontier [] w Hfr ltac:(intros n []) Hw)
      as (H1 & H2 & H3 & H4);
    destruct (visit_level fuel depth frontier [] w) as [[lv w1] evs1];
    simpl in H1, H2, H3, H4.
  - destruct lv as [m | | x | | [| x next]]; simpl;
      [now contradiction (H3 m) | now left | right; now exists x
      | now contradiction H2 | now left | now left].
  - destruct lv as [m | | x | | [| x next]]; simpl;
      [now contradiction (H3 m) | now left | right; now exists x
      | now contradiction H2 | now left |].
    specialize (IH w1 (x :: next) (S depth) (H4 _ eq_refl) H1).
    now destruct (levels fuel remaining (S depth) (x :: next) w1) as [[res2 w2] evs2].
Qed.

End FindNodeGivesUp.

(* ===================================================================== *)
(** ** Paging while revealing a commit *)
(* ===================================================================== *)

(** [loadMore] on a node whose log is exhausted does nothing. *)
Lemma loadMore_exhausted (git : GitService) (arg : option MoreLimit)
      (w : World BranchNode.t) :
  BranchNode.hasMore (this w) = false ->
  BranchNode.loadMore git arg w = (Resolved tt, w).
Proof.
  unfold BranchNode.hasMore. destruct (BranchNode._log (this w)) as [l |] eqn:E;
    [| discriminate].
  intro Hm. unfold BranchNode.loadMore, bind.
  rewrite (getLog_cached git w E). now rewrite Hm.
Qed.

(** [loadMore] on a node whose log has more: the longer log that
    [log.more] resolves to replaces the log, its count becomes the limit,
    the cached children are dropped and the view is told. *)
Lemma loadMore_pages (git : GitService) (arg : option MoreLimit) (w : World BranchNode.t)
      (l l' : GitLog.t) (f : MoreLimit -> Outcome (option GitLog.t)) :
  let a := match arg with
           | Some a => a
           | None => Limit (View.pageItemLimit (View.config (BranchNode.view (this w))))
           end in
  BranchNode._log (this w) = Some l ->
  GitLog.hasMore l = true ->
  GitLog.more l = Some f ->
  f a = Resolved (Some l') ->
  Nat.eqb (GitLog.id l) (GitLog.id l') = false ->
  BranchNode.loadMore git arg w
  = (Resolved tt,
     {| this := BranchNode.set_children None
                  (BranchNode.set_limit (Some (GitLog.count l'))
                     (BranchNode.set_log (Some l') (this w)));
        fresh := fresh w;
        trace := (trace w ++ [Log_more a]) ++ [TriggerChange false] |}).
Proof.
  intros a Hl Hm Hf Hr Hid. unfold BranchNode.loadMore, bind.
  rewrite (getLog_cached git w Hl). rewrite Hm. simpl.
  unfold BranchNode.log_more. rewrite Hf. fold a.
  unfold call, gets, update, modify, ret. simpl. rewrite Hr. simpl.
  rewrite Hl. simpl. rewrite Hid. reflexivity.
Qed.

(** The engine pages a container before it leaves it.  When the entries
    loaded hold no match, paging is allowed and the container has more,
    the engine calls [loadMore] on that container with its argument and
    reads the children again: a rejection of [loadMore] ends the search;
    a match among the children read again is returned; and when there is
    none and the container has no more, the search goes on with the rest
    of the level. *)
Lemma visit_level_pages (W : Type) (ops : ViewBase.NodeOps W)
      (pageArg : option MoreLimit) (predicate : Node.t -> bool)
      (opts : ViewBase.FindOptions W) (fuel depth : nat) (n : Node.t)
      (rest next cs : list Node.t) (w w1 w2 : W) :
  ViewBase.token opts w = false ->
  predicate n = false ->
  ViewBase.canTraverse opts n w = (Resolved true, w1) ->
  ViewBase.getChildren ops n w1 = (Resolved cs, w2) ->
  ViewBase.pageable ops n = true ->
  find predicate cs = None ->
  ViewBase.allowPaging opts = true ->
  ViewBase.hasMore ops n w2 = true ->
  ViewBase.token opts w2 = false ->
  let run := ViewBase.visit_level ops pageArg predicate opts (S fuel) depth
               (n :: rest) next w in
  let asked := [ViewBase.CanTraverse depth n true; ViewBase.GetChildren depth n] in
  (forall e w3,
      ViewBase.loadMore ops n pageArg w2 = (Rejected e, w3) ->
      run = (ViewBase.LevelRejected e, w3, asked ++ [ViewBase.LoadMore depth n pageArg])) /\
  (forall w3 cs' w4,
      ViewBase.loadMore ops n pageArg w2 = (Resolved tt, w3) ->
      ViewBase.getChildren ops n w3 = (Resolved cs', w4) ->
      let paged := asked ++ [ViewBase.LoadMore depth n pageArg;
                             ViewBase.GetChildren depth n] in
      (forall c, find predicate cs' = Some c ->
                 run = (ViewBase.LevelFound c, w4, paged)) /\
      (find predicate cs' = None ->
       ViewBase.hasMore ops n w4 = false ->
       let later := ViewBase.visit_level ops pageArg predicate opts (S fuel) depth
                      rest next w4 in
       run = (fst (fst later), snd (fst later), paged ++ snd later))).
Proof.
  intros Ht Hp Hc Hg Hpg Hf Ha Hm Ht2 run asked. subst run asked.
  cbn [ViewBase.visit_level]. rewrite Ht, Hp, Hc, Hg, Hpg, Hf, Ha, Hm.
  cbn [andb ViewBase.page]. rewrite Ht2. split.
  - intros e w3 Hl. now rewrite Hl.
  - cbv zeta. intros w3 cs' w4 Hl Hg'. rewrite Hl, Hg'. split.
    + intros c Hfound. now rewrite Hfound.
    + intros Hnone Hend. rewrite Hnone, Hend.
      destruct (ViewBase.visit_level ops pageArg predicate opts (S fuel) depth rest next w4)
        as [[r' w''] evs'].
      reflexivity.
Qed.



(* ===================================================================== *)
(** ** Revealing a commit in the commits view *)
(* ===================================================================== *)

(** C9.  [CommitsView.findCommit] returns [undefined], leaves the tree as
    it is and makes no visit -- no [canTraverse], no [getChildren], no
    [loadMore] -- when the repository has no current branch or the current
    branch does not contain the commit; a visit is made only when the
    current branch contains the commit, and the search is then the
    engine's, to depth 2 with paging allowed. *)
Theorem CommitsView_findCommit_needs_current_branch :
  forall (W : Type) (ops : ViewBase.NodeOps W) (pageArg : option MoreLimit)
         (getId : string -> string) (git : RevealGit)
         (commit : GitLogCommit.t) (token : W -> bool) (fuel : nat) (root : Node.t) (w : W),
    let run := CommitsView_findCommit ops pageArg getId git commit token fuel root w in
    let repoPath := GitLogCommit.repoPath commit in
    let ref := GitLogCommit.ref commit in
    (getBranch git repoPath = None -> run = (Some (Resolved None), w, [])) /\
    (forall b, getBranch git repoPath = Some b ->
               branchContainsCommit git repoPath (GitBranch.name b) ref = false ->
               run = (Some (Resolved None), w, [])) /\
    (snd run <> [] ->
     exists b, getBranch git repoPath = Some b /\
               branchContainsCommit git repoPath (GitBranch.name b) ref = true) /\
    (forall b, getBranch git repoPath = Some b ->
               branchContainsCommit git repoPath (GitBranch.name b) ref = true ->
               run = ViewBase.findNode ops pageArg (has_commit_ref ref)
                       {| ViewBase.allowPaging := true;
                          ViewBase.maxDepth := 2;
                          ViewBase.canTraverse :=
                            CommitsView_findCommit_canTraverse ops getId commit;
                          ViewBase.token := token |}
                       fuel root w).
Proof.
  intros W ops pageArg getId git commit token fuel root w run repoPath ref.
  subst run repoPath ref. unfold CommitsView_findCommit. repeat apply conj.
  - now intros ->.
  - intros b -> Hc. now rewrite Hc.
  - destruct (getBranch git (GitLogCommit.repoPath commit)) as [b |]; simpl.
    + destruct (branchContainsCommit git _ _ _) eqn:Hc; simpl.
      * intros _. now exists b.
      * intro H. now contradiction H.
    + intro H. now contradiction H.
  - intros b -> Hc. now rewrite Hc.
Qed.

(** With no current branch, and with a current branch that lacks the
    commit, nothing is searched. *)
Lemma CommitsView_findCommit_needs_current_branch_witness :
  let reveal := fun git =>
    CommitsView_findCommit (Scenario.repositories_ops Scenario.git_ok) None
      Scenario.getId git (Scenario.commit "abc123") Scenario.never_cancelled 3
      Scenario.repositories_root (Scenario.start Scenario.branch_node) in
  reveal Scenario.reveal_git_no_branch
  = (Some (Resolved None), Scenario.start Scenario.branch_node, []) /\
  reveal Scenario.reveal_git_elsewhere
  = (Some (Resolved None), Scenario.start Scenario.branch_node, []).
Proof.
  cbv zeta. split.
  - apply (proj1 (CommitsView_findCommit_needs_current_branch
                    (Scenario.repositories_ops Scenario.git_ok) None Scenario.getId
                    Scenario.reveal_git_no_branch (Scenario.commit "abc123")
                    Scenario.never_cancelled 3 Scenario.repositories_root
                    (Scenario.start Scenario.branch_node))).
    reflexivity.
  - apply (proj1 (proj2 (CommitsView_findCommit_needs_current_branch
                    (Scenario.repositories_ops Scenario.git_ok) None Scenario.getId
                    Scenario.reveal_git_elsewhere (Scenario.commit "abc123")
                    Scenario.never_cancelled 3 Scenario.repositories_root
                    (Scenario.start Scenario.branch_node))) Scenario.feature_x);
      reflexivity.
Defined.

(* ===================================================================== *)
(** ** Maps *)
(* ===================================================================== *)

Lemma map_get_set_same {V : Type} (k : string) (v : V) (m : list (string * V)) :
  map_get k (map_set k v m) = Some v.
Proof.
  induction m as [| [k' v'] m IH]; simpl.
  - now rewrite String.eqb_refl.
  - destruct (String.eqb k k') eqn:E; simpl.
    + now rewrite String.eqb_refl.
    + now rewrite E.
Qed.

Lemma map_get_set_other {V : Type} (k k0 : string) (v : V) (m : list (string * V)) :
  k <> k0 -> map_get k (map_set k0 v m) = map_get k m.
Proof.
  intro Hne. induction m as [| [k' v'] m IH]; simpl.
  - destruct (String.eqb_spec k k0); [contradiction | reflexivity].
  - destruct (String.eqb_spec k0 k') as [-> | Hk]; simpl.
    + destruct (String.eqb_spec k k'); [contradiction | reflexivity].
    + now rewrite IH.
Qed.

(** Mapping the values commutes with [set]. *)
Lemma map_values_set {V U : Type} (g : V -> U) (k : string) (v : V) (m : list (string * V)) :
  map (fun kv => (fst kv, g (snd kv))) (map_set k v m)
  = map_set k (g v) (map (fun kv => (fst kv, g (snd kv))) m).
Proof.
  induction m as [| [k' v'] m IH]; simpl; [reflexivity |].
  destruct (String.eqb k k'); simpl; [reflexivity | now rewrite IH].
Qed.

Lemma map_get_values {V U : Type} (g : V -> U) (k : string) (m : list (string * V)) :
  map_get k (map (fun kv => (fst kv, g (snd kv))) m) = option_map g (map_get k m).
Proof.
  induction m as [| [k' v'] m IH]; simpl; [reflexivity |].
  now destruct (String.eqb k k').
Qed.

Lemma map_set_new {V : Type} (k : string) (v : V) (m : list (string * V)) :
  ~ In k (map fst m) -> map_set k v m = m ++ [(k, v)].
Proof.
  induction m as [| [k' v'] m IH]; simpl; intro Hn; [reflexivity |].
  destruct (String.eqb_spec k k') as [-> | Hk]; [tauto |].
  rewrite IH by tauto. reflexivity.
Qed.

Lemma map_set_keys {V : Type} (k : string) (v : V) (m : list (string * V)) :
  NoDup (map fst m) -> NoDup (map fst (map_set k v m)).
Proof.
  induction m as [| [k' v'] m IH]; simpl; intro Hnd.
  - constructor; [intros [] | constructor].
  - inversion Hnd as [| x l Hx Hl]; subst.
    destruct (String.eqb_spec k k') as [-> | Hk]; simpl; [now constructor |].
    constructor; [| now apply IH].
    intro Hin. apply Hx. clear - Hin Hk.
    induction m as [| [k2 v2] m IHm]; simpl in *.
    + destruct Hin as [-> | []]. contradiction.
    + destruct (String.eqb_spec k k2) as [-> | Hk2]; simpl in *; [assumption |].
      destruct Hin as [-> | Hin]; [now left | right; now apply IHm].
Qed.

Lemma fold_set_keys {V K : Type} (key : K -> string) (val : K -> V) (l : list K) :
  forall acc, NoDup (map fst acc) ->
    NoDup (map fst (fold_left (fun m x => map_set (key x) (val x) m) l acc)).
Proof.
  induction l as [| x l IH]; simpl; intros acc Hnd; [assumption |].
  apply IH. now apply map_set_keys.
Qed.

(** The map built by setting [val k] for each key of [keys]. *)
Lemma fold_set_get {V : Type} (val : string -> V) (keys : list string) (k : string) :
  forall acc,
    map_get k (fold_left (fun m x => map_set x (val x) m) keys acc)
    = if includes k keys then Some (val k) else map_get k acc.
Proof.
  induction keys as [| x keys IH]; simpl; intro acc; [reflexivity |].
  rewrite IH. unfold includes in *. simpl.
  destruct (existsb (String.eqb k) keys); [now rewrite orb_true_r |].
  rewrite orb_false_r.
  destruct (String.eqb_spec k x) as [-> | Hne].
  - apply map_get_set_same.
  - now apply map_get_set_other.
Qed.

Lemma includes_In (k : string) (l : list string) : includes k l = true <-> In k l.
Proof.
  unfold includes. rewrite existsb_exists. split.
  - intros [x [Hin Heq]]. apply String.eqb_eq in Heq. now subst.
  - intro Hin. exists k. split; [assumption | apply String.eqb_refl].
Qed.

(* ===================================================================== *)
(** ** [raceAll] and the awaiting of what it left pending *)
(* ===================================================================== *)

Lemma settle_raced (timeout : option nat) (k : string)
      (f : Promises.Future PullRequest) :
  LineAnnotationController.settle (Promises.raced timeout k f) = Promises.result f.
Proof.
  unfold Promises.raced. destruct timeout as [t |]; [| reflexivity].
  now destruct (Promises.settles_at f <=? t).
Qed.

(** On a map (no key twice), the awaiting loop settles each entry in
    place. *)
Lemma resolve_all_map (prs : LineAnnotationController.PullRequests) :
  NoDup (map fst prs) ->
  LineAnnotationController.resolve_all prs
  = map (fun kv => (fst kv, LineAnnotationController.settle (snd kv))) prs.
Proof.
  unfold LineAnnotationController.resolve_all.
  assert (H : forall acc : list (string * option PullRequest),
             NoDup (map fst acc ++ map fst prs) ->
             fold_left (fun resolved kv =>
                          map_set (fst kv) (LineAnnotationController.settle (snd kv)) resolved)
                       prs acc
             = acc ++ map (fun kv => (fst kv, LineAnnotationController.settle (snd kv))) prs).
  { induction prs as [| [k v] prs IH]; simpl; intros acc Hnd.
    - now rewrite app_nil_r.
    - rewrite map_set_new.
      + rewrite IH.
        * now rewrite <- app_assoc.
        * rewrite map_app. simpl. rewrite <- app_assoc. exact Hnd.
      + intro Hin. apply NoDup_remove_2 in Hnd. apply Hnd.
        apply in_or_app. now left. }
  intro Hnd. now apply (H []).
Qed.

Lemma raceAll_keys (keys : list string) (lookup : string -> Promises.Future PullRequest)
      (timeout : option nat) :
  NoDup (map fst (Promises.raceAll keys lookup timeout)).
Proof.
  unfold Promises.raceAll.
  apply (fold_set_keys (fun k => k) (fun k => Promises.raced timeout k (lookup k))).
  constructor.
Qed.

(** Awaiting everything a timed race left pending gives the map of the
    race without a timeout. *)
Lemma resolve_all_raceAll (keys : list string)
      (lookup : string -> Promises.Future PullRequest) (timeout : option nat) :
  LineAnnotationController.settled
    (LineAnnotationController.resolve_all (Promises.raceAll keys lookup timeout))
  = Promises.raceAll keys lookup None.
Proof.
  rewrite resolve_all_map by apply raceAll_keys.
  unfold LineAnnotationController.settled. rewrite map_map. simpl.
  unfold Promises.raceAll.
  assert (H : forall acc,
             map (fun x => (fst x, Promises.Value (LineAnnotationController.settle (snd x))))
                 (fold_left (fun m k => map_set k (Promises.raced timeout k (lookup k)) m)
                            keys acc)
             = fold_left (fun m k => map_set k (Promises.raced None k (lookup k)) m) keys
                         (map (fun x => (fst x,
                                         Promises.Value (LineAnnotationController.settle (snd x))))
                              acc)).
  { induction keys as [| k keys IH]; simpl; intro acc; [reflexivity |].
    rewrite IH. f_equal.
    rewrite (map_values_set
               (fun v => Promises.Value (LineAnnotationController.settle v))).
    now rewrite settle_raced. }
  apply (H []).
Qed.

(** C7.  In the map [raceAll(keys, lookup, T)] returns, a key whose lookup
    settles at a time [t <= T] holds the resolved value, and a key whose
    lookup settles at [t > T] holds a Pending that carries the key and
    the running promise; no other key is in the map.  After the loop of
    [waitForAnyPendingPullRequests] has awaited every Pending entry, the
    map holds for every key the value of its lookup: it is the map that
    awaiting every lookup with no timeout gives. *)
Theorem raceAll_resolved_or_pending :
  forall (keys : list string) (lookup : string -> Promises.Future PullRequest) (T : nat),
    let prs := Promises.raceAll keys lookup (Some T) in
    let resolved := LineAnnotationController.resolve_all prs in
    (forall k, In k keys -> Promises.settles_at (lookup k) <= T ->
               map_get k prs = Some (Promises.Value (Promises.result (lookup k)))) /\
    (forall k, In k keys -> T < Promises.settles_at (lookup k) ->
               map_get k prs = Some (Promises.Pending k (lookup k))) /\
    (forall k, ~ In k keys -> map_get k prs = None) /\
    LineAnnotationController.settled resolved = Promises.raceAll keys lookup None /\
    (forall k, In k keys ->
               map_get k resolved = Some (Promises.awaited (lookup k))) /\
    (forall k, ~ In k keys -> map_get k resolved = None).
Proof.
  intros keys lookup T prs resolved.
  assert (Hget : forall k,
             map_get k prs
             = if includes k keys then Some (Promises.raced (Some T) k (lookup k)) else None).
  { intro k. unfold prs, Promises.raceAll.
    exact (fold_set_get (fun x => Promises.raced (Some T) x (lookup x)) keys k []). }
  assert (Hres : resolved
                 = map (fun kv => (fst kv, LineAnnotationController.settle (snd kv))) prs).
  { apply resolve_all_map, raceAll_keys. }
  pose proof (fun k => map_get_values LineAnnotationController.settle k prs) as Hmap.
  repeat apply conj.
  - intros k Hin Hle. rewrite Hget. apply includes_In in Hin. rewrite Hin.
    unfold Promises.raced. apply Nat.leb_le in Hle. now rewrite Hle.
  - intros k Hin Hlt. rewrite Hget. apply includes_In in Hin. rewrite Hin.
    unfold Promises.raced. apply Nat.leb_gt in Hlt. now rewrite Hlt.
  - intros k Hn. rewrite Hget. destruct (includes k keys) eqn:E; [| reflexivity].
    apply includes_In in E. contradiction.
  - apply resolve_all_raceAll.
  - intros k Hin. rewrite Hres, Hmap, Hget. apply includes_In in Hin. rewrite Hin.
    cbn [option_map]. now rewrite settle_raced.
  - intros k Hn. rewrite Hres, Hmap, Hget. destruct (includes k keys) eqn:E; [| reflexivity].
    apply includes_In in E. contradiction.
Qed.

(** Five keys, a timeout of 100 ms: [a] holds its value, [d] is pending,
    and once awaited [d] holds its value. *)
Lemma raceAll_resolved_or_pending_witness :
  let prs := Promises.raceAll Scenario.five_keys Scenario.lookup (Some 100) in
  map_get "a"%string prs = Some (Promises.Value (Some (Scenario.pr 1))) /\
  map_get "d"%string prs = Some (Promises.Pending "d" (Scenario.lookup "d")) /\
  map_get "d"%string (LineAnnotationController.resolve_all prs) = Some (Some (Scenario.pr 1)) /\
  List.length (filter (fun kv => Promises.is_pending (snd kv)) prs) = 2.
Proof.
  cbv zeta.
  pose proof (raceAll_resolved_or_pending Scenario.five_keys Scenario.lookup 100) as H.
  cbv zeta in H. destruct H as (H1 & H2 & _ & _ & H5 & _).
  split; [| split; [| split]].
  - apply (H1 "a"%string); [simpl; tauto | vm_compute; lia].
  - apply (H2 "d"%string); [simpl; tauto | vm_compute; lia].
  - apply (H5 "d"%string). simpl; tauto.
  - reflexivity.
Defined.

(* ===================================================================== *)
(** ** The follow-up refresh of the line annotation *)
(* ===================================================================== *)

Lemma clear_effects (editor : option LineAnnotationController.TextEditor)
      (c : LineAnnotationController.t) (x : LineAnnotationController.Effect) :
  In x (snd (LineAnnotationController.clear editor c)) ->
  exists ed, x = LineAnnotationController.SetDecorations ed [].
Proof.
  unfold LineAnnotationController.clear, LineAnnotationController.clearAnnotations. simpl.
  intro H. apply in_app_or in H. destruct H as [H | H].
  - destruct (negb _ && _)%bool; [| destruct H].
    destruct (LineAnnotationController._editor c) as [e |]; [| destruct H].
    destruct (LineAnnotationController._disposed e); [destruct H |].
    destruct H as [<- | []]. now exists e.
  - destruct editor as [e |]; [| destruct H].
    destruct (LineAnnotationController._disposed e); [destruct H |].
    destruct H as [<- | []]. now exists e.
Qed.

(** A map of settled values has nothing pending. *)
Lemma settled_not_pending (m : list (string * option PullRequest)) :
  filter (fun kv => Promises.is_pending (snd kv)) (LineAnnotationController.settled m) = [].
Proof. induction m as [| [k v] m IH]; simpl; [reflexivity | exact IH]. Qed.

Section Given.

Variable given : list (string * option PullRequest).

Local Abbreviation reused := (LineAnnotationController.reuses given).

Lemma reused_clear (editor : option LineAnnotationController.TextEditor)
      (c : LineAnnotationController.t) (x : LineAnnotationController.Effect) :
  In x (snd (LineAnnotationController.clear editor c)) -> reused x.
Proof. intro H. destruct (clear_effects editor c x H) as [ed ->]. left. now exists ed, []. Qed.

Lemma reused_switch_editor (editor : option LineAnnotationController.TextEditor)
      (c : LineAnnotationController.t) (x : LineAnnotationController.Effect) :
  In x (snd (LineAnnotationController.switch_editor editor c)) -> reused x.
Proof.
  unfold LineAnnotationController.switch_editor.
  destruct (negb _); [| intros []].
  pose proof (reused_clear (LineAnnotationController._editor c) c x) as H.
  now destruct (LineAnnotationController.clear (LineAnnotationController._editor c) c).
Qed.

Lemma reused_annotate (host : LineAnnotationController.Host)
      (e : LineAnnotationController.TextEditor)
      (sel : list LineAnnotationController.LineSelection)
      (c : LineAnnotationController.t) (x : LineAnnotationController.Effect) :
  In x (snd (LineAnnotationController.annotate host e sel (Some given) c)) -> reused x.
Proof.
  unfold LineAnnotationController.annotate, LineAnnotationController.pull_requests.
  assert (Htips : In x (if LineAnnotationController.format_has_tips host
                        then [LineAnnotationController.GetBranchesAndTagsTipsFn] else [])
                  -> reused x).
  { destruct (LineAnnotationController.format_has_tips host); [| intros []].
    intros [<- | []]. right. now left. }
  destruct (LineAnnotationController.repoPath host) as [repo |];
    [destruct (LineAnnotationController.pullRequests_enabled host
               && LineAnnotationController.format_has_pullRequest host)%bool |];
    simpl; intro H; apply in_app_or in H; destruct H as [H | H];
    try (now apply Htips); simpl in H.
  - destruct H as [<- | [<- | []]].
    + right. right. eexists. eexists. reflexivity.
    + left. eexists. eexists. reflexivity.
  - destruct H as [<- | []]. left. eexists. eexists. reflexivity.
  - destruct H as [<- | []]. left. eexists. eexists. reflexivity.
Qed.

(** What [refresh] does when it is given the pull requests: it sets
    decorations, may ask for the tips, and hands the map it was given to
    [waitForAnyPendingPullRequests]; it asks for no pull request. *)
Lemma reused_refresh (host : LineAnnotationController.Host)
      (editor : option LineAnnotationController.TextEditor)
      (c : LineAnnotationController.t) (x : LineAnnotationController.Effect) :
  In x (snd (LineAnnotationController.refresh host editor (Some given) c)) -> reused x.
Proof.
  unfold LineAnnotationController.refresh.
  destruct (negb (is_some editor) && _)%bool; [intros [] |].
  destruct editor as [e |]; [| apply reused_clear].
  destruct (LineAnnotationController.selections host) as [sel |]; [| apply reused_clear].
  destruct (negb (LineAnnotationController.isTextEditor e)); [apply reused_clear |].
  pose proof (reused_switch_editor (Some e) c x) as H1.
  destruct (LineAnnotationController.switch_editor (Some e) c) as [c1 fx1]. simpl in H1.
  assert (Hc : In x (let (c2, fx2) := LineAnnotationController.clear (Some e) c1 in
                     snd (c2, fx1 ++ fx2)) -> reused x).
  { pose proof (reused_clear (Some e) c1 x) as H2.
    destruct (LineAnnotationController.clear (Some e) c1) as [c2 fx2]. simpl in *.
    intro H. apply in_app_or in H. tauto. }
  destruct (LineAnnotationController.suspended c1).
  { intro H. apply Hc.
    now destruct (LineAnnotationController.clear (Some e) c1). }
  destruct (negb (LineAnnotationController.isBlameable host) && false)%bool.
  { intro H. apply Hc.
    now destruct (LineAnnotationController.clear (Some e) c1). }
  destruct (LineAnnotationController.document_gone e || _)%bool; [exact H1 |].
  pose proof (reused_annotate host e sel c1 x) as H2.
  destruct (LineAnnotationController.annotate host e sel (Some given) c1) as [c2 fx2].
  simpl in *. intro H. apply in_app_or in H. tauto.
Qed.

End Given.

Lemma waitForAny_settled (ed : LineAnnotationController.TextEditor)
      (m : list (string * option PullRequest)) (tok : nat)
      (c c' : LineAnnotationController.t) :
  LineAnnotationController.waitForAnyPendingPullRequests
    ed (LineAnnotationController.settled m) tok c c' = [].
Proof.
  unfold LineAnnotationController.waitForAnyPendingPullRequests.
  rewrite settled_not_pending. simpl. now rewrite orb_true_r.
Qed.

(** When [refresh] has pull requests to show, it cancels the previous
    token source, creates a new one, and starts the wait on the map with
    the new token, which is not cancelled. *)
Lemma annotate_starts_wait (host : LineAnnotationController.Host)
      (e : LineAnnotationController.TextEditor)
      (sel : list LineAnnotationController.LineSelection)
      (prs : option (list (string * option PullRequest)))
      (c : LineAnnotationController.t) (m : LineAnnotationController.PullRequests)
      (asked : list LineAnnotationController.Effect) :
  LineAnnotationController.pull_requests host prs
    (LineAnnotationController.commit_lines host sel) 100 = (Some m, asked) ->
  let c' := fst (LineAnnotationController.annotate host e sel prs c) in
  let token := LineAnnotationController.sources c in
  In (LineAnnotationController.WaitForAnyPendingPullRequests e m token)
     (snd (LineAnnotationController.annotate host e sel prs c)) /\
  LineAnnotationController._cancellation c' = Some token /\
  (LineAnnotationController.sources_in_order c ->
   LineAnnotationController.isCancellationRequested token c' = false).
Proof.
  intros Hpr c' token. subst c' token. unfold LineAnnotationController.annotate.
  rewrite Hpr. unfold LineAnnotationController.new_source, LineAnnotationController.cancel.
  repeat split.
  - destruct (LineAnnotationController._cancellation c); simpl;
      apply in_or_app; right; apply in_or_app; right; now left.
  - now destruct (LineAnnotationController._cancellation c).
  - intros [Hc Hs]. unfold LineAnnotationController.isCancellationRequested.
    assert (Hnot : forall l, (forall s, In s l -> s < LineAnnotationController.sources c) ->
                             existsb (Nat.eqb (LineAnnotationController.sources c)) l = false).
    { intros l Hl. destruct (existsb _ l) eqn:E; [| reflexivity].
      apply existsb_exists in E. destruct E as (s & Hin & Heq).
      apply Nat.eqb_eq in Heq. specialize (Hl s Hin). lia. }
    destruct (LineAnnotationController._cancellation c) as [s |] eqn:E; simpl.
    + apply (Hnot (s :: LineAnnotationController.cancelled c)).
      intros s' [<- | Hin]; [now apply Hs | now apply Hc].
    + now apply Hnot.
Qed.

(** C4.  [waitForAnyPendingPullRequests], given a map with Pending
    entries and a token that is not cancelled when it is called, awaits
    them all and then calls [refresh] once, with the editor and the map
    in which every entry is settled -- if, once the promises have been
    awaited, the token is still not cancelled and the editor is still the
    controller's; otherwise it calls nothing.  With no Pending entry, or
    a token already cancelled, it calls nothing.  The [refresh] it calls
    asks for no pull request, and the wait that this [refresh] starts is
    over the settled map, so it calls no further [refresh].  The wait
    itself is started by [refresh] on the map the lookups gave, with a
    token it has just created. *)
Theorem pending_pull_requests_refresh_once :
  forall (editor : LineAnnotationController.TextEditor)
         (prs : LineAnnotationController.PullRequests) (token : nat)
         (c c' : LineAnnotationController.t),
    let fx := LineAnnotationController.waitForAnyPendingPullRequests editor prs token c c' in
    let resolved := LineAnnotationController.resolve_all prs in
    let pending := filter (fun kv => Promises.is_pending (snd kv)) prs in
    (fx = [LineAnnotationController.Refresh editor resolved] \/ fx = []) /\
    (fx = [LineAnnotationController.Refresh editor resolved] <->
     pending <> [] /\
     LineAnnotationController.isCancellationRequested token c = false /\
     LineAnnotationController.isCancellationRequested token c' = false /\
     LineAnnotationController.same_editor
       (Some editor) (LineAnnotationController._editor c') = true) /\
    (NoDup (map fst prs) ->
     resolved = map (fun kv => (fst kv, LineAnnotationController.settle (snd kv))) prs) /\
    (forall host c2 x,
        In x (snd (LineAnnotationController.refresh host (Some editor) (Some resolved) c2)) ->
        (forall r, x <> LineAnnotationController.GetPullRequestForCommit r) /\
        (forall ed m tok c3 c4,
            x = LineAnnotationController.WaitForAnyPendingPullRequests ed m tok ->
            m = LineAnnotationController.settled resolved /\
            LineAnnotationController.waitForAnyPendingPullRequests ed m tok c3 c4 = [])) /\
    (forall host sel c0 asked,
        LineAnnotationController.pull_requests host None
          (LineAnnotationController.commit_lines host sel) 100 = (Some prs, asked) ->
        LineAnnotationController.sources_in_order c0 ->
        let started := LineAnnotationController.annotate host editor sel None c0 in
        In (LineAnnotationController.WaitForAnyPendingPullRequests
              editor prs (LineAnnotationController.sources c0)) (snd started) /\
        LineAnnotationController.isCancellationRequested
          (LineAnnotationController.sources c0) (fst started) = false).
Proof.
  intros editor prs token c c' fx resolved pending.
  assert (Hfx : fx = if LineAnnotationController.isCancellationRequested token c
                        || Nat.eqb (List.length pending) 0
                     then []
                     else if LineAnnotationController.isCancellationRequested token c'
                             || negb (LineAnnotationController.same_editor
                                        (Some editor) (LineAnnotationController._editor c'))
                          then []
                          else [LineAnnotationController.Refresh editor resolved])
    by reflexivity.
  repeat apply conj.
  - rewrite Hfx. destruct (_ || _)%bool; [now right |].
    destruct (_ || _)%bool; [now right | now left].
  - rewrite Hfx. intro H.
    destruct (LineAnnotationController.isCancellationRequested token c); [discriminate H |].
    destruct pending as [| p ps]; [discriminate H |]. cbn [List.length Nat.eqb orb] in H.
    destruct (LineAnnotationController.isCancellationRequested token c'); [discriminate H |].
    destruct (LineAnnotationController.same_editor (Some editor)
                (LineAnnotationController._editor c')); [| discriminate H].
    repeat split. discriminate.
  - intros (Hp & H1 & H2 & H3). rewrite Hfx, H1, H2, H3.
    destruct pending as [| p ps]; [contradiction | reflexivity].
  - apply resolve_all_map.
  - intros host c2 x Hin.
    destruct (reused_refresh resolved host (Some editor) c2 x Hin)
      as [(ed & ds & ->) | [-> | (ed & tok & ->)]]; split; try discriminate.
    intros ed' m tok' c3 c4 E. inversion E; subst.
    split; [reflexivity | apply waitForAny_settled].
  - intros host sel c0 asked Hpr Hord started.
    destruct (annotate_starts_wait host editor sel None c0 Hpr) as (H1 & _ & H3).
    split; [exact H1 | exact (H3 Hord)].
Qed.

(** Five lookups, two of them pending after 100 ms: when the editor is
    still current and the token is not cancelled, one [refresh] with the
    five settled values; when the token has been cancelled in the
    meantime, none. *)
Lemma pending_pull_requests_refresh_once_witness :
  let prs := Promises.raceAll Scenario.five_keys Scenario.lookup (Some 100) in
  LineAnnotationController.waitForAnyPendingPullRequests
    Scenario.editor prs 0 Scenario.controller Scenario.controller
  = [LineAnnotationController.Refresh Scenario.editor
       [("a", Some (Scenario.pr 1)); ("b", Some (Scenario.pr 1)); ("c", None);
        ("d", Some (Scenario.pr 1)); ("e", Some (Scenario.pr 1))]%string] /\
  LineAnnotationController.waitForAnyPendingPullRequests
    Scenario.editor prs 0 Scenario.controller Scenario.controller_moved_on
  = [].
Proof.
  cbv zeta. split.
  - apply (proj2 (proj1 (proj2 (pending_pull_requests_refresh_once
                                  Scenario.editor
                                  (Promises.raceAll Scenario.five_keys Scenario.lookup
                                                    (Some 100))
                                  0 Scenario.controller Scenario.controller)))).
    repeat split; vm_compute; discriminate.
  - vm_compute. reflexivity.
Defined.

(** The branch node of the scenario, once its children are loaded and
    then refreshed without reset: the next [getChildren()] asks git for
    everything but the log. *)
Lemma refresh_clears_children_keeps_window_witness :
  let loaded := this (snd (BranchNode.getChildren Scenario.plain Scenario.git_ok
                             (Scenario.start Scenario.branch_node))) in
  let again := BranchNode.getChildren Scenario.plain Scenario.git_ok
                 (Scenario.start (BranchNode.refresh false loaded)) in
  BranchNode._log loaded = Some Scenario.page1 /\
  BranchNode._log (this (snd again)) = Some Scenario.page1 /\
  trace (snd again)
  = [Git_getBranchAheadRange; Git_getBranchesAndTagsTipsFn; Git_getStatusForRepo;
     Git_getMergeStatus; Git_getRebaseStatus; Git_getAssociatedPullRequest].
Proof.
  cbv zeta. split; [reflexivity |]. split; [| reflexivity].
  refine (proj1 (proj2 (proj1 (proj2 (proj2
            (refresh_clears_children_keeps_window Scenario.plain Scenario.git_ok
               (this (snd (BranchNode.getChildren Scenario.plain Scenario.git_ok
                             (Scenario.start Scenario.branch_node)))) 0 [])))
            Scenario.page1 _ _ _ _))).
  - reflexivity.
  - apply surjective_pairing.
Defined.

(* ===================================================================== *)
(** ** The logger: channels, levels and what is written *)
(* ===================================================================== *)

Lemma channels_ok_app (fx1 fx2 : list Logger.Effect) (open : list nat) :
  Logger.channels_ok open (fx1 ++ fx2)
  = Logger.channels_ok open fx1 && Logger.channels_ok (Logger.open_after open fx1) fx2.
Proof.
  revert open. induction fx1 as [| e fx1 IH]; intro open; [reflexivity |].
  destruct e; simpl; rewrite IH; now rewrite ?andb_assoc.
Qed.

Lemma open_after_app (fx1 fx2 : list Logger.Effect) (open : list nat) :
  Logger.open_after open (fx1 ++ fx2)
  = Logger.open_after (Logger.open_after open fx1) fx2.
Proof.
  revert open. induction fx1 as [| e fx1 IH]; intro open; [reflexivity |].
  destruct e; simpl; apply IH.
Qed.

Lemma uses_only_ok (s : Logger.t) (open : list nat) (fx : list Logger.Effect) :
  Logger.tracks s open ->
  Forall (Logger.uses_only (Logger.output s)) fx ->
  Logger.channels_ok open fx = true /\ Logger.open_after open fx = open.
Proof.
  intros (Hopen & _ & _) Hfx. induction Hfx as [| e fx He _ IH]; [now split |].
  destruct e; simpl in He; try contradiction; simpl.
  - destruct IH as [-> ->]. split; [| reflexivity].
    rewrite andb_true_r. apply Hopen. now left.
  - destruct IH as [-> ->]. split; [| reflexivity].
    rewrite andb_true_r. apply Hopen. now left.
  - exact IH.
Qed.

Lemma tracks_same (s s' : Logger.t) (open : list nat) :
  Logger.tracks s open ->
  Logger.output s' = Logger.output s ->
  Logger.gitOutput s' = Logger.gitOutput s ->
  Logger.channels s' = Logger.channels s ->
  Logger.tracks s' open.
Proof.
  intros (H1 & H2 & H3) Ho Hg Hc. unfold Logger.tracks. rewrite Ho, Hg, Hc.
  exact (conj H1 (conj H2 H3)).
Qed.

Lemma write_spec (clock : nat -> string) (enabled : bool) (m : Logger.ConsoleMethod)
      (to_channel debugOnly : bool) (com : Logger.ContextOrMessage)
      (params : list Logger.Value) (s : Logger.t) :
  let r := Logger.write clock enabled m to_channel debugOnly com params s in
  Logger.kept s (fst r) /\
  Forall (Logger.uses_only (Logger.output s)) (snd r) /\
  (snd r <> [] <->
   enabled = true /\
   (Logger._isDebugging s = true \/ (Logger.output s <> None /\ to_channel = true))).
Proof.
  unfold Logger.write, Logger.kept.
  destruct enabled; simpl;
    [| repeat split; try constructor; try congruence; intros [E _]; discriminate E].
  destruct (Logger.message_of com params) as [message rest].
  destruct (Logger._isDebugging s) eqn:Hd; simpl;
    destruct (Logger.output s) as [ch |] eqn:Ho; destruct to_channel; simpl;
    (split; [now repeat split |]);
    (split; [repeat (constructor; simpl; try reflexivity) |]);
    (split;
     [ intro H; first [ congruence | split; [reflexivity |];
       first [ left; reflexivity | right; split; congruence ] ]
     | intros [_ [E | [E1 E2]]]; congruence ]).
Qed.

Lemma error_spec (clock : nat -> string) (caller_of_stack : string -> option string)
      (ex : Logger.Error) (com : Logger.ContextOrMessage) (params : list Logger.Value)
      (s : Logger.t) :
  let r := Logger.error clock caller_of_stack ex com params s in
  Logger.kept s (fst r) /\
  Forall (Logger.uses_only (Logger.output s)) (snd r) /\
  (snd r <> [] <->
   Logger._isDebugging s = true \/
   (Logger.output s <> None /\ Logger.is_Silent s = false)).
Proof.
  unfold Logger.error, Logger.kept, Logger.is_Silent.
  destruct (Logger.error_message caller_of_stack ex com params) as [message rest].
  destruct (Logger.TraceLevel_eqb (Logger._level s) Logger.Silent) eqn:Hs;
    destruct (Logger._isDebugging s) eqn:Hd; simpl;
    destruct (Logger.output s) as [ch |] eqn:Ho; simpl; rewrite ?Hs; simpl;
    (split; [now repeat split |]);
    (split; [repeat (constructor; simpl; try reflexivity) |]);
    (split;
     [ intro H; first [ congruence | left; reflexivity | right; split; congruence ]
     | intros [E | [E1 E2]]; congruence ]).
Qed.

Lemma is_open_In (ch : nat) (open : list nat) :
  Logger.is_open ch open = true <-> In ch open.
Proof.
  unfold Logger.is_open. rewrite existsb_exists. split.
  - intros (x & Hx & E). apply Nat.eqb_eq in E. now subst.
  - intro H. exists ch. split; [exact H | apply Nat.eqb_refl].
Qed.

Lemma is_open_without (x ch : nat) (open : list nat) :
  Logger.is_open x (filter (fun y => negb (Nat.eqb y ch)) open) = true
  <-> Logger.is_open x open = true /\ x <> ch.
Proof.
  rewrite !is_open_In, filter_In, negb_true_iff, Nat.eqb_neq. tauto.
Qed.

Lemma set_level_tracks (value : Logger.TraceLevel) (s : Logger.t) (open : list nat) :
  Logger.tracks s open ->
  let r := Logger.set_level value s in
  Logger.channels_ok open (snd r) = true /\
  Logger.tracks (fst r) (Logger.open_after open (snd r)).
Proof.
  intros (Hopen & Hlt & Hne). unfold Logger.set_level, Logger.tracks.
  assert (Hfresh : Logger.is_open (Logger.channels s) open = false).
  { destruct (Logger.is_open (Logger.channels s) open) eqn:E; [| reflexivity].
    apply Hlt in E. lia. }
  destruct (Logger.output s) as [ch |] eqn:Ho.
  - assert (Hch : Logger.is_open ch open = true) by (apply Hopen; now left).
    destruct value; simpl; rewrite ?Hch; simpl;
      try (split; [reflexivity |]; split; [exact Hopen | split; [exact Hlt | exact Hne]]).
    split; [reflexivity |]. split; [| split].
    + intro x. rewrite is_open_without, Hopen. split.
      * intros [[E | E] Hx]; [congruence | now right].
      * intros [E | E]; [discriminate |].
        split; [now right |]. intros ->. now apply (Hne ch ch).
    + intros x Hx. apply is_open_without in Hx. now apply Hlt.
    + discriminate.
  - assert (Hnew : Logger.tracks
                     {| Logger.output := Some (Logger.channels s);
                        Logger.customLoggableFn := Logger.customLoggableFn s;
                        Logger._isDebugging := Logger._isDebugging s;
                        Logger._level := value;
                        Logger.gitOutput := Logger.gitOutput s;
                        Logger.channels := S (Logger.channels s);
                        Logger.reads := Logger.reads s |}
                     (Logger.channels s :: open)).
    { split; [| split]; simpl.
      - intro x. unfold Logger.is_open. simpl. fold (Logger.is_open x open).
        rewrite orb_true_iff, Nat.eqb_eq, Hopen. split.
        + intros [-> | [E | E]]; [now left | discriminate | now right].
        + intros [E | E]; [left; congruence | right; now right].
      - intros x. unfold Logger.is_open. simpl. fold (Logger.is_open x open).
        rewrite orb_true_iff, Nat.eqb_eq. intros [-> | Hx]; [lia |].
        apply Hlt in Hx. lia.
      - intros a b Ha Hb. injection Ha as <-.
        assert (Hb' : Logger.is_open b open = true) by (apply Hopen; now right).
        apply Hlt in Hb'. lia. }
    destruct value; simpl; rewrite ?Hfresh; simpl;
      try (split; [reflexivity | exact Hnew]).
    split; [reflexivity |]. split; [| split]; simpl.
    + intro x. rewrite Hopen. tauto.
    + exact Hlt.
    + discriminate.
Qed.

Lemma kept_tracks (s s' : Logger.t) (open : list nat) (fx : list Logger.Effect) :
  Logger.tracks s open ->
  Logger.kept s s' ->
  Forall (Logger.uses_only (Logger.output s)) fx ->
  Logger.channels_ok open fx = true /\ Logger.tracks s' (Logger.open_after open fx).
Proof.
  intros Ht (Ho & Hg & Hc & _) Hfx.
  destruct (@uses_only_ok s open fx Ht Hfx) as [-> ->].
  split; [reflexivity | now apply (@tracks_same s s' open Ht)].
Qed.

Lemma logGitCommand_tracks (clock : nat -> string) (command : string)
      (ex : option Logger.Error) (s : Logger.t) (open : list nat) :
  Logger.tracks s open ->
  let r := Logger.logGitCommand clock command ex s in
  Logger.channels_ok open (snd r) = true /\
  Logger.tracks (fst r) (Logger.open_after open (snd r)).
Proof.
  intros Ht. pose proof Ht as (Hopen & Hlt & Hne). unfold Logger.logGitCommand.
  destruct (negb _); [simpl; now split |].
  destruct (Logger.gitOutput s) as [ch |] eqn:Hg; simpl.
  - assert (Hch : Logger.is_open ch open = true) by (apply Hopen; now right).
    rewrite Hch. split; [reflexivity |]. now apply (@tracks_same s _ open Ht).
  - assert (Hfresh : Logger.is_open (Logger.channels s) open = false).
    { destruct (Logger.is_open (Logger.channels s) open) eqn:E; [| reflexivity].
      apply Hlt in E. lia. }
    rewrite Hfresh, Nat.eqb_refl. simpl.
    split; [reflexivity |]. split; [| split]; simpl.
    + intro x. unfold Logger.is_open. simpl. fold (Logger.is_open x open).
      rewrite orb_true_iff, Nat.eqb_eq, Hopen. split.
      * intros [-> | [E | E]]; [now right | now left | discriminate].
      * intros [E | E]; [right; now left | left; congruence].
    + intros x. unfold Logger.is_open. simpl. fold (Logger.is_open x open).
      rewrite orb_true_iff, Nat.eqb_eq. intros [-> | Hx]; [lia |].
      apply Hlt in Hx. lia.
    + intros a b Ha Hb. injection Hb as <-.
      assert (Ha' : Logger.is_open a open = true) by (apply Hopen; now left).
      apply Hlt in Ha'. lia.
Qed.

Lemma step_tracks (clock : nat -> string) (caller_of_stack : string -> option string)
      (c : Logger.Call) (s : Logger.t) (open : list nat) :
  Logger.tracks s open ->
  let r := Logger.step clock caller_of_stack c s in
  Logger.channels_ok open (snd r) = true /\
  Logger.tracks (fst r) (Logger.open_after open (snd r)).
Proof.
  intro Ht. destruct c; simpl.
  - unfold Logger.configure. apply set_level_tracks. now apply (@tracks_same s _ open Ht).
  - now apply set_level_tracks.
  - unfold Logger.debug.
    destruct (write_spec clock (Logger.is_Debug s || Logger._isDebugging s)
                Logger.console_log (Logger.is_Debug s) true contextOrMessage params s)
      as (Hk & Hf & _).
    exact (@kept_tracks s _ open _ Ht Hk Hf).
  - destruct (error_spec clock caller_of_stack ex contextOrMessage params s)
      as (Hk & Hf & _).
    exact (@kept_tracks s _ open _ Ht Hk Hf).
  - unfold Logger.log.
    destruct (write_spec clock
                (Logger.is_Verbose s || Logger.is_Debug s || Logger._isDebugging s)
                Logger.console_log (Logger.is_Verbose s || Logger.is_Debug s) false
                contextOrMessage params s) as (Hk & Hf & _).
    exact (@kept_tracks s _ open _ Ht Hk Hf).
  - unfold Logger.logWithDebugParams.
    destruct (write_spec clock
                (Logger.is_Verbose s || Logger.is_Debug s || Logger._isDebugging s)
                Logger.console_log (Logger.is_Verbose s || Logger.is_Debug s) true
                contextOrMessage params s) as (Hk & Hf & _).
    exact (@kept_tracks s _ open _ Ht Hk Hf).
  - unfold Logger.warn.
    destruct (write_spec clock (negb (Logger.is_Silent s) || Logger._isDebugging s)
                Logger.console_warn (negb (Logger.is_Silent s)) false
                contextOrMessage params s) as (Hk & Hf & _).
    exact (@kept_tracks s _ open _ Ht Hk Hf).
  - now apply logGitCommand_tracks.
  - unfold Logger.showOutputChannel.
    destruct (Logger.output s) as [ch |] eqn:Ho; simpl; [| now split].
    destruct Ht as (Hopen & Hlt & Hne).
    rewrite (proj2 (Hopen ch) (or_introl Ho)). split; [reflexivity |].
    exact (conj Hopen (conj Hlt Hne)).
Qed.

Lemma run_tracks (clock : nat -> string) (caller_of_stack : string -> option string)
      (cs : list Logger.Call) (s : Logger.t) (open : list nat) :
  Logger.tracks s open ->
  Logger.channels_ok open (snd (Logger.run clock caller_of_stack cs s)) = true.
Proof.
  revert s open. induction cs as [| c cs IH]; intros s open Ht; [reflexivity |].
  simpl. pose proof (@step_tracks clock caller_of_stack c s open Ht) as Hstep.
  destruct (Logger.step clock caller_of_stack c s) as [s1 fx1]. simpl in Hstep.
  destruct Hstep as [Hok Ht1]. specialize (IH s1 _ Ht1).
  destruct (Logger.run clock caller_of_stack cs s1) as [s2 fx2]. simpl in *.
  now rewrite channels_ok_app, Hok, IH.
Qed.

(** X1.  Whatever the extension calls on the logger, and in whatever
    order, from the state it starts in: an output channel is created
    before it is used, a line is appended to a channel (and a channel is
    shown or disposed) only while it is open, and no channel is created
    or disposed twice. *)
Theorem Logger_uses_channels_while_open :
  forall (clock : nat -> string) (caller_of_stack : string -> option string)
         (cs : list Logger.Call),
    Logger.channels_ok [] (snd (Logger.run clock caller_of_stack cs Logger.initial)) = true.
Proof.
  intros clock caller_of_stack cs. apply run_tracks.
  split; [| split]; simpl.
  - intro ch. split; [discriminate | intros [E | E]; discriminate E].
  - discriminate.
  - discriminate.
Qed.

Lemma set_level_matches (value : Logger.TraceLevel) (s : Logger.t) :
  Logger.channel_matches_level (fst (Logger.set_level value s)).
Proof.
  unfold Logger.set_level, Logger.channel_matches_level.
  destruct value, (Logger.output s); simpl; split; congruence.
Qed.

Lemma kept_matches (s s' : Logger.t) :
  Logger.kept s s' -> Logger.channel_matches_level s -> Logger.channel_matches_level s'.
Proof.
  intros (Ho & _ & _ & Hl & _). unfold Logger.channel_matches_level. now rewrite Ho, Hl.
Qed.

Lemma step_matches (clock : nat -> string) (caller_of_stack : string -> option string)
      (c : Logger.Call) (s : Logger.t) :
  Logger.channel_matches_level s ->
  Logger.channel_matches_level (fst (Logger.step clock caller_of_stack c s)).
Proof.
  intro Hm. destruct c; simpl.
  - apply set_level_matches.
  - apply set_level_matches.
  - refine (@kept_matches s _ _ Hm). apply write_spec.
  - refine (@kept_matches s _ _ Hm). apply error_spec.
  - refine (@kept_matches s _ _ Hm). apply write_spec.
  - refine (@kept_matches s _ _ Hm). apply write_spec.
  - refine (@kept_matches s _ _ Hm). apply write_spec.
  - unfold Logger.logGitCommand. destruct (negb _); [exact Hm |].
    destruct (Logger.gitOutput s); exact Hm.
  - unfold Logger.showOutputChannel. destruct (Logger.output s) eqn:E; simpl; exact Hm.
Qed.

Lemma run_matches (clock : nat -> string) (caller_of_stack : string -> option string)
      (cs : list Logger.Call) (s : Logger.t) :
  Logger.channel_matches_level s ->
  Logger.channel_matches_level (fst (Logger.run clock caller_of_stack cs s)).
Proof.
  revert s. induction cs as [| c cs IH]; intros s Hm; [exact Hm |].
  simpl. pose proof (@step_matches clock caller_of_stack c s Hm) as H1.
  destruct (Logger.step clock caller_of_stack c s) as [s1 fx1]. simpl in H1.
  specialize (IH s1 H1).
  now destruct (Logger.run clock caller_of_stack cs s1) as [s2 fx2].
Qed.

(** X2.  In every state the logger can be in, [willLog(type)] tells
    whether the method of that type writes anything, to the console or to
    the output channel: [debug], [error], [log] (and [logWithDebugParams])
    and [warn] write something exactly when [willLog] of their type is
    true. *)
Theorem willLog_tells_whether_the_logger_writes :
  forall (clock : nat -> string) (caller_of_stack : string -> option string)
         (cs : list Logger.Call),
    let s := fst (Logger.run clock caller_of_stack cs Logger.initial) in
    (forall com params,
        snd (Logger.debug clock com params s) <> []
        <-> Logger.willLog Logger.type_debug s = true) /\
    (forall ex com params,
        snd (Logger.error clock caller_of_stack ex com params s) <> []
        <-> Logger.willLog Logger.type_error s = true) /\
    (forall com params,
        snd (Logger.log clock com params s) <> []
        <-> Logger.willLog Logger.type_log s = true) /\
    (forall com params,
        snd (Logger.logWithDebugParams clock com params s) <> []
        <-> Logger.willLog Logger.type_log s = true) /\
    (forall com params,
        snd (Logger.warn clock com params s) <> []
        <-> Logger.willLog Logger.type_warn s = true).
Proof.
  intros clock caller_of_stack cs s.
  assert (Hm : Logger.channel_matches_level s).
  { apply run_matches. split; reflexivity. }
  clearbody s. unfold Logger.channel_matches_level in Hm.
  assert (Hout : Logger.output s <> None <-> Logger._level s <> Logger.Silent) by tauto.
  clear Hm.
  repeat apply conj; intros.
  - unfold Logger.debug. rewrite (proj2 (proj2 (write_spec _ _ _ _ _ _ _ _))), Hout.
    unfold Logger.willLog, Logger.is_Debug.
    destruct (Logger._level s), (Logger._isDebugging s); simpl; intuition congruence.
  - rewrite (proj2 (proj2 (error_spec _ _ _ _ _ _))), Hout.
    unfold Logger.willLog, Logger.is_Silent.
    destruct (Logger._level s), (Logger._isDebugging s); simpl; intuition congruence.
  - unfold Logger.log. rewrite (proj2 (proj2 (write_spec _ _ _ _ _ _ _ _))), Hout.
    unfold Logger.willLog, Logger.is_Debug, Logger.is_Verbose.
    destruct (Logger._level s), (Logger._isDebugging s); simpl; intuition congruence.
  - unfold Logger.logWithDebugParams.
    rewrite (proj2 (proj2 (write_spec _ _ _ _ _ _ _ _))), Hout.
    unfold Logger.willLog, Logger.is_Debug, Logger.is_Verbose.
    destruct (Logger._level s), (Logger._isDebugging s); simpl; intuition congruence.
  - unfold Logger.warn. rewrite (proj2 (proj2 (write_spec _ _ _ _ _ _ _ _))), Hout.
    unfold Logger.willLog, Logger.is_Silent.
    destruct (Logger._level s), (Logger._isDebugging s); simpl; intuition congruence.
Qed.

Lemma string_app_nil_r (s : string) : (s ++ "")%string = s.
Proof. induction s as [| a s IH]; simpl; [reflexivity | now rewrite IH]. Qed.

Lemma string_app_assoc (a b c : string) : ((a ++ b) ++ c = a ++ (b ++ c))%string.
Proof. induction a as [| x a IH]; simpl; [reflexivity | now rewrite IH]. Qed.

Lemma string_length_app (p q : string) :
  String.length (p ++ q) = String.length p + String.length q.
Proof. induction p as [| a p IH]; simpl; [reflexivity | now rewrite IH]. Qed.

Lemma toLoggableParams_debugOnly (s : Logger.t) (params : list Logger.Value) :
  Logger.TraceLevel_eqb (Logger._level s) Logger.Debug || Logger._isDebugging s = true ->
  Logger.toLoggableParams s true params = Logger.toLoggableParams s false params.
Proof.
  unfold Logger.toLoggableParams.
  destruct (Logger.TraceLevel_eqb _ _), (Logger._isDebugging s); simpl;
    [reflexivity | reflexivity | reflexivity | discriminate].
Qed.

(** X3.  [logWithDebugParams] writes what [log] writes when the level is
    [Debug] or the extension is being debugged; otherwise the line it
    appends to the channel is the time and the message, with no parameter. *)
Theorem logWithDebugParams_keeps_params_for_debugging :
  forall (clock : nat -> string) (com : Logger.ContextOrMessage)
         (params : list Logger.Value) (s : Logger.t),
    (Logger.is_Debug s || Logger._isDebugging s = true ->
     Logger.logWithDebugParams clock com params s = Logger.log clock com params s) /\
    (Logger.is_Debug s || Logger._isDebugging s = false ->
     forall ch line,
       In (Logger.AppendLine ch line) (snd (Logger.logWithDebugParams clock com params s)) ->
       line = (clock (Logger.reads s) ++ " "
                 ++ Logger.or_empty (fst (Logger.message_of com params)))%string).
Proof.
  intros clock com params s. unfold Logger.logWithDebugParams, Logger.log, Logger.write.
  split.
  - intro H. destruct (negb _); [reflexivity |].
    destruct (Logger.message_of com params) as [message rest].
    destruct (Logger._isDebugging s) eqn:Hd; simpl;
      destruct (Logger.output s) as [ch |]; try reflexivity;
      destruct (Logger.is_Verbose s || Logger.is_Debug s); try reflexivity; simpl;
      rewrite toLoggableParams_debugOnly; try reflexivity; simpl;
      unfold Logger.is_Debug in H; now rewrite ?Hd in *.
  - intros H ch line. apply orb_false_iff in H. destruct H as [HD Hd].
    rewrite Hd. destruct (negb _); [intros [] |].
    destruct (Logger.message_of com params) as [message rest]. simpl.
    destruct (Logger.output s) as [ch' |]; [| intros []].
    destruct (Logger.is_Verbose s || Logger.is_Debug s); [| intros []].
    simpl. intros [E | []]. injection E as _ <-.
    unfold Logger.toLoggableParams. simpl.
    unfold Logger.is_Debug in HD. rewrite HD, Hd. simpl.
    rewrite orb_true_r. now rewrite string_app_nil_r.
Qed.

(** At level [Verbose], outside a debugging session: the line that
    [logWithDebugParams] appends is the time and the message. *)
Lemma logWithDebugParams_keeps_params_for_debugging_witness :
  let clock := fun _ : nat => "[12:00:00:000]"%string in
  let s := fst (Logger.set_level Logger.Verbose Logger.initial) in
  let line := "[12:00:00:000] fetch"%string in
  Logger.is_Debug s || Logger._isDebugging s = false /\
  In (Logger.AppendLine 0 line)
     (snd (Logger.logWithDebugParams clock (Logger.Message "fetch")
             [Logger.Primitive "origin"] s)) /\
  line = (clock (Logger.reads s) ++ " "
            ++ Logger.or_empty (fst (Logger.message_of (Logger.Message "fetch")
                                       [Logger.Primitive "origin"])))%string.
Proof.
  cbv zeta. split; [reflexivity |]. split; [vm_compute; left; reflexivity |].
  apply (proj2 (logWithDebugParams_keeps_params_for_debugging
                  (fun _ : nat => "[12:00:00:000]"%string)
                  (Logger.Message "fetch") [Logger.Primitive "origin"]
                  (fst (Logger.set_level Logger.Verbose Logger.initial)))
               eq_refl 0).
  vm_compute. left. reflexivity.
Defined.

(* ===================================================================== *)
(** ** Strings: searching and cutting *)
(* ===================================================================== *)

Lemma clamp_inside (s : string) (k : nat) :
  k <= String.length s -> JsString.clamp s (Z.of_nat k) = k.
Proof. unfold JsString.clamp, JsString.length. lia. Qed.

Lemma index_from_absent (c : ascii) (s : string) (i from : nat) :
  JsString.has c s = false -> JsString.index_from c s i from = (-1)%Z.
Proof.
  revert i. induction s as [| a s IH]; intros i H; [reflexivity |].
  simpl in *. apply orb_false_iff in H. destruct H as [Ha Hs].
  rewrite Ha, andb_false_r. now apply IH.
Qed.

Lemma index_from_first (c : ascii) (p r : string) (i : nat) :
  JsString.has c p = false ->
  JsString.index_from c (p ++ String c r) i 0 = Z.of_nat (i + String.length p).
Proof.
  revert i. induction p as [| a p IH]; intros i H; simpl.
  - rewrite Ascii.eqb_refl. simpl. f_equal. lia.
  - simpl in H. apply orb_false_iff in H. destruct H as [Ha Hp].
    rewrite Ha, (IH (S i) Hp). f_equal. lia.
Qed.

Lemma substring_all (s : string) : String.substring 0 (String.length s) s = s.
Proof. induction s as [| a s IH]; simpl; [reflexivity | now rewrite IH]. Qed.

Lemma substring_after (p r : string) (c : ascii) (n : nat) :
  String.substring (S (String.length p)) n (p ++ String c r) = String.substring 0 n r.
Proof. induction p as [| a p IH]; simpl; [reflexivity | exact IH]. Qed.

Lemma substring_before (p r : string) :
  String.substring 0 (String.length p) (p ++ r) = p.
Proof.
  induction p as [| a p IH]; simpl; [now destruct r | now rewrite IH].
Qed.

Lemma strip_module_name_cut (p r : string) :
  JsString.has JsString.underscore p = false ->
  Logger.strip_module_name (p ++ String JsString.underscore r) = r /\
  Logger.strip_module_name p = p.
Proof.
  intro H. unfold Logger.strip_module_name, JsString.indexOf. split.
  - rewrite (clamp_inside _ (k := 0)) by lia.
    rewrite (@index_from_first JsString.underscore p r 0 H). simpl Nat.add.
    destruct (Z.eqb_spec (Z.of_nat (String.length p)) (-1)); [lia |].
    unfold JsString.substr.
    destruct (Z.ltb_spec (Z.of_nat (String.length p) + 1) 0); [lia |].
    replace (Z.of_nat (String.length p) + 1)%Z with (Z.of_nat (S (String.length p)))
      by lia.
    rewrite clamp_inside by (rewrite string_length_app; simpl; lia).
    rewrite substring_after, string_length_app. simpl.
    replace (String.length p + S (String.length r) - S (String.length p))
      with (String.length r) by lia.
    apply substring_all.
  - rewrite (clamp_inside _ (k := 0)) by lia.
    now rewrite (@index_from_absent JsString.underscore p 0 0 H).
Qed.

(** X4.  [toLoggableName] cuts the name of the constructor after its
    first underscore, and returns a name with no underscore as it is; a
    function with no prototype keeps its own name, underscores included. *)
Theorem toLoggableName_cuts_after_first_underscore :
  forall (p r : string),
    JsString.has JsString.underscore p = false ->
    Logger.toLoggableName
      (Logger.ObjectInstance (Some (p ++ String JsString.underscore r)%string)) = r /\
    Logger.toLoggableName (Logger.ObjectInstance (Some p)) = p /\
    (forall name,
        Logger.toLoggableName
          (Logger.FunctionInstance name (Some (Some (p ++ String JsString.underscore r)%string)))
        = r) /\
    (forall name, Logger.toLoggableName (Logger.FunctionInstance name None) = name).
Proof.
  intros p r H. destruct (@strip_module_name_cut p r H) as [H1 H2].
  simpl. now repeat split.
Qed.

Lemma toLoggableName_cuts_after_first_underscore_witness :
  Logger.toLoggableName (Logger.ObjectInstance (Some "views_node_BranchNode"%string))
  = "node_BranchNode"%string.
Proof.
  exact (proj1 (toLoggableName_cuts_after_first_underscore
                  "views"%string "node_BranchNode"%string eq_refl)).
Defined.

(* ===================================================================== *)
(** ** [BranchNode]: the size of the log it asks for *)
(* ===================================================================== *)

(** X5.  A [BranchNode] that holds no log asks git for one, once, with a
    limit that lies between the limit of the node (its own, else the page
    or default limit of the view) and twice that limit; the limit is
    raised only when more commits are unpublished than it allows, and
    then to no more than one above their number; a limit of 0 (no limit)
    stays 0. *)
Theorem getLog_asks_between_limit_and_twice :
  forall (git : GitService) (w : World BranchNode.t),
    BranchNode._log (this w) = None ->
    let n := this w in
    let base :=
      match BranchNode.limit n with
      | Some l => l
      | None => if BranchNode.root n
                then View.pageItemLimit (View.config (BranchNode.view n))
                else View.defaultItemLimit (View.config (BranchNode.view n))
      end in
    let ahead := GitBranch.ahead (GitBranch.state (BranchNode.branch n)) in
    let asked := BranchNode.log_limit n in
    trace (snd (BranchNode.getLog git w)) = trace w ++ [Git_getLog asked] /\
    base <= asked <= 2 * base /\
    (ahead <= base -> asked = base) /\
    (base <> 0 -> base < ahead -> base < asked <= ahead + 1).
Proof.
  intros git w Hl n base ahead asked. split.
  - unfold asked, n. unfold BranchNode.getLog. cbv zeta. rewrite Hl.
    unfold bind, call, update, modify, gets. simpl.
    now destruct (getLog git _ _ _ _).
  - unfold asked, BranchNode.log_limit. fold base. fold ahead.
    destruct (Nat.eqb_spec base 0) as [E | E]; simpl.
    + repeat split; lia.
    + destruct (Nat.ltb_spec base ahead); repeat split; lia.
Qed.

Lemma getLog_asks_between_limit_and_twice_witness :
  trace (snd (BranchNode.getLog Scenario.git_ok (Scenario.start Scenario.branch_node)))
  = [Git_getLog 10].
Proof.
  exact (proj1 (getLog_asks_between_limit_and_twice Scenario.git_ok
                  (Scenario.start Scenario.branch_node) eq_refl)).
Defined.

(* ===================================================================== *)
(** ** [BranchNode.getTreeItem]: the arrows *)
(* ===================================================================== *)

Lemma scan_spec (urls : list BranchNodeTreeItem.GitRemoteType) (left right : bool) :
  BranchNodeTreeItem.scan urls left right
  = (left || existsb BranchNodeTreeItem.is_fetch urls && negb (left && right),
     right || existsb BranchNodeTreeItem.is_push urls && negb (left && right)).
Proof.
  revert left right. induction urls as [| u urls IH]; intros left right; simpl.
  - now rewrite !orb_false_r.
  - destruct u; simpl.
    + destruct right; simpl.
      * destruct left; reflexivity.
      * rewrite IH. simpl. destruct left; simpl; now rewrite ?andb_true_r.
    + destruct left; simpl.
      * destruct right; reflexivity.
      * rewrite IH. simpl. destruct right; simpl; now rewrite ?andb_true_r.
    + apply IH.
Qed.

Lemma existsb_reversed {A : Type} (f : A -> bool) (l : list A) :
  existsb f (rev l) = existsb f l.
Proof.
  induction l as [| a l IH]; [reflexivity |].
  simpl. rewrite existsb_app, IH. simpl. rewrite orb_false_r. apply orb_comm.
Qed.

(** X6.  The arrows that [getTreeItem] shows between a branch and its
    upstream depend only on whether the remote has a fetch url and
    whether it has a push url: both give the two arrows, push alone the
    right arrow, fetch alone the left arrow, neither (or no remote) the
    dash.  Leaving the loop early, and the order of the urls, change
    nothing. *)
Theorem arrows_tell_fetch_and_push :
  forall (urls : list BranchNodeTreeItem.GitRemoteType),
    let fetch := existsb BranchNodeTreeItem.is_fetch urls in
    let push := existsb BranchNodeTreeItem.is_push urls in
    BranchNodeTreeItem.arrows (Some urls)
    = (if fetch && push then GlyphChars.ArrowsRightLeft
       else if push then GlyphChars.ArrowRight
       else if fetch then GlyphChars.ArrowLeft
       else GlyphChars_Dash) /\
    BranchNodeTreeItem.arrows (Some (rev urls)) = BranchNodeTreeItem.arrows (Some urls) /\
    BranchNodeTreeItem.arrows None = GlyphChars_Dash.
Proof.
  intros urls fetch push.
  assert (H : forall us, BranchNodeTreeItem.arrows (Some us)
                         = (if existsb BranchNodeTreeItem.is_fetch us
                               && existsb BranchNodeTreeItem.is_push us
                            then GlyphChars.ArrowsRightLeft
                            else if existsb BranchNodeTreeItem.is_push us
                                 then GlyphChars.ArrowRight
                                 else if existsb BranchNodeTreeItem.is_fetch us
                                      then GlyphChars.ArrowLeft
                                      else GlyphChars_Dash)).
  { intro us. unfold BranchNodeTreeItem.arrows. rewrite scan_spec. simpl.
    now rewrite !andb_true_r. }
  split; [apply H |]. split; [| reflexivity].
  rewrite !H. now rewrite !existsb_reversed.
Qed.

(* ===================================================================== *)
(** ** [BranchNode.loadMore]: when paging fails or adds nothing *)
(* ===================================================================== *)

(** X7.  [loadMore] on a node whose log says it has more.  If [log.more]
    rejects, [loadMore] rejects and the node keeps its log, limit and
    children; if it resolves to the log the node holds, nothing changes
    and the view is not told; if the log has no [more] method, or [more]
    resolves to nothing, the node drops its log, limit and children and
    tells the view once. *)
Theorem loadMore_when_paging_fails_or_adds_nothing :
  forall (git : GitService) (arg : option MoreLimit) (w : World BranchNode.t)
         (l : GitLog.t),
    BranchNode._log (this w) = Some l ->
    GitLog.hasMore l = true ->
    let a := match arg with
             | Some a => a
             | None => Limit (View.pageItemLimit (View.config (BranchNode.view (this w))))
             end in
    let asked := {| this := this w; fresh := fresh w; trace := trace w ++ [Log_more a] |} in
    let dropped :=
      BranchNode.set_children None
        (BranchNode.set_limit None (BranchNode.set_log None (this w))) in
    (forall f e, GitLog.more l = Some f -> f a = Rejected e ->
                 BranchNode.loadMore git arg w = (Rejected e, asked)) /\
    (forall f l', GitLog.more l = Some f -> f a = Resolved (Some l') ->
                  GitLog.id l' = GitLog.id l ->
                  BranchNode.loadMore git arg w = (Resolved tt, asked)) /\
    (forall f, GitLog.more l = Some f -> f a = Resolved None ->
               BranchNode.loadMore git arg w
               = (Resolved tt,
                  {| this := dropped; fresh := fresh w;
                     trace := (trace w ++ [Log_more a]) ++ [TriggerChange false] |})) /\
    (GitLog.more l = None ->
     BranchNode.loadMore git arg w
     = (Resolved tt,
        {| this := dropped; fresh := fresh w;
           trace := trace w ++ [TriggerChange false] |})).
Proof.
  intros git arg w l Hl Hm a asked dropped.
  unfold BranchNode.loadMore, bind. rewrite (getLog_cached git w Hl), Hm. simpl.
  fold a. unfold BranchNode.log_more.
  repeat apply conj.
  - intros f e Hf Hr. rewrite Hf. unfold call. now rewrite Hr.
  - intros f l' Hf Hr Hid. rewrite Hf.
    unfold call, gets, ret. rewrite Hr. simpl. rewrite Hl. simpl.
    rewrite <- Hid, Nat.eqb_refl. reflexivity.
  - intros f Hf Hr. rewrite Hf.
    unfold call, gets, update, modify, ret. rewrite Hr. simpl. now rewrite Hl.
  - intros Hf. rewrite Hf.
    unfold call, gets, update, modify, ret. simpl. now rewrite Hl.
Qed.

(** A node whose log fails to page: [loadMore] rejects, and the children
    that were loaded are still there. *)
Lemma loadMore_when_paging_fails_or_adds_nothing_witness :
  let r := BranchNode.loadMore Scenario.git_ok None (Scenario.start Cases.loaded_node) in
  fst r = Rejected "timeout" /\ this (snd r) = Cases.loaded_node.
Proof.
  cbv zeta.
  rewrite (proj1 (loadMore_when_paging_fails_or_adds_nothing Scenario.git_ok None
                    (Scenario.start Cases.loaded_node) (l := Cases.page_failing)
                    eq_refl eq_refl)
                 (fun _ => Rejected "timeout") "timeout"%string eq_refl eq_refl).
  split; reflexivity.
Defined.

(* ===================================================================== *)
(** ** [CommitNode.toClipboard] *)
(* ===================================================================== *)

Lemma has_app (c : ascii) (p q : string) :
  JsString.has c (p ++ q) = JsString.has c p || JsString.has c q.
Proof.
  induction p as [| a p IH]; simpl; [reflexivity | now rewrite IH, orb_assoc].
Qed.

Lemma split_at_first (c : ascii) (s : string) :
  JsString.has c s = false \/
  exists p r, s = (p ++ String c r)%string /\ JsString.has c p = false.
Proof.
  induction s as [| a s IH]; [now left |].
  simpl. destruct (Ascii.eqb_spec a c) as [-> | Hne].
  - right. now exists EmptyString, s.
  - destruct IH as [H | (p & r & -> & Hp)]; [now left |].
    right. exists (String a p), r. split; [reflexivity |].
    simpl. rewrite Hp. now destruct (Ascii.eqb_spec a c).
Qed.

Lemma toClipboard_cut (n : CommitNode.t) (first rest : string) :
  JsString.has JsString.line_feed first = false ->
  CommitNode.message (CommitNode.commit n) = (first ++ String JsString.line_feed rest)%string ->
  CommitNode.toClipboard n
  = (CommitNode.shortSha (CommitNode.commit n) ++ ": " ++ first
       ++ GlyphChars.Space ++ GlyphChars.Ellipsis)%string.
Proof.
  intros Hf Hm. unfold CommitNode.toClipboard, JsString.indexOf. rewrite Hm.
  rewrite (clamp_inside _ (k := 0)) by lia.
  rewrite (@index_from_first JsString.line_feed first rest 0 Hf). simpl Nat.add.
  destruct (Z.eqb_spec (Z.of_nat (String.length first)) (-1)); [lia |]. simpl negb.
  unfold JsString.substring.
  rewrite (clamp_inside _ (k := 0)) by lia.
  rewrite clamp_inside by (rewrite string_length_app; lia).
  rewrite Nat.min_0_l, Nat.max_0_l, Nat.sub_0_r.
  now rewrite substring_before.
Qed.

Lemma toClipboard_whole (n : CommitNode.t) :
  JsString.has JsString.line_feed (CommitNode.message (CommitNode.commit n)) = false ->
  CommitNode.toClipboard n
  = (CommitNode.shortSha (CommitNode.commit n) ++ ": "
       ++ CommitNode.message (CommitNode.commit n))%string.
Proof.
  intro H. unfold CommitNode.toClipboard, JsString.indexOf.
  rewrite (clamp_inside _ (k := 0)) by lia.
  now rewrite (@index_from_absent JsString.line_feed _ 0 0 H).
Qed.

(** X8.  [toClipboard] of a commit node gives the short sha, a colon and
    the first line of the message, followed by a no-break space and an
    ellipsis when the message goes on after that line; the text holds no
    line feed (unless the short sha does). *)
Theorem toClipboard_is_the_first_line :
  forall (n : CommitNode.t),
    let c := CommitNode.commit n in
    (forall first rest,
        JsString.has JsString.line_feed first = false ->
        CommitNode.message c = (first ++ String JsString.line_feed rest)%string ->
        CommitNode.toClipboard n
        = (CommitNode.shortSha c ++ ": " ++ first
             ++ GlyphChars.Space ++ GlyphChars.Ellipsis)%string) /\
    (JsString.has JsString.line_feed (CommitNode.message c) = false ->
     CommitNode.toClipboard n = (CommitNode.shortSha c ++ ": " ++ CommitNode.message c)%string) /\
    (JsString.has JsString.line_feed (CommitNode.shortSha c) = false ->
     JsString.has JsString.line_feed (CommitNode.toClipboard n) = false).
Proof.
  intros n c. split; [| split].
  - intros first rest. apply toClipboard_cut.
  - apply toClipboard_whole.
  - intro Hs.
    destruct (split_at_first JsString.line_feed (CommitNode.message c))
      as [H | (p & r & Hm & Hp)].
    + rewrite (toClipboard_whole n H). fold c. rewrite !has_app, Hs, H. reflexivity.
    + rewrite (@toClipboard_cut n p r Hp Hm). fold c.
      rewrite !has_app, Hs, Hp. reflexivity.
Qed.

Lemma toClipboard_is_the_first_line_witness :
  CommitNode.toClipboard Cases.commit_node
  = ("abc1234: Fix paging" ++ GlyphChars.Space ++ GlyphChars.Ellipsis)%string.
Proof.
  exact (proj1 (toClipboard_is_the_first_line Cases.commit_node)
               "Fix paging"%string "Longer text"%string eq_refl eq_refl).
Defined.

(* ===================================================================== *)
(** ** The line annotation: suspended, toggled *)
(* ===================================================================== *)

(** What [cancel] and [set_editor] leave as it is. *)
Lemma cancel_keeps (c : LineAnnotationController.t) :
  let c' := LineAnnotationController.cancel c in
  LineAnnotationController._enabled c' = LineAnnotationController._enabled c /\
  LineAnnotationController._suspended c' = LineAnnotationController._suspended c /\
  LineAnnotationController._cancellation c' = LineAnnotationController._cancellation c /\
  LineAnnotationController._editor c' = LineAnnotationController._editor c /\
  (forall tok, LineAnnotationController.isCancellationRequested tok c = true ->
               LineAnnotationController.isCancellationRequested tok c' = true) /\
  (forall tok, LineAnnotationController._cancellation c = Some tok ->
               LineAnnotationController.isCancellationRequested tok c' = true).
Proof.
  unfold LineAnnotationController.cancel, LineAnnotationController.isCancellationRequested.
  destruct (LineAnnotationController._cancellation c) as [src |] eqn:E; simpl;
    repeat split; try assumption; try discriminate; try (intros tok H; exact H).
  - intros tok H. now rewrite H, orb_true_r.
  - intros tok [= ->]. now rewrite Nat.eqb_refl.
Qed.

Lemma switch_editor_keeps (editor : option LineAnnotationController.TextEditor)
      (c : LineAnnotationController.t) :
  let c' := fst (LineAnnotationController.switch_editor editor c) in
  LineAnnotationController._enabled c' = LineAnnotationController._enabled c /\
  LineAnnotationController._suspended c' = LineAnnotationController._suspended c /\
  LineAnnotationController._cancellation c' = LineAnnotationController._cancellation c /\
  (forall tok, LineAnnotationController.isCancellationRequested tok c = true ->
               LineAnnotationController.isCancellationRequested tok c' = true) /\
  (forall x, In x (snd (LineAnnotationController.switch_editor editor c)) ->
             exists ed, x = LineAnnotationController.SetDecorations ed []).
Proof.
  unfold LineAnnotationController.switch_editor.
  destruct (negb _) eqn:E.
  - pose proof (cancel_keeps c) as (H1 & H2 & H3 & _ & H5 & _).
    pose proof (clear_effects (LineAnnotationController._editor c) c) as Hfx.
    unfold LineAnnotationController.clear in *. simpl in *.
    exact (conj H1 (conj H2 (conj H3 (conj H5 Hfx)))).
  - simpl. split; [reflexivity |]. split; [reflexivity |]. split; [reflexivity |].
    split; [intros tok H; exact H | intros x []].
Qed.

Lemma annotate_keeps (host : LineAnnotationController.Host)
      (e : LineAnnotationController.TextEditor)
      (sel : list LineAnnotationController.LineSelection)
      (prs : option (list (string * option PullRequest))) (c : LineAnnotationController.t) :
  let c' := fst (LineAnnotationController.annotate host e sel prs c) in
  LineAnnotationController._enabled c' = LineAnnotationController._enabled c /\
  LineAnnotationController._suspended c' = LineAnnotationController._suspended c.
Proof.
  unfold LineAnnotationController.annotate.
  destruct (LineAnnotationController.pull_requests _ _ _ _) as [[m |] asked]; simpl;
    [| now split].
  unfold LineAnnotationController.new_source. simpl.
  pose proof (cancel_keeps c) as (H1 & H2 & _). now split.
Qed.

Lemma refresh_keeps_flags (host : LineAnnotationController.Host)
      (editor : option LineAnnotationController.TextEditor)
      (prs : option (list (string * option PullRequest))) (c : LineAnnotationController.t) :
  let c' := fst (LineAnnotationController.refresh host editor prs c) in
  LineAnnotationController._enabled c' = LineAnnotationController._enabled c /\
  LineAnnotationController._suspended c' = LineAnnotationController._suspended c.
Proof.
  pose proof (cancel_keeps c) as (Hc1 & Hc2 & _).
  unfold LineAnnotationController.refresh.
  destruct (negb (is_some editor) && _); [now split |].
  destruct editor as [e |]; [| unfold LineAnnotationController.clear; simpl; now split].
  destruct (LineAnnotationController.selections host) as [sel |];
    [| unfold LineAnnotationController.clear; simpl; now split].
  destruct (negb (LineAnnotationController.isTextEditor e));
    [unfold LineAnnotationController.clear; simpl; now split |].
  pose proof (switch_editor_keeps (Some e) c) as (Hs1 & Hs2 & _).
  destruct (LineAnnotationController.switch_editor (Some e) c) as [c1 fx1]. simpl in Hs1, Hs2.
  pose proof (cancel_keeps c1) as (Hk1 & Hk2 & _).
  pose proof (annotate_keeps host e sel prs c1) as (Ha1 & Ha2).
  destruct (LineAnnotationController.suspended c1);
    [unfold LineAnnotationController.clear; simpl; split; congruence |].
  destruct (negb (LineAnnotationController.isBlameable host) && false); simpl;
    [split; congruence |].
  destruct (_ || _); simpl; [split; congruence |].
  destruct (LineAnnotationController.annotate host e sel prs c1) as [c2 fx2].
  simpl in *. split; congruence.
Qed.

(** X9.  [toggle] flips the controller between suspended and active,
    whatever its two flags were; when it is done the line tracker is
    subscribed exactly when the controller is active; and it refreshes
    the annotation unless the controller was disabled without being
    suspended, in which case it is switched on without a refresh. *)
Theorem toggle_flips_suspended :
  forall (host : LineAnnotationController.Host)
         (editor : option LineAnnotationController.TextEditor)
         (s : LineAnnotationToggle.t),
    let c := LineAnnotationToggle.controller s in
    let r := LineAnnotationToggle.toggle host editor s in
    let c' := LineAnnotationToggle.controller (fst r) in
    LineAnnotationController.suspended c' = negb (LineAnnotationController.suspended c) /\
    LineAnnotationToggle.subscribed (fst r) = negb (LineAnnotationController.suspended c') /\
    (In (LineAnnotationToggle.RefreshCalled editor) (snd r)
     <-> LineAnnotationController._enabled c = true
         \/ LineAnnotationController._suspended c = true).
Proof.
  intros host editor [c sub]. simpl.
  unfold LineAnnotationToggle.toggle, LineAnnotationController.suspended. simpl.
  destruct (LineAnnotationController._enabled c) eqn:He,
           (LineAnnotationController._suspended c) eqn:Hs; simpl;
    unfold LineAnnotationToggle.resume, LineAnnotationToggle.suspend,
      LineAnnotationToggle.setLineTracker; simpl;
    destruct sub; simpl; rewrite ?Hs; simpl;
    unfold LineAnnotationToggle.refresh; simpl;
    try match goal with
        | |- context [LineAnnotationController.refresh ?h ?e ?p ?x] =>
            pose proof (refresh_keeps_flags h e p x) as [Hk1 Hk2];
            destruct (LineAnnotationController.refresh h e p x) as [c2 fx2];
            simpl in Hk1, Hk2; simpl; rewrite Hk1, Hk2
        end;
    simpl; rewrite ?He, ?Hs; simpl;
    (split; [reflexivity |]); (split; [reflexivity |]);
    (split; [ intro H; first [ now left | now right
                             | destruct H as [H | H]; [discriminate H | destruct H] ]
            | intros [H | H]; first [ discriminate H | tauto ] ]).
Qed.

(** X10.  While the controller is suspended (or disabled), [refresh]
    never annotates: what it does to the editors is to remove the
    decorations, it starts no pull request lookup and no wait; and,
    unless neither an editor is given nor one is held, it cancels the
    token of the wait in flight, so that this wait will not refresh. *)
Theorem refresh_while_suspended_only_clears :
  forall (host : LineAnnotationController.Host)
         (editor : option LineAnnotationController.TextEditor)
         (prs : option (list (string * option PullRequest)))
         (c : LineAnnotationController.t),
    LineAnnotationController.suspended c = true ->
    let r := LineAnnotationController.refresh host editor prs c in
    (forall x, In x (snd r) -> exists ed, x = LineAnnotationController.SetDecorations ed []) /\
    (is_some editor || is_some (LineAnnotationController._editor c) = true ->
     forall tok, LineAnnotationController._cancellation c = Some tok ->
                 LineAnnotationController.isCancellationRequested tok (fst r) = true).
Proof.
  intros host editor prs c Hsus r. unfold r, LineAnnotationController.refresh.
  pose proof (cancel_keeps c) as (_ & _ & _ & _ & _ & Hreq).
  destruct (negb (is_some editor) && negb (is_some (LineAnnotationController._editor c)))
    eqn:Hnone.
  { split; [intros x [] |]. intro H. apply andb_true_iff in Hnone.
    destruct Hnone as [H1 H2]. apply negb_true_iff in H1, H2. rewrite H1, H2 in H.
    discriminate H. }
  assert (Hclear : forall ed,
             (forall x, In x (snd (LineAnnotationController.clear ed c)) ->
                        exists e0, x = LineAnnotationController.SetDecorations e0 []) /\
             (is_some editor || is_some (LineAnnotationController._editor c) = true ->
              forall tok, LineAnnotationController._cancellation c = Some tok ->
                          LineAnnotationController.isCancellationRequested
                            tok (fst (LineAnnotationController.clear ed c)) = true)).
  { intro ed. split; [intro x; apply clear_effects |]. intros _ tok Ht. now apply Hreq. }
  destruct editor as [e |]; [| apply Hclear].
  destruct (LineAnnotationController.selections host) as [sel |]; [| apply Hclear].
  destruct (negb (LineAnnotationController.isTextEditor e)); [apply Hclear |].
  pose proof (switch_editor_keeps (Some e) c) as (Hs1 & Hs2 & Hs3 & Hs4 & Hs5).
  destruct (LineAnnotationController.switch_editor (Some e) c) as [c1 fx1].
  simpl in Hs1, Hs2, Hs3, Hs4, Hs5.
  assert (Hsus1 : LineAnnotationController.suspended c1 = true).
  { unfold LineAnnotationController.suspended in *. now rewrite Hs1, Hs2. }
  rewrite Hsus1.
  pose proof (cancel_keeps c1) as (_ & _ & _ & _ & _ & Hreq1).
  pose proof (clear_effects (Some e) c1) as Hfx.
  destruct (LineAnnotationController.clear (Some e) c1) as [c2 fx2] eqn:Hc. simpl.
  split.
  - intros x Hin. apply in_app_or in Hin. destruct Hin as [H | H]; [now apply Hs5 |].
    now apply Hfx.
  - intros _ tok Ht. unfold LineAnnotationController.clear in Hc.
    injection Hc as <- _. apply Hreq1. now rewrite Hs3.
Qed.

(** The controller of the scenario, suspended: a refresh for its editor
    cancels the token 0 of the wait in flight. *)
Lemma refresh_while_suspended_only_clears_witness :
  LineAnnotationController.suspended Cases.suspended_controller = true /\
  LineAnnotationController.isCancellationRequested 0
    (fst (LineAnnotationController.refresh Cases.host (Some Scenario.editor) None
            Cases.suspended_controller)) = true.
Proof.
  split; [reflexivity |].
  exact (proj2 (refresh_while_suspended_only_clears Cases.host (Some Scenario.editor)
                  None Cases.suspended_controller eq_refl)
               eq_refl 0 eq_refl).
Defined.

(* ===================================================================== *)
(** ** The pull request lookups of a refresh *)
(* ===================================================================== *)

Lemma set_add_spec (x : string) (s : list string) :
  (NoDup s -> NoDup (set_add x s)) /\
  (forall y, In y (set_add x s) <-> In y s \/ y = x).
Proof.
  unfold set_add. destruct (includes x s) eqn:E.
  - apply includes_In in E. split; [trivial |]. intro y. split; [now left |].
    intros [H | ->]; assumption.
  - split.
    + intro Hnd. apply NoDup_app; [assumption | repeat constructor; intros [] |].
      intros y Hy [<- | []]. apply includes_In in Hy. congruence.
    + intro y. rewrite in_app_iff. simpl. intuition congruence.
Qed.

Lemma fold_set_add_spec {K : Type} (key : K -> string) (l : list K) (acc : list string) :
  let refs := fold_left (fun s x => set_add (key x) s) l acc in
  (NoDup acc -> NoDup refs) /\
  (forall y, In y refs <-> In y acc \/ exists x, In x l /\ y = key x).
Proof.
  revert acc. induction l as [| x l IH]; intro acc; simpl.
  - split; [trivial |]. intro y. split; [now left | intros [H | (x & [] & _)]; exact H].
  - destruct (IH (set_add (key x) acc)) as [H1 H2].
    destruct (set_add_spec (key x) acc) as [H3 H4]. split.
    + intro Hnd. auto.
    + intro y. rewrite H2, H4. split.
      * intros [[H | ->] | (z & Hz & ->)];
          [now left | right; exists x; now split; [left |] | right; exists z; now split; [right |]].
      * intros [H | (z & [-> | Hz] & ->)];
          [left; now left | left; now right | right; now exists z].
Qed.

Lemma forallb_false_exists {A : Type} (f : A -> bool) (l : list A) :
  forallb f l = false -> exists x, In x l /\ f x = false.
Proof.
  induction l as [| a l IH]; simpl; [discriminate |].
  destruct (f a) eqn:E; simpl.
  - intro H. destruct (IH H) as (x & Hx & Hf). exists x. split; [now right | exact Hf].
  - intros _. exists a. split; [now left | exact E].
Qed.

(** X11.  [getPullRequests] asks for the pull request of each distinct
    commit among the lines once, however many lines share it, and for
    nothing else; it asks for none, and returns nothing, when the
    repository has no rich remote provider; and a map it returns holds at
    least one entry that is a pull request or a lookup still running. *)
Theorem getPullRequests_asks_each_commit_once :
  forall (host : LineAnnotationController.Host) (repo : string)
         (lines : list (nat * GitLogCommit.t)) (timeout : option nat),
    let r := LineAnnotationController.getPullRequests host repo lines timeout in
    NoDup (snd r) /\
    (forall x, In x (snd r) ->
               exists l, In l lines /\
                         x = LineAnnotationController.GetPullRequestForCommit
                               (GitLogCommit.ref (snd l))) /\
    (LineAnnotationController.has_rich_remote_provider host repo = true ->
     forall l, In l lines ->
               In (LineAnnotationController.GetPullRequestForCommit
                     (GitLogCommit.ref (snd l))) (snd r)) /\
    (LineAnnotationController.has_rich_remote_provider host repo = false ->
     r = (None, [])) /\
    (forall prs, fst r = Some prs ->
                 exists kv, In kv prs /\ LineAnnotationController.is_null (snd kv) = false).
Proof.
  intros host repo lines timeout r.
  destruct (fold_set_add_spec (fun l : nat * GitLogCommit.t => GitLogCommit.ref (snd l))
              lines []) as [Hnd Hin].
  specialize (Hnd (NoDup_nil _)).
  set (refs := fold_left (fun s l => set_add (GitLogCommit.ref (snd l)) s) lines []) in *.
  assert (Hr : r = match lines with
                   | [] => (None, [])
                   | _ =>
                       if negb (LineAnnotationController.has_rich_remote_provider host repo)
                       then (None, [])
                       else if Nat.eqb (List.length refs) 0 then (None, [])
                            else
                              let prs := Promises.raceAll
                                           refs
                                           (LineAnnotationController.getPullRequestForCommit host)
                                           timeout in
                              let asked :=
                                map LineAnnotationController.GetPullRequestForCommit refs in
                              if Nat.eqb (List.length prs) 0
                                 || forallb (fun kv => LineAnnotationController.is_null (snd kv)) prs
                              then (None, asked) else (Some prs, asked)
                   end) by reflexivity.
  clearbody r refs.
  assert (Hnodup : NoDup (map LineAnnotationController.GetPullRequestForCommit refs)).
  { clear - Hnd. induction Hnd as [| x l Hx _ IH]; simpl; constructor; [| exact IH].
    rewrite in_map_iff. intros (y & [= ->] & Hy). contradiction. }
  assert (Hasked : snd r = match lines with
                           | [] => []
                           | _ =>
                               if LineAnnotationController.has_rich_remote_provider host repo
                               then map LineAnnotationController.GetPullRequestForCommit refs
                               else []
                           end).
  { rewrite Hr. destruct lines; [reflexivity |].
    destruct (LineAnnotationController.has_rich_remote_provider host repo);
      [| reflexivity].
    simpl. destruct refs as [| k ks]; [reflexivity |]. simpl Nat.eqb. cbv iota zeta.
    now destruct (_ || _). }
  repeat apply conj.
  - rewrite Hasked. destruct lines; [constructor |].
    destruct (LineAnnotationController.has_rich_remote_provider host repo);
      [exact Hnodup | constructor].
  - intros x Hx. rewrite Hasked in Hx. destruct lines as [| l0 ls]; [destruct Hx |].
    destruct (LineAnnotationController.has_rich_remote_provider host repo);
      [| destruct Hx].
    apply in_map_iff in Hx. destruct Hx as (y & <- & Hy).
    apply Hin in Hy. destruct Hy as [[] | (l & Hl & ->)]. now exists l.
  - intros Hp l Hl. rewrite Hasked, Hp. destruct lines as [| l0 ls]; [destruct Hl |].
    apply in_map. apply Hin. right. now exists l.
  - intro Hp. rewrite Hr, Hp. now destruct lines.
  - intros prs Hprs. rewrite Hr in Hprs. destruct lines; [discriminate |].
    destruct (negb _); [discriminate |].
    destruct (Nat.eqb (List.length refs) 0); [discriminate |]. cbv zeta in Hprs.
    destruct (Nat.eqb _ 0 || forallb _ _) eqn:E; [discriminate |].
    injection Hprs as <-. apply orb_false_iff in E. destruct E as [_ E].
    now apply forallb_false_exists in E.
Qed.

(* ===================================================================== *)
(** ** The root nodes of the views *)
(* ===================================================================== *)

Section ViewRootFacts.

Variable Item : Type.
Variable texts : ViewRoot.Texts.
Variable auto_refresh_unavailable : string.

Local Abbreviation Repository := (ViewRoot.Repository Item).
Local Abbreviation State := (ViewRoot.State Item).
Local Abbreviation getChildren := (@ViewRoot.getChildren Item texts auto_refresh_unavailable).
Local Abbreviation getSplattedChild :=
  (@ViewRoot.getSplattedChild Item texts auto_refresh_unavailable).
Local Abbreviation load := (@ViewRoot.load Item texts).

Lemma new_nodes_spec (at_ : nat) (splat : bool) (rs : list Repository) :
  let cs := ViewRoot.new_nodes at_ splat rs in
  map (@ViewRoot.repo Item) cs = rs /\
  map (@ViewRoot.address Item) cs = seq at_ (List.length rs) /\
  Forall (fun c => ViewRoot.splat c = splat) cs.
Proof.
  revert at_. induction rs as [| r rs IH]; intro at_; simpl.
  - repeat split. constructor.
  - destruct (IH (S at_)) as (H1 & H2 & H3). rewrite H1, H2.
    repeat split. now constructor.
Qed.

Lemma load_spec (repositories : Outcome (list Repository)) (s : State) :
  let r := load repositories s in
  match ViewRoot.children s with
  | Some cs => r = (Resolved (Some cs), s)
  | None =>
      ViewRoot.trace (snd r) = ViewRoot.trace s ++ [ViewRoot.GetOrderedRepositories] /\
      match repositories with
      | Rejected e => fst r = Rejected e /\ ViewRoot.children (snd r) = None
      | Resolved [] =>
          fst r = Resolved None /\ ViewRoot.children (snd r) = None /\
          ViewRoot.message (ViewRoot.view (snd r)) = Some (ViewRoot.none_found texts)
      | Resolved rs =>
          let cs := ViewRoot.new_nodes (ViewRoot.fresh s) (Nat.eqb (List.length rs) 1) rs in
          fst r = Resolved (Some cs) /\ ViewRoot.children (snd r) = Some cs /\
          ViewRoot.message (ViewRoot.view (snd r)) = None
      end
  end.
Proof.
  unfold ViewRoot.load. destruct (ViewRoot.children s) as [cs |] eqn:E; [reflexivity |].
  destruct repositories as [[| r rs] | e]; simpl; repeat split; exact E.
Qed.

(** What [getChildren] does to the state after [load]: it touches the
    view and the trace only. *)
Lemma getChildren_after_load (repositories : Outcome (list Repository)) (s : State) :
  ViewRoot.children (snd (getChildren repositories s))
  = ViewRoot.children (snd (load repositories s)) /\
  exists evs,
    ViewRoot.trace (snd (getChildren repositories s))
    = ViewRoot.trace (snd (load repositories s)) ++ evs /\
    ~ In ViewRoot.GetOrderedRepositories evs.
Proof.
  unfold ViewRoot.getChildren.
  destruct (load repositories s) as [[[[| child [| c2 cs]] |] | e] s1]; simpl;
    try (split; [reflexivity | exists []; split; [now rewrite app_nil_r | intros []]]).
  destruct (ViewRoot.supportsChangeEvents (ViewRoot.repo child));
    destruct (ViewRoot.items (ViewRoot.repo child)) as [[| i found] | e]; simpl;
    try destruct (ViewRoot.node_children (ViewRoot.repo child)) as [u | e]; simpl;
    (split; [reflexivity |]);
    eexists; (split; [rewrite <- ?app_assoc; reflexivity |]);
    simpl; intuition discriminate.
Qed.

End ViewRootFacts.

(** X12.  The root node of the branches, contributors or remotes view
    asks git for the repositories exactly when it holds no children.  It
    then keeps one repository node per repository, in the order of the
    repositories, each a new node, splatted exactly when the repository
    is the only one; when there is no repository, or the call fails, it
    keeps nothing, so that the next call asks again.  Children it holds
    are never replaced by [getChildren]. *)
Theorem root_children_follow_repositories :
  forall (Item : Type) (texts : ViewRoot.Texts) (auto_refresh_unavailable : string)
         (repositories : Outcome (list (ViewRoot.Repository Item)))
         (s : ViewRoot.State Item),
    let r := @ViewRoot.getChildren Item texts auto_refresh_unavailable repositories s in
    (exists evs,
        ViewRoot.trace (snd r) = ViewRoot.trace s ++ evs /\
        (In ViewRoot.GetOrderedRepositories evs <-> ViewRoot.children s = None)) /\
    (ViewRoot.children s = None ->
     match repositories with
     | Resolved (r1 :: rs) =>
         exists cs,
           ViewRoot.children (snd r) = Some cs /\
           map (@ViewRoot.repo Item) cs = r1 :: rs /\
           NoDup (map (@ViewRoot.address Item) cs) /\
           Forall (fun c => ViewRoot.splat c = Nat.eqb (List.length rs) 0) cs
     | _ => ViewRoot.children (snd r) = None
     end) /\
    (forall cs, ViewRoot.children s = Some cs -> ViewRoot.children (snd r) = Some cs).
Proof.
  intros Item texts aru repositories s r.
  destruct (getChildren_after_load texts aru repositories s) as (Hc & evs & Ht & Hno).
  pose proof (load_spec texts repositories s) as Hl. cbv zeta in Hl.
  fold r in Hc, Ht. split; [| split].
  - destruct (ViewRoot.children s) as [cs |] eqn:E.
    + rewrite Hl in Ht. simpl in Ht. exists evs. split; [exact Ht |].
      split; [intro H; contradiction | discriminate].
    + destruct Hl as [Hl _]. rewrite Hl, <- app_assoc in Ht.
      eexists. split; [exact Ht |]. split; [reflexivity | intros _; now left].
  - intro E. rewrite E in Hl. destruct Hl as [_ Hl]. rewrite Hc.
    destruct repositories as [[| r1 rs] | e].
    + now destruct Hl as (_ & H & _).
    + cbv zeta in Hl. destruct Hl as (_ & H & _).
      destruct (new_nodes_spec (ViewRoot.fresh s) (Nat.eqb (List.length (r1 :: rs)) 1)
                  (r1 :: rs)) as (H1 & H2 & H3).
      eexists. split; [exact H |]. split; [exact H1 |]. split.
      * rewrite H2. apply seq_NoDup.
      * exact H3.
    + now destruct Hl as (_ & H).
  - intros cs E. rewrite E in Hl. rewrite Hc, Hl. exact E.
Qed.

(** X13.  [getSplattedChild] of a root node that holds no children yet
    gives the repository node exactly when git knows one repository, and
    that node is splatted; with no repository, or several, it gives
    nothing.  When counting in the only repository fails, or
    [getChildren] of its node rejects, it rejects with that reason, but
    the node is kept: the next call gives it without asking git. *)
Theorem getSplattedChild_when_one_repository :
  forall (Item : Type) (texts : ViewRoot.Texts) (auto_refresh_unavailable : string)
         (rs : list (ViewRoot.Repository Item)) (s : ViewRoot.State Item),
    ViewRoot.children s = None ->
    let r := @ViewRoot.getSplattedChild Item texts auto_refresh_unavailable (Resolved rs) s in
    match rs with
    | [one] =>
        let child := {| ViewRoot.address := ViewRoot.fresh s; ViewRoot.repo := one;
                        ViewRoot.splat := true |} in
        let kept := forall again,
          @ViewRoot.getSplattedChild Item texts auto_refresh_unavailable again (snd r)
          = (Resolved (Some child), snd r) in
        ViewRoot.children (snd r) = Some [child] /\
        kept /\
        match ViewRoot.items one with
        | Resolved [] => fst r = Resolved (Some child)
        | Resolved (_ :: _) =>
            match ViewRoot.node_children one with
            | Resolved _ => fst r = Resolved (Some child)
            | Rejected e => fst r = Rejected e
            end
        | Rejected e => fst r = Rejected e
        end
    | _ => fst r = Resolved None
    end.
Proof.
  intros Item texts aru rs s E r. unfold r, ViewRoot.getSplattedChild. rewrite E.
  unfold ViewRoot.getChildren, ViewRoot.load. rewrite E.
  destruct rs as [| one [| two rs]]; simpl; rewrite ?E; [reflexivity | | reflexivity].
  destruct (ViewRoot.supportsChangeEvents one); simpl;
    destruct (ViewRoot.items one) as [[| i found] | e]; simpl;
    try destruct (ViewRoot.node_children one) as [u | e]; simpl;
    (split; [reflexivity | split; [intro again; reflexivity | reflexivity]]).
Qed.

(** A repository whose branches can be counted, but whose node fails to
    give its children: the call rejects, and the next one gives the
    node. *)
Lemma getSplattedChild_when_one_repository_witness :
  let r := @ViewRoot.getSplattedChild GitBranch.t ViewRoot.branches "!"%string
             (Resolved [Cases.only_repository]) Cases.unloaded_root in
  let failing := @ViewRoot.getSplattedChild GitBranch.t ViewRoot.branches "!"%string
                   (Resolved [Cases.failing_repository]) Cases.unloaded_root in
  let child := fun one => {| ViewRoot.address := 0; ViewRoot.repo := one;
                             ViewRoot.splat := true |} in
  fst r = Resolved (Some (child Cases.only_repository)) /\
  fst failing = Rejected "git failed" /\
  @ViewRoot.getSplattedChild GitBranch.t ViewRoot.branches "!"%string
    (Rejected "git failed") (snd failing)
  = (Resolved (Some (child Cases.failing_repository)), snd failing).
Proof.
  cbv zeta.
  pose proof (@getSplattedChild_when_one_repository GitBranch.t ViewRoot.branches
                "!"%string [Cases.only_repository] Cases.unloaded_root eq_refl) as Hok.
  pose proof (@getSplattedChild_when_one_repository GitBranch.t ViewRoot.branches
                "!"%string [Cases.failing_repository] Cases.unloaded_root eq_refl) as Hko.
  cbv zeta in Hok, Hko.
  split; [exact (proj2 (proj2 Hok)) |].
  split; [exact (proj2 (proj2 Hko)) |].
  exact (proj1 (proj2 Hko) (Rejected "git failed")).
Defined.

(* ===================================================================== *)
(** ** [RepositoriesView]: the auto refresh context *)
(* ===================================================================== *)

(** X14.  After each of the calls that change the auto refresh of the
    repositories view (the two commands and a change of the setting), the
    context key holds the value of the [autoRefresh] getter, and the
    change event has fired once.  If storing the choice fails, nothing is
    set and nothing fires.  A choice made by command while the setting is
    off is not stored. *)
Theorem autoRefresh_context_follows_getter :
  forall (update : Outcome unit) (c : RepositoriesViewAutoRefresh.Call)
         (s : RepositoriesViewAutoRefresh.t),
    let r := RepositoriesViewAutoRefresh.call update c s in
    (fst r = Resolved tt ->
     RepositoriesViewAutoRefresh.context (snd r)
     = Some (RepositoriesViewAutoRefresh.autoRefresh (snd r)) /\
     RepositoriesViewAutoRefresh.fired (snd r) = S (RepositoriesViewAutoRefresh.fired s)) /\
    (forall e, fst r = Rejected e -> snd r = s) /\
    (forall on, c = RepositoriesViewAutoRefresh.SetAutoRefreshTo on ->
                RepositoriesViewAutoRefresh.config_autoRefresh s = false ->
                RepositoriesViewAutoRefresh.workspaceState (snd r)
                = RepositoriesViewAutoRefresh.workspaceState s).
Proof.
  intros update c s r. unfold r, RepositoriesViewAutoRefresh.call,
    RepositoriesViewAutoRefresh.setAutoRefresh, RepositoriesViewAutoRefresh.autoRefresh,
    RepositoriesViewAutoRefresh.workspace_get.
  destruct c as [on | value]; simpl.
  - destruct (RepositoriesViewAutoRefresh.config_autoRefresh s) eqn:Hc; simpl;
      [destruct update as [[] | e]; simpl |];
      rewrite ?Hc; simpl; repeat split; intros; try discriminate; reflexivity.
  - destruct value; simpl; repeat split; intros; try discriminate; reflexivity.
Qed.

(* ===================================================================== *)
(** ** [GitHubRemote]: the lines of a url *)
(* ===================================================================== *)

Lemma take_digits_of_uint (d : Decimal.uint) (rest : string) :
  GitHubRemote.take_digits rest = (EmptyString, rest) ->
  GitHubRemote.take_digits (DecimalString.NilEmpty.string_of_uint d ++ rest)
  = (DecimalString.NilEmpty.string_of_uint d, rest).
Proof.
  intro H. induction d; simpl; try exact H;
    change (GitHubRemote.is_digit _) with true; cbv iota; now rewrite IHd.
Qed.

Lemma of_nat_not_empty (n : nat) : JsString.of_nat n <> EmptyString.
Proof.
  unfold JsString.of_nat. intro H.
  assert (E : Nat.to_uint n = Decimal.Nil) by (destruct (Nat.to_uint n); now inversion H).
  pose proof (DecimalNat.Unsigned.of_to n) as Hn. rewrite E in Hn. simpl in Hn.
  subst n. discriminate E.
Qed.

Lemma parseInt_of_nat (n : nat) : GitHubRemote.parseInt (JsString.of_nat n) = Some n.
Proof.
  pose proof (of_nat_not_empty n) as H. unfold GitHubRemote.parseInt.
  destruct (JsString.of_nat n) eqn:E; [contradiction |]. rewrite <- E.
  unfold JsString.of_nat. rewrite DecimalString.NilEmpty.usu. simpl.
  now rewrite DecimalNat.Unsigned.of_to.
Qed.

Lemma take_digits_of_nat (n : nat) (rest : string) :
  GitHubRemote.take_digits rest = (EmptyString, rest) ->
  GitHubRemote.take_digits (JsString.of_nat n ++ rest) = (JsString.of_nat n, rest).
Proof. apply take_digits_of_uint. Qed.

Lemma take_digits_all (n : nat) :
  GitHubRemote.take_digits (JsString.of_nat n) = (JsString.of_nat n, EmptyString).
Proof.
  rewrite <- (string_app_nil_r (JsString.of_nat n)) at 1.
  now apply take_digits_of_nat.
Qed.

Lemma of_nat_truthy (n : nat) :
  String.eqb (JsString.of_nat n) EmptyString = false /\
  truthy_string (JsString.of_nat n) = true.
Proof.
  unfold truthy_string.
  destruct (String.eqb_spec (JsString.of_nat n) EmptyString) as [E | _]; [| now split].
  now apply of_nat_not_empty in E.
Qed.

Lemma lines_of_one (a : nat) :
  GitHubRemote.lines_of ("L" ++ JsString.of_nat a) = (Some a, None).
Proof.
  destruct (of_nat_truthy a) as [Ha Ha'].
  assert (Hx : GitHubRemote.rangeRegex_exec (String "L" (JsString.of_nat a))
               = Some (JsString.of_nat a, None)).
  { unfold GitHubRemote.rangeRegex_exec. cbv beta iota.
    change (Ascii.eqb "L" "L") with true. cbv iota.
    now rewrite take_digits_all, Ha. }
  unfold GitHubRemote.lines_of. change ("L" ++ JsString.of_nat a)%string
    with (String "L" (JsString.of_nat a)).
  rewrite Hx. change (truthy_string (String "L" (JsString.of_nat a))) with true.
  cbv iota. now rewrite Ha', parseInt_of_nat.
Qed.

Lemma lines_of_two (a b : nat) :
  GitHubRemote.lines_of ("L" ++ JsString.of_nat a ++ "-L" ++ JsString.of_nat b)
  = (Some a, Some b).
Proof.
  destruct (of_nat_truthy a) as [Ha Ha']. destruct (of_nat_truthy b) as [Hb Hb'].
  assert (Hx : GitHubRemote.rangeRegex_exec
                 (String "L" (JsString.of_nat a ++ String "-" (String "L" (JsString.of_nat b))))
               = Some (JsString.of_nat a, Some (JsString.of_nat b))).
  { unfold GitHubRemote.rangeRegex_exec. cbv beta iota.
    change (Ascii.eqb "L" "L") with true. cbv iota.
    rewrite take_digits_of_nat by reflexivity. rewrite Ha.
    change (Ascii.eqb "-" "-") with true. cbv iota. simpl andb. cbv iota.
    now rewrite take_digits_all, Hb. }
  unfold GitHubRemote.lines_of.
  change ("L" ++ JsString.of_nat a ++ "-L" ++ JsString.of_nat b)%string
    with (String "L" (JsString.of_nat a ++ String "-" (String "L" (JsString.of_nat b)))).
  rewrite Hx.
  change (truthy_string (String "L" ?x)) with true.
  cbv iota. now rewrite Ha', Hb', !parseInt_of_nat.
Qed.

(** X15.  The line suffix that [getUrlForFile] puts after the file is a
    hash and a fragment which [getLocalInfoFromRemoteUri] reads back as
    the lines of the range: the start line alone when the range is on one
    line, the start and the end line otherwise (for line numbers that
    JavaScript prints in full, below 2^53). *)
Theorem github_line_range_round_trip :
  forall (r : GitHubRemote.t) (fileName : string) (branch sha : option string)
         (range : GitHubRemote.Range),
    (Z.of_nat (GitHubRemote.start_line range) < 2 ^ 53)%Z ->
    (Z.of_nat (GitHubRemote.end_line range) < 2 ^ 53)%Z ->
    exists head fragment,
      GitHubRemote.getUrlForFile r fileName branch sha (Some range)
      = (head ++ String "#" fragment)%string /\
      GitHubRemote.lines_of fragment
      = (Some (GitHubRemote.start_line range),
         if Nat.eqb (GitHubRemote.start_line range) (GitHubRemote.end_line range)
         then None else Some (GitHubRemote.end_line range)).
Proof.
  intros r fileName branch sha [a b] _ _.
  cbn [GitHubRemote.start_line GitHubRemote.end_line].
  assert (Hline : exists fragment,
             GitHubRemote.line_suffix (Some {| GitHubRemote.start_line := a;
                                               GitHubRemote.end_line := b |})
             = String "#" fragment /\
             GitHubRemote.lines_of fragment
             = (Some a, if Nat.eqb a b then None else Some b)).
  { unfold GitHubRemote.line_suffix. cbn [GitHubRemote.start_line GitHubRemote.end_line].
    destruct (Nat.eqb a b).
    - eexists. split; [reflexivity | apply lines_of_one].
    - eexists. split; [reflexivity | apply lines_of_two]. }
  destruct Hline as (fragment & Hs & Hl).
  unfold GitHubRemote.getUrlForFile. cbv zeta. rewrite Hs.
  destruct (truthy_opt_string sha); [| destruct (truthy_opt_string branch)].
  - exists (GitHubRemote.baseUrl r ++ "/blob/" ++ GitHubRemote.given sha ++ "/"
              ++ fileName)%string, fragment.
    split; [| exact Hl]. now rewrite !string_app_assoc.
  - exists (GitHubRemote.baseUrl r ++ "/blob/" ++ GitHubRemote.given branch ++ "/"
              ++ fileName)%string, fragment.
    split; [| exact Hl]. now rewrite !string_app_assoc.
  - exists (GitHubRemote.baseUrl r ++ "?path=" ++ fileName)%string, fragment.
    split; [| exact Hl]. now rewrite !string_app_assoc.
Qed.

Lemma github_line_range_round_trip_witness :
  GitHubRemote.lines_of "L10-L20" = (Some 10, Some 20) /\
  exists head fragment,
    GitHubRemote.getUrlForFile Cases.github "src/a.ts" (Some "main"%string) None
      (Some {| GitHubRemote.start_line := 10; GitHubRemote.end_line := 20 |})
    = (head ++ String "#" fragment)%string /\
    GitHubRemote.lines_of fragment = (Some 10, Some 20).
Proof.
  split; [vm_compute; reflexivity |].
  refine (github_line_range_round_trip Cases.github "src/a.ts" (Some "main"%string) None
            {| GitHubRemote.start_line := 10; GitHubRemote.end_line := 20 |} _ _);
    reflexivity.
Defined.

(* ===================================================================== *)
(** ** [GitHubRemote]: from a url to a file of the repository *)
(* ===================================================================== *)

Lemma last_index_upto_spec (c : ascii) (s : string) :
  forall (i upto : nat) (found : Z),
    let j := JsString.last_index_upto c s i upto found in
    (forall k, i + k <= upto -> String.get k s = Some c -> (Z.of_nat (i + k) <= j)%Z) /\
    (j = found \/
     exists k, j = Z.of_nat (i + k) /\ String.get k s = Some c /\ i + k <= upto).
Proof.
  induction s as [| a s IH]; intros i upto found; simpl.
  - split; [intros k _ H; discriminate H | now left].
  - destruct (Nat.leb_spec i upto) as [Hle | Hgt].
    + destruct (IH (S i) upto (if Ascii.eqb a c then Z.of_nat i else found)) as [H1 H2].
      split.
      * intros [| k] Hk Hg.
        -- injection Hg as ->. rewrite Ascii.eqb_refl in H2 |- *.
           destruct H2 as [-> | (k & -> & _ & _)]; lia.
        -- replace (i + S k) with (S i + k) by lia. apply H1; [lia | exact Hg].
      * destruct H2 as [E | (k & E & Hg & Hk)].
        -- rewrite E. destruct (Ascii.eqb_spec a c) as [-> | _]; [| now left].
           right. exists 0. rewrite Nat.add_0_r. repeat split. lia.
        -- right. exists (S k). replace (i + S k) with (S i + k) by lia.
           repeat split; [exact E | exact Hg | lia].
    + split; [intros k Hk; lia | now left].
Qed.

Lemma lastIndexOf_spec (c : ascii) (s : string) (from : Z) :
  let j := JsString.lastIndexOf c s from in
  (forall k, (Z.of_nat k <= from)%Z -> String.get k s = Some c -> (Z.of_nat k <= j)%Z) /\
  (j = (-1)%Z \/
   exists k, j = Z.of_nat k /\ String.get k s = Some c /\ (Z.of_nat k <= Z.max from 0)%Z).
Proof.
  unfold JsString.lastIndexOf.
  destruct (last_index_upto_spec c s 0 (JsString.clamp s from) (-1)) as [H1 H2].
  split.
  - intros k Hk Hg. apply (H1 k); [| exact Hg].
    assert (Hlen : k < String.length s).
    { clear - Hg. revert k Hg. induction s as [| a s IH]; intros [| k] Hg;
        simpl in *; try discriminate; [lia |]. apply IH in Hg. lia. }
    unfold JsString.clamp, JsString.length. lia.
  - destruct H2 as [E | (k & E & Hg & Hk)]; [now left |].
    right. exists k. repeat split; [exact E | exact Hg |].
    unfold JsString.clamp, JsString.length in Hk. lia.
Qed.

(** The loop returns: its index goes down at every turn. *)
Lemma search_returns (toAbsoluteUri : string -> option bool -> option string)
      (branches : list string) (validate : option bool) (path : string) :
  forall (fuel : nat) (index : Z),
    (Z.max index 0 < Z.of_nat fuel)%Z ->
    GitHubRemote.search toAbsoluteUri fuel branches validate path index <> None.
Proof.
  induction fuel as [| fuel IH]; intros index Hf; [lia |].
  simpl. destruct (GitHubRemote.candidate _ _ _ _ _); [discriminate |].
  destruct (lastIndexOf_spec JsString.slash path (index - 1)) as [_ H2].
  destruct (Z.gtb_spec (JsString.lastIndexOf JsString.slash path (index - 1)) 0)
    as [Hpos | _]; [| discriminate].
  apply IH. destruct H2 as [E | (k & E & _ & Hk)]; lia.
Qed.

Lemma get_split (c : ascii) (s : string) (k : nat) :
  String.get k s = Some c ->
  exists p q, s = (p ++ String c q)%string /\ String.length p = k.
Proof.
  revert k. induction s as [| a s IH]; intros [| k] H; simpl in H; try discriminate.
  - injection H as ->. now exists EmptyString, s.
  - destruct (IH k H) as (p & q & -> & Hp). exists (String a p), q. simpl. now rewrite Hp.
Qed.

Lemma get_at_split (c : ascii) (p q : string) :
  String.get (String.length p) (p ++ String c q) = Some c.
Proof. induction p as [| a p IH]; simpl; [reflexivity | exact IH]. Qed.

Lemma substring_skip (p q : string) (n : nat) :
  String.substring (String.length p) n (p ++ q) = String.substring 0 n q.
Proof. induction p as [| a p IH]; simpl; [reflexivity | exact IH]. Qed.

(** The candidate at the slash that ends [b]. *)
Lemma candidate_at_split (toAbsoluteUri : string -> option bool -> option string)
      (branches : list string) (validate : option bool) (a : ascii) (b f : string) :
  GitHubRemote.candidate toAbsoluteUri branches validate
    (String a (b ++ String JsString.slash f)) (Z.of_nat (S (String.length b)))
  = if includes b branches then toAbsoluteUri (String JsString.slash f) validate else None.
Proof.
  unfold GitHubRemote.candidate.
  assert (Hlen : String.length (String a (b ++ String JsString.slash f))
                 = S (String.length b + S (String.length f))).
  { simpl. now rewrite string_length_app. }
  assert (Hb : JsString.substring (String a (b ++ String JsString.slash f)) 1
                 (Z.of_nat (S (String.length b))) = b).
  { unfold JsString.substring.
    rewrite (clamp_inside _ (k := S (String.length b))) by lia.
    change 1%Z with (Z.of_nat 1). rewrite clamp_inside by lia.
    replace (Nat.min 1 (S (String.length b))) with 1 by lia.
    replace (Nat.max 1 (S (String.length b)) - 1) with (String.length b) by lia.
    simpl. apply substring_before. }
  assert (Hf : JsString.substr (String a (b ++ String JsString.slash f))
                 (Z.of_nat (S (String.length b))) = String JsString.slash f).
  { unfold JsString.substr.
    destruct (Z.ltb_spec (Z.of_nat (S (String.length b))) 0); [lia |].
    rewrite clamp_inside by lia. rewrite Hlen.
    replace (S (String.length b + S (String.length f)) - S (String.length b))
      with (String.length (String JsString.slash f)) by (simpl; lia).
    change (String.substring (S (String.length b)) ?n (String a ?r))
      with (String.substring (String.length b) n r).
    rewrite substring_skip. apply substring_all. }
  now rewrite Hb, Hf.
Qed.

Lemma search_finds_longest (toAbsoluteUri : string -> option bool -> option string)
      (branches : list string) (validate : option bool) (b f u : string) :
  let path := String JsString.slash (b ++ String JsString.slash f) in
  includes b branches = true ->
  toAbsoluteUri (String JsString.slash f) validate = Some u ->
  (forall b' f',
      path = String JsString.slash (b' ++ String JsString.slash f') ->
      String.length b < String.length b' ->
      includes b' branches = true ->
      toAbsoluteUri (String JsString.slash f') validate = None) ->
  forall (fuel : nat) (index : Z),
    (Z.of_nat (S (String.length b)) < index)%Z ->
    (index < Z.of_nat fuel)%Z ->
    GitHubRemote.search toAbsoluteUri fuel branches validate path index = Some (Some u).
Proof.
  intros path Hb Hu Hmax.
  assert (Hhere : String.get (S (String.length b)) path = Some JsString.slash).
  { unfold path. simpl. apply get_at_split. }
  induction fuel as [| fuel IH]; intros index Hlo Hhi; [lia |].
  simpl.
  destruct (lastIndexOf_spec JsString.slash path (index - 1)) as [H1 H2].
  specialize (H1 (S (String.length b)) ltac:(lia) Hhere).
  destruct H2 as [E | (k & E & Hg & Hk)]; [lia |].
  rewrite E in *.
  destruct (Nat.eq_dec k (S (String.length b))) as [-> | Hne].
  - unfold path. rewrite candidate_at_split, Hb, Hu. reflexivity.
  - assert (Hk' : S (String.length b) < k) by lia.
    destruct k as [| k']; [lia |].
    unfold path in Hg. simpl in Hg.
    destruct (get_split _ _ Hg) as (b' & f' & Hsplit & Hlen).
    assert (Hnone : GitHubRemote.candidate toAbsoluteUri branches validate path
                      (Z.of_nat (S k')) = None).
    { unfold path. rewrite Hsplit, <- Hlen, candidate_at_split.
      destruct (includes b' branches) eqn:Hin; [| reflexivity].
      apply (Hmax b' f'); [unfold path; now rewrite Hsplit | lia | exact Hin]. }
    rewrite Hnone.
    destruct (Z.gtb_spec (Z.of_nat (S k')) 0); [| lia].
    apply IH; lia.
Qed.

(** X16.  The loop of [getLocalInfoFromRemoteUri] over the slashes of
    the path ends, so the method settles; it asks the repository for its
    branches at most once, and not at all for a uri of another domain or
    a path that is not a blob path; and what it finds carries the lines
    read from the fragment. *)
Theorem github_lookup_settles :
  forall (isSha : string -> bool)
         (toAbsoluteUri : string -> option bool -> option string)
         (r : GitHubRemote.t) (remote_branches : Outcome (list string))
         (uri : GitHubRemote.Uri) (validate : option bool),
    let res := GitHubRemote.getLocalInfoFromRemoteUri isSha toAbsoluteUri r
                 remote_branches uri validate in
    fst res <> None /\
    (snd res = [] \/ snd res = [GitHubRemote.GetBranches]) /\
    (String.eqb (GitHubRemote.authority uri) (GitHubRemote.domain r) = false
     \/ GitHubRemote.fileRegex_exec (GitHubRemote.uri_path uri) = None ->
     res = (Some (Resolved None), [])) /\
    (forall info, fst res = Some (Resolved (Some info)) ->
                  (GitHubRemote.startLine info, GitHubRemote.endLine info)
                  = GitHubRemote.lines_of (GitHubRemote.fragment uri)) /\
    (forall e, remote_branches = Rejected e -> In GitHubRemote.GetBranches (snd res) ->
               fst res = Some (Rejected e)).
Proof.
  intros isSha toAbsoluteUri r remote_branches uri validate res.
  unfold res, GitHubRemote.getLocalInfoFromRemoteUri.
  destruct (String.eqb (GitHubRemote.authority uri) (GitHubRemote.domain r)) eqn:Ha;
    simpl negb; cbv iota.
  2:{ repeat split; try discriminate; try (now left); try (intros; contradiction). }
  destruct (_ && negb _).
  { repeat split; try discriminate; try (now left); try (intros; contradiction). }
  destruct (GitHubRemote.lines_of (GitHubRemote.fragment uri)) as [startLine endLine].
  destruct (GitHubRemote.fileRegex_exec (GitHubRemote.uri_path uri)) as [path |].
  2:{ repeat split; try discriminate; try (now left); try (intros; contradiction). }
  destruct (GitHubRemote.permalink isSha toAbsoluteUri validate path) as [u |].
  { repeat split; try discriminate; try (now left); try (intros; contradiction).
    - intros [H | H]; discriminate H.
    - intros info [= <-]. reflexivity. }
  destruct remote_branches as [names | e].
  - pose proof (@search_returns toAbsoluteUri names validate path
                  (S (String.length path)) (JsString.length path)) as Hs.
    destruct (GitHubRemote.search toAbsoluteUri (S (String.length path)) names validate
                path (JsString.length path)) as [[u |] |]; simpl.
    + repeat split; try discriminate; try (now right).
      * intros [H | H]; discriminate H.
      * intros info [= <-]. reflexivity.
    + repeat split; try discriminate; try (now right).
      intros [H | H]; discriminate H.
    + exfalso. apply Hs; [unfold JsString.length; lia | reflexivity].
  - simpl. repeat split; try discriminate; try (now right).
    + intros [H | H]; discriminate H.
    + intros e0 [= <-] _. reflexivity.
Qed.

(** X17.  A url of a file on a branch whose name holds slashes: when the
    path after [blob] splits into a remote branch [b] and a file that the
    repository knows, and no split with a longer branch does, then
    [getLocalInfoFromRemoteUri] gives that file, with the lines of the
    fragment, after asking for the branches once. *)
Theorem github_longest_branch_wins :
  forall (isSha : string -> bool)
         (toAbsoluteUri : string -> option bool -> option string)
         (r : GitHubRemote.t) (names : list string)
         (uri : GitHubRemote.Uri) (validate : option bool) (b f u : string),
    let path := String JsString.slash (b ++ String JsString.slash f) in
    String.eqb (GitHubRemote.authority uri) (GitHubRemote.domain r) = true ->
    startsWith (GitHubRemote.uri_path uri) ("/" ++ GitHubRemote.path r ++ "/") = true ->
    GitHubRemote.fileRegex_exec (GitHubRemote.uri_path uri) = Some path ->
    GitHubRemote.permalink isSha toAbsoluteUri validate path = None ->
    includes b names = true ->
    toAbsoluteUri (String JsString.slash f) validate = Some u ->
    (forall b' f',
        path = String JsString.slash (b' ++ String JsString.slash f') ->
        String.length b < String.length b' ->
        includes b' names = true ->
        toAbsoluteUri (String JsString.slash f') validate = None) ->
    GitHubRemote.getLocalInfoFromRemoteUri isSha toAbsoluteUri r (Resolved names)
      uri validate
    = (Some (Resolved
               (Some {| GitHubRemote.info_uri := u;
                        GitHubRemote.startLine :=
                          fst (GitHubRemote.lines_of (GitHubRemote.fragment uri));
                        GitHubRemote.endLine :=
                          snd (GitHubRemote.lines_of (GitHubRemote.fragment uri)) |})),
       [GitHubRemote.GetBranches]).
Proof.
  intros isSha toAbsoluteUri r names uri validate b f u path Ha Hp Hx Hperm Hb Hu Hmax.
  unfold GitHubRemote.getLocalInfoFromRemoteUri. rewrite Ha, Hp. simpl negb.
  rewrite andb_false_r. cbv iota.
  destruct (GitHubRemote.lines_of (GitHubRemote.fragment uri)) as [startLine endLine].
  rewrite Hx, Hperm. subst path.
  rewrite (@search_finds_longest toAbsoluteUri names validate b f u Hb Hu Hmax).
  - reflexivity.
  - unfold JsString.length. simpl. rewrite string_length_app. simpl. lia.
  - unfold JsString.length. lia.
Qed.

(** The file [src/a.ts] on the branch [feature/x], lines 10 to 20. *)
Lemma github_longest_branch_wins_witness :
  GitHubRemote.getLocalInfoFromRemoteUri (fun _ => false) (fun p _ => Some p)
    Cases.github (Resolved ["feature"; "feature/x"]%string) Cases.github_url None
  = (Some (Resolved (Some {| GitHubRemote.info_uri := "/src/a.ts";
                             GitHubRemote.startLine := Some 10;
                             GitHubRemote.endLine := Some 20 |})),
     [GitHubRemote.GetBranches]).
Proof.
  refine (@github_longest_branch_wins (fun _ => false) (fun p _ => Some p)
            Cases.github ["feature"; "feature/x"]%string Cases.github_url None
            "feature/x"%string "src/a.ts"%string "/src/a.ts"%string
            eq_refl eq_refl eq_refl eq_refl eq_refl eq_refl _).
  intros b' f' _ Hlen Hin. apply includes_In in Hin.
  destruct Hin as [<- | [<- | []]]; simpl in Hlen; lia.
Defined.

(* ===================================================================== *)
(** ** The tracker nodes: what the result of [refresh] tells *)
(* ===================================================================== *)

Section TrackerFacts.

Variable Selection : Type.
Variable isEqual : Selection -> Selection -> bool.
Variable unknownGitUri : HistoryTracker.Uri.

Local Abbreviation node := (HistoryTracker.t Selection).

Lemma reset_to_spec (u : option HistoryTracker.Uri) (between : node -> node) (n : node) :
  (forall x, HistoryTracker._child (between x) = HistoryTracker._child x) ->
  let r := HistoryTracker.reset_to u between n in
  HistoryTracker._child (fst r) = None /\
  (forall c, In (HistoryTracker.DisposeChild c) (snd r) <-> HistoryTracker._child n = Some c).
Proof.
  intro Hb. unfold HistoryTracker.reset_to, HistoryTracker.setUri, HistoryTracker.resetChild.
  rewrite Hb. simpl.
  destruct (HistoryTracker._child n) as [c |] eqn:E; simpl.
  - split; [reflexivity |]. intro c'. split.
    + intros [H | [H | []]]; [discriminate | now injection H as ->].
    + intros [= ->]. right. now left.
  - split; [now rewrite Hb |].
    intro c'. split; [intros [H | []]; discriminate | discriminate].
Qed.

(** How a [refresh] starts: as the node is, or reset. *)
Lemma start_spec (reset : bool) (between : node -> node) (n : node) :
  (forall x, HistoryTracker._child (between x) = HistoryTracker._child x) ->
  let r := if reset then HistoryTracker.reset_to None between n else (n, []) in
  (reset = false /\ r = (n, [])) \/
  (reset = true /\ HistoryTracker._child (fst r) = None /\
   forall c, In (HistoryTracker.DisposeChild c) (snd r) <-> HistoryTracker._child n = Some c).
Proof.
  intro Hb. destruct reset; [right | left; now split].
  split; [reflexivity |]. now apply reset_to_spec.
Qed.

Lemma tells_kept (reset : bool) (n n0 : node) (fx0 : list HistoryTracker.Effect)
      (o : Outcome bool) :
  (reset = false /\ (n0, fx0) = (n, [])) \/
  (reset = true /\ HistoryTracker._child n0 = None /\
   forall c, In (HistoryTracker.DisposeChild c) fx0 <-> HistoryTracker._child n = Some c) ->
  o <> Resolved false ->
  HistoryTracker.refresh_tells reset n (o, n0, fx0).
Proof.
  intros [[-> E] | (-> & Hc & Hd)] Ho; unfold HistoryTracker.refresh_tells.
  - injection E as -> ->. split; [intro; contradiction |]. split; [now split |].
    intro c. split; [intros [] | intros [H1 H2]; congruence].
  - split; [intro; contradiction |]. split; [discriminate |].
    intro c. rewrite Hd. split; [now split | now intros [H _]].
Qed.

Lemma tells_reset (reset : bool) (n n0 : node) (fx0 : list HistoryTracker.Effect)
      (u : option HistoryTracker.Uri) (between : node -> node) :
  (forall x, HistoryTracker._child (between x) = HistoryTracker._child x) ->
  (reset = false /\ (n0, fx0) = (n, [])) \/
  (reset = true /\ HistoryTracker._child n0 = None /\
   forall c, In (HistoryTracker.DisposeChild c) fx0 <-> HistoryTracker._child n = Some c) ->
  HistoryTracker.refresh_tells reset n
    (Resolved false, fst (HistoryTracker.reset_to u between n0),
     fx0 ++ snd (HistoryTracker.reset_to u between n0)).
Proof.
  intros Hb Hstart. destruct (reset_to_spec u between n0 Hb) as [Hn Hd].
  unfold HistoryTracker.refresh_tells.
  split; [intros _; exact Hn |]. split; [intros _ H; now contradiction H |].
  intro c. rewrite in_app_iff, Hd, Hn.
  destruct Hstart as [[-> E] | (-> & Hc & Hd0)].
  - injection E as -> ->. simpl. intuition congruence.
  - rewrite Hd0, Hc. intuition congruence.
Qed.

End TrackerFacts.


(** X18.  [refresh] of the file history and line history tracker nodes
    returns [false] only when it has dropped the child; without [reset],
    when it returns [true] or fails it has left the node as it was and
    done nothing; and it disposes the child exactly when there was one and
    it dropped it. *)
Theorem tracker_refresh_disposes_what_it_drops :
  forall (Selection : Type) (isEqual : Selection -> Selection -> bool)
         (unknownGitUri : HistoryTracker.Uri)
         (env : HistoryTracker.Env Selection) (reset : bool)
         (n : HistoryTracker.t Selection),
    HistoryTracker.refresh_tells reset n
      (HistoryTracker.FileHistory_refresh unknownGitUri env reset n) /\
    HistoryTracker.refresh_tells reset n
      (HistoryTracker.LineHistory_refresh isEqual unknownGitUri env reset n).
Proof.
  intros Selection isEqual unknownGitUri env reset n.
  assert (Hid : forall x : HistoryTracker.t Selection,
             HistoryTracker._child ((fun y => y) x) = HistoryTracker._child x)
    by reflexivity.
  assert (Hforget : forall x : HistoryTracker.t Selection,
             HistoryTracker._child (HistoryTracker.forget_selection x)
             = HistoryTracker._child x) by reflexivity.
  assert (Hremember : forall (e : HistoryTracker.TextEditor Selection) x,
             HistoryTracker._child (HistoryTracker.remember_selection e x)
             = HistoryTracker._child x) by reflexivity.
  split.
  - unfold HistoryTracker.FileHistory_refresh.
    pose proof (@start_spec Selection reset (fun y => y) n Hid) as Hstart.
    cbv zeta in Hstart.
    destruct (if reset then HistoryTracker.reset_to None (fun y => y) n else (n, []))
      as [n0 fx0].
    simpl fst in Hstart; simpl snd in Hstart.
    repeat match goal with
           | |- HistoryTracker.refresh_tells _ _ (let (_, _) := ?r in _) =>
               rewrite (surjective_pairing r)
           | |- HistoryTracker.refresh_tells _ _ (Resolved false, _, _) =>
               now apply tells_reset
           | |- HistoryTracker.refresh_tells _ _ (_, n0, fx0) =>
               apply tells_kept; [exact Hstart | discriminate]
           | |- HistoryTracker.refresh_tells _ _ (match ?x with _ => _ end) =>
               destruct x
           end.
  - unfold HistoryTracker.LineHistory_refresh.
    pose proof (@start_spec Selection reset (@HistoryTracker.forget_selection Selection)
                  n Hforget) as Hstart.
    cbv zeta in Hstart.
    destruct (if reset then HistoryTracker.reset_to None
                              (@HistoryTracker.forget_selection Selection) n
              else (n, [])) as [n0 fx0].
    simpl fst in Hstart; simpl snd in Hstart.
    cbv zeta.
    repeat match goal with
           | |- HistoryTracker.refresh_tells _ _ (let (_, _) := ?r in _) =>
               rewrite (surjective_pairing r)
           | |- HistoryTracker.refresh_tells _ _ (Resolved false, _, _) =>
               now apply tells_reset
           | |- HistoryTracker.refresh_tells _ _ (_, n0, fx0) =>
               apply tells_kept; [exact Hstart | discriminate]
           | |- HistoryTracker.refresh_tells _ _ (match ?x with _ => _ end) =>
               destruct x
           end.
Qed.


Section TrackerSettles.

Variable Selection : Type.
Variable isEqual : Selection -> Selection -> bool.
Variable unknownGitUri : HistoryTracker.Uri.

Local Abbreviation node := (HistoryTracker.t Selection).

Lemma reset_to_uri (u : option HistoryTracker.Uri) (between : node -> node) (n : node) :
  (forall x, HistoryTracker._uri (between x) = HistoryTracker._uri x) ->
  HistoryTracker._uri (fst (HistoryTracker.reset_to u between n)) = u.
Proof.
  intro Hb. unfold HistoryTracker.reset_to, HistoryTracker.setUri, HistoryTracker.resetChild.
  destruct (HistoryTracker._child (between _)); simpl; now rewrite Hb.
Qed.

Lemma reset_to_selection (u : option HistoryTracker.Uri) (between : node -> node)
      (n : node) (s : option Selection) :
  (forall x, HistoryTracker._selection (between x) = s) ->
  HistoryTracker._selection (fst (HistoryTracker.reset_to u between n)) = s.
Proof.
  intro Hb. unfold HistoryTracker.reset_to, HistoryTracker.setUri, HistoryTracker.resetChild.
  destruct (HistoryTracker._child (between _)); simpl; now rewrite Hb.
Qed.

(** With no editor to track, a node without a uri is left alone. *)
Lemma refresh_without_uri (env : HistoryTracker.Env Selection) (n : node) :
  HistoryTracker.trackable_editor env = None ->
  HistoryTracker._uri n = None ->
  HistoryTracker.FileHistory_refresh unknownGitUri env false n = (Resolved true, n, []) /\
  HistoryTracker.LineHistory_refresh isEqual unknownGitUri env false n
  = (Resolved true, n, []).
Proof.
  intros Et Hu.
  unfold HistoryTracker.FileHistory_refresh, HistoryTracker.LineHistory_refresh.
  rewrite Et. unfold HistoryTracker.still_shown, HistoryTracker.hasUri.
  rewrite Hu. now split.
Qed.

End TrackerSettles.


(** X19.  A [refresh] that returned [false] has brought the node up to
    date: in the same window the next [refresh] returns [true], keeps the
    node and does nothing.  This rests on [isEqual] and
    [UriComparer.equals] holding of a value and itself, and on a [GitUri]
    made from a uri being equal to that uri. *)
Theorem tracker_refresh_settles :
  forall (Selection : Type) (isEqual : Selection -> Selection -> bool)
         (unknownGitUri : HistoryTracker.Uri)
         (env : HistoryTracker.Env Selection) (reset : bool)
         (n : HistoryTracker.t Selection),
    (forall s, isEqual s s = true) ->
    (forall u, HistoryTracker.equals env u u = true) ->
    (forall w g, HistoryTracker.fromUri env w = Resolved g ->
                 HistoryTracker.equals env w g = true) ->
    (forall n' fx,
        HistoryTracker.FileHistory_refresh unknownGitUri env reset n
        = (Resolved false, n', fx) ->
        HistoryTracker.FileHistory_refresh unknownGitUri env false n'
        = (Resolved true, n', [])) /\
    (forall n' fx,
        HistoryTracker.LineHistory_refresh isEqual unknownGitUri env reset n
        = (Resolved false, n', fx) ->
        HistoryTracker.LineHistory_refresh isEqual unknownGitUri env false n'
        = (Resolved true, n', [])).
Proof.
  intros Selection isEqual unknownGitUri env reset n Hsel Heq Hfrom.
  split; intros n' fx.
  - unfold HistoryTracker.FileHistory_refresh at 1.
    destruct (if reset then HistoryTracker.reset_to None (fun y => y) n else (n, []))
      as [n0 fx0].
    destruct (HistoryTracker.trackable_editor env) as [editor |] eqn:Et.
    + destruct (String.eqb _ _); [discriminate |].
      destruct (HistoryTracker.fromUri env (HistoryTracker.document_uri editor))
        as [gitUri | e] eqn:Eg; [| discriminate].
      destruct (match HistoryTracker.sha gitUri with
                | Some _ => HistoryTracker.getWorkingUri env gitUri
                | None => Resolved None
                end) as [u | e] eqn:Ew; [| discriminate].
      destruct (_ && _); [discriminate |].
      destruct (match u with
                | Some w => HistoryTracker.fromUri env w
                | None => Resolved gitUri
                end) as [gitUri' | e] eqn:Eg'; [| discriminate].
      rewrite (surjective_pairing (HistoryTracker.reset_to _ _ _)).
      intros [= <- _].
      pose proof (@reset_to_uri Selection (Some gitUri') (fun y => y) n0
                    (fun x => eq_refl)) as Hu.
      unfold HistoryTracker.FileHistory_refresh. rewrite Et.
      unfold HistoryTracker.hasUri, HistoryTracker.uri. rewrite Hu.
      destruct (String.eqb _ _); [reflexivity |].
      rewrite Eg, Ew. simpl is_some. cbv zeta.
      destruct u as [w |].
      * now rewrite (Hfrom w gitUri' Eg').
      * injection Eg' as <-. now rewrite Heq.
    + destruct (HistoryTracker.still_shown _ env n0); [discriminate |].
      rewrite (surjective_pairing (HistoryTracker.reset_to _ _ _)).
      intros [= <- _].
      apply (@refresh_without_uri Selection isEqual unknownGitUri env _ Et).
      now apply reset_to_uri.
  - unfold HistoryTracker.LineHistory_refresh at 1.
    destruct (if reset then HistoryTracker.reset_to None
                              (@HistoryTracker.forget_selection Selection) n
              else (n, [])) as [n0 fx0].
    cbv zeta.
    destruct (HistoryTracker.trackable_editor env) as [editor |] eqn:Et.
    + destruct (_ && _); [discriminate |].
      destruct (HistoryTracker.fromUri env (HistoryTracker.document_uri editor))
        as [gitUri | e] eqn:Eg; [| discriminate].
      destruct (_ && _); [discriminate |].
      rewrite (surjective_pairing (HistoryTracker.reset_to _ _ _)).
      intros [= <- _].
      pose proof (@reset_to_uri Selection (Some gitUri)
                    (HistoryTracker.remember_selection editor) n0
                    (fun x => eq_refl)) as Hu.
      pose proof (@reset_to_selection Selection (Some gitUri)
                    (HistoryTracker.remember_selection editor) n0
                    (Some (HistoryTracker.selection editor))
                    (fun x => eq_refl)) as Hs.
      unfold HistoryTracker.LineHistory_refresh. rewrite Et.
      unfold HistoryTracker.hasUri, HistoryTracker.uri. rewrite Hu, Hs. cbv zeta.
      rewrite Hsel, andb_true_r.
      destruct (String.eqb _ _); [reflexivity |].
      rewrite Eg, Heq. reflexivity.
    + destruct (HistoryTracker.still_shown _ env n0); [discriminate |].
      rewrite (surjective_pairing (HistoryTracker.reset_to _ _ _)).
      intros [= <- _].
      apply (@refresh_without_uri Selection isEqual unknownGitUri env _ Et).
      now apply reset_to_uri.
Qed.


(** The file history tracker, idle with a child, in a window whose editor
    shows [/repo/a.ts]: the first [refresh] disposes the child and follows
    the file, the second does nothing. *)
Lemma tracker_refresh_settles_witness :
  HistoryTracker.FileHistory_refresh Cases.unknown_uri Cases.window false
    Cases.idle_tracker
  = (Resolved false, Cases.following_tracker,
     [HistoryTracker.SetContextCanPin true; HistoryTracker.DisposeChild 7]) /\
  HistoryTracker.FileHistory_refresh Cases.unknown_uri Cases.window false
    Cases.following_tracker
  = (Resolved true, Cases.following_tracker, []).
Proof.
  split; [reflexivity |].
  refine (proj1 (@tracker_refresh_settles nat Nat.eqb Cases.unknown_uri Cases.window
                   false Cases.idle_tracker _ _ _) _ _ eq_refl).
  - intro s. apply Nat.eqb_refl.
  - intro u. apply String.eqb_refl.
  - intros w g [= <-]. apply String.eqb_refl.
Defined.


(* ===================================================================== *)
(** ** The commands that copy to the clipboard *)
(* ===================================================================== *)

Ltac run_command :=
  unfold CopyToClipboard.CopyMessage_execute, CopyToClipboard.CopySha_execute,
    CopyToClipboard.try_catch, CopyToClipboard.blame, CopyToClipboard.write,
    CopyToClipboard.call, CopyToClipboard.report, CopyToClipboard.first_commit,
    bind, ret;
  cbv zeta.

Ltac split_cases :=
  repeat match goal with
         | |- context [match ?x with _ => _ end] =>
             match x with
             | context [match _ with _ => _ end] => fail 1
             | _ => destruct x eqn:?
             end
         end.

Ltac use_equations H :=
  repeat match goal with
         | E : ?l = _ |- _ =>
             tryif constr_eq E H then fail
             else match type of H with context [l] => rewrite E in H end
         end.

Ltac use_equations_here :=
  repeat match goal with
         | E : ?l = _ |- context [?l] => rewrite E
         end.

Ltac is_member := repeat first [left; reflexivity | right].

Ltac failing_step :=
  match goal with
  | |- exists e, In e ?done /\ _ =>
      let rec go l :=
        match l with
        | ?x :: ?t =>
            first [ exists x; split;
                    [simpl; is_member
                    | simpl; unfold CopyToClipboard.reason; use_equations_here;
                      reflexivity]
                  | go t ]
        end in
      go done
  end.

Ltac failures_are_reported :=
  unfold CopyToClipboard.blameline in *; simpl; intros step why Hin Hfails;
  repeat (destruct Hin as [<- | Hin];
          [simpl in Hfails; unfold CopyToClipboard.reason in Hfails;
           use_equations Hfails; try discriminate Hfails;
           injection Hfails as <-; eexists; is_member |]);
  contradiction.

Ltac reports_are_failures :=
  unfold CopyToClipboard.blameline in *; cbn [app snd]; intros why tag params Hin;
  simpl in Hin;
  repeat (destruct Hin as [Hin | Hin];
          [first [ discriminate Hin
                 | injection Hin as <- <- <-;
                   (split; [reflexivity | failing_step]) ] |]);
  contradiction.

(** X20.  The two copy commands never reject; each writes to the
    clipboard once at most, and reports a failure by one log entry
    followed by its own message, after which it does nothing more.  A
    report is made exactly when a step fails -- a call rejects, or the
    log holds no commit -- and it gives the reason of that failure. *)
Theorem copy_commands_report_once :
  forall (Uri : Type) (getCommandUri : option Uri -> option CopyToClipboard.TextEditor -> option Uri)
         (type_error : string) (env : CopyToClipboard.Env Uri)
         (editor : option CopyToClipboard.TextEditor) (uri : option Uri)
         (args_message args_sha : option string),
    let copied_message :=
      CopyToClipboard.CopyMessage_execute getCommandUri type_error env editor uri
        args_message args_sha [] in
    let copied_sha :=
      CopyToClipboard.CopySha_execute getCommandUri type_error env editor uri
        args_sha [] in
    fst copied_message = Resolved tt /\
    CopyToClipboard.disciplined "Unable to copy message" (snd copied_message) = true /\
    fst copied_sha = Resolved tt /\
    CopyToClipboard.disciplined "Unable to copy commit SHA" (snd copied_sha) = true /\
    CopyToClipboard.reports_failures type_error "CopyMessageToClipboardCommand" env editor
      (snd copied_message) /\
    CopyToClipboard.reports_failures type_error "CopyShaToClipboardCommand" env editor
      (snd copied_sha).
Proof.
  intros Uri getCommandUri type_error env editor uri args_message args_sha.
  cbv zeta. unfold CopyToClipboard.reports_failures. repeat apply conj.
  1-4: run_command; split_cases; simpl; try reflexivity; try congruence;
    repeat match goal with a : unit |- _ => destruct a end; reflexivity.
  - run_command; split_cases; failures_are_reported.
  - run_command; split_cases; reports_are_failures.
  - run_command; split_cases; failures_are_reported.
  - run_command; split_cases; reports_are_failures.
Qed.

(** X21.  On a line that is not committed yet, with neither a message nor
    a sha given: the command that copies the message asks for the blame
    and then copies and reports nothing, while the command that copies
    the sha writes the sha of the uncommitted commit to the clipboard. *)
Theorem copy_on_uncommitted_line :
  forall (Uri : Type) (getCommandUri : option Uri -> option CopyToClipboard.TextEditor -> option Uri)
         (type_error : string) (env : CopyToClipboard.Env Uri)
         (editor : option CopyToClipboard.TextEditor) (uri : option Uri)
         (u : Uri) (g : CopyToClipboard.GitUri) (c : CopyToClipboard.GitCommit),
    let line := CopyToClipboard.blameline editor in
    getCommandUri uri editor = Some u ->
    (0 <= line)%Z ->
    CopyToClipboard.fromUri env u = Resolved g ->
    fst (CopyToClipboard.blame env editor g line []) = Resolved (Some c) ->
    CopyToClipboard.isUncommitted c = true ->
    let asked := CopyToClipboard.FromUri u
                 :: snd (CopyToClipboard.blame env editor g line []) in
    CopyToClipboard.CopyMessage_execute getCommandUri type_error env editor uri
      None None []
    = (Resolved tt, asked) /\
    snd (CopyToClipboard.CopySha_execute getCommandUri type_error env editor uri None [])
    = asked ++ CopyToClipboard.WriteText (CopyToClipboard.sha c)
         :: match CopyToClipboard.writeText env (CopyToClipboard.sha c) with
            | Resolved _ => []
            | Rejected ex =>
                [CopyToClipboard.LoggerError ex "CopyShaToClipboardCommand" [];
                 CopyToClipboard.ShowGenericErrorMessage "Unable to copy commit SHA"]
            end.
Proof.
  intros Uri getCommandUri type_error env editor uri u g c line Hu Hline Hg Hb Hc asked.
  assert (Hl : (line <? 0)%Z = false) by (apply Z.ltb_ge; exact Hline).
  unfold asked. clear asked. fold line. revert Hb.
  unfold CopyToClipboard.CopyMessage_execute, CopyToClipboard.CopySha_execute,
    CopyToClipboard.try_catch, CopyToClipboard.write, CopyToClipboard.report, bind, ret.
  cbv zeta. fold line. rewrite Hu, Hl.
  unfold CopyToClipboard.call at 1 3. rewrite Hg. simpl app.
  unfold CopyToClipboard.blame, CopyToClipboard.call.
  destruct editor as [e |]; [destruct (CopyToClipboard.isDirty e) |];
    simpl; intros ->; rewrite ?Hc; simpl;
    (split; [reflexivity |]);
    destruct (CopyToClipboard.writeText env (CopyToClipboard.sha c)); reflexivity.
Qed.

(** The editor on line 4 of a working tree where that line is not
    committed. *)
Lemma copy_on_uncommitted_line_witness :
  CopyToClipboard.CopyMessage_execute (fun u _ => u) "TypeError" Cases.working_tree
    (Some Cases.on_line_4) (Some "/repo/a.ts"%string) None None []
  = (Resolved tt,
     [CopyToClipboard.FromUri "/repo/a.ts"%string;
      CopyToClipboard.GetBlameForLine
        {| CopyToClipboard.uri_repoPath := Some "/repo"%string |} 4]) /\
  snd (CopyToClipboard.CopySha_execute (fun u _ => u) "TypeError" Cases.working_tree
         (Some Cases.on_line_4) (Some "/repo/a.ts"%string) None [])
  = [CopyToClipboard.FromUri "/repo/a.ts"%string;
     CopyToClipboard.GetBlameForLine
       {| CopyToClipboard.uri_repoPath := Some "/repo"%string |} 4;
     CopyToClipboard.WriteText "0000000000000000000000000000000000000000"].
Proof.
  exact (@copy_on_uncommitted_line string (fun u _ => u) "TypeError" Cases.working_tree
           (Some Cases.on_line_4) (Some "/repo/a.ts"%string) "/repo/a.ts"%string
           {| CopyToClipboard.uri_repoPath := Some "/repo"%string |} Cases.uncommitted
           eq_refl ltac:(simpl; lia) eq_refl eq_refl eq_refl).
Defined.


(* ===================================================================== *)
(** ** [AzureDevOpsRemote]: from a url back to the file and the lines *)
(* ===================================================================== *)

Lemma after_app_none (literal s rest : string) :
  AzureDevOpsRemote.after literal s = None ->
  (forall c r, rest = String c r -> JsString.has c literal = false) ->
  AzureDevOpsRemote.after literal (s ++ rest) = None.
Proof.
  revert s. induction literal as [| a l IH]; intros s Hs Hrest; [discriminate Hs |].
  destruct s as [| b s]; simpl in *.
  - destruct rest as [| c r]; [reflexivity |].
    specialize (Hrest c r eq_refl). simpl in Hrest.
    apply orb_false_iff in Hrest. destruct Hrest as [Hc _]. now rewrite Hc.
  - destruct (Ascii.eqb a b); [| reflexivity].
    apply IH; [exact Hs |].
    intros c r E. specialize (Hrest c r E). simpl in Hrest.
    now apply orb_false_iff in Hrest.
Qed.

Lemma starts_apart_no_letter (rest : string) :
  AzureDevOpsRemote.starts_apart rest ->
  forall c r, rest = String c r -> JsString.has c "line=" = false.
Proof.
  intros [-> | [r0 ->]] c r E; [discriminate E |]. now injection E as <- _.
Qed.

Lemma rangeRegex_skip (p rest : string) :
  AzureDevOpsRemote.occurs "line=" p = false ->
  AzureDevOpsRemote.starts_apart rest ->
  AzureDevOpsRemote.rangeRegex_exec (p ++ rest) = AzureDevOpsRemote.rangeRegex_exec rest.
Proof.
  intros Hp Hrest. induction p as [| a p IH]; [reflexivity |].
  change (AzureDevOpsRemote.occurs "line=" (String a p))
    with (match AzureDevOpsRemote.after "line=" (String a p) with
          | Some _ => true
          | None => AzureDevOpsRemote.occurs "line=" p
          end) in Hp.
  destruct (AzureDevOpsRemote.after "line=" (String a p)) eqn:Ha; [discriminate Hp |].
  change (AzureDevOpsRemote.rangeRegex_exec (String a p ++ rest))
    with (match AzureDevOpsRemote.rangeRegex_at (String a p ++ rest) with
          | Some groups => Some groups
          | None => AzureDevOpsRemote.rangeRegex_exec (p ++ rest)
          end).
  unfold AzureDevOpsRemote.rangeRegex_at.
  rewrite (after_app_none _ _ Ha (starts_apart_no_letter Hrest)).
  now apply IH.
Qed.

Lemma rangeRegex_skip_unit (c : ascii) (s : string) :
  Ascii.eqb "l" c = false ->
  AzureDevOpsRemote.rangeRegex_exec (String c s) = AzureDevOpsRemote.rangeRegex_exec s.
Proof.
  intro Hc.
  change (AzureDevOpsRemote.rangeRegex_exec (String c s))
    with (match AzureDevOpsRemote.rangeRegex_at (String c s) with
          | Some groups => Some groups
          | None => AzureDevOpsRemote.rangeRegex_exec s
          end).
  unfold AzureDevOpsRemote.rangeRegex_at. cbn [AzureDevOpsRemote.after]. now rewrite Hc.
Qed.

Lemma fileRegex_skip_unit (c : ascii) (s : string) :
  GitHubRemote.same_letter "p" "P" c = false ->
  AzureDevOpsRemote.fileRegex_exec (String c s) = AzureDevOpsRemote.fileRegex_exec s.
Proof.
  intro Hc.
  change (AzureDevOpsRemote.fileRegex_exec (String c s))
    with (match AzureDevOpsRemote.fileRegex_at (String c s) with
          | Some file => Some file
          | None => AzureDevOpsRemote.fileRegex_exec s
          end).
  assert (E : AzureDevOpsRemote.fileRegex_at (String c s) = None).
  { destruct s as [| a [| t [| h [| e r]]]]; try reflexivity.
    unfold AzureDevOpsRemote.fileRegex_at. now rewrite Hc. }
  now rewrite E.
Qed.

Lemma until_ampersand_app (f rest : string) :
  JsString.has "&" f = false ->
  AzureDevOpsRemote.starts_apart rest ->
  AzureDevOpsRemote.until_ampersand (f ++ rest) = f.
Proof.
  intros Hf Hrest. induction f as [| a f IH]; simpl in *.
  - destruct Hrest as [-> | [r ->]]; reflexivity.
  - apply orb_false_iff in Hf. destruct Hf as [Ha Hf]. rewrite Ha.
    now rewrite IH.
Qed.


Lemma line_suffix_apart (range : option GitHubRemote.Range) :
  AzureDevOpsRemote.starts_apart (AzureDevOpsRemote.line_suffix range).
Proof.
  destruct range as [r |]; [| now left]. right. unfold AzureDevOpsRemote.line_suffix.
  destruct (Nat.eqb _ _); eexists; reflexivity.
Qed.

Lemma rangeRegex_of_suffix (range : option GitHubRemote.Range) :
  AzureDevOpsRemote.rangeRegex_exec (AzureDevOpsRemote.line_suffix range)
  = match range with
    | Some r =>
        Some (JsString.of_nat (GitHubRemote.start_line r),
              if Nat.eqb (GitHubRemote.start_line r) (GitHubRemote.end_line r)
              then None else Some (JsString.of_nat (GitHubRemote.end_line r)))
    | None => None
    end.
Proof.
  destruct range as [[a b] |]; [| reflexivity].
  unfold AzureDevOpsRemote.line_suffix. cbn [GitHubRemote.start_line GitHubRemote.end_line].
  destruct (of_nat_truthy a) as [Ha _]. destruct (of_nat_truthy b) as [Hb _].
  destruct (Nat.eqb a b).
  - change ("&line=" ++ JsString.of_nat a)%string
      with (String "&" ("line=" ++ JsString.of_nat a)).
    rewrite rangeRegex_skip_unit by reflexivity.
    change (AzureDevOpsRemote.rangeRegex_exec ("line=" ++ JsString.of_nat a))
      with (match AzureDevOpsRemote.rangeRegex_at ("line=" ++ JsString.of_nat a) with
            | Some groups => Some groups
            | None => AzureDevOpsRemote.rangeRegex_exec ("ine=" ++ JsString.of_nat a)
            end).
    unfold AzureDevOpsRemote.rangeRegex_at.
    change (AzureDevOpsRemote.after "line=" ("line=" ++ JsString.of_nat a))
      with (Some (JsString.of_nat a)).
    cbv iota beta. rewrite take_digits_all, Ha. reflexivity.
  - change ("&line=" ++ JsString.of_nat a ++ "&lineEnd=" ++ JsString.of_nat b)%string
      with (String "&" ("line=" ++ JsString.of_nat a ++ "&lineEnd=" ++ JsString.of_nat b)).
    rewrite rangeRegex_skip_unit by reflexivity.
    change (AzureDevOpsRemote.rangeRegex_exec
              ("line=" ++ JsString.of_nat a ++ "&lineEnd=" ++ JsString.of_nat b))
      with (match AzureDevOpsRemote.rangeRegex_at
                    ("line=" ++ JsString.of_nat a ++ "&lineEnd=" ++ JsString.of_nat b) with
            | Some groups => Some groups
            | None => AzureDevOpsRemote.rangeRegex_exec
                        ("ine=" ++ JsString.of_nat a ++ "&lineEnd=" ++ JsString.of_nat b)
            end).
    unfold AzureDevOpsRemote.rangeRegex_at.
    change (AzureDevOpsRemote.after "line="
              ("line=" ++ JsString.of_nat a ++ "&lineEnd=" ++ JsString.of_nat b))
      with (Some (JsString.of_nat a ++ "&lineEnd=" ++ JsString.of_nat b)%string).
    cbv iota beta. rewrite take_digits_of_nat by reflexivity. rewrite Ha.
    change (AzureDevOpsRemote.after "&lineEnd=" ("&lineEnd=" ++ JsString.of_nat b))
      with (Some (JsString.of_nat b)).
    cbv iota beta. rewrite take_digits_all, Hb. reflexivity.
Qed.

(** The lines read from a query that ends with the line suffix, when
    [line=] occurs nowhere before it. *)
Lemma lines_of_query (q : string) (range : option GitHubRemote.Range) :
  AzureDevOpsRemote.rangeRegex_exec (q ++ AzureDevOpsRemote.line_suffix range)
  = AzureDevOpsRemote.rangeRegex_exec (AzureDevOpsRemote.line_suffix range) ->
  AzureDevOpsRemote.lines_of (q ++ AzureDevOpsRemote.line_suffix range)
  = AzureDevOpsRemote.lines_named range.
Proof.
  intro Hq. unfold AzureDevOpsRemote.lines_of. rewrite Hq, rangeRegex_of_suffix.
  destruct range as [[a b] |].
  - cbn [GitHubRemote.start_line GitHubRemote.end_line AzureDevOpsRemote.lines_named].
    assert (Ht : truthy_string
                   (q ++ AzureDevOpsRemote.line_suffix
                           (Some {| GitHubRemote.start_line := a;
                                    GitHubRemote.end_line := b |})) = true).
    { destruct (line_suffix_apart (Some {| GitHubRemote.start_line := a;
                                           GitHubRemote.end_line := b |}))
        as [E | [r E]]; rewrite E.
      - unfold AzureDevOpsRemote.line_suffix in E.
        destruct (Nat.eqb _ _); discriminate E.
      - destruct q; reflexivity. }
    rewrite Ht. destruct (of_nat_truthy a) as [_ ->].
    rewrite parseInt_of_nat. destruct (Nat.eqb a b); [reflexivity |].
    destruct (of_nat_truthy b) as [_ ->]. now rewrite parseInt_of_nat.
  - now destruct (truthy_string _).
Qed.


(** The file and the lines read from a query, from what its two
    expressions find. *)
Lemma azure_reads (toAbsoluteUri : string -> option bool -> option string)
      (r : AzureDevOpsRemote.t) (uri : AzureDevOpsRemote.Uri) (validate : option bool)
      (fileName : string) (range : option GitHubRemote.Range) :
  AzureDevOpsRemote.authority uri = AzureDevOpsRemote.domain r ->
  AzureDevOpsRemote.lines_of (AzureDevOpsRemote.query uri)
  = AzureDevOpsRemote.lines_named range ->
  AzureDevOpsRemote.fileRegex_exec (AzureDevOpsRemote.query uri)
  = Some (String "/" fileName) ->
  AzureDevOpsRemote.getLocalInfoFromRemoteUri toAbsoluteUri r uri validate
  = option_map
      (fun u => {| GitHubRemote.info_uri := u;
                   GitHubRemote.startLine := fst (AzureDevOpsRemote.lines_named range);
                   GitHubRemote.endLine := snd (AzureDevOpsRemote.lines_named range) |})
      (toAbsoluteUri (String "/" fileName) validate).
Proof.
  intros Ha Hl Hf. unfold AzureDevOpsRemote.getLocalInfoFromRemoteUri.
  rewrite Ha, String.eqb_refl, Hl, Hf. simpl negb. cbv iota.
  destruct (AzureDevOpsRemote.lines_named range) as [startLine endLine].
  now destruct (toAbsoluteUri (String "/" fileName) validate).
Qed.

Lemma fileRegex_at_path (fileName rest : string) :
  JsString.has "&" fileName = false ->
  AzureDevOpsRemote.starts_apart rest ->
  AzureDevOpsRemote.fileRegex_exec ("path=/" ++ fileName ++ rest)
  = Some (String "/" fileName).
Proof.
  intros Hf Hrest.
  change (AzureDevOpsRemote.fileRegex_exec ("path=/" ++ fileName ++ rest))
    with (match AzureDevOpsRemote.fileRegex_at ("path=/" ++ fileName ++ rest) with
          | Some file => Some file
          | None => AzureDevOpsRemote.fileRegex_exec ("ath=/" ++ fileName ++ rest)
          end).
  change (AzureDevOpsRemote.fileRegex_at ("path=/" ++ fileName ++ rest))
    with (let file := String "/" (AzureDevOpsRemote.until_ampersand (fileName ++ rest)) in
          if String.eqb file EmptyString then None else Some file).
  cbv zeta. now rewrite until_ampersand_app.
Qed.

Ltac skip_units :=
  repeat first [ rewrite rangeRegex_skip_unit by reflexivity
               | rewrite fileRegex_skip_unit by reflexivity ].


(** X22.  A url that [AzureDevOpsRemote.getUrlForFile] makes for a file
    is read back by [getLocalInfoFromRemoteUri]: from the query after
    the question mark it finds the file, with a slash before it, and the
    lines of the range, whichever of the three forms the url has.  This
    holds for a file name without an ampersand, when [line=] occurs
    neither in the file name nor in the branch name (and for line numbers
    that JavaScript prints in full, below 2^53). *)
Theorem azure_file_url_round_trip :
  forall (toAbsoluteUri : string -> option bool -> option string)
         (r : AzureDevOpsRemote.t) (fileName : string) (branch sha : option string)
         (range : option GitHubRemote.Range) (validate : option bool),
    JsString.has "&" fileName = false ->
    AzureDevOpsRemote.occurs "line=" fileName = false ->
    AzureDevOpsRemote.occurs "line=" (GitHubRemote.given branch) = false ->
    (forall x, range = Some x ->
               (Z.of_nat (GitHubRemote.start_line x) < 2 ^ 53)%Z /\
               (Z.of_nat (GitHubRemote.end_line x) < 2 ^ 53)%Z) ->
    exists tail q,
      AzureDevOpsRemote.getUrlForFile r fileName branch sha range
      = (AzureDevOpsRemote.baseUrl r ++ tail ++ String "?" q)%string /\
      forall uri,
        AzureDevOpsRemote.authority uri = AzureDevOpsRemote.domain r ->
        AzureDevOpsRemote.query uri = q ->
        AzureDevOpsRemote.getLocalInfoFromRemoteUri toAbsoluteUri r uri validate
        = option_map
            (fun u => {| GitHubRemote.info_uri := u;
                         GitHubRemote.startLine := fst (AzureDevOpsRemote.lines_named range);
                         GitHubRemote.endLine := snd (AzureDevOpsRemote.lines_named range) |})
            (toAbsoluteUri (String "/" fileName) validate).
Proof.
  intros toAbsoluteUri r fileName branch sha range validate Hamp Hfile Hbranch _.
  pose proof (line_suffix_apart range) as Hline.
  unfold AzureDevOpsRemote.getUrlForFile. cbv zeta.
  destruct (truthy_opt_string sha); [| destruct (truthy_opt_string branch)].
  - exists ("/commit/" ++ GitHubRemote.given sha ++ "/")%string,
           ("_a=contents&path=/" ++ fileName ++ AzureDevOpsRemote.line_suffix range)%string.
    split.
    + rewrite !string_app_assoc. reflexivity.
    + intros uri Ha Hq. apply azure_reads; [exact Ha | |]; rewrite Hq.
      * rewrite <- (string_app_assoc "_a=contents&path=/" fileName).
        apply lines_of_query. rewrite string_app_assoc. cbn [String.append].
        skip_units. now apply rangeRegex_skip.
      * cbn [String.append]. skip_units. now apply fileRegex_at_path.
  - exists "/"%string,
           ("path=/" ++ fileName ++ "&version=GB" ++ GitHubRemote.given branch
              ++ "&_a=contents" ++ AzureDevOpsRemote.line_suffix range)%string.
    split; [reflexivity |].
    intros uri Ha Hq. apply azure_reads; [exact Ha | |]; rewrite Hq.
    + replace ("path=/" ++ fileName ++ "&version=GB" ++ GitHubRemote.given branch
                 ++ "&_a=contents" ++ AzureDevOpsRemote.line_suffix range)%string
        with (("path=/" ++ fileName ++ "&version=GB" ++ GitHubRemote.given branch
                 ++ "&_a=contents") ++ AzureDevOpsRemote.line_suffix range)%string
        by (now rewrite !string_app_assoc).
      apply lines_of_query. rewrite !string_app_assoc. cbn [String.append].
      skip_units.
      rewrite rangeRegex_skip; [| exact Hfile | right; eexists; reflexivity].
      skip_units.
      rewrite rangeRegex_skip; [| exact Hbranch | right; eexists; reflexivity].
      skip_units. reflexivity.
    + apply fileRegex_at_path; [exact Hamp | right; eexists; reflexivity].
  - exists EmptyString,
           ("path=/" ++ fileName ++ AzureDevOpsRemote.line_suffix range)%string.
    split; [reflexivity |].
    intros uri Ha Hq. apply azure_reads; [exact Ha | |]; rewrite Hq.
    + rewrite <- (string_app_assoc "path=/" fileName).
      apply lines_of_query. rewrite string_app_assoc. cbn [String.append].
      skip_units. now apply rangeRegex_skip.
    + now apply fileRegex_at_path.
Qed.


(** Lines 10 to 20 of [src/a.ts] on the branch [main]. *)
Lemma azure_file_url_round_trip_witness :
  exists tail q,
    AzureDevOpsRemote.getUrlForFile Cases.azure "src/a.ts" (Some "main"%string) None
      (Some Cases.lines_10_20)
    = (AzureDevOpsRemote.baseUrl Cases.azure ++ tail ++ String "?" q)%string /\
    forall uri,
      AzureDevOpsRemote.authority uri = AzureDevOpsRemote.domain Cases.azure ->
      AzureDevOpsRemote.query uri = q ->
      AzureDevOpsRemote.getLocalInfoFromRemoteUri (fun p _ => Some p) Cases.azure uri None
      = Some {| GitHubRemote.info_uri := "/src/a.ts";
                GitHubRemote.startLine := Some 10;
                GitHubRemote.endLine := Some 20 |}.
Proof.
  apply (@azure_file_url_round_trip (fun p _ => Some p) Cases.azure "src/a.ts"
           (Some "main"%string) None (Some Cases.lines_10_20) None);
    [reflexivity | reflexivity | reflexivity |].
  intros x [= <-]. simpl. split; lia.
Defined.


(* ===================================================================== *)
(** ** The ids of the branch nodes *)
(* ===================================================================== *)

Lemma startsWith_app (p x : string) : startsWith (p ++ x) p = true.
Proof.
  unfold startsWith. induction p as [| a p IH]; simpl; [now destruct x |].
  destruct (ascii_dec a a) as [_ | H]; [exact IH | now contradiction H].
Qed.

Lemma string_app_inv_head (p a b : string) : (p ++ a = p ++ b)%string -> a = b.
Proof. induction p as [| c p IH]; simpl; [easy | intros [= H]; now apply IH]. Qed.

Lemma string_app_inv_tail (a b c : string) : (a ++ c = b ++ c)%string -> a = b.
Proof.
  revert b. induction a as [| x a IH]; intros [| y b] H; simpl in H.
  - reflexivity.
  - apply (f_equal String.length) in H. simpl in H. rewrite string_length_app in H. lia.
  - apply (f_equal String.length) in H. simpl in H. rewrite string_length_app in H. lia.
  - injection H as -> H. now rewrite (IH b H).
Qed.

(** The last unit of a text that ends with [c] is [c]. *)
Lemma same_last_unit (a b : string) (c d : ascii) (tail : string) :
  (a ++ String c EmptyString = b ++ tail ++ String d EmptyString)%string -> c = d.
Proof.
  rewrite <- string_app_assoc. generalize (b ++ tail)%string. clear b tail.
  intro b. revert b. induction a as [| x a IH]; intros [| y b] H; simpl in H.
  - now injection H.
  - injection H as _ H. now destruct b.
  - injection H as _ H. now destruct a.
  - injection H as _ H. now apply (IH b).
Qed.

(** X23.  The ids of the branch nodes of a repository start with the id
    of its repository node, as the reveal of a branch tests before it
    descends; two branch nodes of the repository have the same id only
    when they show the same branch name in the same role (root or not);
    and no branch node has the id of the [BranchesNode]. *)
Theorem branch_node_ids_tell_branches_apart :
  forall (RepositoryNode_getId : string -> string) (repoPath name name' : string)
         (root root' : bool),
    startsWith (NodeIds.BranchNode_getId RepositoryNode_getId repoPath name root)
               (RepositoryNode_getId repoPath) = true /\
    startsWith (NodeIds.BranchesNode_getId RepositoryNode_getId repoPath)
               (RepositoryNode_getId repoPath) = true /\
    (NodeIds.BranchNode_getId RepositoryNode_getId repoPath name root
     = NodeIds.BranchNode_getId RepositoryNode_getId repoPath name' root'
     <-> name = name' /\ root = root') /\
    NodeIds.BranchNode_getId RepositoryNode_getId repoPath name root
    <> NodeIds.BranchesNode_getId RepositoryNode_getId repoPath.
Proof.
  intros getId repoPath name name' root root'.
  unfold NodeIds.BranchNode_getId, NodeIds.BranchesNode_getId.
  split; [apply startsWith_app |]. split; [apply startsWith_app |]. split.
  - split; [| now intros [-> ->]].
    intro H. apply string_app_inv_head in H. simpl in H.
    injection H as H.
    destruct root, root'.
    + split; [| reflexivity]. now apply (@string_app_inv_tail name name' "):root").
    + exfalso.
      assert (E : "t"%char = ")"%char); [| discriminate E].
      apply (@same_last_unit (name ++ "):roo") name' "t" ")" EmptyString).
      rewrite string_app_assoc. exact H.
    + exfalso.
      assert (E : ")"%char = "t"%char); [| discriminate E].
      apply (@same_last_unit name (name' ++ "):roo") ")" "t" EmptyString).
      rewrite !string_app_assoc. exact H.
    + split; [| reflexivity]. now apply (@string_app_inv_tail name name' ")").
  - intro H. apply string_app_inv_head in H. discriminate H.
Qed.


(* ===================================================================== *)
(** ** The command that opens a branch on the remote *)
(* ===================================================================== *)

Lemma branch_or_HEAD (b : string) :
  (if truthy_string b then b else "HEAD"%string) <> EmptyString.
Proof.
  unfold truthy_string. destruct (String.eqb_spec b EmptyString) as [-> | H]; simpl.
  - discriminate.
  - exact H.
Qed.

Ltac run_open_branch :=
  unfold OpenBranchOnRemote.execute, OpenBranchOnRemote.call, bind, ret;
  cbv zeta;
  match goal with
  | |- context [?getCommandUri ?uri ?editor] =>
      match type of uri with
      | option _ => destruct (getCommandUri uri editor) eqn:?
      end
  end;
  split_cases.

Ltac simpl_equations :=
  repeat match goal with
         | H : _ = _ |- _ => progress simpl in H
         end.

Ltac ends_with_report :=
  first [ exact (eq_refl : _ = [] ++ _)
        | exact (eq_refl : _ = [_] ++ _)
        | exact (eq_refl : _ = [_; _] ++ _)
        | exact (eq_refl : _ = [_; _; _] ++ _)
        | exact (eq_refl : _ = [_; _; _; _] ++ _) ].

Ltac open_branch_step :=
  match goal with
  | |- exists e, In e ?done /\ _ =>
      let rec go l :=
        match l with
        | ?x :: ?t =>
            first [ exists x; split;
                    [simpl; is_member
                    | simpl; unfold OpenBranchOnRemote.reason; use_equations_here;
                      reflexivity]
                  | go t ]
        end in
      go done
  end.

(** X24.  [OpenBranchOnRemoteCommand.execute] runs [OpenOnRemote] only
    with a repository path and a branch that are not empty ([HEAD] stands
    in for an empty branch name).  It rejects only when the lookup of the
    [GitUri] or of the repository path rejects, and then nothing was
    picked, run or reported.  A message is shown only after a log entry.
    When the picker or [OpenOnRemote] rejects, the command resolves, and
    the failing call is followed by a log entry with its reason and by
    the error message, which end the command; and every log entry names
    the command and gives the reason of a call of the run that rejects. *)
Theorem open_branch_rejects_only_on_lookup :
  forall (Uri GitUri TextEditor : Type)
         (getCommandUri : option Uri -> option TextEditor -> option Uri)
         (env : OpenBranchOnRemote.Env Uri GitUri TextEditor)
         (editor : option TextEditor) (uri : option Uri)
         (args : option OpenBranchOnRemote.Args),
    let title := OpenBranchOnRemote.title_of (OpenBranchOnRemote.to_clipboard args) in
    let res := OpenBranchOnRemote.execute getCommandUri env editor uri args [] in
    (forall a, In (OpenBranchOnRemote.ExecuteOpenOnRemote a) (snd res) ->
               OpenBranchOnRemote.resource_branch a <> EmptyString /\
               truthy_string (OpenBranchOnRemote.repoPath a) = true) /\
    (forall ex, fst res = Rejected ex ->
                forallb (@OpenBranchOnRemote.is_lookup Uri) (snd res) = true /\
                ((exists u, getCommandUri uri editor = Some u /\
                            OpenBranchOnRemote.fromUri env u = Rejected ex) \/
                 (exists g, OpenBranchOnRemote.getRepoPathOrActiveOrPrompt env g editor title
                            = Rejected ex))) /\
    (forall m, In (OpenBranchOnRemote.ShowErrorMessage m) (snd res) ->
               fst res = Resolved tt /\
               exists ex before_,
                 snd res = before_ ++ [OpenBranchOnRemote.LoggerError ex
                                         "OpenBranchOnRemoteCommand";
                                       OpenBranchOnRemote.ShowErrorMessage m]) /\
    (forall e ex, In e (snd res) -> OpenBranchOnRemote.fails env e = Some ex ->
                  fst res = Resolved tt /\
                  exists before_,
                    snd res = before_ ++ [e;
                                          OpenBranchOnRemote.LoggerError ex
                                            "OpenBranchOnRemoteCommand";
                                          OpenBranchOnRemote.ShowErrorMessage
                                            OpenBranchOnRemote.failed]) /\
    (forall ex tag, In (OpenBranchOnRemote.LoggerError ex tag) (snd res) ->
                    tag = "OpenBranchOnRemoteCommand"%string /\
                    exists e, In e (snd res) /\ OpenBranchOnRemote.fails env e = Some ex).
Proof.
  intros Uri GitUri TextEditor getCommandUri env editor uri args title res.
  unfold res, title. repeat apply conj.
  - run_open_branch; simpl; intros run_args Hin;
      repeat (destruct Hin as [Hin | Hin]; [try discriminate Hin |]);
      try contradiction;
      injection Hin as <-; simpl;
      (split; [first [apply branch_or_HEAD | discriminate
                     | intro Hempty; rewrite Hempty in *; discriminate]
              | now apply negb_false_iff]).
  - run_open_branch; simpl;
      intros why Hex; try discriminate Hex; injection Hex as <-;
      (split; [reflexivity |]);
      first [ left; eexists; (split; [reflexivity | eassumption])
            | right; eexists; eassumption ].
  - run_open_branch; simpl; intros shown Hin;
      repeat (destruct Hin as [Hin | Hin]; [try discriminate Hin |]);
      try contradiction;
      injection Hin as <-;
      (split; [reflexivity |]); eexists; eexists; ends_with_report.
  - run_open_branch; simpl_equations; try discriminate; cbn [app fst snd];
      intros step why Hin Hfails; simpl in Hin;
      repeat (destruct Hin as [<- | Hin];
              [simpl in Hfails; unfold OpenBranchOnRemote.reason in Hfails;
               use_equations Hfails;
               first [ discriminate Hfails
                     | injection Hfails as <-;
                       (split; [reflexivity | eexists; ends_with_report]) ] |]);
      contradiction.
  - run_open_branch; simpl_equations; try discriminate; cbn [app fst snd];
      intros why tag Hin; simpl in Hin;
      repeat (destruct Hin as [Hin | Hin];
              [first [ discriminate Hin
                     | injection Hin as <- <-;
                       (split; [reflexivity | open_branch_step]) ] |]);
      contradiction.
Qed.
